(* ===== verification/_CoqProject ===== *)
-Q . S2P
Prelude.v
Hooks.v
Drivers.v
GoFloat.v
LoyaltyDomain.v
GoStr.v
GoJson.v
JsonText.v
Cqrs.v
LoyaltyApp.v
LoyaltyRepo.v
LoyaltyGuarantees.v
Saga.v
Operation.v
WorkerPool.v
WorkerCore.v
Master.v
Membership.v
Config.v
Persistence.v
BaseApp.v
Paginate.v
Tools.v
Http.v
Orders.v
OrderValidation.v
Logs.v
AppLog.v
Otel.v
Nats.v
Process.v
Gateway.v
Control.v
Main.v
Models.v
Wiring.v
Datasource.v
Wire.v
Quickstart.v
