(* ===== verification/Prelude.v ===== *)
(** * A verification library for GoOdin (Mox)

    GoOdin is a Go service in two halves.  The process half is a zero-downtime
    proxy: a master process listens on a TCP port, hands the listening descriptor
    to worker processes over a unix socket, and keeps a registry of them; a worker
    starts HAProxy on the descriptor it was handed.  The service half is a template
    for domain code: hooks, driver managers, data sources, a REST surface, telemetry,
    NATS, command, query and event buses, and two domains, orders and loyalty.
    An application object ([internal/base_app.go]) owns the hooks and drivers, a
    cobra command boots it and starts drivers, and the service shuts it down.

    ** How Go is modelled

    This file holds the vocabulary.  Code that acts on a state [St] is a function
    [M St A]: it returns, panics or blocks for ever, and the state survives a panic.
    A Go [error] is [goerror]; sentinels are compared by identity, wrapped and joined
    errors keep their structure.  [int] is [Z] with [wrap64] written where the code
    can overflow.  A map that the code ranges over is a [gmap] together with the
    order of the visit as an argument ([range_order] says which orders the run-time
    may pick), so that the theorems hold for every order.  Mutexes make an operation
    atomic, and are part of the state where a panic can leave one locked.  Time and
    identifiers are read from an ambient state.  Shared objects (worker clients, log
    slices, SQL adapters, descriptors) are addresses in a heap or table, with their
    aliasing.  Goroutines that interleave are step relations ([master_step], [ipc_step],
    [control_step], [child_step], [quick_step]) whose steps are the executable operations.

    Code outside the repository (gorm and SQL, Watermill, NATS, viper and
    ozzo-validation, the OpenTelemetry SDK, the operating system) is an argument or a
    class of operations; where a theorem relies on its behaviour there is a class of
    laws with an executable instance that satisfies them.

    ** The files

    - Prelude, GoStr, GoFloat, GoJson: outcomes, errors, the monad, map orders,
      [strings] and [strconv], IEEE doubles, [encoding/json] on JSON values.
    - Hooks (pkg/hooks), Drivers (pkg/driver, pkg/driver/v2), Config (pkg/config),
      Persistence (pkg/datamanager, adapters, infrastructure/persistent), BaseApp
      (internal/base_app.go, service.go).
    - Cqrs (pkg/cqrs, drivers/watermill, drivers/watermill_fx): envelopes and buses.
    - LoyaltyDomain, LoyaltyApp, LoyaltyRepo, Saga (use_cases/loyalty, repositories):
      the aggregate; the handlers against the interface of their ports; the ports
      implemented on gorm; the fulfillment saga.  LoyaltyGuarantees proves what the
      wired use case promises.
    - Operation, WorkerPool, WorkerCore, Master, Gateway (use_cases/operation,
      workerclient, bus, mastercore, workercore, drivers/master): messages; clients,
      registry and health check; the worker process and the handshake; the master's
      loops; the listeners, the hand-over of the descriptor and the driver.
      Membership is an abstract account of the master's workers that Master refines.
      Control (the same directories): the lines of a connection, control
      connections, the inspection of a descriptor and the older way to start a master.
    - JsonText ([encoding/json] down to the bytes: strings with their escapes, bytes
      that are not UTF-8 and their replacement, numbers, values) and Wire, which composes it with the scanner, the worker
      clients and the worker's loop: messages as bytes on a connection.
    - Quickstart (quickstart/unix-file-descriptor): the demonstration of the hand-over.
    - Orders and OrderValidation, Nats (use_cases/orders, repositories,
      infrastructure/messaging, drivers/messaging), Http (exceptions, drivers/http),
      Paginate and Models (gorm), Tools (tools/stack, internal/query.go), Logs
      (tools/logs), Otel (drivers/monitoring).
    - AppLog (internal/base_app.go, tools/logs/log_writer.go, drivers/watermill/logger.go):
      the application's logger on top of Logs.
    - Process (pkg/async, drivers/daemon, drivers/worker, cmd) and Main
      (bootstrap/main.go, cmd/migration.go): child processes, commands, the program.
    - Wiring (drivers/watermill, drivers/watermill_fx, drivers/datamanager_fx,
      drivers/http/echo.go and fx.go, cmd/all.go, cmd/version.go, seeders): how the
      drivers are put together, with and without the container.  Datasource
      (internal/base_app.go): the data sources of a configuration, down to the typed
      connections that Wiring asks for.

    ** What the theorems show

    - Loyalty: a credit command always returns and either refuses, for a stated reason
      and with nothing written, or saves exactly the credited account, then publishes
      its event, then marks the id, and an error leaves the state in which the failing
      call returned; it takes effect at most once per
      causation id unless a step after the save fails, and then a redelivery credits
      again; a query on the bus answers the credited balance,
      or the database's error; a duplicate delivery
      publishes a compensation; the aggregate refines a ledger; the points of an
      order are exact for whole totals.
    - Saga: one ready event when both prerequisites arrived, in any order with
      duplicates; never two under any faults; lost when its publication fails.
    - Buses: events with a payload are never delivered; the Watermill driver and the
      FX module build the same buses, with the loyalty handlers and nothing else,
      and every topic travels in memory.
    - Workers and master: messages survive the wire as bytes, and a pid as text; a
      worker reads the sent messages one by one and stops exactly after the first
      SHUTDOWN, which the shutdown goroutine of its client brings about; a line of more
      than 64 KiB stops it too; a health tick keeps
      exactly the reachable workers; closing disconnects every worker and the next
      tick empties the registry; the registry, the channel and the clients in
      use are well formed in every state that any interleaving of the master's goroutines
      reaches, the unlocked loops over the registry included (the run-time may stop the
      process for these, and a run shows it); every run refines an abstract membership
      whose events the steps determine: workers join in the order in which they announced
      themselves and nobody joins after a refusal; a tick that nobody disturbs is the
      tick of the health check's theorem; a control connection comes to rest, but is never closed when lines
      follow an unknown command; until the file that owns the descriptor is
      finalized, exactly the accepted workers whose goroutine ran without a failed write
      were handed the listening socket, in that order, and after that the next worker is
      handed its own connection; a
      stopped gateway accepts exactly one more worker before its loop ends.  In the
      quickstart an interrupted master stops every registered worker.
    - Application: hooks run in key order without the excluded ones; a configuration
      is accepted exactly when it satisfies the stated rules; the whole program
      initialises drivers up to the first failure and closes exactly those; every
      alias of a configuration resolves to the handle opened for the last database with
      it, as a connection of its driver's type, or the start panics; both driver managers close alike.
    - Requests and observability: what the REST endpoints answer on every path, and
      when a failed write ends the process;
      exactly the bracketed parameters are bound; pages tile a table; an order and
      its items are stored one by one and a failed insert undoes nothing; the detail of an
      order crosses both wire formats, with strings that are not UTF-8 repaired as JSON
      does, and is answered when database, network and breaker do their part; a trace
      parent is accepted exactly when it is well formed, and a span is always started; the application's logger prints every
      record at or above its level once and in order; telemetry providers are cleaned up once each;
      the life of a child process takes at most five steps and leaves no goroutine behind
      when it is watched.
    - Beside these the files prove what the properties are built from and further
      consequences: stop handlers run twice, shared SQL adapters leak a connection,
      log handlers derived from one another overwrite each other's records, which
      failures leave a NATS connection open, the older master registers nobody, the
      http command ends at once, one failed first ping ends registration, an order
      with a total of zero passes validation, rows created at one clock reading share their
      identifier.

    ** Bounds and fuel

    Decimal printing peels at most 20 digits, enough for every 64-bit integer and
    its negation.  The exactness of the points of an order is checked for whole
    totals up to 10000, and the trip condition of the circuit breakers for up to a
    hundred requests, both by evaluation of the floating-point code; the page count
    is checked for pages of ten and tables of fewer than 2000 rows.  The parser of JSON text
    takes one unit of fuel per level and element, and [Unmarshal] gives it one more
    than the text has bytes, which the round trip shows to be enough.  No other
    definition uses fuel: the recursions are structural, and loops over the outside world take the finite list
    of what it answers.

    ** Not modelled

    The routers, servers and containers of the libraries (Watermill's router, echo's
    server and middleware, FX's container) beyond what their calls answer, the OTLP
    exporters, which only configure the SDK, cobra's parsing of arguments, generated
    protobuf and mock code, the SQL of the migrations, the API documentation, how JSON
    text spells floats and times, a response of which [c.JSON] wrote only a part, what
    the Min rule of ozzo answers for a float other than zero under an integer threshold,
    the data race of the quickstart's registry, other consequences of the race on the
    master's registry than the fatal stop and what Go's map semantics allows, and the
    example program, which is the main program with an empty hook. *)

From stdpp Require Export base list gmap strings fin_maps sorting.
From Stdlib Require Export ZArith Lia.

#[global] Set Default Goal Selector "!".

(** ** Go's control outcomes

    A Go function either returns, panics, or blocks for ever (a mutex that is
    never released, a channel nobody reads). *)

Inductive outcome (A : Type) : Type :=
| Returns (a : A)
| Panics (msg : string)
| Blocks.

Arguments Returns {A} _.
Arguments Panics {A} _.
Arguments Blocks {A}.

(** ** Errors

    [Sentinel var msg] is a package-level [var var = errors.New(msg)]: two
    sentinels with the same text are different errors.  [Fmt f args] is a fresh
    [errors.New]/[fmt.Errorf] value without [%w]; [Wrap f args e] is
    [fmt.Errorf] with one [%w]; [Joined es] is [errors.Join]; [BaseExc] is a
    [*exceptions.BaseException]; [Foreign tag msg] is an error produced by code
    outside the repository. *)

Inductive error : Type :=
| Sentinel (var msg : string)
| Fmt (f : string) (args : list string)
| Wrap (f : string) (args : list string) (inner : error)
| Joined (errs : list error)
| BaseExc (code : Z) (status : Z) (msg : string)
| Foreign (tag msg : string).

(** Rendering: the verbs %s, %d, %v, %T and %w print their argument (already a
    string), %q quotes it (printable ASCII: the quote and the backslash are
    escaped). *)
Fixpoint escape (s : string) : string :=
  match s with
  | EmptyString => ""
  | String c s' =>
      if bool_decide (c = Ascii.ascii_of_nat 92 ∨ c = Ascii.ascii_of_nat 34)
      then String (Ascii.ascii_of_nat 92) (String c (escape s')) else String c (escape s')
  end.

Definition quote (s : string) : string :=
  String (Ascii.ascii_of_nat 34) (escape s) +:+ String (Ascii.ascii_of_nat 34) "".

Fixpoint sprintf (f : string) (args : list string) : string :=
  match f with
  | EmptyString => ""
  | String c f' =>
      if bool_decide (c = Ascii.ascii_of_nat 37)
      then match f', args with
           | String v f'', a :: args' =>
               (if bool_decide (v = Ascii.ascii_of_nat 113) then quote a else a) +:+ sprintf f'' args'
           | String v f'', [] => "%!" +:+ String v ("(MISSING)" +:+ sprintf f'' [])
           | EmptyString, _ => "%!(NOVERB)"
           end
      else String c (sprintf f' args)
  end.

(** [err.Error()] *)
Fixpoint Error (e : error) : string :=
  match e with
  | Sentinel _ m => m
  | Fmt f args => sprintf f args
  | Wrap f args i => sprintf f (args ++ [Error i])
  | Joined es => (fix lines (l : list error) : string :=
                    match l with
                    | [] => ""
                    | [x] => Error x
                    | x :: l' => Error x +:+ String (Ascii.ascii_of_nat 10) (lines l')
                    end) es
  | BaseExc _ _ m => m
  | Foreign _ m => m
  end.

(** A Go [error] value: [nil] is [None]. *)
Definition goerror : Type := option error.

(** [errors.Is err target] for a sentinel target: pointer identity along the
    wrapping chain and inside every joined error. *)
Fixpoint errors_Is (e : error) (var : string) : bool :=
  match e with
  | Sentinel v _ => bool_decide (v = var)
  | Wrap _ _ i => errors_Is i var
  | Joined es => (fix any (l : list error) : bool :=
                    match l with
                    | [] => false
                    | x :: l' => errors_Is x var || any l'
                    end) es
  | _ => false
  end.

(** [errors.Join]: nil arguments are dropped, and joining nothing is nil. *)
Definition errors_Join (es : list goerror) : goerror :=
  match omap id es with
  | [] => None
  | l => Some (Joined l)
  end.

(** ** A state monad with panics

    [M St A] is code that reads and writes a Go state [St].  The state survives
    a panic, as Go's heap does. *)

Definition M (St A : Type) : Type := St → outcome A * St.

#[global] Instance M_ret St : MRet (M St) := λ A a s, (Returns a, s).

#[global] Instance M_bind St : MBind (M St) := λ A B k m s,
  match m s with
  | (Returns a, s') => k a s'
  | (Panics e, s') => (Panics e, s')
  | (Blocks, s') => (Blocks, s')
  end.

Definition gets {St A} (f : St → A) : M St A := λ s, (Returns (f s), s).

Definition modify {St} (f : St → St) : M St () := λ s, (Returns tt, f s).

Definition panic {St A} (msg : string) : M St A := λ s, (Panics msg, s).

Definition block {St A} : M St A := λ s, (Blocks, s).

(** The result and the final state of a run that returns. *)
Definition result {St A} (m : M St A) (s : St) : option A :=
  match m s with (Returns a, _) => Some a | _ => None end.

Definition final {St A} (m : M St A) (s : St) : St := (m s).2.

(** Run code of a component on the second half of a pair of states. *)
Definition on_snd {D St A} (m : M St A) : M (D * St) A := λ ds,
  let '(r, s') := m ds.2 in (r, (ds.1, s')).

(** ** Dynamic values

    A Go [interface{}] holding a pointer: its dynamic type and the pointer,
    which may be nil inside a non-nil interface.  [None] is the nil interface. *)

Record dyn : Type := mkDyn { dyn_type : string; dyn_ptr : option nat }.

Definition any : Type := option dyn.

#[global] Instance dyn_eq_dec : EqDecision dyn.
Proof. solve_decision. Defined.

(** The type assertion [x.(T)]. *)
Definition type_assert (x : any) (T : string) : option dyn :=
  match x with
  | Some d => if bool_decide (dyn_type d = T) then Some d else None
  | None => None
  end.

(** [for _, x := range xs { body }], where the body cannot leave the loop. *)
Fixpoint for_each {St A} (body : A → M St ()) (xs : list A) : M St () :=
  match xs with
  | [] => mret tt
  | x :: xs' => body x ≫= λ _, for_each body xs'
  end.

(** [for _, x := range xs { if err := body(x); err != nil { return err } }] *)
Fixpoint for_until_err {St A} (body : A → M St goerror) (xs : list A) : M St goerror :=
  match xs with
  | [] => mret None
  | x :: xs' => body x ≫= λ e, match e with
                               | Some err => mret (Some err)
                               | None => for_until_err body xs'
                               end
  end.

(** ** Go's [int] on a 64-bit platform: two's complement wrap-around. *)

Definition wrap64 (z : Z) : Z := ((z + 2 ^ 63) `mod` 2 ^ 64 - 2 ^ 63)%Z.

Definition max_int : Z := (2 ^ 63 - 1)%Z.
Definition min_int : Z := (- 2 ^ 63)%Z.

Definition is_int (z : Z) : Prop := (min_int ≤ z ≤ max_int)%Z.

#[global] Instance is_int_dec z : Decision (is_int z).
Proof. unfold is_int. apply _. Defined.

(** ** Map iteration

    [for k, v := range m] visits every key once in an order the language leaves
    open; a loop is therefore a function of the order, and a theorem about it
    quantifies over every [range_order]. *)

Definition range_order {K V} `{Countable K} (m : gmap K V) (ks : list K) : Prop :=
  ks ≡ₚ (map_to_list m).*1.

#[global] Instance range_order_dec {K V} `{Countable K} (m : gmap K V) ks :
  Decision (range_order m ks).
Proof. unfold range_order. apply _. Defined.

(** ** Lemmas and automation shared by the components *)

Lemma wrap64_id z : is_int z → wrap64 z = z.
Proof. unfold is_int, wrap64, min_int, max_int. intros. rewrite Z.mod_small; lia. Qed.

Lemma wrap64_is_int z : is_int (wrap64 z).
Proof.
  unfold is_int, wrap64, min_int, max_int.
  pose proof (Z.mod_pos_bound (z + 2 ^ 63) (2 ^ 64)). lia.
Qed.

Lemma range_order_elem {K V} `{Countable K} (m : gmap K V) ks k :
  range_order m ks → k ∈ ks ↔ is_Some (m !! k).
Proof.
  intros Hp. rewrite Hp, list_elem_of_fmap. split.
  - intros ([k' v] & -> & Hin%elem_of_map_to_list). eauto.
  - intros [v Hv]. exists (k, v). by rewrite elem_of_map_to_list.
Qed.

Lemma range_order_NoDup {K V} `{Countable K} (m : gmap K V) ks :
  range_order m ks → NoDup ks.
Proof. intros Hp. rewrite Hp. apply NoDup_fst_map_to_list. Qed.

Lemma range_order_canonical {K V} `{Countable K} (m : gmap K V) :
  range_order m (map_to_list m).*1.
Proof. unfold range_order. reflexivity. Qed.

Lemma range_order_length {K V} `{Countable K} (m : gmap K V) ks :
  range_order m ks → length ks = size m.
Proof. intros Hp. rewrite Hp, length_fmap. apply length_map_to_list. Qed.

(** A key without duplicates determines the element. *)
Lemma NoDup_fmap_elem {A B} (f : A → B) (l : list A) x y :
  NoDup (f <$> l) → x ∈ l → y ∈ l → f x = f y → x = y.
Proof.
  induction l as [|a l IH]; [by intros _ Hx%not_elem_of_nil|]. simpl.
  intros [Hn Hnd]%NoDup_cons Hx Hy Heq. rewrite elem_of_cons in Hx, Hy.
  destruct Hx as [->|Hx], Hy as [->|Hy]; [done| | |by apply IH].
  - destruct Hn. rewrite Heq. by apply list_elem_of_fmap_2.
  - destruct Hn. rewrite <- Heq. by apply list_elem_of_fmap_2.
Qed.

Lemma errors_Join_none es : Forall (λ e, e = None) es → errors_Join es = None.
Proof.
  intros Hall. unfold errors_Join.
  enough (omap id es = []) as ->; [done|].
  induction Hall as [|e es -> _ IH]; done.
Qed.

(** The monad's equations, for rewriting. *)
Lemma M_bind_eq {St A B} (m : M St A) (k : A → M St B) s :
  (m ≫= k) s = match m s with
               | (Returns a, s') => k a s'
               | (Panics e, s') => (Panics e, s')
               | (Blocks, s') => (Blocks, s')
               end.
Proof. reflexivity. Qed.

Lemma M_ret_eq {St A} (a : A) (s : St) : (mret a : M St A) s = (Returns a, s).
Proof. reflexivity. Qed.

(** [go] evaluates the monad. *)
Ltac go := repeat (unfold mret, mbind, M_ret, M_bind, gets, modify, panic, block in *; simpl in *).

(** [decide_by_eval] closes a decidable closed goal by computation. *)
Ltac decide_by_eval := apply (bool_decide_unpack _); vm_compute; exact I.

Create HintDb goodin discriminated.
#[export] Hint Resolve wrap64_is_int range_order_canonical range_order_NoDup : goodin.
