(* ===== verification/Hooks.v ===== *)
(** * pkg/hooks: named lifecycle hooks

    A [Hook] is a map from a key to a handler.  [Add] refuses a key that is
    taken, [Execute] runs every handler in Go's unspecified map order,
    [ExecuteWithExclude] runs the handlers that are not excluded in the byte
    order of their keys, and both stop at the first error.  Handlers are
    computations on the state [St] of the application. *)

From S2P Require Import Prelude.

Definition ErrKeyAlreadyExists : error := Sentinel "hooks.ErrKeyAlreadyExists" "key already exists".
Definition ErrKeyNotExists : error := Sentinel "hooks.ErrKeyNotExists" "key not exists".
Definition ErrHandlerNotRegistered : error :=
  Sentinel "hooks.ErrHandlerNotRegistered" "handler not registered".

Definition Handler (St Param : Type) : Type := Param → M St goerror.

Record Hook (St Param : Type) : Type := mkHook {
  handlers : gmap string (Handler St Param);
}.

Arguments mkHook {St Param} _.
Arguments handlers {St Param} _.

Section hooks.
Context {St Param : Type}.
Implicit Types (h : Hook St Param) (p : Param).

Definition Hook_New : Hook St Param := mkHook ∅.

Definition IsKeyAlreadySet h (key : string) : bool :=
  match handlers h !! key with
  | Some _ => true
  | None => false
  end.

Definition Hook_Add h (key : string) (handler : Handler St Param) : goerror * Hook St Param :=
  if IsKeyAlreadySet h key then (Some ErrKeyAlreadyExists, h)
  else (None, mkHook (<[key := handler]> (handlers h))).

Definition ExecuteOnly h (key : string) p : M St goerror :=
  if negb (IsKeyAlreadySet h key) then mret (Some ErrKeyNotExists)
  else match handlers h !! key with
       | Some f => f p
       | None => panic "invalid memory address or nil pointer dereference"
       end.

(** [ks] is the order in which the run-time visits the map. *)
Definition Hook_Execute h (ks : list string) p : M St goerror :=
  if bool_decide (size (handlers h) < 1) then mret (Some ErrHandlerNotRegistered)
  else for_until_err (λ k, ExecuteOnly h k p) ks.

(** [sort.Strings] orders by bytes. *)
Definition orderedLoop (ks : list string) : list string := merge_sort String.le ks.

Definition ExecuteWithExclude h (ks : list string) p (excludedKeys : list string) : M St goerror :=
  if bool_decide (size (handlers h) < 1) then mret (Some ErrHandlerNotRegistered)
  else
    let ex : gset string := list_to_set excludedKeys in
    let keys := orderedLoop ks in
    let filtered := filter (λ k, k ∉ ex) keys in
    if bool_decide (length filtered = 0) then mret None
    else for_until_err
           (λ k, e ← ExecuteOnly h k p;
                 mret (match e with
                       | Some err => Some (Wrap "hook %s: %w" [k] err)
                       | None => None
                       end))
           filtered.

(** A run of a list of keys, in order, up to the first error: the
    specification both [Execute] variants are compared with. *)
Fixpoint run_in_order (wrap : string → error → error)
    (hs : gmap string (Handler St Param)) (ks : list string) p (s : St) : outcome goerror * St :=
  match ks with
  | [] => (Returns None, s)
  | k :: ks' =>
      match hs !! k with
      | None => (Returns (Some (wrap k ErrKeyNotExists)), s)
      | Some f =>
          match f p s with
          | (Returns None, s') => run_in_order wrap hs ks' p s'
          | (Returns (Some e), s') => (Returns (Some (wrap k e)), s')
          | r => r
          end
      end
  end.

End hooks.

(** Two handlers under the keys [BaseApp.Bootstrap] uses. *)
Definition demo_hook : Hook (list string) nat :=
  (Hook_Add (Hook_Add Hook_New "b_bootstrap" (λ _ s, (Returns None, s ++ ["b"]))).2
            "a_load_cfg" (λ _ s, (Returns None, s ++ ["a"]))).2.

Section hook_lemmas.
Context {St Param : Type}.
Implicit Types (h : Hook St Param) (p : Param).

Lemma ExecuteOnly_lookup h k p s :
  ExecuteOnly h k p s =
    match handlers h !! k with
    | None => (Returns (Some ErrKeyNotExists), s)
    | Some f => f p s
    end.
Proof. unfold ExecuteOnly, IsKeyAlreadySet. by destruct (handlers h !! k). Qed.

Lemma ExecuteOnly_Some h k f p s : handlers h !! k = Some f → ExecuteOnly h k p s = f p s.
Proof.
  intros Hf. unfold ExecuteOnly, IsKeyAlreadySet, Handler, M in *. by rewrite !Hf.
Qed.

Lemma orderedLoop_perm ks : orderedLoop ks ≡ₚ ks.
Proof. apply merge_sort_Permutation. Qed.

Lemma orderedLoop_sorted ks : Sorted String.le (orderedLoop ks).
Proof. apply Sorted_merge_sort, _. Qed.

Lemma orderedLoop_stable_order ks ks' : ks ≡ₚ ks' → orderedLoop ks = orderedLoop ks'.
Proof.
  intros Hp. apply (Sorted_unique String.le); auto using orderedLoop_sorted.
  by rewrite !orderedLoop_perm.
Qed.

Lemma for_until_err_run_in_order h p ks (wrap : string → error → error) s :
  for_until_err
    (λ k, e ← ExecuteOnly h k p;
          mret (match e with Some err => Some (wrap k err) | None => None end)) ks s =
  run_in_order wrap (handlers h) ks p s.
Proof.
  revert s. induction ks as [|k ks IH]; intros s; [done|].
  simpl. rewrite M_bind_eq, M_bind_eq, ExecuteOnly_lookup.
  destruct (handlers h !! k) as [f|]; [|done].
  destruct (f p s) as [[[e|]| |] s']; try done. apply IH.
Qed.

Lemma run_in_order_app wrap (hs : gmap string (Handler St Param)) ks1 ks2 p s :
  run_in_order wrap hs (ks1 ++ ks2) p s =
    match run_in_order wrap hs ks1 p s with
    | (Returns None, s') => run_in_order wrap hs ks2 p s'
    | r => r
    end.
Proof.
  revert s. induction ks1 as [|k ks1 IH]; intros s; [done|]. simpl.
  destruct (hs !! k) as [f|]; [|done].
  by destruct (f p s) as [[[e|]| |] s'].
Qed.

End hook_lemmas.

(** ** Properties *)

(** [Add] registers a handler once.  Adding a free key succeeds, makes
    [ExecuteOnly] of that key run the handler and leaves every other key alone;
    adding a taken key returns [ErrKeyAlreadyExists] and changes nothing. *)
Theorem Hook_Add_spec {St Param} (h : Hook St Param) key f :
  let r := Hook_Add h key f in
  (IsKeyAlreadySet h key = true → r = (Some ErrKeyAlreadyExists, h)) ∧
  (IsKeyAlreadySet h key = false →
     r.1 = None ∧ IsKeyAlreadySet r.2 key = true ∧
     (∀ p s, ExecuteOnly r.2 key p s = f p s) ∧
     (∀ k p s, k ≠ key → ExecuteOnly r.2 k p s = ExecuteOnly h k p s)).
Proof.
  unfold Hook_Add. split; intros ->; [done|]. simpl.
  repeat split.
  - unfold IsKeyAlreadySet. simpl. by rewrite lookup_insert_eq.
  - intros p s. rewrite ExecuteOnly_lookup. simpl. by rewrite lookup_insert_eq.
  - intros k p s Hk. rewrite !ExecuteOnly_lookup. simpl. by rewrite lookup_insert_ne.
Qed.

(** C9: [ExecuteWithExclude] is deterministic: whatever order the run-time
    ranges over the map in, it runs exactly the registered keys that are not
    excluded, in byte order, up to the first error, which it prefixes with the
    key. *)
Theorem ExecuteWithExclude_spec {St Param} (h : Hook St Param) ks p ex s :
  handlers h ≠ ∅ → range_order (handlers h) ks →
  let keys := filter (λ k, k ∉ (list_to_set ex : gset string)) (orderedLoop ks) in
  ExecuteWithExclude h ks p ex s =
    run_in_order (λ k e, Wrap "hook %s: %w" [k] e) (handlers h) keys p s ∧
  keys = filter (λ k, k ∉ (list_to_set ex : gset string))
                (merge_sort String.le (map_to_list (handlers h)).*1) ∧
  StronglySorted String.le keys ∧ NoDup keys ∧
  (∀ k, k ∈ keys ↔ is_Some (handlers h !! k) ∧ k ∉ ex).
Proof.
  intros Hne Hks keys. split; [|split; [|split; [|split]]].
  - unfold ExecuteWithExclude. rewrite bool_decide_false.
    2: { rewrite <- map_size_empty_iff in Hne. lia. }
    fold keys. destruct (bool_decide_reflect (length keys = 0)) as [H0|_].
    + apply nil_length_inv in H0. by rewrite H0.
    + apply (for_until_err_run_in_order h p keys (λ k e, Wrap "hook %s: %w" [k] e)).
  - unfold keys. by rewrite (orderedLoop_stable_order _ _ Hks).
  - unfold keys.
    specialize (orderedLoop_sorted ks) as Hsrt.
    apply (Sorted_StronglySorted String.le) in Hsrt.
    clear -Hsrt. induction Hsrt as [|x l Hl IH Hx]; [constructor|].
    rewrite filter_cons. case_decide; [|done]. constructor; [done|].
    rewrite Forall_forall in *. intros y [_ Hy]%list_elem_of_filter. auto.
  - unfold keys. apply NoDup_filter. rewrite orderedLoop_perm. eauto with goodin.
  - intros k. unfold keys. rewrite list_elem_of_filter, orderedLoop_perm,
      (range_order_elem _ _ _ Hks), elem_of_list_to_set. naive_solver.
Qed.

Lemma ExecuteWithExclude_spec_witness :
  ExecuteWithExclude demo_hook ["b_bootstrap"; "a_load_cfg"] 0 ["b_bootstrap"] [] =
    (Returns None, ["a"]).
Proof.
  refine (eq_trans (proj1 (ExecuteWithExclude_spec demo_hook ["b_bootstrap"; "a_load_cfg"]
            0 ["b_bootstrap"] [] _ _)) _).
  - intros E. apply (f_equal size) in E. vm_compute in E. discriminate E.
  - decide_by_eval.
  - vm_compute. reflexivity.
Defined.
