(* ===== verification/Drivers.v ===== *)
(** * pkg/driver and pkg/driver/v2: the driver managers

    A driver is an object with a name, an [Init], a [Close] and an [Instance];
    its operations act on the state [St] of the application.  The version 1
    manager ([Driver]) and the version 2 manager ([Manager]) keep the list of
    registered drivers in registration order. *)

From S2P Require Import Prelude.

Record IDriver (St : Type) : Type := mkIDriver {
  drv_Name : string;
  drv_Init : M St goerror;
  drv_Instance : St → any;
  drv_Close : M St goerror;
}.

Arguments mkIDriver {St} _ _ _ _.
Arguments drv_Name {St} _.
Arguments drv_Init {St} _.
Arguments drv_Instance {St} _.
Arguments drv_Close {St} _.

(** The version 1 slice is nil after [CloseAllDriver]. *)
Record Driver (St : Type) : Type := mkDriver { v1_drivers : option (list (IDriver St)) }.

Record Manager (St : Type) : Type := mkManager { v2_drivers : list (IDriver St) }.

Arguments mkDriver {St} _.
Arguments v1_drivers {St} _.
Arguments mkManager {St} _.
Arguments v2_drivers {St} _.

Section drivers.
Context {St : Type}.

(** The first registered driver with a given name. *)
Fixpoint find_driver (ds : list (IDriver St)) (name : string) : option (IDriver St) :=
  match ds with
  | [] => None
  | d :: ds' => if bool_decide (drv_Name d = name) then Some d else find_driver ds' name
  end.

(** ** Version 1 *)

Definition NewDriver : Driver St := mkDriver (Some []).

Definition Driver_Instance (d : Driver St) (name : string) (s : St) : any :=
  match v1_drivers d with
  | None => None
  | Some ds => match find_driver ds name with
               | Some drv => drv_Instance drv s
               | None => None
               end
  end.

(** [append(d.drivers, driver)] *)
Definition v1_append (drv : IDriver St) (d : Driver St) : Driver St :=
  mkDriver (Some (default [] (v1_drivers d) ++ [drv])).

(** The deferred append runs whether [Init] returns or panics. *)
Definition Driver_RunDriver (driver : option (IDriver St)) : M (Driver St * St) goerror :=
  match driver with
  | None => mret (Some (Fmt "Driver cannot be nil" []))
  | Some drv => λ '(d, s),
      let '(r, s') := drv_Init drv s in (r, (v1_append drv d, s'))
  end.

Definition Driver_CloseAllDriver (handleError : string → error → M St ()) :
    M (Driver St * St) goerror :=
  ds ← gets (λ x, v1_drivers x.1);
  for_each (λ drv : IDriver St,
    err ← on_snd (drv_Close drv);
    match err with
    | Some e => on_snd (handleError (drv_Name drv) e)
    | None => mret tt
    end) (default [] ds) ≫= λ _,
  modify (λ x, (mkDriver None, x.2)) ≫= λ _,
  mret None.

(** ** Version 2 *)

Definition NewManagerV2 : Manager St := mkManager [].

Definition Manager_Instance (m : Manager St) (name : string) (s : St) : any :=
  match find_driver (v2_drivers m) name with
  | Some d => drv_Instance d s
  | None => None
  end.

Definition Manager_Has (m : Manager St) (name : string) : bool :=
  existsb (λ d, bool_decide (drv_Name d = name)) (v2_drivers m).

Definition Manager_RunDriver (driver : option (IDriver St)) : M (Manager St * St) goerror :=
  match driver with
  | None => mret (Some (Fmt "driver cannot be nil" []))
  | Some d =>
      err ← on_snd (drv_Init d);
      match err with
      | Some e => mret (Some (Wrap "failed to initialize driver %q: %w" [drv_Name d] e))
      | None => modify (λ x, (mkManager (v2_drivers x.1 ++ [d]), x.2)) ≫= λ _, mret None
      end
  end.

Fixpoint close_loop (handleError : string → error → M St ()) (ds : list (IDriver St))
    (errs : list goerror) : M (Manager St * St) (list goerror) :=
  match ds with
  | [] => mret errs
  | d :: ds' =>
      err ← on_snd (drv_Close d);
      match err with
      | Some e =>
          on_snd (handleError (drv_Name d) e) ≫= λ _,
          close_loop handleError ds'
            (errs ++ [Some (Wrap "driver %q: %w" [drv_Name d] e)])
      | None => close_loop handleError ds' errs
      end
  end.

Definition Manager_CloseAllDriver (handleError : string → error → M St ()) :
    M (Manager St * St) goerror :=
  ds ← gets (λ x, v2_drivers x.1);
  errs ← close_loop handleError ds [];
  modify (λ x, (mkManager [], x.2)) ≫= λ _,
  mret (errors_Join errs).

(** [Get[T]] returns the value or an error; [MustGet[T]] panics instead. *)
Definition driver_Get (T : string) (m : Manager St) (name : string) (s : St) : any * goerror :=
  let raw := Manager_Instance m name s in
  match raw with
  | None => (None, Some (Fmt "driver %q not found" [name]))
  | Some d =>
      match type_assert raw T with
      | Some typed => (Some typed, None)
      | None => (None, Some (Fmt "driver %q is %T, expected %T" [name; dyn_type d; T]))
      end
  end.

Definition driver_MustGet (T : string) (m : Manager St) (name : string) (s : St) : outcome any :=
  match driver_Get T m name s with
  | (_, Some _) => Panics "driver.MustGet"
  | (val, None) => Returns val
  end.

(** ** Lemmas *)

(** The effect of closing a list of drivers on the application: every [Close]
    in order, and [handleError] right after a failing one. *)
Fixpoint close_effects (handleError : string → error → M St ()) (ds : list (IDriver St))
    (s : St) : outcome (list error) * St :=
  match ds with
  | [] => (Returns [], s)
  | d :: ds' =>
      match drv_Close d s with
      | (Returns None, s1) => close_effects handleError ds' s1
      | (Returns (Some e), s1) =>
          match handleError (drv_Name d) e s1 with
          | (Returns _, s2) =>
              match close_effects handleError ds' s2 with
              | (Returns es, s3) => (Returns (Wrap "driver %q: %w" [drv_Name d] e :: es), s3)
              | (Panics m, s3) => (Panics m, s3)
              | (Blocks, s3) => (Blocks, s3)
              end
          | (Panics m, s2) => (Panics m, s2)
          | (Blocks, s2) => (Blocks, s2)
          end
      | (Panics m, s1) => (Panics m, s1)
      | (Blocks, s1) => (Blocks, s1)
      end
  end.

Lemma on_snd_eq {D A} (m : M St A) (d : D) s :
  on_snd m (d, s) = ((m s).1, (d, (m s).2)).
Proof. unfold on_snd. simpl. by destruct (m s). Qed.

Lemma close_loop_effects hE ds errs m s :
  close_loop hE ds errs (m, s) =
    match close_effects hE ds s with
    | (Returns es, s') => (Returns (errs ++ (Some <$> es)), (m, s'))
    | (Panics e, s') => (Panics e, (m, s'))
    | (Blocks, s') => (Blocks, (m, s'))
    end.
Proof.
  revert errs s. induction ds as [|d ds IH]; intros errs s; simpl.
  { by rewrite app_nil_r. }
  rewrite M_bind_eq, on_snd_eq.
  destruct (drv_Close d s) as [[[e|]| |] s1]; simpl; [| |done..].
  - rewrite M_bind_eq, on_snd_eq.
    destruct (hE (drv_Name d) e s1) as [[[]| |] s2]; simpl; [|done..].
    rewrite IH. destruct (close_effects hE ds s2) as [[es| |] s3]; [|done..].
    by rewrite <- app_assoc.
  - apply IH.
Qed.

Lemma v1_close_effects hE ds (d : Driver St) s :
  for_each (λ drv : IDriver St,
    err ← on_snd (drv_Close drv);
    match err with
    | Some e => on_snd (hE (drv_Name drv) e)
    | None => mret tt
    end) ds (d, s) =
    match close_effects hE ds s with
    | (Returns _, s') => (Returns tt, (d, s'))
    | (Panics e, s') => (Panics e, (d, s'))
    | (Blocks, s') => (Blocks, (d, s'))
    end.
Proof.
  revert s. induction ds as [|drv ds IH]; intros s; [done|]. simpl.
  rewrite !M_bind_eq, on_snd_eq.
  destruct (drv_Close drv s) as [[[e|]| |] s1]; simpl; [| |done..].
  - rewrite on_snd_eq.
    destruct (hE (drv_Name drv) e s1) as [[[]| |] s2]; simpl; [|done..].
    rewrite IH. by destruct (close_effects hE ds s2) as [[es| |] s3].
  - apply IH.
Qed.

Lemma find_driver_app ds1 ds2 name :
  find_driver (ds1 ++ ds2) name =
    match find_driver ds1 name with Some d => Some d | None => find_driver ds2 name end.
Proof. induction ds1 as [|d ds1 IH]; simpl; [done|]. by case_bool_decide. Qed.

Lemma find_driver_has ds name :
  is_Some (find_driver ds name) ↔ name ∈ drv_Name <$> ds.
Proof.
  induction ds as [|d ds IH]; simpl.
  - split; [by intros [? [=]]|]. by intros ?%elem_of_nil.
  - rewrite elem_of_cons. case_bool_decide; naive_solver.
Qed.

Lemma Manager_Has_find m name : Manager_Has m name = bool_decide (is_Some (find_driver (v2_drivers m) name)).
Proof.
  unfold Manager_Has. induction (v2_drivers m) as [|d ds IH]; simpl.
  - done.
  - destruct (bool_decide (drv_Name d = name)); simpl; [done|exact IH].
Qed.

End drivers.

(** Concrete drivers for the witnesses. *)
Definition failing_driver : IDriver nat :=
  mkIDriver "OTEL" (λ n, (Returns (Some (Foreign "otlp" "dial")), n))
            (λ _, None) (λ n, (Returns None, S n)).

Definition master_driver : IDriver nat :=
  mkIDriver "MasterAdapter" (λ n, (Returns None, S n))
            (λ _, Some (mkDyn "*mastercore.Master" (Some 0))) (λ n, (Returns None, n)).

Definition worker_driver : IDriver nat :=
  mkIDriver "MasterAdapter" (λ n, (Returns None, S n))
            (λ _, Some (mkDyn "*workercore.Worker" (Some 1))) (λ n, (Returns None, n)).

(** ** Properties *)

(** the version 2 manager registers a driver exactly when its [Init]
    succeeds: a failing [Init] comes back wrapped with the driver's name and
    leaves the manager as it was, a panicking one too, and after a successful
    one the driver is the last of the list and [Has] finds it. *)
Theorem Manager_RunDriver_spec {St} (d : IDriver St) (m : Manager St) (s : St) :
  let run := Manager_RunDriver (Some d) (m, s) in
  match drv_Init d s with
  | (Returns None, s') =>
      run = (Returns None, (mkManager (v2_drivers m ++ [d]), s')) ∧
      Manager_Has (mkManager (v2_drivers m ++ [d])) (drv_Name d) = true
  | (Returns (Some e), s') =>
      run = (Returns (Some (Wrap "failed to initialize driver %q: %w" [drv_Name d] e)), (m, s'))
  | (Panics e, s') => run = (Panics e, (m, s'))
  | (Blocks, s') => run = (Blocks, (m, s'))
  end.
Proof.
  simpl. rewrite M_bind_eq, on_snd_eq.
  destruct (drv_Init d s) as [[[e|]| |] s']; simpl; try done.
  split; [done|]. rewrite Manager_Has_find. apply bool_decide_true. simpl.
  rewrite find_driver_has, list_elem_of_fmap. exists d. set_solver.
Qed.

(** C33: closing through either manager has the same effect on the
    application (every driver closed once, in registration order, the error
    callback right after each failure) and empties the manager; version 2
    returns the join of the wrapped failures in order, version 1 drops them. *)
Theorem CloseAllDriver_v1_v2 {St} (hE : string → error → M St ()) (ds : list (IDriver St)) (s : St) :
  let v1 := Driver_CloseAllDriver hE (mkDriver (Some ds), s) in
  let v2 := Manager_CloseAllDriver hE (mkManager ds, s) in
  match close_effects hE ds s with
  | (Returns es, s') =>
      v1 = (Returns None, (mkDriver None, s')) ∧
      v2 = (Returns (errors_Join (Some <$> es)), (mkManager [], s'))
  | (Panics e, s') =>
      v1 = (Panics e, (mkDriver (Some ds), s')) ∧ v2 = (Panics e, (mkManager ds, s'))
  | (Blocks, s') => v1.1 = Blocks ∧ v2.1 = Blocks
  end.
Proof.
  unfold Driver_CloseAllDriver, Manager_CloseAllDriver.
  rewrite !M_bind_eq. simpl. rewrite !M_bind_eq, v1_close_effects, close_loop_effects.
  by destruct (close_effects hE ds s) as [[es| |] s'].
Qed.

(** the first registration of a name wins: running a second driver
    under a taken name never changes what [Get] finds for any name that is
    already registered. *)
Theorem driver_Get_first_wins {St} (T name : string) (d' : IDriver St) (m : Manager St) (s : St) :
  Manager_Has m name = true →
  let r := Manager_RunDriver (Some d') (m, s) in
  driver_Get T r.2.1 name r.2.2 = driver_Get T m name r.2.2.
Proof.
  rewrite Manager_Has_find, bool_decide_eq_true. intros [d Hd]. simpl.
  rewrite M_bind_eq, on_snd_eq.
  destruct (drv_Init d' s) as [[[e|]| |] s']; simpl; try done.
  unfold driver_Get, Manager_Instance. simpl. by rewrite find_driver_app, Hd.
Qed.

(** [Get[T]] succeeds exactly when the first driver of that name has a
    non-nil instance of dynamic type [T], and then returns that instance;
    [MustGet[T]] panics exactly when [Get[T]] returns an error. *)
Theorem driver_Get_spec {St} (T name : string) (m : Manager St) (s : St) :
  (∀ v, driver_Get T m name s = (Some v, None) ↔
     ∃ d, find_driver (v2_drivers m) name = Some d ∧
          drv_Instance d s = Some v ∧ dyn_type v = T) ∧
  (driver_MustGet T m name s = Panics "driver.MustGet" ↔ (driver_Get T m name s).2 ≠ None).
Proof.
  split.
  - intros v. unfold driver_Get, Manager_Instance, type_assert.
    destruct (find_driver _ _) as [d|]; [|naive_solver].
    destruct (drv_Instance d s) as [dv|] eqn:E; [|naive_solver].
    case_bool_decide; naive_solver.
  - unfold driver_MustGet. destruct (driver_Get T m name s) as [v [e|]]; naive_solver.
Qed.

(** a driver whose [Init] failed: version 1 keeps it registered, so
    closing the manager closes a driver that never started; version 2 does not. *)
Theorem failed_Init_registration {St} (d : IDriver St) (s s' : St) (e : error) :
  drv_Init d s = (Returns (Some e), s') →
  let m1 := (Driver_RunDriver (Some d) (NewDriver, s)).2.1 in
  let m2 := (Manager_RunDriver (Some d) (NewManagerV2, s)).2.1 in
  v1_drivers m1 = Some [d] ∧ v2_drivers m2 = [].
Proof.
  intros Hi. simpl. rewrite M_bind_eq, on_snd_eq, Hi. done.
Qed.

Lemma failed_Init_registration_witness :
  v1_drivers (Driver_RunDriver (Some failing_driver) (NewDriver, 0)).2.1 = Some [failing_driver].
Proof. apply (failed_Init_registration failing_driver 0 0 (Foreign "otlp" "dial")). reflexivity. Defined.

(** The worker adapter registers under the master adapter's name, so behind a
    master it can never be found. *)
Lemma driver_Get_first_wins_witness :
  driver_Get "*workercore.Worker"
    (Manager_RunDriver (Some worker_driver) (mkManager [master_driver], 0)).2.1 "MasterAdapter" 1 =
  driver_Get "*workercore.Worker" (mkManager [master_driver]) "MasterAdapter" 1.
Proof. apply (driver_Get_first_wins _ _ worker_driver (mkManager [master_driver]) 0). reflexivity. Defined.
