(* ===== verification/GoFloat.v ===== *)
(** * float64 arithmetic

    Go's [float64] is IEEE 754 binary64.  It is modelled with the Standard
    Library's [spec_float] at precision 53 and maximal exponent 1024, so every
    operation below computes the correctly rounded result. *)

From S2P Require Import Prelude.
From Stdlib Require Import SpecFloat.

Definition float64 : Type := spec_float.

Definition f64_of_Z (z : Z) : float64 := binary_normalize 53 1024 z 0 false.

Definition f64_mul (x y : float64) : float64 := SFmul 53 1024 x y.
Definition f64_div (x y : float64) : float64 := SFdiv 53 1024 x y.

Definition f64_leb (x y : float64) : bool := SFleb x y.

(** The constants 0.10 and 0.6 of the source, correctly rounded. *)
Definition f64_0_1 : float64 := S754_finite false 7205759403792794 (-56).
Definition f64_0_6 : float64 := S754_finite false 5404319552844595 (-53).

(** Truncation toward zero and ceiling of a finite value, as integers. *)
Definition f64_trunc (x : float64) : option Z :=
  match x with
  | S754_zero _ => Some 0%Z
  | S754_finite s m e =>
      let a := (if bool_decide (0 ≤ e)%Z then Zpos m * 2 ^ e else Zpos m `div` 2 ^ (- e))%Z in
      Some (if s then - a else a)%Z
  | _ => None
  end.

Definition f64_ceil (x : float64) : option Z :=
  match x with
  | S754_zero _ => Some 0%Z
  | S754_finite s m e =>
      let v := (if s then Zneg m else Zpos m)%Z in
      Some (if bool_decide (0 ≤ e)%Z then v * 2 ^ e else - ((- v) `div` 2 ^ (- e)))%Z
  | _ => None
  end.

(** Go's [int(x)]: truncation when the result is an [int]; otherwise the
    conversion is implementation-defined, and [oob] stands for what the
    platform gives. *)
Definition f64_to_int (oob : float64 → Z) (x : float64) : Z :=
  match f64_trunc x with
  | Some z => if bool_decide (is_int z) then z else oob x
  | None => oob x
  end.

(** What amd64 gives for an out-of-range conversion. *)
Definition oob_amd64 : float64 → Z := λ _, min_int.

(** ** Sanity of the constants and of exact integers *)

Lemma f64_constants_rounded :
  f64_div (f64_of_Z 1) (f64_of_Z 10) = f64_0_1 ∧ f64_div (f64_of_Z 6) (f64_of_Z 10) = f64_0_6.
Proof. vm_compute. done. Qed.
