(* ===== verification/LoyaltyDomain.v ===== *)
(** * The loyalty domain: value objects, entity, aggregate, domain events

    Models use_cases/loyalty/domain (points, tier, account, aggregate, events)
    and the DTOs of use_cases/loyalty/dto.  [time.Now] and [ulid.Make] read an
    ambient state: a clock and a supply of identifiers. *)

From S2P Require Import Prelude GoFloat.

(** ** The ambient clock and identifier supply *)

Record ambient : Type := mkAmbient { amb_tick : nat; amb_ulid : nat }.

(** [time_at n] is the n-th reading of the clock in nanoseconds since the Unix
    epoch; [ulid_at n] is the n-th generated identifier; identifiers never
    repeat and are never empty (ULIDs have 26 characters). *)
Class Ambient : Type := {
  time_at : nat → Z;
  ulid_at : nat → string;
  ulid_at_inj : ∀ i j, ulid_at i = ulid_at j → i = j;
  ulid_at_nonempty : ∀ i, ulid_at i ≠ "";
}.

Definition now `{Ambient} : M ambient Z := λ a,
  (Returns (time_at (amb_tick a)), mkAmbient (S (amb_tick a)) (amb_ulid a)).

Definition ulid_Make `{Ambient} : M ambient string := λ a,
  (Returns (ulid_at (amb_ulid a)), mkAmbient (amb_tick a) (S (amb_ulid a))).

(** [t.Unix()] *)
Definition unix (t : Z) : Z := (t `div` 1000000000)%Z.

(** ** Value objects *)

Record Points : Type := mkPoints { value : Z }.

Definition ErrNegativePoints : error := Sentinel "valueobject.ErrNegativePoints" "points cannot be negative".

Definition NewPoints (v : Z) : Points * goerror :=
  if bool_decide (v < 0)%Z then (mkPoints 0, Some ErrNegativePoints) else (mkPoints v, None).

Definition MustNewPoints {St} (v : Z) : M St Points :=
  match NewPoints v with
  | (_, Some _) => panic "points cannot be negative"
  | (p, None) => mret p
  end.

Definition Points_Value (p : Points) : Z := value p.

Definition Points_Add (p other : Points) : Points := mkPoints (wrap64 (value p + value other)).

Definition Points_Sub (p other : Points) : Points * goerror :=
  if bool_decide (value p < value other)%Z
  then (mkPoints 0, Some (Fmt "insufficient points" []))
  else (mkPoints (wrap64 (value p - value other)), None).

Definition Points_IsZero (p : Points) : bool := bool_decide (value p = 0%Z).

Definition TierBronze : string := "BRONZE".
Definition TierSilver : string := "SILVER".
Definition TierGold : string := "GOLD".

(** The map [TierThresholds]; a missing key reads as zero. *)
Definition TierThresholds (t : string) : Z :=
  if bool_decide (t = TierSilver) then 500
  else if bool_decide (t = TierGold) then 2000
  else 0.

Definition CalculateTier (balance : Points) : string :=
  if bool_decide (TierThresholds TierGold ≤ Points_Value balance)%Z then TierGold
  else if bool_decide (TierThresholds TierSilver ≤ Points_Value balance)%Z then TierSilver
  else TierBronze.

(** ** Entity and events *)

Record LoyaltyAccount : Type := mkAccount {
  acc_ID : string;
  acc_CustomerID : string;
  acc_Balance : Points;
  acc_Tier : string;
  acc_CreatedAt : Z;
  acc_UpdatedAt : Z;
}.

Record LoyaltyCreditedEvent : Type := mkCredited {
  lc_LoyaltyAccountID : string;
  lc_CustomerID : string;
  lc_OrderID : string;
  lc_PointsEarned : Z;
  lc_NewBalance : Z;
  lc_NewTier : string;
  lc_occurredAt : Z;
}.

Record LoyaltyCreditFailedEvent : Type := mkCreditFailed {
  lf_CustomerID : string;
  lf_OrderID : string;
  lf_Reason : string;
  lf_occurredAt : Z;
}.

Record OrderCompletedPayload : Type := mkOrderCompleted {
  oc_OrderID : string;
  oc_CustomerID : string;
  oc_TotalAmount : float64;
}.

(** pkg/events: the topic names. *)
Definition OrderCompleted : string := "orders.order.completed".
Definition OrderFulfillmentReady : string := "orders.fulfillment.ready".
Definition OrderFailed : string := "orders.order.failed".
Definition LoyaltyCredited : string := "loyalty.account.credited".
Definition LoyaltyCreditFailed : string := "loyalty.account.credit_failed".

(** The implementations of [cqrs.DomainEvent]. *)
Inductive DomainEvent : Type :=
| EvLoyaltyCredited (e : LoyaltyCreditedEvent)
| EvLoyaltyCreditFailed (e : LoyaltyCreditFailedEvent)
| EvOrderCompleted (e : OrderCompletedPayload).

Definition EventName (e : DomainEvent) : string :=
  match e with
  | EvLoyaltyCredited _ => "loyalty.account.credited"
  | EvLoyaltyCreditFailed _ => "loyalty.account.credit_failed"
  | EvOrderCompleted _ => OrderCompleted
  end.

(** The zero [time.Time], 1 January of year 1, in nanoseconds. *)
Definition time_zero : Z := (-62135596800 * 1000000000)%Z.

Definition OccurredAt (e : DomainEvent) : Z :=
  match e with
  | EvLoyaltyCredited e => lc_occurredAt e
  | EvLoyaltyCreditFailed e => lf_occurredAt e
  | EvOrderCompleted _ => time_zero
  end.

Definition AggregateID (e : DomainEvent) : string :=
  match e with
  | EvLoyaltyCredited e => lc_LoyaltyAccountID e
  | EvLoyaltyCreditFailed e => lf_CustomerID e
  | EvOrderCompleted e => oc_OrderID e
  end.

(** ** DTOs *)

Record CreditLoyaltyRequest : Type := mkCreditReq {
  cr_CustomerID : string;
  cr_OrderID : string;
  cr_Points : Z;
  cr_CorrelationID : string;
  cr_CausationEventID : string;
}.

Definition CreditLoyalty_CommandName : string := "loyalty.credit_loyalty".

Record CreditLoyaltyResponse : Type := mkCreditResp {
  cs_LoyaltyAccountID : string;
  cs_NewBalance : Z;
  cs_NewTier : string;
}.

Record GetLoyaltyBalanceRequest : Type := mkBalanceReq { gb_CustomerID : string }.

Definition GetLoyaltyBalance_QueryName : string := "loyalty.get_balance".

Record GetLoyaltyBalanceResponse : Type := mkBalanceResp {
  gr_LoyaltyAccountID : string;
  gr_CustomerID : string;
  gr_Balance : Z;
  gr_Tier : string;
}.

(** use_cases/loyalty/exception *)
Definition ErrLoyaltyAccountNotFound : error :=
  Sentinel "exception.ErrLoyaltyAccountNotFound" "loyalty account not found".
Definition exc_ErrInsufficientPoints : error :=
  Sentinel "exception.ErrInsufficientPoints" "insufficient loyalty points".
Definition ErrLoyaltyCreditFailed : error :=
  Sentinel "exception.ErrLoyaltyCreditFailed" "failed to credit loyalty points".
Definition ErrDuplicateEvent : error :=
  Sentinel "exception.ErrDuplicateEvent" "event already processed (idempotency)".

(** ** The aggregate *)

Definition agg_ErrInsufficientPoints : error :=
  Sentinel "aggregate.ErrInsufficientPoints" "insufficient loyalty points".

Record LoyaltyAggregate : Type := mkAggregate {
  account : LoyaltyAccount;
  domainEvents : list DomainEvent;
}.

Section aggregate.
Context `{Ambient}.

Definition NewLoyaltyCreditedEvent (accountID customerID orderID : string)
    (earned newBalance : Z) (tier : string) : M ambient LoyaltyCreditedEvent :=
  t ← now;
  mret (mkCredited accountID customerID orderID earned newBalance tier t).

Definition NewLoyaltyCreditFailedEvent (customerID orderID reason : string) :
    M ambient LoyaltyCreditFailedEvent :=
  t ← now;
  mret (mkCreditFailed customerID orderID reason t).

Definition NewLoyaltyAggregate (customerID : string) : M ambient LoyaltyAggregate :=
  id ← ulid_Make;
  zero ← MustNewPoints 0;
  t1 ← now;
  t2 ← now;
  mret (mkAggregate (mkAccount id customerID zero TierBronze (unix t1) (unix t2)) []).

Definition Reconstitute (acc : LoyaltyAccount) : LoyaltyAggregate := mkAggregate acc [].

Definition CreditPoints (a : LoyaltyAggregate) (orderID : string) (points : Points) :
    M ambient (LoyaltyAggregate * goerror) :=
  if Points_IsZero points then mret (a, Some (Fmt "cannot credit zero points" []))
  else
    let acc := account a in
    let balance := Points_Add (acc_Balance acc) points in
    let tier := CalculateTier balance in
    t ← now;
    let acc' := mkAccount (acc_ID acc) (acc_CustomerID acc) balance tier
                          (acc_CreatedAt acc) (unix t) in
    ev ← NewLoyaltyCreditedEvent (acc_ID acc') (acc_CustomerID acc') orderID
           (Points_Value points) (Points_Value balance) tier;
    mret (mkAggregate acc' (domainEvents a ++ [EvLoyaltyCredited ev]), None).

Definition DebitPoints (a : LoyaltyAggregate) (reason : string) (points : Points) :
    M ambient (LoyaltyAggregate * goerror) :=
  let acc := account a in
  match Points_Sub (acc_Balance acc) points with
  | (_, Some _) => mret (a, Some agg_ErrInsufficientPoints)
  | (newBalance, None) =>
      t ← now;
      mret (mkAggregate (mkAccount (acc_ID acc) (acc_CustomerID acc) newBalance
                           (CalculateTier newBalance) (acc_CreatedAt acc) (unix t))
                        (domainEvents a), None)
  end.

End aggregate.

Definition agg_Account (a : LoyaltyAggregate) : LoyaltyAccount := account a.
Definition agg_Balance (a : LoyaltyAggregate) : Z := Points_Value (acc_Balance (account a)).
Definition agg_Tier (a : LoyaltyAggregate) : string := acc_Tier (account a).

Definition FlushEvents (a : LoyaltyAggregate) : list DomainEvent * LoyaltyAggregate :=
  (domainEvents a, mkAggregate (account a) []).

(** ** The aggregate's invariant

    A balance is a non-negative [int] and the tier is the one of the balance;
    the last collected event, if any, reports the current balance and tier. *)

Definition agg_ok (a : LoyaltyAggregate) : Prop :=
  (0 ≤ agg_Balance a ≤ max_int)%Z ∧ agg_Tier a = CalculateTier (acc_Balance (account a)).

(** ** An abstract ledger

    Operations a caller can ask for, the aggregate's reaction to each, and the
    bank-book the aggregate promises to be: credits of positive amounts add up,
    a debit happens only when the balance covers it, everything else is refused
    and changes nothing. *)

Inductive agg_op : Type :=
| OpCredit (orderID : string) (v : Z)
| OpDebit (reason : string) (v : Z).

Section ledger.
Context `{Ambient}.

Definition apply_op (a : LoyaltyAggregate) (op : agg_op) : M ambient (LoyaltyAggregate * goerror) :=
  match op with
  | OpCredit o v => match NewPoints v with
                    | (_, Some e) => mret (a, Some e)
                    | (p, None) => CreditPoints a o p
                    end
  | OpDebit r v => match NewPoints v with
                   | (_, Some e) => mret (a, Some e)
                   | (p, None) => DebitPoints a r p
                   end
  end.

Fixpoint apply_ops (a : LoyaltyAggregate) (ops : list agg_op) : M ambient LoyaltyAggregate :=
  match ops with
  | [] => mret a
  | op :: ops' => r ← apply_op a op; apply_ops r.1 ops'
  end.

End ledger.

Definition ledger_step (b : Z) (op : agg_op) : Z :=
  match op with
  | OpCredit _ v => if bool_decide (0 < v)%Z then (b + v)%Z else b
  | OpDebit _ v => if bool_decide (0 ≤ v ≤ b)%Z then (b - v)%Z else b
  end.

Definition ledger (b : Z) (ops : list agg_op) : Z := fold_left ledger_step ops b.

(** The credits accepted by the ledger. *)
Definition op_amount (op : agg_op) : Z :=
  match op with OpCredit _ v => Z.max v 0 | OpDebit _ _ => 0 end.

Definition total_credit (ops : list agg_op) : Z := fold_right Z.add 0%Z (op_amount <$> ops).

Definition credits (ops : list agg_op) : list (string * Z) :=
  omap (λ op, match op with
              | OpCredit o v => if bool_decide (0 < v)%Z then Some (o, v) else None
              | OpDebit _ _ => None
              end) ops.

(** The order and the amount an event reports. *)
Definition event_credit (e : DomainEvent) : option (string * Z) :=
  match e with
  | EvLoyaltyCredited c => Some (lc_OrderID c, lc_PointsEarned c)
  | _ => None
  end.

(** A concrete ambient: identifiers are strings of increasing length. *)
Fixpoint tally (n : nat) : string :=
  match n with 0 => "u" | S n => "u" +:+ tally n end.

Lemma tally_length n : String.length (tally n) = S n.
Proof. induction n as [|n IH]; [done|]. simpl. by f_equal. Qed.

#[global] Program Instance demo_ambient : Ambient := {|
  time_at n := (Z.of_nat n * 1000000000)%Z;
  ulid_at := tally;
|}.
Next Obligation.
  intros i j Hij%(f_equal String.length). rewrite !tally_length in Hij. lia.
Qed.
Next Obligation. intros [|i]; done. Qed.

(** ** Lemmas *)

Section aggregate_lemmas.
Context `{Ambient}.
Implicit Types (a : LoyaltyAggregate) (amb : ambient).

Lemma NewPoints_nonneg v : (0 ≤ v)%Z → NewPoints v = (mkPoints v, None).
Proof. intros. unfold NewPoints. by rewrite bool_decide_false by lia. Qed.

Lemma NewPoints_neg v : (v < 0)%Z → NewPoints v = (mkPoints 0, Some ErrNegativePoints).
Proof. intros. unfold NewPoints. by rewrite bool_decide_true by lia. Qed.

Lemma CreditPoints_zero a o amb :
  CreditPoints a o (mkPoints 0) amb = (Returns (a, Some (Fmt "cannot credit zero points" [])), amb).
Proof. done. Qed.

Lemma CreditPoints_run a o v amb :
  v ≠ 0%Z →
  ∃ acc ev amb',
    CreditPoints a o (mkPoints v) amb =
      (Returns (mkAggregate acc (domainEvents a ++ [EvLoyaltyCredited ev]), None), amb') ∧
    value (acc_Balance acc) = wrap64 (agg_Balance a + v) ∧
    acc_Tier acc = CalculateTier (acc_Balance acc) ∧
    acc_ID acc = acc_ID (account a) ∧ acc_CustomerID acc = acc_CustomerID (account a) ∧
    acc_CreatedAt acc = acc_CreatedAt (account a) ∧
    lc_OrderID ev = o ∧ lc_PointsEarned ev = v ∧
    lc_NewBalance ev = value (acc_Balance acc) ∧ lc_NewTier ev = acc_Tier acc ∧
    lc_LoyaltyAccountID ev = acc_ID acc ∧ lc_CustomerID ev = acc_CustomerID acc ∧
    amb_ulid amb' = amb_ulid amb.
Proof.
  intros Hv. unfold CreditPoints, Points_IsZero. simpl. rewrite bool_decide_false by done.
  repeat eexists; reflexivity.
Qed.

Lemma DebitPoints_run a r v amb :
  (0 ≤ v)%Z → agg_ok a →
  ∃ a' e amb', DebitPoints a r (mkPoints v) amb = (Returns (a', e), amb') ∧
    agg_ok a' ∧ domainEvents a' = domainEvents a ∧
    ((v ≤ agg_Balance a)%Z → e = None ∧ agg_Balance a' = (agg_Balance a - v)%Z) ∧
    ((agg_Balance a < v)%Z → e = Some agg_ErrInsufficientPoints ∧ a' = a).
Proof.
  intros Hv [Hb Ht]. unfold DebitPoints, Points_Sub, agg_Balance, Points_Value in *. simpl.
  destruct (bool_decide_reflect (value (acc_Balance (account a)) < v)%Z) as [Hlt|Hge].
  - exists a, (Some agg_ErrInsufficientPoints), amb.
    unfold agg_ok, agg_Balance, Points_Value. repeat split; try done; lia.
  - do 3 eexists. split; [reflexivity|].
    assert (wrap64 (value (acc_Balance (account a)) - v) =
            (value (acc_Balance (account a)) - v)%Z) as Hw.
    { apply wrap64_id. unfold is_int, min_int, max_int in *. lia. }
    unfold agg_ok, agg_Balance, Points_Value. simpl. rewrite Hw.
    repeat split; try done; lia.
Qed.

Lemma apply_op_ok a op amb :
  agg_ok a → (agg_Balance a + op_amount op ≤ max_int)%Z →
  ∃ a' e amb', apply_op a op amb = (Returns (a', e), amb') ∧ agg_ok a' ∧
    agg_Balance a' = ledger_step (agg_Balance a) op ∧
    omap event_credit (domainEvents a') = omap event_credit (domainEvents a) ++ credits [op].
Proof.
  intros Hok Hmax. destruct op as [o v|r v]; simpl in *.
  - destruct (decide (v < 0)%Z) as [Hneg|Hpos].
    { rewrite (NewPoints_neg _ Hneg). exists a, (Some ErrNegativePoints), amb.
      rewrite bool_decide_false by lia. simpl. by rewrite app_nil_r. }
    rewrite NewPoints_nonneg by lia. destruct (decide (v = 0%Z)) as [->|Hnz].
    { rewrite CreditPoints_zero. do 3 eexists. split; [reflexivity|].
      simpl. by rewrite app_nil_r. }
    destruct (CreditPoints_run a o v amb Hnz)
      as (acc & ev & amb' & -> & Hb & Ht & _ & _ & _ & Ho & Hp & _).
    do 3 eexists. split; [reflexivity|].
    assert (wrap64 (agg_Balance a + v) = (agg_Balance a + v)%Z) as Hw.
    { destruct Hok as [? _]. apply wrap64_id. unfold is_int, min_int, max_int in *. lia. }
    rewrite bool_decide_true by lia. destruct Hok as [? _].
    assert (∀ evs, agg_Balance (mkAggregate acc evs) = (agg_Balance a + v)%Z) as Hnew.
    { intros evs. rewrite <- Hw. exact Hb. }
    unfold agg_ok. rewrite !Hnew. simpl. rewrite omap_app. simpl. rewrite Ho, Hp.
    unfold agg_Tier. simpl. repeat split; try done; lia.
  - destruct (decide (v < 0)%Z) as [Hneg|Hpos].
    { rewrite (NewPoints_neg _ Hneg). do 3 eexists. split; [reflexivity|].
      rewrite bool_decide_false by lia. by rewrite app_nil_r. }
    rewrite NewPoints_nonneg by lia.
    destruct (DebitPoints_run a r v amb) as (a' & e & amb' & -> & Hok' & Hev & Hle & Hgt); [lia|done|].
    do 3 eexists. split; [reflexivity|]. rewrite Hev, app_nil_r.
    split; [exact Hok'|]. split; [|done].
    destruct (decide (v ≤ agg_Balance a)%Z).
    + rewrite bool_decide_true by lia. by apply Hle.
    + rewrite bool_decide_false by lia. destruct Hgt as [_ ->]; [lia|done].
Qed.

Lemma credits_cons op ops : credits (op :: ops) = credits [op] ++ credits ops.
Proof. unfold credits. by rewrite <- (omap_app _ [op] ops). Qed.

Lemma total_credit_cons op ops : total_credit (op :: ops) = (op_amount op + total_credit ops)%Z.
Proof. done. Qed.

Lemma total_credit_nonneg ops : (0 ≤ total_credit ops)%Z.
Proof.
  induction ops as [|op ops IH]; [done|]. rewrite total_credit_cons.
  destruct op; unfold op_amount; lia.
Qed.

Lemma ledger_step_bound b op : (0 ≤ b → 0 ≤ ledger_step b op ≤ b + op_amount op)%Z.
Proof. destruct op; simpl; case_bool_decide; lia. Qed.

End aggregate_lemmas.

(** ** Properties *)

(** C6: the aggregate is a ledger.  Starting from an aggregate that
    satisfies the invariant, and as long as the credits do not push the balance
    past the largest [int], any sequence of credit and debit requests runs to
    the end, keeps the invariant (non-negative balance, tier of the balance),
    leaves exactly the ledger's balance, and has raised one credited event per
    accepted credit, in order, with its order and amount. *)
Theorem aggregate_refines_ledger `{Ambient} (ops : list agg_op) (a : LoyaltyAggregate) (amb : ambient) :
  agg_ok a → (agg_Balance a + total_credit ops ≤ max_int)%Z →
  ∃ a' amb', apply_ops a ops amb = (Returns a', amb') ∧ agg_ok a' ∧
    agg_Balance a' = ledger (agg_Balance a) ops ∧
    omap event_credit (domainEvents a') = omap event_credit (domainEvents a) ++ credits ops.
Proof.
  revert a amb. induction ops as [|op ops IH]; intros a amb Hok Hmax.
  { exists a, amb. by rewrite app_nil_r. }
  rewrite total_credit_cons in Hmax. pose proof (total_credit_nonneg ops) as Hnn.
  destruct (apply_op_ok a op amb Hok) as (a1 & e & amb1 & Hrun & Hok1 & Hb1 & Hev1); [lia|].
  pose proof (ledger_step_bound (agg_Balance a) op) as Hbd. destruct Hok as [Hr _].
  destruct (IH a1 amb1 Hok1) as (a' & amb' & Hrun' & Hok' & Hb' & Hev'); [lia|].
  exists a', amb'. rewrite (credits_cons op ops). cbn [apply_ops]. rewrite M_bind_eq, Hrun.
  split; [exact Hrun'|]. split; [exact Hok'|]. split.
  - by rewrite Hb', Hb1.
  - by rewrite Hev', Hev1, app_assoc.
Qed.

Lemma aggregate_refines_ledger_witness :
  ∃ a' amb',
    apply_ops (Reconstitute (mkAccount "a" "c" (mkPoints 480) TierBronze 0 0))
      [OpCredit "o1" 30; OpDebit "refund" 600; OpDebit "refund" 11] (mkAmbient 0 0) = (Returns a', amb') ∧
    agg_Balance a' = 499%Z.
Proof.
  destruct (aggregate_refines_ledger
              [OpCredit "o1" 30; OpDebit "refund" 600; OpDebit "refund" 11]
              (Reconstitute (mkAccount "a" "c" (mkPoints 480) TierBronze 0 0)) (mkAmbient 0 0))
    as (a' & amb' & Hrun & _ & Hb & _).
  - split; vm_compute; [split|]; congruence.
  - vm_compute. congruence.
  - exists a', amb'. split; [exact Hrun|exact Hb].
Defined.

(** [Points.Add] does not check for overflow: crediting past the
    largest [int] wraps the balance to a negative number, which the invariant
    of a balance excludes (and which the read back from the database refuses). *)
Theorem CreditPoints_overflow `{Ambient} (a : LoyaltyAggregate) (o : string) (v : Z) (amb : ambient) :
  agg_ok a → (0 < v ≤ max_int)%Z → (max_int < agg_Balance a + v)%Z →
  ∃ a' amb', CreditPoints a o (mkPoints v) amb = (Returns (a', None), amb') ∧
    (agg_Balance a' < 0)%Z ∧ agg_Tier a' = TierBronze ∧
    (NewPoints (agg_Balance a')).2 = Some ErrNegativePoints.
Proof.
  intros [Hb _] Hv Hover.
  destruct (CreditPoints_run a o v amb) as (acc & ev & amb' & -> & Hbal & Ht & _); [lia|].
  assert (value (acc_Balance acc) < 0)%Z as Hneg.
  { rewrite Hbal. unfold wrap64, max_int in *.
    rewrite <- (Z.mod_unique_pos (agg_Balance a + v + 2 ^ 63) (2 ^ 64) 1
                 (agg_Balance a + v - 2 ^ 63)); lia. }
  do 2 eexists. split; [reflexivity|]. unfold agg_Balance, agg_Tier, Points_Value. simpl.
  split; [done|]. rewrite Ht, NewPoints_neg by done. split; [|done].
  unfold CalculateTier, Points_Value. rewrite !bool_decide_false; [done|..]; vm_compute TierThresholds; lia.
Qed.

Lemma CreditPoints_overflow_witness :
  ∃ a' amb',
    CreditPoints (Reconstitute (mkAccount "a" "c" (mkPoints max_int) TierGold 0 0)) "o"
      (mkPoints 1) (mkAmbient 0 0) = (Returns (a', None), amb') ∧ (agg_Balance a' < 0)%Z.
Proof.
  destruct (CreditPoints_overflow
              (Reconstitute (mkAccount "a" "c" (mkPoints max_int) TierGold 0 0)) "o" 1
              (mkAmbient 0 0)) as (a' & amb' & Hrun & Hneg & _).
  - split; vm_compute; [split|]; congruence.
  - vm_compute. split; congruence.
  - vm_compute. congruence.
  - exists a', amb'. split; [exact Hrun|exact Hneg].
Defined.
