(* ===== verification/GoStr.v ===== *)
(** * strings and strconv

    What the program uses of Go's [strings] and [strconv]: decimal printing and
    parsing of [int] with Go's error cases, trimming, upper-casing, prefixes.
    Strings are byte strings; [TrimSpace] and [ToUpper] are modelled on ASCII
    (the repository calls them on process ids and command names). *)

From S2P Require Import Prelude.

Definition chars (s : string) : list Ascii.ascii := String.list_ascii_of_string s.
Definition str (l : list Ascii.ascii) : string := String.string_of_list_ascii l.

Definition code (c : Ascii.ascii) : Z := Z.of_nat (Ascii.nat_of_ascii c).

(** ** strconv *)

Definition digit (d : Z) : Ascii.ascii := Ascii.ascii_of_nat (48 + Z.to_nat d).

Definition digit_val (c : Ascii.ascii) : option Z :=
  if bool_decide (48 ≤ code c ≤ 57)%Z then Some (code c - 48)%Z else None.

(** The digits of a number, least significant first.  Twenty digits are enough
    for any 64-bit value. *)
Fixpoint udigits (fuel : nat) (n : Z) : list Ascii.ascii :=
  match fuel with
  | 0 => []
  | S fuel => if bool_decide (n < 10)%Z then [digit n]
              else digit (n `mod` 10) :: udigits fuel (n `div` 10)
  end.

(** [strconv.Itoa], and [%d] of [fmt]. *)
Definition Itoa (z : Z) : string :=
  if bool_decide (z < 0)%Z
  then str (Ascii.ascii_of_nat 45 :: rev (udigits 20 (- z)))
  else str (rev (udigits 20 z)).

Inductive num_error : Type := ErrSyntax | ErrRange.

Inductive uint_result : Type := UOk (n : Z) | UErr (e : num_error).

Definition max_uint64 : Z := (2 ^ 64 - 1)%Z.

(** The scanning loop of [ParseUint] in base 10: a bad byte is a syntax error,
    and an overflow is reported as soon as it happens. *)
Fixpoint parse_uint_loop (cs : list Ascii.ascii) (n : Z) : uint_result :=
  match cs with
  | [] => UOk n
  | c :: cs' =>
      match digit_val c with
      | None => UErr ErrSyntax
      | Some d =>
          if bool_decide (max_uint64 `div` 10 + 1 ≤ n)%Z then UErr ErrRange
          else if bool_decide (max_uint64 < n * 10 + d)%Z then UErr ErrRange
          else parse_uint_loop cs' (n * 10 + d)%Z
      end
  end.

Definition ParseUint (cs : list Ascii.ascii) : uint_result :=
  match cs with [] => UErr ErrSyntax | _ => parse_uint_loop cs 0 end.

(** [strconv.Atoi]: the value and the error.  A syntax error gives 0; a range
    error gives the nearest [int].  (The fast path of the library for short
    inputs computes the same.) *)
Definition Atoi (s : string) : Z * option num_error :=
  let '(neg, cs) :=
    match chars s with
    | c :: cs' => if bool_decide (c = Ascii.ascii_of_nat 45) then (true, cs')
                  else if bool_decide (c = Ascii.ascii_of_nat 43) then (false, cs')
                  else (false, c :: cs')
    | [] => (false, [])
    end in
  match ParseUint cs with
  | UErr ErrSyntax => (0%Z, Some ErrSyntax)
  | UErr ErrRange => (if neg then min_int else max_int, Some ErrRange)
  | UOk un =>
      if neg then if bool_decide (2 ^ 63 < un)%Z then (min_int, Some ErrRange) else ((- un)%Z, None)
      else if bool_decide (2 ^ 63 ≤ un)%Z then (max_int, Some ErrRange) else (un, None)
  end.

(** ** strings *)

Definition is_space (c : Ascii.ascii) : bool :=
  bool_decide (9 ≤ code c ≤ 13 ∨ code c = 32)%Z.

Fixpoint drop_spaces (l : list Ascii.ascii) : list Ascii.ascii :=
  match l with
  | c :: l' => if is_space c then drop_spaces l' else l
  | [] => []
  end.

Definition TrimSpace (s : string) : string := str (rev (drop_spaces (rev (drop_spaces (chars s))))).

Definition upper_char (c : Ascii.ascii) : Ascii.ascii :=
  if bool_decide (97 ≤ code c ≤ 122)%Z then Ascii.ascii_of_nat (Ascii.nat_of_ascii c - 32) else c.

Definition ToUpper (s : string) : string := str (upper_char <$> chars s).

Definition HasPrefix (s p : string) : bool := bool_decide (take (length (chars p)) (chars s) = chars p).

(** [reader.ReadString('\n')]: the bytes up to and including the first newline,
    or an error when the stream ends before one. *)
Definition newline : Ascii.ascii := Ascii.ascii_of_nat 10.

Fixpoint read_line (l : list Ascii.ascii) : option (list Ascii.ascii * list Ascii.ascii) :=
  match l with
  | [] => None
  | c :: l' => if bool_decide (c = newline) then Some ([c], l')
               else '(line, rest) ← read_line l'; Some (c :: line, rest)
  end.

(** ** Lemmas *)

Lemma chars_str l : chars (str l) = l.
Proof. apply String.list_ascii_of_string_of_list_ascii. Qed.

Lemma chars_app s1 s2 : chars (s1 +:+ s2) = chars s1 ++ chars s2.
Proof. induction s1 as [|c s1 IH]; [done|]. simpl. by f_equal. Qed.

Lemma str_chars s : str (chars s) = s.
Proof. apply String.string_of_list_ascii_of_string. Qed.

Lemma code_digit d : (0 ≤ d < 10)%Z → code (digit d) = (48 + d)%Z.
Proof.
  intros. unfold code, digit. rewrite Ascii.nat_ascii_embedding; lia.
Qed.

Lemma code_ascii n : n < 256 → code (Ascii.ascii_of_nat n) = Z.of_nat n.
Proof. intros. unfold code. by rewrite Ascii.nat_ascii_embedding. Qed.

(** A digit is none of the other characters the program compares with. *)
Lemma digit_neq d n : (0 ≤ d < 10)%Z → n < 48 → digit d ≠ Ascii.ascii_of_nat n.
Proof. intros Hd Hn H%(f_equal code). rewrite code_digit, code_ascii in H by lia. lia. Qed.

Lemma digit_val_digit d : (0 ≤ d < 10)%Z → digit_val (digit d) = Some d.
Proof.
  intros Hd. unfold digit_val. rewrite code_digit by done.
  rewrite bool_decide_true by lia. f_equal. lia.
Qed.

Lemma udigits_digits fuel n :
  (0 ≤ n)%Z → Forall (λ c, ∃ d, c = digit d ∧ 0 ≤ d < 10)%Z (udigits fuel n).
Proof.
  revert n. induction fuel as [|fuel IH]; intros n Hn; simpl; [done|].
  case_bool_decide; constructor.
  - exists n. split; [done|lia].
  - done.
  - exists (n `mod` 10)%Z. split; [done|]. apply Z.mod_pos_bound. lia.
  - apply IH. apply Z.div_pos; lia.
Qed.

Lemma udigits_not_nil fuel n : fuel ≠ 0 → udigits fuel n ≠ [].
Proof. destruct fuel; [done|]. simpl. by case_bool_decide. Qed.

Lemma parse_uint_loop_app cs1 cs2 n m :
  parse_uint_loop cs1 n = UOk m → parse_uint_loop (cs1 ++ cs2) n = parse_uint_loop cs2 m.
Proof.
  revert n. induction cs1 as [|c cs1 IH]; intros n; cbn [parse_uint_loop app].
  { intros [= ->]. reflexivity. }
  destruct (digit_val c) as [d|]; [|discriminate].
  case_bool_decide; [discriminate|]. case_bool_decide; [discriminate|]. apply IH.
Qed.

Lemma parse_digit n d :
  (0 ≤ n)%Z → (0 ≤ d < 10)%Z → (n * 10 + d ≤ max_uint64)%Z →
  parse_uint_loop [digit d] n = UOk (n * 10 + d).
Proof.
  intros Hn Hd Hm. cbn [parse_uint_loop]. rewrite digit_val_digit by done.
  rewrite bool_decide_false.
  2: { unfold max_uint64 in *. pose proof (Z.div_le_mono (n * 10 + d) (2 ^ 64 - 1) 10).
       change ((2 ^ 64 - 1) `div` 10)%Z with 1844674407370955161%Z. lia. }
  by rewrite bool_decide_false by lia.
Qed.

Lemma parse_udigits fuel n :
  (0 ≤ n < 10 ^ Z.of_nat fuel)%Z → (n ≤ max_uint64)%Z →
  parse_uint_loop (rev (udigits fuel n)) 0 = UOk n.
Proof.
  revert n. induction fuel as [|fuel IH]; intros n Hn Hm; cbn [udigits].
  { cbn [rev parse_uint_loop]. f_equal. change (10 ^ Z.of_nat 0)%Z with 1%Z in Hn. lia. }
  case_bool_decide as H10; cbn [rev app].
  - apply (parse_digit 0 n); unfold max_uint64 in *; lia.
  - pose proof (Z.div_mod n 10). pose proof (Z.mod_pos_bound n 10).
    assert (0 ≤ n `div` 10)%Z by (apply Z.div_pos; lia).
    rewrite (parse_uint_loop_app _ _ _ (n `div` 10)).
    + rewrite parse_digit; [f_equal|..]; lia.
    + apply IH; [|lia]. split; [done|]. apply Z.div_lt_upper_bound; [lia|].
      rewrite Nat2Z.inj_succ, Z.pow_succ_r in Hn by lia. lia.
Qed.

Lemma ParseUint_udigits n :
  (0 ≤ n ≤ max_uint64)%Z → ParseUint (rev (udigits 20 n)) = UOk n.
Proof.
  intros Hn. rewrite <- (parse_udigits 20 n); [|unfold max_uint64 in *; lia|lia].
  unfold ParseUint. destruct (rev (udigits 20 n)) eqn:E; [|done].
  apply (f_equal (@rev _)) in E. rewrite rev_involutive in E. by apply udigits_not_nil in E.
Qed.

Lemma udigits_head_not_sign n c cs :
  (0 ≤ n)%Z → rev (udigits 20 n) = c :: cs →
  c ≠ Ascii.ascii_of_nat 45 ∧ c ≠ Ascii.ascii_of_nat 43.
Proof.
  intros Hn E. pose proof (udigits_digits 20 n Hn) as Hall.
  apply Forall_rev in Hall. rewrite E in Hall.
  apply Forall_cons in Hall as [(d & -> & Hd) _].
  split; apply digit_neq; (done || lia).
Qed.

Lemma Itoa_chars_shape z :
  Forall (λ c, c = Ascii.ascii_of_nat 45 ∨ ∃ d, c = digit d ∧ 0 ≤ d < 10)%Z (chars (Itoa z)).
Proof.
  unfold Itoa. case_bool_decide; rewrite chars_str; [constructor; [by left|]|].
  all: apply Forall_rev; eapply Forall_impl; [apply udigits_digits; lia|]; naive_solver.
Qed.

(** Parsing what [Itoa] printed gives the number back, without an error. *)
Lemma Atoi_Itoa z : is_int z → Atoi (Itoa z) = (z, None).
Proof.
  intros [Hlo Hhi]. unfold Atoi, Itoa, min_int, max_int in *.
  case_bool_decide as Hneg; rewrite chars_str.
  - rewrite bool_decide_true, ParseUint_udigits by (done || unfold max_uint64; lia).
    rewrite bool_decide_false by lia. f_equal. lia.
  - destruct (rev (udigits 20 z)) as [|c cs] eqn:E.
    { apply (f_equal (@rev _)) in E. rewrite rev_involutive in E. by apply udigits_not_nil in E. }
    destruct (udigits_head_not_sign z c cs) as [H1 H2]; [lia|done|].
    rewrite !bool_decide_false by done. rewrite <- E, ParseUint_udigits by (unfold max_uint64; lia).
    by rewrite bool_decide_false by lia.
Qed.

Lemma drop_spaces_id l : Forall (λ c, is_space c = false) l → drop_spaces l = l.
Proof. by intros [|c l' Hc _]; simpl; rewrite ?Hc. Qed.

Lemma drop_spaces_app l1 l2 :
  Forall (λ c, is_space c = true) l1 → drop_spaces (l1 ++ l2) = drop_spaces l2.
Proof. induction 1 as [|c l1 Hc _ IH]; simpl; [done|]. by rewrite Hc. Qed.

Lemma Itoa_no_space z : Forall (λ c, is_space c = false ∧ c ≠ newline) (chars (Itoa z)).
Proof.
  eapply Forall_impl; [apply Itoa_chars_shape|].
  intros c [->|(d & -> & Hd)]; [done|]. split.
  - unfold is_space. rewrite code_digit by done. apply bool_decide_false. lia.
  - apply digit_neq; (done || lia).
Qed.

Lemma TrimSpace_line l :
  Forall (λ c, is_space c = false) l → TrimSpace (str (l ++ [newline])) = str l.
Proof.
  intros Hl. unfold TrimSpace. rewrite chars_str. f_equal.
  assert (drop_spaces (rev (l ++ [newline])) = rev l) as Hr.
  { rewrite rev_app_distr. simpl. apply drop_spaces_id, Forall_rev, Hl. }
  destruct l as [|c l]; [done|]. rewrite Forall_cons in Hl. destruct Hl as [Hc Hl].
  cbn [app drop_spaces]. rewrite Hc. rewrite app_comm_cons, Hr. apply rev_involutive.
Qed.

Lemma read_line_app l rest :
  Forall (λ c, c ≠ newline) l → read_line (l ++ newline :: rest) = Some (l ++ [newline], rest).
Proof.
  induction 1 as [|c l Hc _ IH]; cbn [app read_line].
  - by rewrite bool_decide_true.
  - rewrite bool_decide_false by done. rewrite IH. done.
Qed.

(** The decimal text contains no dot. *)
Lemma Itoa_no_dot z : Ascii.ascii_of_nat 46 ∉ chars (Itoa z).
Proof.
  intros Hin. pose proof (Itoa_chars_shape z) as Hall. rewrite Forall_forall in Hall.
  destruct (Hall _ Hin) as [H|(d & H & Hd)]; [done|].
  symmetry in H. revert H. apply digit_neq; (done || lia).
Qed.

#[global] Instance chars_inj : Inj (=) (=) chars.
Proof. intros s1 s2 H%(f_equal str). by rewrite !str_chars in H. Qed.

Lemma Itoa_inj z1 z2 : is_int z1 → is_int z2 → Itoa z1 = Itoa z2 → z1 = z2.
Proof. intros H1 H2 E%(f_equal Atoi). rewrite !Atoi_Itoa in E by done. by injection E. Qed.

(** Two texts with a dot-free tail agree up to their last dot. *)
Lemma last_dot_inj (p1 p2 t1 t2 : list Ascii.ascii) (dot : Ascii.ascii) :
  dot ∉ t1 → dot ∉ t2 → p1 ++ dot :: t1 = p2 ++ dot :: t2 → p1 = p2 ∧ t1 = t2.
Proof.
  revert p2. induction p1 as [|c p1 IH]; intros [|c' p2] H1 H2 E; simplify_eq/=.
  - done.
  - exfalso. apply H1. set_solver.
  - exfalso. apply H2. set_solver.
  - destruct (IH p2) as [-> ->]; done.
Qed.
