(* ===== verification/GoJson.v ===== *)
(** * encoding/json at the level of JSON values

    The wire is modelled by the JSON value a byte string denotes.  [JTime t] is
    the RFC 3339 string [time.Time] marshals to.  Decoding follows
    [json.Unmarshal]: fields are matched by name, exactly or up to ASCII case;
    unknown fields are skipped; a type mismatch is remembered, the rest of the
    object is still decoded, and the first mismatch is the error returned. *)

From S2P Require Import Prelude GoFloat.
From Stdlib Require Import SpecFloat ZifyNat.

(** lia through division and remainder by constants. *)
#[local] Ltac Zify.zify_post_hook ::= Z.to_euclidean_division_equations.

Inductive json : Type :=
| JNull
| JBool (b : bool)
| JNum (z : Z)
| JFloat (f : float64)
| JStr (s : string)
| JTime (t : Z)
| JArr (l : list json)
| JObj (kvs : list (string * json)).

Definition lower_ascii (c : Ascii.ascii) : Ascii.ascii :=
  let n := Ascii.nat_of_ascii c in
  if bool_decide (65 ≤ n ≤ 90) then Ascii.ascii_of_nat (n + 32) else c.

Fixpoint lower (s : string) : string :=
  match s with EmptyString => "" | String c s' => String (lower_ascii c) (lower s') end.

Definition field_is (key name : string) : bool := bool_decide (lower key = lower name).

Definition UnmarshalTypeError : error := Foreign "json.UnmarshalTypeError" "json: cannot unmarshal".

Definition first_err (e1 e2 : goerror) : goerror :=
  match e1 with Some _ => e1 | None => e2 end.

(** Decode the pairs of an object into a struct, field by field. *)
Fixpoint decode_obj {T} (set : string → json → T → T * goerror) (kvs : list (string * json))
    (t : T) (err : goerror) : T * goerror :=
  match kvs with
  | [] => (t, err)
  | (k, v) :: kvs' =>
      let '(t', e) := set k v t in decode_obj set kvs' t' (first_err err e)
  end.

(** [json.Unmarshal] into a struct: a null leaves it as it is. *)
Definition decode_struct {T} (set : string → json → T → T * goerror) (j : json) (t : T) : T * goerror :=
  match j with
  | JObj kvs => decode_obj set kvs t None
  | JNull => (t, None)
  | _ => (t, Some UnmarshalTypeError)
  end.

Definition decode_string (j : json) (cur : string) : string * goerror :=
  match j with
  | JStr s => (s, None)
  | JNull => (cur, None)
  | _ => (cur, Some UnmarshalTypeError)
  end.

Definition decode_int (j : json) (cur : Z) : Z * goerror :=
  match j with
  | JNum z => if bool_decide (is_int z) then (z, None) else (cur, Some UnmarshalTypeError)
  | JNull => (cur, None)
  | _ => (cur, Some UnmarshalTypeError)
  end.

Definition decode_time (j : json) (cur : Z) : Z * goerror :=
  match j with
  | JTime t => (t, None)
  | JNull => (cur, None)
  | _ => (cur, Some (Foreign "time.ParseError" "parsing time"))
  end.

(** A [map[string]string]. *)
Fixpoint decode_string_pairs (kvs : list (string * json)) (m : gmap string string) :
    gmap string string * goerror :=
  match kvs with
  | [] => (m, None)
  | (k, JStr s) :: kvs' => decode_string_pairs kvs' (<[k := s]> m)
  | (k, JNull) :: kvs' => decode_string_pairs kvs' (<[k := ""]> m)
  | (k, _) :: kvs' => let '(m', _) := decode_string_pairs kvs' m in (m', Some UnmarshalTypeError)
  end.

Definition decode_string_map (j : json) (cur : gmap string string) : gmap string string * goerror :=
  match j with
  | JObj kvs => decode_string_pairs kvs cur
  | JNull => (∅, None)
  | _ => (cur, Some UnmarshalTypeError)
  end.

Definition encode_string_map (m : gmap string string) : json :=
  JObj ((λ '(k, v), (k, JStr v)) <$> map_to_list m).

(** A finite float marshals to a number; NaN and infinities are refused. *)
Definition encode_float (f : float64) : option json :=
  match f with
  | S754_nan | S754_infinity _ => None
  | _ => Some (JFloat f)
  end.

Definition UnsupportedValueError : error := Foreign "json.UnsupportedValueError" "json: unsupported value".

(** ** Base 64, as [[]byte] fields are encoded *)

Definition b64_alphabet : list Ascii.ascii :=
  String.list_ascii_of_string "ABCDEFGHIJKLMNOPQRSTUVWXYZabcdefghijklmnopqrstuvwxyz0123456789+/".

Definition b64_char (i : nat) : Ascii.ascii := nth i b64_alphabet (Ascii.ascii_of_nat 61).

Fixpoint index_of (c : Ascii.ascii) (l : list Ascii.ascii) : option nat :=
  match l with
  | [] => None
  | x :: l' => if bool_decide (x = c) then Some 0 else S <$> index_of c l'
  end.

Definition b64_index (c : Ascii.ascii) : option nat := index_of c b64_alphabet.

Definition pad : Ascii.ascii := Ascii.ascii_of_nat 61.

(** Bytes are naturals below 256. *)
Fixpoint b64_encode (bs : list nat) : list Ascii.ascii :=
  match bs with
  | [] => []
  | [a] => [b64_char (a / 4); b64_char (a mod 4 * 16); pad; pad]
  | [a; b] => [b64_char (a / 4); b64_char (a mod 4 * 16 + b / 16); b64_char (b mod 16 * 4); pad]
  | a :: b :: c :: bs' =>
      b64_char (a / 4) :: b64_char (a mod 4 * 16 + b / 16) ::
      b64_char (b mod 16 * 4 + c / 64) :: b64_char (c mod 64) :: b64_encode bs'
  end.

Fixpoint b64_decode (cs : list Ascii.ascii) : option (list nat) :=
  match cs with
  | [] => Some []
  | c0 :: c1 :: c2 :: c3 :: cs' =>
      i ← b64_index c0;
      j ← b64_index c1;
      if bool_decide (c2 = pad) then
        if bool_decide (c3 = pad ∧ cs' = []) then Some [i * 4 + j / 16] else None
      else
        k ← b64_index c2;
        if bool_decide (c3 = pad) then
          if bool_decide (cs' = []) then Some [i * 4 + j / 16; j mod 16 * 16 + k / 4] else None
        else
          l ← b64_index c3;
          rest ← b64_decode cs';
          Some (i * 4 + j / 16 :: j mod 16 * 16 + k / 4 :: k mod 4 * 64 + l :: rest)
  | _ => None
  end.

(** A nil slice is null; otherwise the base 64 string. *)
Definition encode_bytes (bs : option (list nat)) : json :=
  match bs with
  | None => JNull
  | Some l => JStr (String.string_of_list_ascii (b64_encode l))
  end.

Definition decode_bytes (j : json) (cur : option (list nat)) : option (list nat) * goerror :=
  match j with
  | JNull => (None, None)
  | JStr s =>
      match b64_decode (String.list_ascii_of_string s) with
      | Some l => (Some l, None)
      | None => (cur, Some (Foreign "base64.CorruptInputError" "illegal base64 data"))
      end
  | _ => (cur, Some UnmarshalTypeError)
  end.

(** ** Lemmas *)

Lemma b64_index_char i : i < 64 → b64_index (b64_char i) = Some i ∧ b64_char i ≠ pad.
Proof.
  intros Hi.
  assert (Forall (λ i, b64_index (b64_char i) = Some i ∧ b64_char i ≠ pad) (seq 0 64)) as Hall
    by decide_by_eval.
  rewrite Forall_forall in Hall. apply Hall, elem_of_seq. lia.
Qed.

(** Advance an option computation with a known intermediate result. *)
Ltac opt_step E := rewrite E; cbn [mbind option_bind].

(** One full group of three bytes. *)
Lemma b64_group a b c rest cs :
  a < 256 → b < 256 → c < 256 → b64_decode cs = Some rest →
  b64_decode (b64_char (a / 4) :: b64_char (a mod 4 * 16 + b / 16) ::
              b64_char (b mod 16 * 4 + c / 64) :: b64_char (c mod 64) :: cs) =
    Some (a :: b :: c :: rest).
Proof.
  intros Ha Hb Hc Hcs. cbn [b64_decode].
  destruct (b64_index_char (a / 4)) as [E0 _]; [lia|].
  destruct (b64_index_char (a mod 4 * 16 + b / 16)) as [E1 _]; [lia|].
  destruct (b64_index_char (b mod 16 * 4 + c / 64)) as [E2 Hp2]; [lia|].
  destruct (b64_index_char (c mod 64)) as [E3 Hp3]; [lia|].
  opt_step E0. opt_step E1. rewrite bool_decide_false by done.
  opt_step E2. rewrite bool_decide_false by done. opt_step E3. opt_step Hcs.
  repeat f_equal; lia.
Qed.

Lemma b64_roundtrip bs : Forall (λ b, b < 256) bs → b64_decode (b64_encode bs) = Some bs.
Proof.
  remember (length bs) as n eqn:Hn. revert bs Hn.
  induction (lt_wf n) as [n _ IH]. intros bs -> Hall.
  destruct bs as [|a [|b [|c bs]]]; [done|..].
  - rewrite Forall_singleton in Hall. cbn [b64_encode b64_decode].
    destruct (b64_index_char (a / 4)) as [E0 _]; [lia|].
    destruct (b64_index_char (a mod 4 * 16)) as [E1 _]; [lia|].
    opt_step E0. opt_step E1. rewrite bool_decide_true, bool_decide_true by done.
    repeat f_equal. lia.
  - rewrite !Forall_cons in Hall. destruct Hall as (Ha & Hb & _). cbn [b64_encode b64_decode].
    destruct (b64_index_char (a / 4)) as [E0 _]; [lia|].
    destruct (b64_index_char (a mod 4 * 16 + b / 16)) as [E1 _]; [lia|].
    destruct (b64_index_char (b mod 16 * 4)) as [E2 Hp]; [lia|].
    opt_step E0. opt_step E1. rewrite bool_decide_false by done.
    opt_step E2. rewrite bool_decide_true, bool_decide_true by done. repeat f_equal; lia.
  - rewrite !Forall_cons in Hall. destruct Hall as (Ha & Hb & Hc & Hall).
    apply b64_group; try done. apply (IH (length bs)); [simpl; lia|done|done].
Qed.

Lemma decode_encode_bytes bs cur :
  from_option (Forall (λ b, b < 256)) True bs →
  decode_bytes (encode_bytes bs) cur = (bs, None).
Proof.
  destruct bs as [l|]; simpl; [|done]. intros Hl.
  by rewrite String.list_ascii_of_string_of_list_ascii, b64_roundtrip.
Qed.

Lemma decode_string_pairs_map (l : list (string * string)) (m : gmap string string) :
  NoDup l.*1 → (∀ k, k ∈ l.*1 → m !! k = None) →
  decode_string_pairs ((λ '(k, v), (k, JStr v)) <$> l) m = (list_to_map l ∪ m, None).
Proof.
  revert m. induction l as [|[k v] l IH]; intros m Hnd Hfresh; simpl.
  { by rewrite (left_id_L ∅ (∪)). }
  apply NoDup_cons in Hnd as [Hk Hnd]. rewrite IH; [|done|].
  - f_equal. rewrite <- insert_union_l, insert_union_r; [done|].
    apply not_elem_of_list_to_map. done.
  - intros k' Hk'. simpl in Hfresh. rewrite lookup_insert_ne by set_solver.
    apply Hfresh. set_solver.
Qed.

Lemma decode_encode_string_map m : decode_string_map (encode_string_map m) ∅ = (m, None).
Proof.
  unfold decode_string_map, encode_string_map. rewrite decode_string_pairs_map.
  - by rewrite (right_id_L ∅ (∪)), list_to_map_to_list.
  - apply NoDup_fst_map_to_list.
  - intros. apply lookup_empty.
Qed.
