(* ===== verification/JsonText.v ===== *)
(** * encoding/json at the level of bytes

    The text that [json.Marshal] writes for a JSON value and the value that
    [json.Unmarshal] reads from a text.  Strings are byte strings: the encoder escapes
    quotes, control characters, the HTML characters and the two line separators of
    Unicode and replaces bytes that are not UTF-8; the decoder undoes every escape,
    surrogate pairs included.  How floats and times are written and read is a
    parameter.  The decoder's limit of ten thousand nested values is not modelled. *)

From S2P Require Import Prelude GoStr GoFloat GoJson.
From Stdlib Require Import SpecFloat.

Abbreviation bytes := (list Ascii.ascii).

Definition chr (n : nat) : Ascii.ascii := Ascii.ascii_of_nat n.

Definition dquote : Ascii.ascii := chr 34.
Definition backslash : Ascii.ascii := chr 92.
Definition comma : Ascii.ascii := chr 44.
Definition colon : Ascii.ascii := chr 58.
Definition lbracket : Ascii.ascii := chr 91.
Definition rbracket : Ascii.ascii := chr 93.
Definition lbrace : Ascii.ascii := chr 123.
Definition rbrace : Ascii.ascii := chr 125.
Definition minus : Ascii.ascii := chr 45.

(** ** UTF-8 *)

Definition between (lo hi : Z) (c : Ascii.ascii) : bool := bool_decide (lo ≤ code c ≤ hi)%Z.

(** A sequence of more than one byte at the head: how many bytes follow the first. *)
Definition utf8_size (l : bytes) : option nat :=
  match l with
  | c0 :: c1 :: l2 =>
      if between 0xc2 0xdf c0 then if between 0x80 0xbf c1 then Some 1 else None
      else if between 0xe0 0xef c0 then
        let lo := if bool_decide (code c0 = 0xe0%Z) then 0xa0%Z else 0x80%Z in
        let hi := if bool_decide (code c0 = 0xed%Z) then 0x9f%Z else 0xbf%Z in
        match l2 with
        | c2 :: _ => if between lo hi c1 && between 0x80 0xbf c2 then Some 2 else None
        | [] => None
        end
      else if between 0xf0 0xf4 c0 then
        let lo := if bool_decide (code c0 = 0xf0%Z) then 0x90%Z else 0x80%Z in
        let hi := if bool_decide (code c0 = 0xf4%Z) then 0x8f%Z else 0xbf%Z in
        match l2 with
        | c2 :: c3 :: _ => if between lo hi c1 && between 0x80 0xbf c2 && between 0x80 0xbf c3 then Some 3 else None
        | _ => None
        end
      else None
  | _ => None
  end.

Definition zchr (z : Z) : Ascii.ascii := Ascii.ascii_of_nat (Z.to_nat z).

Definition encode_rune (r : Z) : bytes :=
  if bool_decide (r < 0x80)%Z then [zchr r]
  else if bool_decide (r < 0x800)%Z then [zchr (0xc0 + r / 64); zchr (0x80 + r mod 64)]
  else if bool_decide (r < 0x10000)%Z then
    [zchr (0xe0 + r / 4096); zchr (0x80 + r / 64 mod 64); zchr (0x80 + r mod 64)]
  else [zchr (0xf0 + r / 262144); zchr (0x80 + r / 4096 mod 64); zchr (0x80 + r / 64 mod 64); zchr (0x80 + r mod 64)].

Definition replacement : Z := 0xfffd%Z.

(** ** Writing strings *)

Definition hex_digit (n : Z) : Ascii.ascii := if bool_decide (n < 10)%Z then zchr (48 + n) else zchr (87 + n).

(** A byte below 128. *)
Definition escape_char (c : Ascii.ascii) : bytes :=
  let b := code c in
  if bool_decide (c = dquote ∨ c = backslash) then [backslash; c]
  else if bool_decide (b = 8)%Z then [backslash; chr 98]
  else if bool_decide (b = 12)%Z then [backslash; chr 102]
  else if bool_decide (b = 10)%Z then [backslash; chr 110]
  else if bool_decide (b = 13)%Z then [backslash; chr 114]
  else if bool_decide (b = 9)%Z then [backslash; chr 116]
  else if bool_decide (b < 32 ∨ b = 60 ∨ b = 62 ∨ b = 38)%Z then
    [backslash; chr 117; chr 48; chr 48; hex_digit (b / 16); hex_digit (b mod 16)]
  else [c].

(** [copy] bytes are copied and [drop] bytes skipped before the next character. *)
Fixpoint escape_bytes (copy drop : nat) (l : bytes) : bytes :=
  match l with
  | [] => []
  | c :: l' =>
      match copy, drop with
      | S k, _ => c :: escape_bytes k 0 l'
      | 0, S k => escape_bytes 0 k l'
      | 0, 0 =>
          if bool_decide (code c < 128)%Z then escape_char c ++ escape_bytes 0 0 l'
          else match utf8_size l with
               | None => chars "\ufffd" ++ escape_bytes 0 0 l'
               | Some n =>
                   if bool_decide (take 3 l = encode_rune 0x2028) then chars "\u2028" ++ escape_bytes 0 2 l'
                   else if bool_decide (take 3 l = encode_rune 0x2029) then chars "\u2029" ++ escape_bytes 0 2 l'
                   else c :: escape_bytes n 0 l'
               end
      end
  end.

Definition quoted (s : string) : bytes := dquote :: escape_bytes 0 0 (chars s) ++ [dquote].

(** ** Reading strings *)

Definition hex_val (c : Ascii.ascii) : option Z :=
  if between 48 57 c then Some (code c - 48)%Z
  else if between 97 102 c then Some (code c - 87)%Z
  else if between 65 70 c then Some (code c - 55)%Z
  else None.

Definition hex4 (a b c d : Ascii.ascii) : option Z :=
  x ← hex_val a; y ← hex_val b; z ← hex_val c; w ← hex_val d;
  Some (x * 4096 + y * 256 + z * 16 + w)%Z.

Definition is_surrogate (r : Z) : bool := bool_decide (0xd800 ≤ r < 0xe000)%Z.

(** A pair of surrogates, high before low. *)
Definition decode_pair (r1 r2 : Z) : option Z :=
  if bool_decide (0xd800 ≤ r1 < 0xdc00 ∧ 0xdc00 ≤ r2 < 0xe000)%Z
  then Some ((r1 - 0xd800) * 1024 + (r2 - 0xdc00) + 0x10000)%Z else None.

Definition simple_escape (e : Ascii.ascii) : option Ascii.ascii :=
  if bool_decide (e ∈ [dquote; backslash; chr 47]) then Some e
  else if bool_decide (e = chr 98) then Some (chr 8)
  else if bool_decide (e = chr 102) then Some (chr 12)
  else if bool_decide (e = chr 110) then Some (chr 10)
  else if bool_decide (e = chr 114) then Some (chr 13)
  else if bool_decide (e = chr 116) then Some (chr 9)
  else None.

Definition prepend (p : bytes) (x : option (bytes * bytes)) : option (bytes * bytes) :=
  '(a, rest) ← x; Some (p ++ a, rest).

(** The contents of a string up to its closing quote, and what follows it. *)
Fixpoint unquote (copy : nat) (s : bytes) : option (bytes * bytes) :=
  match s with
  | [] => None
  | c :: s1 =>
      match copy with
      | S k => prepend [c] (unquote k s1)
      | 0 =>
          if bool_decide (c = dquote) then Some ([], s1)
          else if bool_decide (c = backslash) then
            match s1 with
            | [] => None
            | e :: s2 =>
                if bool_decide (e = chr 117) then
                  match s2 with
                  | a :: b :: c' :: d :: s3 =>
                      match hex4 a b c' d with
                      | None => None
                      | Some r =>
                          if is_surrogate r then
                            match s3 with
                            | x :: y :: a2 :: b2 :: c2 :: d2 :: s4 =>
                                match (if bool_decide (x = backslash ∧ y = chr 117)
                                       then hex4 a2 b2 c2 d2 ≫= decode_pair r else None) with
                                | Some r' => prepend (encode_rune r') (unquote 0 s4)
                                | None => prepend (encode_rune replacement) (unquote 0 s3)
                                end
                            | _ => prepend (encode_rune replacement) (unquote 0 s3)
                            end
                          else prepend (encode_rune r) (unquote 0 s3)
                      end
                  | _ => None
                  end
                else match simple_escape e with
                     | Some x => prepend [x] (unquote 0 s2)
                     | None => None
                     end
            end
          else if bool_decide (code c < 32)%Z then None
          else if bool_decide (code c < 128)%Z then prepend [c] (unquote 0 s1)
          else match utf8_size s with
               | Some n => prepend [c] (unquote n s1)
               | None => prepend (encode_rune replacement) (unquote 0 s1)
               end
      end
  end.

(** A string that is UTF-8. *)
Fixpoint valid_utf8 (skip : nat) (l : bytes) : bool :=
  match l with
  | [] => bool_decide (skip = 0)
  | c :: l' =>
      match skip with
      | S k => valid_utf8 k l'
      | 0 => if bool_decide (code c < 128)%Z then valid_utf8 0 l'
             else match utf8_size l with Some n => valid_utf8 n l' | None => false end
      end
  end.

(** What is left of a string once it was written and read: a byte that is not part
    of a UTF-8 sequence becomes the replacement character. *)
Fixpoint to_valid (copy : nat) (l : bytes) : bytes :=
  match l with
  | [] => []
  | c :: l' =>
      match copy with
      | S k => c :: to_valid k l'
      | 0 => if bool_decide (code c < 128)%Z then c :: to_valid 0 l'
             else match utf8_size l with
                  | Some n => c :: to_valid n l'
                  | None => encode_rune replacement ++ to_valid 0 l'
                  end
      end
  end.

Definition valid_string (s : string) : string := str (to_valid 0 (chars s)).

Fixpoint valid_json (j : json) : json :=
  match j with
  | JStr s => JStr (valid_string s)
  | JArr l => JArr (valid_json <$> l)
  | JObj kvs => JObj ((λ kv, (valid_string kv.1, valid_json kv.2)) <$> kvs)
  | j => j
  end.

(** ** Writing values *)

Section text.
Context (float_text : float64 → bytes) (time_text : Z → bytes).

Fixpoint join (ls : list bytes) : bytes :=
  match ls with
  | [] => []
  | [x] => x
  | x :: ls' => x ++ comma :: join ls'
  end.

Fixpoint Marshal (j : json) : bytes :=
  match j with
  | JNull => chars "null"
  | JBool b => chars (if b then "true" else "false")
  | JNum z => chars (Itoa z)
  | JFloat f => float_text f
  | JStr s => quoted s
  | JTime t => dquote :: time_text t ++ [dquote]
  | JArr l => lbracket :: join (Marshal <$> l) ++ [rbracket]
  | JObj kvs => lbrace :: join ((λ kv, quoted kv.1 ++ colon :: Marshal kv.2) <$> kvs) ++ [rbrace]
  end.

End text.

(** ** Reading values *)

Definition json_space (c : Ascii.ascii) : bool := bool_decide (c ∈ [chr 32; chr 9; chr 10; chr 13]).

Fixpoint skip_ws (s : bytes) : bytes :=
  match s with
  | c :: s' => if json_space c then skip_ws s' else s
  | [] => []
  end.

Definition num_char (c : Ascii.ascii) : bool :=
  between 48 57 c || bool_decide (c ∈ [minus; chr 43; chr 46; chr 101; chr 69]).

Fixpoint span_num (s : bytes) : bytes * bytes :=
  match s with
  | c :: s' => if num_char c then let '(a, r) := span_num s' in (c :: a, r) else ([], s)
  | [] => ([], [])
  end.

Fixpoint digits_value (ds : bytes) (acc : Z) : option Z :=
  match ds with
  | [] => Some acc
  | c :: ds' => d ← digit_val c; digits_value ds' (acc * 10 + d)%Z
  end.

(** No sign, no superfluous zero. *)
Definition nat_literal (ds : bytes) : option Z :=
  match ds with
  | [] => None
  | [c] => digit_val c
  | c :: _ => if bool_decide (c = chr 48) then None else digits_value ds 0
  end.

Definition int_literal (l : bytes) : option Z :=
  match l with
  | c :: ds => if bool_decide (c = minus) then Z.opp <$> nat_literal ds else nat_literal l
  | [] => None
  end.

Fixpoint expect (lit s : bytes) : option bytes :=
  match lit, s with
  | [], _ => Some s
  | c :: lit', d :: s' => if bool_decide (c = d) then expect lit' s' else None
  | _ :: _, [] => None
  end.

Section parse.
Context (float_literal : bytes → option float64).

Definition parse_number (s : bytes) : option (json * bytes) :=
  let '(lit, rest) := span_num s in
  match lit, int_literal lit with
  | [], _ => None
  | _, Some z => Some (JNum z, rest)
  | _, None => f ← float_literal lit; Some (JFloat f, rest)
  end.

(** Every call goes one level down or one element on. *)
Fixpoint parse_value (fuel : nat) (s : bytes) : option (json * bytes) :=
  match fuel with
  | 0 => None
  | S fuel =>
      match skip_ws s with
      | [] => None
      | c :: s1 =>
          if bool_decide (c = dquote) then '(b, rest) ← unquote 0 s1; Some (JStr (str b), rest)
          else if bool_decide (c = lbracket) then
            match skip_ws s1 with
            | d :: s2 =>
                if bool_decide (d = rbracket) then Some (JArr [], s2)
                else '(l, rest) ← parse_elems fuel s1; Some (JArr l, rest)
            | [] => None
            end
          else if bool_decide (c = lbrace) then
            match skip_ws s1 with
            | d :: s2 =>
                if bool_decide (d = rbrace) then Some (JObj [], s2)
                else '(l, rest) ← parse_members fuel s1; Some (JObj l, rest)
            | [] => None
            end
          else if bool_decide (c = chr 110) then rest ← expect (chars "null") (c :: s1); Some (JNull, rest)
          else if bool_decide (c = chr 116) then rest ← expect (chars "true") (c :: s1); Some (JBool true, rest)
          else if bool_decide (c = chr 102) then rest ← expect (chars "false") (c :: s1); Some (JBool false, rest)
          else parse_number (c :: s1)
      end
  end
with parse_elems (fuel : nat) (s : bytes) : option (list json * bytes) :=
  match fuel with
  | 0 => None
  | S fuel =>
      '(j, s1) ← parse_value fuel s;
      match skip_ws s1 with
      | d :: s2 =>
          if bool_decide (d = rbracket) then Some ([j], s2)
          else if bool_decide (d = comma) then '(l, rest) ← parse_elems fuel s2; Some (j :: l, rest)
          else None
      | [] => None
      end
  end
with parse_members (fuel : nat) (s : bytes) : option (list (string * json) * bytes) :=
  match fuel with
  | 0 => None
  | S fuel =>
      s1 ← expect [dquote] (skip_ws s);
      '(k, s2) ← unquote 0 s1;
      s3 ← expect [colon] (skip_ws s2);
      '(j, s4) ← parse_value fuel s3;
      match skip_ws s4 with
      | d :: s5 =>
          if bool_decide (d = rbrace) then Some ([(str k, j)], s5)
          else if bool_decide (d = comma) then '(l, rest) ← parse_members fuel s5; Some ((str k, j) :: l, rest)
          else None
      | [] => None
      end
  end.

(** A whole text: one value between white space. *)
Definition Unmarshal (s : bytes) : option json :=
  '(j, rest) ← parse_value (S (length s)) s;
  match skip_ws rest with [] => Some j | _ => None end.

End parse.

(** ** Strings round trip *)

Lemma prepend_prepend p q x : prepend p (prepend q x) = prepend (p ++ q) x.
Proof. destruct x as [[a r]|]; [|done]. cbn. by rewrite app_assoc. Qed.

(** A byte below 128, escaped or not. *)
Lemma unquote_escape c t : (code c < 128)%Z → unquote 0 (escape_char c ++ t) = prepend [c] (unquote 0 t).
Proof.
  destruct c as [[] [] [] [] [] [] [] []]; intros Hc; try (exfalso; vm_compute in Hc; discriminate Hc); reflexivity.
Qed.

(** The bytes of a longer sequence are copied. *)
Lemma unquote_copy n c l t :
  (128 ≤ code c)%Z → utf8_size (c :: l) = Some n → length l = n →
  unquote 0 (c :: l ++ t) = prepend (c :: l) (unquote 0 t).
Proof.
  intros Hc Hs Hl. assert (utf8_size (c :: l ++ t) = Some n) as Hs'.
  { destruct l as [|c1 [|c2 [|c3 l]]]; cbn in Hs, Hl |- *; try done; repeat case_match; simplify_eq/=; done. }
  assert (bool_decide (c = dquote) = false ∧ bool_decide (c = backslash) = false) as [E1 E2].
  { split; apply bool_decide_eq_false; intros ->; vm_compute in Hc; by apply Hc. }
  cbn [unquote]. rewrite E1, E2, !bool_decide_false by lia. rewrite Hs'.
  assert (∀ m, unquote (length m) (m ++ t) = prepend m (unquote 0 t)) as Hcopy.
  { intros m. induction m as [|x m IH]; [cbn [app length]; by destruct (unquote 0 t) as [[]|]|].
    cbn [app length unquote]. by rewrite IH, prepend_prepend. }
  by rewrite <- Hl, Hcopy, prepend_prepend.
Qed.

(** What the three kinds of sequences look like. *)
Lemma utf8_size_cases l n :
  utf8_size l = Some n →
  ∃ c m rest, l = c :: m ++ rest ∧ length m = n ∧ (128 ≤ code c)%Z ∧ utf8_size (c :: m) = Some n.
Proof.
  intros Hs. destruct l as [|c [|c1 l2]]; try done. cbn [utf8_size] in Hs.
  destruct (between 0xc2 0xdf c) eqn:H1; [|destruct (between 0xe0 0xef c) eqn:H2;
    [|destruct (between 0xf0 0xf4 c) eqn:H3; [|done]]].
  - destruct (between _ _ c1) eqn:E1; [|done]. injection Hs as <-. exists c, [c1], l2. cbn [utf8_size].
    rewrite H1, E1. apply bool_decide_eq_true in H1. split_and!; (done || lia).
  - destruct l2 as [|c2 l3]; [done|]. destruct (_ && _) eqn:E1; [|done]. injection Hs as <-.
    exists c, [c1; c2], l3. cbn [utf8_size]. rewrite H1, H2, E1. apply bool_decide_eq_true in H2. split_and!; (done || lia).
  - destruct l2 as [|c2 [|c3 l3]]; try done. destruct (_ && _) eqn:E1; [|done]. injection Hs as <-.
    exists c, [c1; c2; c3], l3. cbn [utf8_size]. rewrite H1, H2, H3, E1. apply bool_decide_eq_true in H3.
    split_and!; (done || lia).
Qed.

Lemma escape_copy n m rest : length m = n → escape_bytes n 0 (m ++ rest) = m ++ escape_bytes 0 0 rest.
Proof.
  intros <-. induction m as [|x m IH]; [done|]. cbn [app length escape_bytes]. by rewrite IH.
Qed.

Lemma valid_skip m rest : valid_utf8 (length m) (m ++ rest) = valid_utf8 0 rest.
Proof. induction m as [|x m IH]; [done|]. exact IH. Qed.

(** The line and paragraph separators are sequences of three bytes. *)
Lemma separator_sequence c m r n z :
  utf8_size (c :: m) = Some n → length m = n → take 3 (c :: m ++ r) = [chr 0xe2; chr 0x80; z] →
  c = chr 0xe2 ∧ m = [chr 0x80; z].
Proof.
  intros Hs Hm Ht. destruct m as [|c1 [|c2 [|c3 m]]]; cbn in Ht; try done.
  - injection Ht as -> -> _. done.
  - by injection Ht as -> -> ->.
  - injection Ht as -> -> ->. cbn in Hs. destruct (between 0x80 0xbf z); by simplify_eq/=.
Qed.

Lemma to_valid_skip m rest : to_valid (length m) (m ++ rest) = m ++ to_valid 0 rest.
Proof. induction m as [|x m IH]; [done|]. cbn [app length to_valid]. by rewrite IH. Qed.

(** Every string can be written and read; what is not UTF-8 is replaced. *)
Lemma unquote_escaped l rest :
  unquote 0 (escape_bytes 0 0 l ++ dquote :: rest) = Some (to_valid 0 l, rest).
Proof.
  remember (length l) as k eqn:Hk. revert l Hk. induction (lt_wf k) as [k _ IH]. intros l ->.
  destruct l as [|c l']; [done|]. cbn [to_valid]. case_bool_decide as Hc.
  - cbn [escape_bytes]. rewrite bool_decide_true by done. rewrite <- app_assoc, unquote_escape by done.
    by rewrite (IH (length l')) by (done || (simpl; lia)).
  - destruct (utf8_size (c :: l')) as [n|] eqn:Es.
    2: { cbn [escape_bytes]. rewrite bool_decide_false, Es by done. rewrite <- app_assoc.
         change (unquote 0 (chars "\ufffd" ++ escape_bytes 0 0 l' ++ dquote :: rest))
           with (prepend (encode_rune replacement) (unquote 0 (escape_bytes 0 0 l' ++ dquote :: rest))).
         by rewrite (IH (length l')) by (done || (simpl; lia)). }
    destruct (utf8_size_cases _ _ Es) as (c0 & m & r & Heq & Hm & Hge & Hs). injection Heq as <- ->.
    rewrite <- Hm, to_valid_skip. pose proof (IH (length r) ltac:(simpl; rewrite length_app; lia) r eq_refl) as Hr.
    cbn [escape_bytes]. rewrite bool_decide_false, Es by done.
    case_bool_decide as H8; [|case_bool_decide as H9].
    + destruct (separator_sequence c m r n (chr 0xa8) Hs Hm H8) as [-> ->]. rewrite <- app_assoc.
      change (escape_bytes 0 2 ([chr 0x80; chr 0xa8] ++ r)) with (escape_bytes 0 0 r).
      change (unquote 0 (chars "\u2028" ++ escape_bytes 0 0 r ++ dquote :: rest))
        with (prepend (encode_rune 0x2028) (unquote 0 (escape_bytes 0 0 r ++ dquote :: rest))). by rewrite Hr.
    + destruct (separator_sequence c m r n (chr 0xa9) Hs Hm H9) as [-> ->]. rewrite <- app_assoc.
      change (escape_bytes 0 2 ([chr 0x80; chr 0xa9] ++ r)) with (escape_bytes 0 0 r).
      change (unquote 0 (chars "\u2029" ++ escape_bytes 0 0 r ++ dquote :: rest))
        with (prepend (encode_rune 0x2029) (unquote 0 (escape_bytes 0 0 r ++ dquote :: rest))). by rewrite Hr.
    + cbn [app]. rewrite escape_copy, <- app_assoc by done. by rewrite (unquote_copy n), Hr by done.
Qed.

(** A string that is UTF-8 is left alone. *)
Lemma to_valid_id l : valid_utf8 0 l = true → to_valid 0 l = l.
Proof.
  remember (length l) as k eqn:Hk. revert l Hk. induction (lt_wf k) as [k _ IH]. intros l -> Hv.
  destruct l as [|c l']; [done|]. cbn [valid_utf8 to_valid] in Hv |- *. case_bool_decide as Hc.
  - by rewrite (IH (length l')) by (done || (simpl; lia)).
  - destruct (utf8_size (c :: l')) as [n|] eqn:Es; [|done].
    destruct (utf8_size_cases _ _ Es) as (c0 & m & r & Heq & Hm & _). injection Heq as <- ->.
    rewrite <- Hm, valid_skip in Hv. rewrite <- Hm, to_valid_skip.
    by rewrite (IH (length r) ltac:(simpl; rewrite length_app; lia) r eq_refl Hv).
Qed.

Lemma valid_string_id s : valid_utf8 0 (chars s) = true → valid_string s = s.
Proof. intros Hs. unfold valid_string. by rewrite to_valid_id, str_chars. Qed.

(** ** Numbers round trip *)

Lemma digit_not_chr d n : (0 ≤ d < 10)%Z → n < 256 → n < 48 ∨ 57 < n → digit d ≠ chr n.
Proof.
  intros Hd Hn Hr Heq. apply (f_equal code) in Heq. unfold chr in Heq.
  rewrite code_digit, code_ascii in Heq by done. lia.
Qed.

Lemma digit_not_space d : (0 ≤ d < 10)%Z → json_space (digit d) = false.
Proof.
  intros Hd. apply bool_decide_eq_false. rewrite !elem_of_cons, elem_of_nil. intros Hin.
  destruct Hin as [Hin|[Hin|[Hin|[Hin|[]]]]]; revert Hin; apply digit_not_chr; lia.
Qed.

Lemma digit_num_char d : (0 ≤ d < 10)%Z → num_char (digit d) = true.
Proof. intros Hd. unfold num_char, between. rewrite code_digit by done. by rewrite bool_decide_true by lia. Qed.

Lemma span_num_app l rest :
  Forall (λ c, num_char c = true) l → match rest with c :: _ => num_char c = false | [] => True end →
  span_num (l ++ rest) = (l, rest).
Proof.
  intros Hl Hr. induction Hl as [|c l Hc _ IH]; cbn [app].
  - destruct rest as [|c rest]; [done|]. cbn [span_num]. by rewrite Hr.
  - cbn [span_num]. by rewrite Hc, IH.
Qed.

Lemma parse_uint_digits cs n m : parse_uint_loop cs n = UOk m → digits_value cs n = Some m.
Proof.
  revert n. induction cs as [|c cs IH]; intros n; cbn [parse_uint_loop digits_value]; [by intros [= ->]|].
  destruct (digit_val c) as [d|]; [|done]. case_bool_decide; [done|]. case_bool_decide; [done|]. apply IH.
Qed.

(** The most significant digit is not zero. *)
Lemma udigits_last fuel n :
  (0 < n < 10 ^ Z.of_nat fuel)%Z → ∃ d l, udigits fuel n = l ++ [digit d] ∧ (0 < d < 10)%Z.
Proof.
  revert n. induction fuel as [|fuel IH]; intros n Hn; [simpl in Hn; lia|]. cbn [udigits].
  case_bool_decide as Hd; [exists n, []; split; [done|lia]|].
  destruct (IH (n / 10)%Z) as (d & l & -> & Hd').
  { rewrite Nat2Z.inj_succ, Z.pow_succ_r in Hn by lia. split; [apply Z.div_str_pos; lia|].
    apply Z.div_lt_upper_bound; lia. }
  exists d, (digit (n mod 10) :: l). done.
Qed.

Lemma nat_literal_udigits n : (0 ≤ n ≤ max_uint64)%Z → nat_literal (rev (udigits 20 n)) = Some n.
Proof.
  intros Hn. destruct (decide (n = 0)%Z) as [->|Hz]; [done|].
  assert (n < 10 ^ Z.of_nat 20)%Z as Hlt by (unfold max_uint64 in Hn; lia).
  destruct (udigits_last 20 n) as (d & l & Hl & Hd); [lia|].
  pose proof (parse_uint_digits _ _ _ (parse_udigits 20 n ltac:(lia) ltac:(lia))) as Hv.
  rewrite Hl, rev_app_distr in Hv |- *. cbn [rev app] in Hv |- *. unfold nat_literal.
  destruct (rev l) as [|c cs]; [cbn in Hv; by destruct (digit_val (digit d))|].
  rewrite bool_decide_false; [exact Hv|]. unfold chr. change (Ascii.ascii_of_nat 48) with (digit 0).
  intros Heq. apply (f_equal digit_val) in Heq. rewrite !digit_val_digit in Heq by lia. injection Heq. lia.
Qed.

Lemma int_literal_Itoa z : is_int z → int_literal (chars (Itoa z)) = Some z.
Proof.
  intros [Hlo Hhi]. unfold Itoa, min_int, max_int in *. case_bool_decide as Hneg; rewrite chars_str.
  - cbn [int_literal]. rewrite bool_decide_true, nat_literal_udigits by (done || unfold max_uint64; lia).
    cbn. f_equal. lia.
  - destruct (rev (udigits 20 z)) as [|c cs] eqn:E.
    { apply (f_equal (@rev _)) in E. rewrite rev_involutive in E. by apply udigits_not_nil in E. }
    destruct (udigits_head_not_sign z c cs) as [H1 _]; [lia|done|]. cbn [int_literal].
    rewrite bool_decide_false by done. rewrite <- E. apply nat_literal_udigits. unfold max_uint64. lia.
Qed.

Lemma Itoa_head z : ∃ c l, chars (Itoa z) = c :: l ∧ (c = minus ∨ ∃ d, c = digit d ∧ (0 ≤ d < 10)%Z).
Proof.
  pose proof (Itoa_chars_shape z) as Hs. destruct (chars (Itoa z)) as [|c l] eqn:E.
  - unfold Itoa in E. case_bool_decide; rewrite chars_str in E; [done|].
    apply (f_equal (@rev _)) in E. rewrite rev_involutive in E. by apply udigits_not_nil in E.
  - apply Forall_cons in Hs as [Hc _]. by exists c, l.
Qed.

Lemma Itoa_length z : length (chars (Itoa z)) ≤ 21.
Proof.
  assert (∀ fuel n, length (udigits fuel n) ≤ fuel) as Hu.
  { intros fuel. induction fuel as [|fuel IH]; intros n; [done|]. cbn [udigits]. case_bool_decide; simpl; [lia|].
    specialize (IH (n / 10)%Z). lia. }
  unfold Itoa. case_bool_decide; rewrite chars_str; cbn [length]; rewrite length_rev;
    [pose proof (Hu 20 (- z)%Z)|pose proof (Hu 20 z)]; lia.
Qed.

(** What may follow a value in a text. *)
Definition delimited (rest : bytes) : Prop :=
  match rest with c :: _ => num_char c = false | [] => True end.

Lemma parse_number_Itoa fl z rest :
  is_int z → delimited rest → parse_number fl (chars (Itoa z) ++ rest) = Some (JNum z, rest).
Proof.
  intros Hz Hr. assert (Forall (λ c, num_char c = true) (chars (Itoa z))) as Hn.
  { eapply Forall_impl; [apply Itoa_chars_shape|]. intros c [->|(d & -> & Hd)]; [done|by apply digit_num_char]. }
  pose proof (int_literal_Itoa z Hz) as Hi. destruct (Itoa_head z) as (c & l & E & _). rewrite E in Hn, Hi |- *.
  unfold parse_number. rewrite span_num_app by done. by rewrite Hi.
Qed.

(** ** Values round trip *)

Section values.
Context (float_text : float64 → bytes) (time_text : Z → bytes) (float_literal : bytes → option float64).
Local Abbreviation text := (Marshal float_text time_text).
Local Abbreviation value := (parse_value float_literal).

(** Values of integers in range and strings in UTF-8. *)
Fixpoint plain (j : json) : Prop :=
  match j with
  | JNull | JBool _ => True
  | JNum z => is_int z
  | JStr s => valid_utf8 0 (chars s) = true
  | JFloat _ | JTime _ => False
  | JArr l => foldr (λ x P, plain x ∧ P) True l
  | JObj kvs => foldr (λ kv P, (valid_utf8 0 (chars kv.1) = true ∧ plain kv.2) ∧ P) True kvs
  end.

(** Values of integers in range and any strings. *)
Fixpoint encodable (j : json) : Prop :=
  match j with
  | JNull | JBool _ | JStr _ => True
  | JNum z => is_int z
  | JFloat _ | JTime _ => False
  | JArr l => foldr (λ x P, encodable x ∧ P) True l
  | JObj kvs => foldr (λ kv P, encodable kv.2 ∧ P) True kvs
  end.

Lemma plain_encodable j : plain j → encodable j ∧ valid_json j = j.
Proof using Type.
  clear float_text time_text float_literal.
  revert j. fix IH 1. intros j. destruct j as [|b|z|f|s|t|l|kvs]; cbn [plain encodable valid_json]; intros Hp;
    try done.
  - split; [done|]. by rewrite valid_string_id.
  - assert (foldr (λ x P, encodable x ∧ P) True l ∧ valid_json <$> l = l) as [? Heq]; [|by rewrite Heq].
    induction l as [|x l IHl]; [done|]. destruct Hp as [Hx Hl]. destruct (IHl Hl) as [? Hl'].
    destruct (IH x Hx) as [? Hx']. cbn. by rewrite Hx', Hl'.
  - assert (foldr (λ kv P, encodable kv.2 ∧ P) True kvs ∧
            (λ kv, (valid_string kv.1, valid_json kv.2)) <$> kvs = kvs) as [? Heq]; [|by rewrite Heq].
    induction kvs as [|[k x] l IHl]; [done|]. destruct Hp as [[Hk Hx] Hl]. destruct (IHl Hl) as [? Hl'].
    destruct (IH x Hx) as [? Hx']. cbn [fst snd] in *. rewrite fmap_cons. cbn [fst snd foldr].
    by rewrite valid_string_id, Hx', Hl'.
Qed.

(** A value is read back from its text, up to its strings, when the text is no longer
    than the fuel. *)
Definition reads (j : json) : Prop :=
  encodable j → ∀ fuel rest, length (text j) ≤ fuel → delimited rest →
    value fuel (text j ++ rest) = Some (valid_json j, rest).

(** The texts of values begin with a character that opens one. *)
Lemma text_opens j rest :
  encodable j → ∃ c l, text j ++ rest = c :: l ∧ json_space c = false ∧ c ≠ rbracket ∧ c ≠ rbrace.
Proof.
  destruct j as [|[]|z|f|s|t|l|kvs]; intros Hp; try done; try (eexists _, _; split; [reflexivity|]; done).
  cbn [Marshal]. destruct (Itoa_head z) as (c & l & -> & Hc). exists c, (l ++ rest). split; [done|].
  destruct Hc as [->|(d & -> & Hd)]; [done|].
  split; [by apply digit_not_space|split; apply digit_not_chr; lia].
Qed.

Lemma skip_ws_text j rest : encodable j → skip_ws (text j ++ rest) = text j ++ rest.
Proof.
  intros Hp. destruct (text_opens j rest Hp) as (c & l & -> & Hc & _). cbn [skip_ws]. by rewrite Hc.
Qed.

Lemma skip_ws_char c t : json_space c = false → skip_ws (c :: t) = c :: t.
Proof. intros Hc. cbn [skip_ws]. by rewrite Hc. Qed.

Lemma elems_read l fuel rest :
  Forall reads l → l ≠ [] → encodable (JArr l) → length (join (text <$> l)) < fuel →
  parse_elems float_literal fuel (join (text <$> l) ++ rbracket :: rest) = Some (valid_json <$> l, rest).
Proof.
  intros Hl. revert fuel. induction Hl as [|x l Hx Hl IH]; intros fuel Hne Hp Hf; [done|].
  destruct fuel as [|fuel]; [lia|]. destruct Hp as [Hpx Hpl]. destruct l as [|y l].
  - cbn [fmap list_fmap join] in Hf |- *. cbn [parse_elems].
    rewrite (Hx Hpx fuel (rbracket :: rest)) by (done || lia). done.
  - change (join (text <$> x :: y :: l)) with (text x ++ comma :: join (text <$> y :: l)) in Hf |- *.
    rewrite length_app in Hf. cbn [length] in Hf. rewrite <- app_assoc. cbn [parse_elems app].
    rewrite (Hx Hpx fuel (comma :: _)) by (done || lia). cbn [mbind option_bind].
    rewrite skip_ws_char by done.
    rewrite bool_decide_false, bool_decide_true by done. by rewrite IH by (done || lia).
Qed.

Definition valid_member (kv : string * json) : string * json := (valid_string kv.1, valid_json kv.2).

Definition member (kv : string * json) : bytes := quoted kv.1 ++ colon :: text kv.2.

Lemma members_read kvs fuel rest :
  Forall (λ kv, reads kv.2) kvs → kvs ≠ [] → encodable (JObj kvs) → length (join (member <$> kvs)) < fuel →
  parse_members float_literal fuel (join (member <$> kvs) ++ rbrace :: rest) = Some (valid_member <$> kvs, rest).
Proof.
  intros Hl. revert fuel. induction Hl as [|[k x] l Hx Hl IH]; intros fuel Hne Hp Hf; [done|].
  destruct fuel as [|fuel]; [lia|]. destruct Hp as [Hpx Hpl]. cbn [fst snd] in *.
  assert (∀ t, delimited t → length (text x) ≤ fuel → parse_members float_literal (S fuel) (member (k, x) ++ t) =
    match skip_ws t with
    | d :: s5 =>
        if bool_decide (d = rbrace) then Some ([valid_member (k, x)], s5)
        else if bool_decide (d = comma)
        then '(l, rest) ← parse_members float_literal fuel s5; Some (valid_member (k, x) :: l, rest)
        else None
    | [] => None
    end) as Hone.
  { intros t Ht Hlen. unfold member, quoted. cbn [fst snd]. cbn [parse_members app].
    rewrite skip_ws_char by done. cbn [expect]. rewrite bool_decide_true by done.
    cbn [mbind option_bind]. rewrite <- !app_assoc. cbn [app]. rewrite unquote_escaped. cbn [mbind option_bind].
    rewrite skip_ws_char by done. cbn [expect]. rewrite bool_decide_true by done.
    cbn [mbind option_bind]. rewrite (Hx Hpx fuel t) by done. reflexivity. }
  assert (length (text x) < length (member (k, x))) as Hlen.
  { unfold member. rewrite length_app. simpl. lia. }
  destruct l as [|y l].
  - cbn [fmap list_fmap join] in Hf |- *. rewrite Hone by (done || lia). done.
  - change (join (member <$> (k, x) :: y :: l)) with (member (k, x) ++ comma :: join (member <$> y :: l)) in Hf |- *.
    rewrite length_app in Hf. cbn [length] in Hf. rewrite <- app_assoc. cbn [app].
    rewrite Hone by (done || lia). rewrite skip_ws_char by done.
    rewrite bool_decide_false, bool_decide_true by done. by rewrite IH by (done || lia).
Qed.

Lemma reads_leaf j c l :
  text j = c :: l → json_space c = false →
  (∀ fuel rest, encodable j → delimited rest → value (S fuel) (text j ++ rest) = Some (valid_json j, rest)) → reads j.
Proof. intros Ht Hc Hr Hp fuel rest Hf Hd. rewrite Ht in Hf. destruct fuel as [|fuel]; [simpl in Hf; lia|]. by apply Hr. Qed.

Lemma arr_reads l : Forall reads l → reads (JArr l).
Proof.
  intros Hl Hp fuel rest Hf Hd. destruct fuel as [|fuel]; [simpl in Hf; lia|]. cbn [Marshal] in Hf |- *.
  cbn [app parse_value]. rewrite skip_ws_char by done.
  rewrite bool_decide_false, bool_decide_true by done. rewrite <- app_assoc. cbn [app].
  destruct l as [|x l]; [done|].
  destruct (text_opens x ([] : bytes)) as (c & t & Hc & Hsp & Hrb & _); [apply Hp|]. rewrite app_nil_r in Hc.
  assert (∃ u, join (text <$> x :: l) ++ rbracket :: rest = c :: u) as [u Hu].
  { cbn [fmap list_fmap join]. rewrite Hc. destruct l; by eexists. }
  assert (skip_ws (join (text <$> x :: l) ++ rbracket :: rest) = c :: u) as ->.
  { rewrite Hu. cbn [skip_ws]. by rewrite Hsp. }
  rewrite bool_decide_false by done. cbn [length] in Hf. rewrite length_app in Hf. simpl length in Hf at 2.
  by rewrite elems_read by (done || lia).
Qed.

Lemma obj_reads kvs : Forall (λ kv, reads kv.2) kvs → reads (JObj kvs).
Proof.
  intros Hl Hp fuel rest Hf Hd. destruct fuel as [|fuel]; [simpl in Hf; lia|].
  change (text (JObj kvs)) with (lbrace :: join (member <$> kvs) ++ [rbrace]) in Hf |- *.
  cbn [app parse_value]. rewrite skip_ws_char by done.
  rewrite !bool_decide_false, bool_decide_true by done. rewrite <- app_assoc. cbn [app].
  destruct kvs as [|[k x] kvs]; [done|].
  assert (∃ u, join (member <$> (k, x) :: kvs) ++ rbrace :: rest = dquote :: u) as [u Hu].
  { cbn [fmap list_fmap join]. unfold member at 1 2, quoted. destruct kvs; by eexists. }
  assert (skip_ws (join (member <$> (k, x) :: kvs) ++ rbrace :: rest) = dquote :: u) as -> by (by rewrite Hu).
  rewrite bool_decide_false by done. cbn [length] in Hf. rewrite length_app in Hf. simpl length in Hf at 2.
  by rewrite members_read by (done || lia).
Qed.

(** A value that begins with a sign or a digit is a number. *)
Lemma number_dispatch fuel c l :
  (c = minus ∨ ∃ d, c = digit d ∧ (0 ≤ d < 10)%Z) → value (S fuel) (c :: l) = parse_number float_literal (c :: l).
Proof.
  intros [->|(d & -> & Hd)]; [done|]. cbn [parse_value]. rewrite skip_ws_char.
  - rewrite !bool_decide_false by (apply digit_not_chr; lia). done.
  - by apply digit_not_space.
Qed.

Lemma value_reads j : reads j.
Proof.
  revert j. fix IH 1. intros j. destruct j as [|b|z|f|s|t|l|kvs].
  - by eapply reads_leaf.
  - by destruct b; eapply reads_leaf.
  - intros Hp fuel rest Hf Hd. cbn [Marshal valid_json] in Hf |- *.
    destruct (Itoa_head z) as (c & l & E & Hc). destruct fuel as [|fuel]; [rewrite E in Hf; simpl in Hf; lia|].
    rewrite <- (parse_number_Itoa float_literal z rest Hp Hd). rewrite E. cbn [app].
    by apply number_dispatch.
  - by intros [].
  - intros Hp fuel rest Hf Hd. destruct fuel as [|fuel]; [simpl in Hf; lia|]. cbn [Marshal]. unfold quoted.
    cbn [app parse_value]. rewrite skip_ws_char by done. rewrite bool_decide_true by done.
    rewrite <- app_assoc. cbn [app]. by rewrite unquote_escaped.
  - by intros [].
  - apply arr_reads. induction l as [|x l IHl]; constructor; [apply IH|exact IHl].
  - apply obj_reads. induction kvs as [|[k x] l IHl]; constructor; [apply IH|exact IHl].
Qed.

End values.

(** ** Texts are lines

    A text is printable: it holds no control character, so no newline. *)

Definition printable (l : bytes) : Prop := Forall (λ c, (32 ≤ code c)%Z) l.

#[global] Instance printable_dec l : Decision (printable l).
Proof. unfold printable. apply _. Defined.

Lemma printable_escape c : printable (escape_char c).
Proof. destruct c as [[] [] [] [] [] [] [] []]; decide_by_eval. Qed.

(** The bytes that follow the first one of a sequence. *)
Lemma utf8_tail c m n : utf8_size (c :: m) = Some n → length m = n → printable m.
Proof.
  intros Hs Hm. assert (∀ lo hi x, between lo hi x = true → (32 ≤ lo)%Z → (32 ≤ code x)%Z) as Hb.
  { intros lo hi x Hx. apply bool_decide_eq_true in Hx. lia. }
  destruct m as [|c1 [|c2 [|c3 [|c4 m]]]]; cbn [utf8_size length] in Hs, Hm; repeat case_match; simplify_eq/=;
    repeat match goal with H : (_ && _) = true |- _ => apply andb_true_iff in H as [? ?] end;
    repeat constructor; (eapply Hb; [eassumption|]); repeat case_match; lia.
Qed.

Lemma printable_string l : valid_utf8 0 l = true → printable (escape_bytes 0 0 l).
Proof.
  remember (length l) as k eqn:Hk. revert l Hk. induction (lt_wf k) as [k _ IH]. intros l -> Hv.
  destruct l as [|c l']; [constructor|]. cbn [valid_utf8] in Hv. cbn [escape_bytes]. case_bool_decide as Hc.
  - apply Forall_app. split; [apply printable_escape|]. by apply (IH (length l')); [simpl; lia|..].
  - destruct (utf8_size (c :: l')) as [n|] eqn:Es; [|done].
    destruct (utf8_size_cases _ _ Es) as (c0 & m & r & Heq & Hm & Hge & Hs). injection Heq as <- ->.
    rewrite <- Hm, valid_skip in Hv.
    assert (printable (escape_bytes 0 0 r)) as Hr.
    { by apply (IH (length r)); [simpl; rewrite length_app; lia|..]. }
    case_bool_decide as H8; [|case_bool_decide as H9].
    + destruct (separator_sequence c m r n (chr 0xa8) Hs Hm H8) as [-> ->].
      apply Forall_app. split; [decide_by_eval|exact Hr].
    + destruct (separator_sequence c m r n (chr 0xa9) Hs Hm H9) as [-> ->].
      apply Forall_app. split; [decide_by_eval|exact Hr].
    + rewrite escape_copy by done. constructor; [lia|]. apply Forall_app. split; [by eapply utf8_tail|exact Hr].
Qed.

Lemma printable_quoted s : valid_utf8 0 (chars s) = true → printable (quoted s).
Proof.
  intros Hs. unfold quoted. constructor; [done|]. apply Forall_app. split; [by apply printable_string|decide_by_eval].
Qed.

Lemma printable_join ls : Forall printable ls → printable (join ls).
Proof.
  induction 1 as [|x ls Hx Hls IH]; [constructor|]. destruct ls as [|y ls]; [exact Hx|].
  apply Forall_app. split; [exact Hx|]. constructor; [done|exact IH].
Qed.

Lemma printable_number z : printable (chars (Itoa z)).
Proof.
  eapply Forall_impl; [apply Itoa_chars_shape|]. intros c [->|(d & -> & Hd)]; [done|].
  rewrite code_digit by done. lia.
Qed.

Lemma printable_brackets o c l : (32 ≤ code o)%Z → (32 ≤ code c)%Z → printable l → printable (o :: l ++ [c]).
Proof. intros Ho Hc Hl. constructor; [done|]. apply Forall_app. by repeat constructor. Qed.

(** ASCII text is UTF-8. *)
Lemma ascii_valid l : Forall (λ c, (code c < 128)%Z) l → valid_utf8 0 l = true.
Proof. induction 1 as [|c l Hc _ IH]; [done|]. cbn [valid_utf8]. by rewrite bool_decide_true. Qed.

Section texts.
Context (float_text : float64 → bytes) (time_text : Z → bytes) (float_literal : bytes → option float64).
Local Abbreviation text := (Marshal float_text time_text).

Lemma printable_text j : plain j → printable (text j).
Proof.
  revert j. fix IH 1. intros j. destruct j as [|b|z|f|s|t|l|kvs]; cbn [Marshal]; intros Hp.
  - decide_by_eval.
  - destruct b; decide_by_eval.
  - apply printable_number.
  - destruct Hp.
  - by apply printable_quoted.
  - destruct Hp.
  - apply printable_brackets; [done..|]. apply printable_join, Forall_fmap.
    induction l as [|x l IHl]; constructor; [apply IH, Hp|apply IHl, Hp].
  - apply printable_brackets; [done..|]. apply printable_join, Forall_fmap.
    induction kvs as [|[k x] l IHl]; constructor; [|apply IHl, Hp].
    apply (Forall_app _ (quoted k)). split; [apply printable_quoted, Hp|]. constructor; [done|apply IH, Hp].
Qed.

(** [json.Unmarshal] reads what [json.Marshal] wrote, with the bytes that are not
    UTF-8 replaced. *)
Lemma Unmarshal_Marshal_valid j : encodable j → Unmarshal float_literal (text j) = Some (valid_json j).
Proof.
  intros Hp. unfold Unmarshal. rewrite <- (app_nil_r (text j)) at 2.
  rewrite (value_reads float_text time_text float_literal j Hp) by (done || lia). done.
Qed.

Lemma Unmarshal_Marshal j : plain j → Unmarshal float_literal (text j) = Some j.
Proof. intros [He Hj]%plain_encodable. by rewrite Unmarshal_Marshal_valid, Hj. Qed.

End texts.
