(* ===== verification/Cqrs.v ===== *)
(** * pkg/cqrs, drivers/watermill and drivers/watermill_fx: envelopes and buses

    [W] is the state the handlers and the transports act on.  The command and
    query buses are synchronous maps from a name to a handler; the event bus
    serialises an envelope to JSON, sends it through the durable (SQL) or the
    in-memory (go-channel) publisher, and on the receiving side deserialises it
    and calls the handler.  Watermill itself is outside the repository: its
    publishers, the subscriber factory, the propagator and the UUID source are
    parameters. *)

From S2P Require Import Prelude GoStr GoFloat GoJson LoyaltyDomain.

(** ** The envelope *)

Record EventEnvelope : Type := mkEnv {
  env_EventID : string;
  env_CorrelationID : string;
  env_CausationID : string;
  env_EventName : string;
  env_OccurredAt : Z;
  env_OtelCarrier : gmap string string;
  env_Payload : option DomainEvent;
}.

Definition env_zero : EventEnvelope := mkEnv "" "" "" "" time_zero ∅ None.

Definition set_carrier (c : gmap string string) (e : EventEnvelope) : EventEnvelope :=
  mkEnv (env_EventID e) (env_CorrelationID e) (env_CausationID e) (env_EventName e)
        (env_OccurredAt e) c (env_Payload e).

(** ** json.Marshal of an envelope

    Only exported fields are written; [occurredAt] of the events is not. *)

(** [time.Time] marshals only for the years 0 to 9999. *)
Definition encode_time (t : Z) : option json :=
  if bool_decide (-62167219200 * 1000000000 ≤ t < 253402300800 * 1000000000)%Z
  then Some (JTime t) else None.

Definition encode_event (e : DomainEvent) : option json :=
  match e with
  | EvLoyaltyCredited c => Some (JObj
      [("LoyaltyAccountID", JStr (lc_LoyaltyAccountID c)); ("CustomerID", JStr (lc_CustomerID c));
       ("OrderID", JStr (lc_OrderID c)); ("PointsEarned", JNum (lc_PointsEarned c));
       ("NewBalance", JNum (lc_NewBalance c)); ("NewTier", JStr (lc_NewTier c))])
  | EvLoyaltyCreditFailed f => Some (JObj
      [("CustomerID", JStr (lf_CustomerID f)); ("OrderID", JStr (lf_OrderID f));
       ("Reason", JStr (lf_Reason f))])
  | EvOrderCompleted o =>
      amount ← encode_float (oc_TotalAmount o);
      Some (JObj [("OrderID", JStr (oc_OrderID o)); ("CustomerID", JStr (oc_CustomerID o));
                  ("TotalAmount", amount)])
  end.

Definition encode_envelope (e : EventEnvelope) : option json :=
  t ← encode_time (env_OccurredAt e);
  p ← match env_Payload e with Some ev => encode_event ev | None => Some JNull end;
  Some (JObj
    [("EventID", JStr (env_EventID e)); ("CorrelationID", JStr (env_CorrelationID e));
     ("CausationID", JStr (env_CausationID e)); ("EventName", JStr (env_EventName e));
     ("OccurredAt", t); ("OtelCarrier", encode_string_map (env_OtelCarrier e));
     ("Payload", p)]).

(** ** json.Unmarshal into an envelope

    [Payload] has the interface type [cqrs.DomainEvent], which has methods:
    the decoder cannot choose a concrete type, so anything but null is an
    [UnmarshalTypeError]. *)
Definition decode_payload (j : json) : option DomainEvent * goerror :=
  match j with
  | JNull => (None, None)
  | _ => (None, Some UnmarshalTypeError)
  end.

Definition set_env_field (key : string) (j : json) (e : EventEnvelope) : EventEnvelope * goerror :=
  let '(mkEnv eid cor cau nam occ car pay) := e in
  if field_is key "EventID" then let '(v, er) := decode_string j eid in (mkEnv v cor cau nam occ car pay, er)
  else if field_is key "CorrelationID" then let '(v, er) := decode_string j cor in (mkEnv eid v cau nam occ car pay, er)
  else if field_is key "CausationID" then let '(v, er) := decode_string j cau in (mkEnv eid cor v nam occ car pay, er)
  else if field_is key "EventName" then let '(v, er) := decode_string j nam in (mkEnv eid cor cau v occ car pay, er)
  else if field_is key "OccurredAt" then let '(v, er) := decode_time j occ in (mkEnv eid cor cau nam v car pay, er)
  else if field_is key "OtelCarrier" then let '(v, er) := decode_string_map j car in (mkEnv eid cor cau nam occ v pay, er)
  else if field_is key "Payload" then let '(v, er) := decode_payload j in (mkEnv eid cor cau nam occ car v, er)
  else (e, None).

Definition decode_envelope (j : json) : EventEnvelope * goerror := decode_struct set_env_field j env_zero.

(** ** Commands and queries

    The command and query structs that exist, and any other by its name. *)

Inductive Command : Type :=
| CmdCreditLoyalty (r : CreditLoyaltyRequest)
| CmdOther (name : string).

Definition CommandName (c : Command) : string :=
  match c with CmdCreditLoyalty _ => CreditLoyalty_CommandName | CmdOther n => n end.

Inductive Query : Type :=
| QryGetBalance (r : GetLoyaltyBalanceRequest)
| QryOther (name : string).

Definition QueryName (q : Query) : string :=
  match q with QryGetBalance _ => GetLoyaltyBalance_QueryName | QryOther n => n end.

(** The [any] a handler returns. *)
Inductive reply : Type :=
| ReplyNil
| ReplyCredit (r : CreditLoyaltyResponse)
| ReplyBalance (r : GetLoyaltyBalanceResponse).

(** ** The buses *)

(** A bus keyed by name; the two drivers declare the same struct. *)
Record nameBus (Msg W : Type) : Type := mkNameBus {
  bus_handlers : gmap string (Msg → M W (reply * goerror));
}.

Arguments mkNameBus {Msg W} _.
Arguments bus_handlers {Msg W} _.

Definition message : Type := (string * json)%type.

Inductive Subscriber : Type := SubGoChannel | SubSQL (id : nat).

Record routerHandler (W : Type) : Type := mkRouterHandler {
  rh_name : string;
  rh_topic : string;
  rh_sub : Subscriber;
  rh_func : message → M W goerror;
}.

Arguments mkRouterHandler {W} _ _ _ _.
Arguments rh_name {W} _.
Arguments rh_topic {W} _.
Arguments rh_sub {W} _.
Arguments rh_func {W} _.

Definition Publisher (W : Type) : Type := string → message → M W goerror.

Definition EventHandler (W : Type) : Type := EventEnvelope → M W goerror.

Record eventBus (W : Type) : Type := mkEventBus {
  gcPublisher : Publisher W;
  sqlPublisher : option (Publisher W);
  sqlSubscriberFn : option (string → Subscriber * goerror);
  subscribers : gmap string (list (EventHandler W));
  router : list (routerHandler W);
}.

Arguments mkEventBus {W} _ _ _ _ _.
Arguments gcPublisher {W} _.
Arguments sqlPublisher {W} _.
Arguments sqlSubscriberFn {W} _.
Arguments subscribers {W} _.
Arguments router {W} _.

Definition criticalTopics (t : string) : bool :=
  bool_decide (t ∈ ["orders.order.completed"; "loyalty.account.credited";
                    "loyalty.account.credit_failed"; "orders.fulfillment.ready";
                    "orders.order.failed"]).

Section buses.
Context {W : Type}.

(** *** drivers/watermill/command_bus.go *)

Definition newCommandBus : nameBus Command W := mkNameBus ∅.

Definition commandBus_Register (b : nameBus Command W) (commandName : string)
    (fn : Command → M W (reply * goerror)) : nameBus Command W :=
  mkNameBus (<[commandName := fn]> (bus_handlers b)).

Definition commandBus_Dispatch (b : nameBus Command W) (cmd : Command) : M W (reply * goerror) :=
  match bus_handlers b !! CommandName cmd with
  | None => mret (ReplyNil, Some (Fmt "no handler registered for command: %s" [CommandName cmd]))
  | Some fn => fn cmd
  end.

(** *** drivers/watermill/query_bus.go *)

Definition newQueryBus : nameBus Query W := mkNameBus ∅.

Definition queryBus_Register (b : nameBus Query W) (queryName : string)
    (fn : Query → M W (reply * goerror)) : nameBus Query W :=
  mkNameBus (<[queryName := fn]> (bus_handlers b)).

Definition queryBus_Ask (b : nameBus Query W) (q : Query) : M W (reply * goerror) :=
  match bus_handlers b !! QueryName q with
  | None => mret (ReplyNil, Some (Fmt "no handler registered for query: %s" [QueryName q]))
  | Some fn => fn q
  end.

(** *** drivers/watermill_fx: the same structs and bodies, with a second way to
    register *)

Definition fx_commandBus_Register := commandBus_Register.
Definition fx_commandBus_RegisterHandler := commandBus_Register.
Definition fx_commandBus_Dispatch := commandBus_Dispatch.
Definition fx_queryBus_Register := queryBus_Register.
Definition fx_queryBus_RegisterHandler := queryBus_Register.
Definition fx_queryBus_Ask := queryBus_Ask.

(** *** drivers/watermill/event_bus.go *)

(** [inject] is what the OpenTelemetry propagator writes for the caller's
    context; [newUUID] is [watermill.NewUUID]. *)
Context (inject : gmap string string) (newUUID : M W string).

Definition newEventBus (gc : Publisher W) : eventBus W := mkEventBus gc None None ∅ [].

Definition SetSQLBackend (b : eventBus W) (pub : Publisher W)
    (subFn : string → Subscriber * goerror) : eventBus W :=
  mkEventBus (gcPublisher b) (Some pub) (Some subFn) (subscribers b) (router b).

Definition select_publisher (b : eventBus W) (topic : string) : Publisher W :=
  match criticalTopics topic, sqlPublisher b with
  | true, Some sql => sql
  | _, _ => gcPublisher b
  end.

Definition publish_one (b : eventBus W) (e : EventEnvelope) : M W goerror :=
  let e := set_carrier inject e in
  match encode_envelope e with
  | None => mret (Some (Wrap "eventBus.Publish: marshal failed: %w" [] UnsupportedValueError))
  | Some payload =>
      uuid ← newUUID;
      err ← select_publisher b (env_EventName e) (env_EventName e) (uuid, payload);
      match err with
      | Some er => mret (Some (Wrap "eventBus.Publish: topic=%s: %w" [env_EventName e] er))
      | None => mret None
      end
  end.

Definition Publish (b : eventBus W) (envelopes : list EventEnvelope) : M W goerror :=
  for_until_err (publish_one b) envelopes.

(** The function the router calls for each message: returning nil acknowledges
    it, an error leaves it for redelivery. *)
Definition consume (handler : EventHandler W) (msg : message) : M W goerror :=
  match decode_envelope msg.2 with
  | (_, Some _) => mret None
  | (env, None) => handler env
  end.

Definition handlerName (eventName : string) (n : nat) : string :=
  "event_handler." +:+ eventName +:+ "." +:+ Itoa (Z.of_nat n).

(** The handler list grows first, also when the SQL subscriber then fails. *)
Definition Subscribe (b : eventBus W) (eventName : string) (handler : EventHandler W) :
    goerror * eventBus W :=
  let subs := <[eventName := default [] (subscribers b !! eventName) ++ [handler]]> (subscribers b) in
  let b1 := mkEventBus (gcPublisher b) (sqlPublisher b) (sqlSubscriberFn b) subs (router b) in
  let '(sub, err) :=
    match criticalTopics eventName, sqlSubscriberFn b with
    | true, Some fn => fn eventName
    | _, _ => (SubGoChannel, None)
    end in
  match err with
  | Some e => (Some (Wrap "eventBus.Subscribe: SQL subscriber: %w" [] e), b1)
  | None =>
      let name := handlerName eventName (length (default [] (subs !! eventName))) in
      (None, mkEventBus (gcPublisher b1) (sqlPublisher b1) (sqlSubscriberFn b1) subs
               (router b1 ++ [mkRouterHandler name eventName sub (consume handler)]))
  end.

(** *** drivers/watermill_fx/event_bus.go: the same bodies; the go-channel is
    used directly instead of through the [gcPublisher] field that holds it *)

Definition fx_newEventBus := newEventBus.
Definition fx_SetSQLBackend := SetSQLBackend.
Definition fx_Publish := Publish.
Definition fx_Subscribe := Subscribe.

(** A start-up: a sequence of subscriptions on a fresh bus, errors ignored as
    register.go does. *)
Definition subscribe_all (b : eventBus W) (l : list (string * EventHandler W)) : eventBus W :=
  fold_left (λ b '(t, h), (Subscribe b t h).2) l b.

(** Every router handler carries the number its topic had when it was added. *)
Definition bus_ok (b : eventBus W) : Prop :=
  NoDup (rh_name <$> router b) ∧
  Forall (λ rh, ∃ n, 1 ≤ n ≤ length (default [] (subscribers b !! rh_topic rh)) ∧
                     rh_name rh = handlerName (rh_topic rh) n) (router b).

End buses.

(** An order-completed envelope, for the witnesses. *)
Definition completed_order : EventEnvelope :=
  mkEnv "e1" "corr" "" OrderCompleted 0 ∅ (Some (EvOrderCompleted (mkOrderCompleted "o1" "c1" (f64_of_Z 100)))).

(** ** Lemmas *)

Lemma handlerName_inj t1 t2 n1 n2 :
  (Z.of_nat n1 ≤ max_int)%Z → (Z.of_nat n2 ≤ max_int)%Z →
  handlerName t1 n1 = handlerName t2 n2 → t1 = t2 ∧ n1 = n2.
Proof.
  intros H1 H2 E%(f_equal chars). unfold handlerName in E. rewrite !chars_app in E.
  apply app_inv_head in E.
  change (chars ".") with [Ascii.ascii_of_nat 46] in E. simpl in E.
  apply last_dot_inj in E as [Et En]; [|apply Itoa_no_dot..].
  split; [by apply (inj chars)|]. apply (inj chars) in En.
  apply Itoa_inj in En; unfold is_int, min_int; lia.
Qed.

Lemma encode_event_not_null ev j : encode_event ev = Some j → decode_payload j = (None, Some UnmarshalTypeError).
Proof.
  destruct ev as [c|f|o]; simpl; [by intros [= <-]..|].
  destruct (encode_float (oc_TotalAmount o)); by intros [= <-].
Qed.

Lemma encode_time_inv t j : encode_time t = Some j → j = JTime t.
Proof. unfold encode_time. by case_bool_decide; intros [= <-]. Qed.

(** Decode an object with literal keys. *)
Ltac eval_fields :=
  repeat (cbn [decode_obj set_env_field decode_string decode_time first_err];
          match goal with
          | |- context [field_is ?k ?n] =>
              let r := eval vm_compute in (field_is k n) in change (field_is k n) with r
          end);
  cbn [decode_obj set_env_field decode_string decode_time first_err].

(** What the receiver sees of an encoded envelope. *)
Lemma decode_encode_envelope e j :
  encode_envelope e = Some j →
  match env_Payload e with
  | None => decode_envelope j = (e, None)
  | Some _ => (decode_envelope j).2 = Some UnmarshalTypeError
  end.
Proof.
  destruct e as [eid cor cau nam occ car pay]. unfold encode_envelope. simpl.
  destruct (encode_time occ) as [t|] eqn:Et; [|done]. apply encode_time_inv in Et as ->. simpl.
  destruct (match pay with Some ev => encode_event ev | None => Some JNull end) as [p|] eqn:Ep;
    [|done]. simpl. intros [= <-].
  unfold decode_envelope, decode_struct, env_zero. eval_fields.
  rewrite decode_encode_string_map. eval_fields.
  destruct pay as [ev|].
  - by rewrite (encode_event_not_null _ _ Ep).
  - injection Ep as <-. done.
Qed.

Section bus_lemmas.
Context {W : Type}.
Implicit Types (b : eventBus W) (h : EventHandler W).

Lemma Subscribe_subscribers b t h t' :
  default [] (subscribers (Subscribe b t h).2 !! t') =
    default [] (subscribers b !! t') ++ (if bool_decide (t = t') then [h] else []).
Proof.
  assert (subscribers (Subscribe b t h).2 =
          <[t := default [] (subscribers b !! t) ++ [h]]> (subscribers b)) as ->.
  { unfold Subscribe.
    destruct (match criticalTopics t, sqlSubscriberFn b with
              | true, Some fn => fn t | _, _ => (SubGoChannel, None) end) as [sub [e|]]; done. }
  rewrite lookup_insert. repeat case_decide; case_bool_decide; simplify_eq; simpl; try done.
  by rewrite app_nil_r.
Qed.

Lemma Subscribe_router b t h :
  router (Subscribe b t h).2 = router b ∨
  ∃ sub, router (Subscribe b t h).2 =
    router b ++ [mkRouterHandler
                   (handlerName t (S (length (default [] (subscribers b !! t))))) t sub (consume h)].
Proof.
  unfold Subscribe.
  destruct (match criticalTopics t, sqlSubscriberFn b with
            | true, Some fn => fn t | _, _ => (SubGoChannel, None) end) as [sub [e|]]; simpl; [by left|].
  right. exists sub. rewrite lookup_insert_eq. simpl. rewrite length_app. simpl.
  by rewrite Nat.add_1_r.
Qed.

Lemma Subscribe_ok b t h :
  (∀ t', (Z.of_nat (S (length (default [] (subscribers b !! t')))) ≤ max_int)%Z) →
  bus_ok b → bus_ok (Subscribe b t h).2.
Proof.
  intros Hmax [Hnd Hall].
  assert (Forall (λ rh, ∃ n, 1 ≤ n ≤ length (default [] (subscribers (Subscribe b t h).2 !! rh_topic rh)) ∧
                     rh_name rh = handlerName (rh_topic rh) n) (router b)) as Hold.
  { eapply Forall_impl; [exact Hall|]. intros rh (n & Hn & E). exists n.
    rewrite Subscribe_subscribers, length_app. split; [lia|done]. }
  unfold bus_ok. destruct (Subscribe_router b t h) as [->|(sub & ->)]; [done|].
  rewrite fmap_app, Forall_app. split.
  - apply NoDup_app. split; [done|]. split; [|apply NoDup_singleton].
    intros name Hin Hnew. apply list_elem_of_singleton in Hnew. subst name. simpl in Hin.
    apply list_elem_of_fmap in Hin as (rh & E & Hrh).
    rewrite Forall_forall in Hall. destruct (Hall _ Hrh) as (n & Hn & En).
    rewrite En in E. specialize (Hmax (rh_topic rh)) as Hm1. specialize (Hmax t) as Hm2.
    apply handlerName_inj in E as [Et E']; [|lia..]. rewrite Et in *. lia.
  - split; [exact Hold|]. apply Forall_singleton. simpl. eexists. split; [|reflexivity].
    rewrite Subscribe_subscribers, length_app, bool_decide_true by done. simpl. lia.
Qed.

Lemma subscribe_all_counts (l : list (string * EventHandler W)) b t :
  length (default [] (subscribers (subscribe_all b l) !! t)) ≤
  length (default [] (subscribers b !! t)) + length l.
Proof.
  revert b. induction l as [|[t' h] l IH]; intros b; simpl; [lia|].
  specialize (IH (Subscribe b t' h).2). rewrite Subscribe_subscribers, length_app in IH.
  unfold subscribe_all in *. case_bool_decide; simpl in *; lia.
Qed.

Lemma Publish_cons inj uuid b e es (w : W) :
  Publish inj uuid b (e :: es) w =
    match publish_one inj uuid b e w with
    | (Returns None, w') => Publish inj uuid b es w'
    | r => r
    end.
Proof.
  unfold Publish. cbn [for_until_err]. rewrite M_bind_eq.
  by destruct (publish_one inj uuid b e w) as [[[er|]| |] w'].
Qed.

End bus_lemmas.

(** ** Properties *)

(** C16: an event that carries a payload is never delivered.  Whatever the
    handler and the event, if the envelope could be published at all, the
    receiving side fails to decode it, acknowledges the message and does not
    call the handler. *)
Theorem event_with_payload_never_delivered {W} (handler : EventHandler W) (e : EventEnvelope)
    (carrier : gmap string string) (uuid : string) (payload : json) (w : W) :
  env_Payload e ≠ None → encode_envelope (set_carrier carrier e) = Some payload →
  consume handler (uuid, payload) w = (Returns None, w).
Proof.
  intros Hp Henc. apply decode_encode_envelope in Henc. simpl in Henc.
  destruct (env_Payload e) as [ev|]; [|done]. unfold consume. simpl.
  destruct (decode_envelope payload) as [env [er|]]; [done|]. discriminate Henc.
Qed.

Lemma event_with_payload_never_delivered_witness :
  ∃ payload, encode_envelope completed_order = Some payload ∧
    consume (λ _ n, (Returns None, S n)) ("u", payload) 0 = (Returns None, 0).
Proof.
  eexists. split; [vm_compute; reflexivity|].
  apply (event_with_payload_never_delivered _ completed_order ∅); [done|].
  vm_compute. reflexivity.
Defined.

(** an event without a payload arrives intact: the handler is called on
    the published envelope with the publisher's trace carrier. *)
Theorem event_without_payload_delivered {W} (handler : EventHandler W) (e : EventEnvelope)
    (carrier : gmap string string) (uuid : string) (payload : json) (w : W) :
  env_Payload e = None → encode_envelope (set_carrier carrier e) = Some payload →
  consume handler (uuid, payload) w = handler (set_carrier carrier e) w.
Proof.
  intros Hp Henc. apply decode_encode_envelope in Henc. simpl in Henc. rewrite Hp in Henc.
  unfold consume. simpl. by rewrite Henc.
Qed.

Lemma event_without_payload_delivered_witness :
  ∃ payload, encode_envelope (set_carrier {["k" := "v"]} (mkEnv "e" "c" "x" OrderFulfillmentReady 0 ∅ None)) = Some payload ∧
    consume (λ e (l : list string), (Returns None, env_EventID e :: l)) ("u", payload) [] = (Returns None, ["e"]).
Proof.
  eexists. split; [vm_compute; reflexivity|].
  rewrite (event_without_payload_delivered _ (mkEnv "e" "c" "x" OrderFulfillmentReady 0 ∅ None) {["k" := "v"]}).
  - reflexivity.
  - reflexivity.
  - vm_compute. reflexivity.
Defined.

(** no sequence of subscriptions on a fresh bus, some of which may fail
    in the SQL backend, ever gives the router two handlers of the same name
    (the router panics on a duplicate). *)
Theorem subscribe_all_names_unique {W} (b : eventBus W) (l : list (string * EventHandler W)) :
  subscribers b = ∅ → router b = [] → (Z.of_nat (length l) ≤ max_int)%Z →
  NoDup (rh_name <$> router (subscribe_all b l)) ∧
  Forall (λ rh, ∃ h, (rh_topic rh, h) ∈ l) (router (subscribe_all b l)).
Proof.
  intros Hs Hr Hmax.
  assert (bus_ok (subscribe_all b l) ∧
          Forall (λ rh, ∃ h, (rh_topic rh, h) ∈ l) (router (subscribe_all b l))) as [[Hnd _] Hall].
  2: { done. }
  induction l as [|[t h] l IH] using rev_ind.
  { unfold subscribe_all, bus_ok. simpl. rewrite Hr. repeat constructor. }
  rewrite length_app in Hmax. simpl in Hmax.
  destruct IH as [Hok Hall]; [lia|]. unfold subscribe_all. rewrite fold_left_app. simpl.
  fold (subscribe_all b l). split.
  - apply Subscribe_ok; [|done]. intros t'.
    pose proof (subscribe_all_counts l b t') as Hc. rewrite Hs, lookup_empty in Hc. simpl in Hc. lia.
  - assert (Forall (λ rh, ∃ h0, (rh_topic rh, h0) ∈ l ++ [(t, h)]) (router (subscribe_all b l))) as Hall'.
    { eapply Forall_impl; [exact Hall|]. intros rh [h0 Hin]. exists h0. set_solver. }
    destruct (Subscribe_router (subscribe_all b l) t h) as [->|(sub & ->)]; [done|].
    rewrite Forall_app. split; [done|]. apply Forall_singleton. exists h. simpl. set_solver.
Qed.

Lemma subscribe_all_names_unique_witness :
  NoDup (rh_name <$> router (subscribe_all (newEventBus (λ _ _ n, (Returns None, S n)))
    [(OrderCompleted, λ _ n, (Returns None, n)); (OrderCompleted, λ _ n, (Returns None, S n))])).
Proof.
  apply (subscribe_all_names_unique (newEventBus (λ _ _ n, (Returns None, S n)))
    [(OrderCompleted, λ _ n, (Returns None, n)); (OrderCompleted, λ _ n, (Returns None, S n))]).
  - reflexivity.
  - reflexivity.
  - vm_compute. discriminate.
Defined.
