(* ===== verification/LoyaltyApp.v ===== *)
(** * use_cases/loyalty: ports and handlers

    The credit command handler, the order-completed event handler, the balance
    query handler and the wiring of drivers/watermill/register.go, written
    against the output ports.  [LoyaltyPorts] lists the ports' operations;
    [LoyaltyLaws] states what the handlers rely on: the documented contract of
    each port over an abstract view of the state. *)

From S2P Require Import Prelude GoFloat LoyaltyDomain Cqrs.

(** ** The state and the ports *)

Class HasAmbient (W : Type) : Type := {
  get_amb : W → ambient;
  set_amb : ambient → W → W;
}.

(** Run code that only uses the clock and the identifier supply. *)
Definition on_amb {W A} `{HasAmbient W} (m : M ambient A) : M W A := λ w,
  let '(r, a) := m (get_amb w) in (r, set_amb a w).

(** The output ports: LoyaltyWriteRepository, LoyaltyReadRepository,
    IdempotencyRepository, LoyaltyCacheRepository and cqrs.EventBus. *)
Class LoyaltyPorts (W : Type) : Type := {
  Save : LoyaltyAggregate → M W goerror;
  FindByCustomerID : string → M W (option LoyaltyAggregate * goerror);
  GetBalanceByCustomerID : string → M W (GetLoyaltyBalanceResponse * goerror);
  Exists : string → M W (bool * goerror);
  Mark : string → M W goerror;
  SetBalance : string → GetLoyaltyBalanceResponse → M W goerror;
  GetBalance : string → M W (GetLoyaltyBalanceResponse * bool * goerror);
  bus_Publish : list EventEnvelope → M W goerror;
}.

Definition resp_zero : CreditLoyaltyResponse := mkCreditResp "" 0 "".
Definition balance_zero : GetLoyaltyBalanceResponse := mkBalanceResp "" "" 0 "".

(** [if err != nil { return zero, err }] *)
Definition if_err {St R} (err : goerror) (zero : R) (k : M St (R * goerror)) : M St (R * goerror) :=
  match err with
  | Some e => mret (zero, Some e)
  | None => k
  end.

Section handlers.
Context {W : Type} `{Ambient} `{HasAmbient W} `{LoyaltyPorts W}.

(** ** command/credit_loyalty_handler.go *)

Definition make_envelope (cmd : CreditLoyaltyRequest) (de : DomainEvent) : M ambient EventEnvelope :=
  id ← ulid_Make;
  mret (mkEnv id (cr_CorrelationID cmd) (cr_CausationEventID cmd) LoyaltyCredited
              (OccurredAt de) ∅ (Some de)).

Fixpoint make_envelopes (cmd : CreditLoyaltyRequest) (des : list DomainEvent) :
    M ambient (list EventEnvelope) :=
  match des with
  | [] => mret []
  | de :: des' =>
      e ← make_envelope cmd de;
      es ← make_envelopes cmd des';
      mret (e :: es)
  end.

(** Steps 4 to 6: save, publish the flushed events, mark. *)
Definition credit_commit (cmd : CreditLoyaltyRequest) (agg : LoyaltyAggregate) :
    M W (CreditLoyaltyResponse * goerror) :=
  err ← Save agg;
  if_err err resp_zero (
    let '(des, agg) := FlushEvents agg in
    envelopes ← on_amb (make_envelopes cmd des);
    err ← bus_Publish envelopes;
    if_err err resp_zero (
      err ← (if bool_decide (cr_CausationEventID cmd ≠ "")
             then Mark (cr_CausationEventID cmd) else mret None);
      if_err err resp_zero (
        mret (mkCreditResp (acc_ID (agg_Account agg)) (agg_Balance agg) (agg_Tier agg), None)))).

(** Steps 2 and 3: load or create the aggregate, and credit it. *)
Definition credit_body (cmd : CreditLoyaltyRequest) : M W (CreditLoyaltyResponse * goerror) :=
  r ← FindByCustomerID (cr_CustomerID cmd);
  if_err r.2 resp_zero (
    agg ← (match r.1 with
           | Some agg => mret agg
           | None => on_amb (NewLoyaltyAggregate (cr_CustomerID cmd))
           end);
    let '(pts, err) := NewPoints (cr_Points cmd) in
    if_err err resp_zero (
      r ← on_amb (CreditPoints agg (cr_OrderID cmd) pts);
      if_err r.2 resp_zero (credit_commit cmd r.1))).

(** Step 1: the idempotency check. *)
Definition CreditLoyaltyHandler_Handle (cmd : CreditLoyaltyRequest) :
    M W (CreditLoyaltyResponse * goerror) :=
  if bool_decide (cr_CausationEventID cmd ≠ "") then
    r ← Exists (cr_CausationEventID cmd);
    if_err r.2 resp_zero (
      if (r.1 : bool) then mret (resp_zero, Some ErrDuplicateEvent) else credit_body cmd)
  else credit_body cmd.

(** ** event/on_order_completed_handler.go *)

(** 10% of the order total, at least one point; [oob] is the platform's
    conversion of a float that is no [int]. *)
Definition order_points (oob : float64 → Z) (total : float64) : Z :=
  let points := f64_to_int oob (f64_mul total f64_0_1) in
  if bool_decide (points < 1)%Z then 1%Z else points.

Definition OnOrderCompletedHandler_Handle (oob : float64 → Z)
    (Dispatch : Command → M W (reply * goerror)) (env : EventEnvelope) : M W goerror :=
  match env_Payload env with
  | Some (EvOrderCompleted payload) =>
      let points := order_points oob (oc_TotalAmount payload) in
      r ← Dispatch (CmdCreditLoyalty (mkCreditReq (oc_CustomerID payload) (oc_OrderID payload)
                      points (env_CorrelationID env) (env_EventID env)));
      match r.2 with
      | Some err =>
          id ← on_amb ulid_Make;
          ev ← on_amb (NewLoyaltyCreditFailedEvent (oc_CustomerID payload) (oc_OrderID payload) (Error err));
          _ ← bus_Publish [mkEnv id (env_CorrelationID env) (env_EventID env) LoyaltyCreditFailed
                                 time_zero ∅ (Some (EvLoyaltyCreditFailed ev))];
          mret None
      | None => mret None
      end
  | _ => mret None
  end.

(** ** query/get_loyalty_balance_handler.go

    [cache] tells whether a cache was injected. *)
Definition GetLoyaltyBalanceHandler_Handle (cache : bool) (q : GetLoyaltyBalanceRequest) :
    M W (GetLoyaltyBalanceResponse * goerror) :=
  hit ← (if cache then
           r ← GetBalance (gb_CustomerID q);
           let '(cached, ok, err) := r in
           mret (match (err : goerror), (ok : bool) with None, true => Some cached | _, _ => None end)
         else mret None);
  match hit with
  | Some cached => mret (cached, None)
  | None =>
      r ← GetBalanceByCustomerID (gb_CustomerID q);
      if_err r.2 balance_zero (
        (if cache then _ ← SetBalance (gb_CustomerID q) r.1; mret tt else mret tt) ≫= λ _,
        mret (r.1, None))
  end.

(** ** drivers/watermill/register.go: wiring the domain into the buses *)

Record busesState : Type := mkBuses {
  b_command : nameBus Command W;
  b_query : nameBus Query W;
  b_event : eventBus W;
}.

Definition credit_command_fn (c : Command) : M W (reply * goerror) :=
  match c with
  | CmdCreditLoyalty r => x ← CreditLoyaltyHandler_Handle r; mret (ReplyCredit x.1, x.2)
  | CmdOther _ => panic "interface conversion: cqrs.Command is not dto.CreditLoyaltyRequest"
  end.

Definition balance_query_fn (cache : bool) (q : Query) : M W (reply * goerror) :=
  match q with
  | QryGetBalance r => x ← GetLoyaltyBalanceHandler_Handle cache r; mret (ReplyBalance x.1, x.2)
  | QryOther _ => panic "interface conversion: cqrs.Query is not dto.GetLoyaltyBalanceRequest"
  end.

(** The subscribed handler dispatches on the command bus as it is at call time;
    registration happens once, so the bus after it is the one used. *)
Definition registerLoyalty (oob : float64 → Z) (d : busesState) : busesState :=
  let cmd := commandBus_Register (b_command d) "loyalty.credit_loyalty" credit_command_fn in
  let qry := queryBus_Register (b_query d) "loyalty.get_balance" (balance_query_fn true) in
  let evt := (Subscribe (b_event d) OrderCompleted
                (OnOrderCompletedHandler_Handle oob (commandBus_Dispatch cmd))).2 in
  mkBuses cmd qry evt.

(** loyalty/registrar.go, the FX composition root: the same registrations
    through [RegisterHandler].  The optional NATS client it looks up is not
    passed to any handler. *)
Definition Registrar_Register (oob : float64 → Z) (d : busesState) : busesState :=
  let cmd := fx_commandBus_RegisterHandler (b_command d) "loyalty.credit_loyalty" credit_command_fn in
  let qry := fx_queryBus_RegisterHandler (b_query d) "loyalty.get_balance" (balance_query_fn true) in
  let evt := (fx_Subscribe (b_event d) OrderCompleted
                (OnOrderCompletedHandler_Handle oob (fx_commandBus_Dispatch cmd))).2 in
  mkBuses cmd qry evt.

End handlers.

(** ** The ports' contract *)

(** [no_reuse w acc]: saving [acc] either updates the account of its own
    customer or inserts a row under an identifier no row uses. *)
Class LoyaltyLaws (W : Type) `{Ambient} `{HasAmbient W} `{LoyaltyPorts W} : Type := {
  st_account : W → string → option LoyaltyAccount;
  st_marked : W → string → bool;
  st_published : W → list EventEnvelope;
  get_set_amb : ∀ a w, get_amb (set_amb a w) = a;
  view_set_amb : ∀ a w, st_account (set_amb a w) = st_account w ∧
    st_marked (set_amb a w) = st_marked w ∧ st_published (set_amb a w) = st_published w;
  account_customer : ∀ w c acc, st_account w c = Some acc → acc_CustomerID acc = c;
  Save_law : ∀ a w,
    (match st_account w (acc_CustomerID (account a)) with
     | Some old => acc_ID old = acc_ID (account a) ∧ acc_CreatedAt old = acc_CreatedAt (account a)
     | None => ∀ c old, st_account w c = Some old → acc_ID old ≠ acc_ID (account a)
     end) →
    (0 ≤ agg_Balance a)%Z →
    ∃ err w', Save a w = (Returns err, w') ∧
      amb_ulid (get_amb w') = amb_ulid (get_amb w) ∧
      st_marked w' = st_marked w ∧ st_published w' = st_published w ∧
      ∀ c, st_account w' c =
        if bool_decide (err = None ∧ c = acc_CustomerID (account a))
        then Some (account a) else st_account w c;
  Find_law : ∀ c w, ∃ r w', FindByCustomerID c w = (Returns r, w') ∧
      amb_ulid (get_amb w') = amb_ulid (get_amb w) ∧
      st_account w' = st_account w ∧ st_marked w' = st_marked w ∧ st_published w' = st_published w ∧
      (r.2 = None → r.1 = Reconstitute <$> st_account w c);
  GetBalanceByCustomerID_law : ∀ c w, ∃ r w', GetBalanceByCustomerID c w = (Returns r, w') ∧
      st_account w' = st_account w ∧
      (r.2 = None → ∃ acc, st_account w c = Some acc ∧
         r.1 = mkBalanceResp (acc_ID acc) c (Points_Value (acc_Balance acc)) (acc_Tier acc));
  Exists_law : ∀ k w, ∃ r w', Exists k w = (Returns r, w') ∧
      amb_ulid (get_amb w') = amb_ulid (get_amb w) ∧
      st_account w' = st_account w ∧ st_marked w' = st_marked w ∧ st_published w' = st_published w ∧
      (r.2 = None → r.1 = st_marked w k);
  Mark_law : ∀ k w, ∃ err w', Mark k w = (Returns err, w') ∧
      amb_ulid (get_amb w') = amb_ulid (get_amb w) ∧
      st_account w' = st_account w ∧ st_published w' = st_published w ∧
      (∀ k', st_marked w' k' = st_marked w k' || bool_decide (err = None ∧ k' = k));
  Publish_law : ∀ es w, ∃ err w', bus_Publish es w = (Returns err, w') ∧
      amb_ulid (get_amb w') = amb_ulid (get_amb w) ∧
      st_account w' = st_account w ∧ st_marked w' = st_marked w ∧
      ∃ sent, sent `prefix_of` es ∧ st_published w' = st_published w ++ sent ∧
              (err = None → sent = es);
}.

(** Account identifiers come from the supply already used. *)
Definition ids_issued {W} `{LoyaltyLaws W} (w : W) : Prop :=
  ∀ c acc, st_account w c = Some acc →
    (∃ i, i < amb_ulid (get_amb w) ∧ acc_ID acc = ulid_at i) ∧ agg_ok (Reconstitute acc).

(** The balance a customer has before a command. *)
Definition balance_of {W} `{LoyaltyLaws W} (w : W) (c : string) : Z :=
  match st_account w c with
  | Some acc => Points_Value (acc_Balance acc)
  | None => 0%Z
  end.

(** The two states show the same accounts, keys and outbox. *)
Definition same_views {W} `{LoyaltyLaws W} (w w1 : W) : Prop :=
  st_account w1 = st_account w ∧ st_marked w1 = st_marked w ∧ st_published w1 = st_published w.

(** The event a credit of [cmd] that leaves [acc] announces, and its envelope. *)
Definition credited_event (cmd : CreditLoyaltyRequest) (acc : LoyaltyAccount)
    (ev : LoyaltyCreditedEvent) : Prop :=
  lc_LoyaltyAccountID ev = acc_ID acc ∧ lc_CustomerID ev = acc_CustomerID acc ∧
  lc_OrderID ev = cr_OrderID cmd ∧ lc_PointsEarned ev = cr_Points cmd ∧
  lc_NewBalance ev = Points_Value (acc_Balance acc) ∧ lc_NewTier ev = acc_Tier acc.

Definition credit_envelope (cmd : CreditLoyaltyRequest) (acc : LoyaltyAccount)
    (e : EventEnvelope) : Prop :=
  env_EventName e = LoyaltyCredited ∧ env_CorrelationID e = cr_CorrelationID cmd ∧
  env_CausationID e = cr_CausationEventID cmd ∧
  ∃ ev, env_Payload e = Some (EvLoyaltyCredited ev) ∧ credited_event cmd acc ev.

(** A run that fails once the credited account [acc] is computed, by the call
    that fails: [Save], and then the account and the outbox are as before; the
    publication, and then the account is already credited and at most the
    event is out; or [Mark], and then the account is credited and the event is
    out.  [w'] is the state in which the failing call returned [err]. *)
Definition credit_failed {W} `{LoyaltyLaws W} (cmd : CreditLoyaltyRequest) (acc : LoyaltyAccount)
    (w : W) (err : error) (w' : W) : Prop :=
  let cust := cr_CustomerID cmd in
  let cause := cr_CausationEventID cmd in
  (st_account w' cust = st_account w cust ∧ st_published w' = st_published w ∧
   ∃ a w1, account a = acc ∧ same_views w w1 ∧ Save a w1 = (Returns (Some err), w')) ∨
  (st_account w' cust = Some acc ∧
   ∃ e, credit_envelope cmd acc e ∧
    ((∃ sent w1, sent `prefix_of` [e] ∧ st_published w' = st_published w ++ sent ∧
       st_account w1 cust = Some acc ∧ st_published w1 = st_published w ∧
       bus_Publish [e] w1 = (Returns (Some err), w')) ∨
     (cause ≠ "" ∧ st_published w' = st_published w ++ [e] ∧
      ∃ w1, st_account w1 cust = Some acc ∧ st_published w1 = st_published w ++ [e] ∧
        Mark cause w1 = (Returns (Some err), w')))).

(** What one run of the command handler that reaches the write side does to the
    state: nothing happens to other customers; on success the account, the
    outbox and the key are all written; on an error the zero response is
    returned, no key is marked, and the run stopped at the failing call. *)
Definition credit_effect {W} `{LoyaltyLaws W} (cmd : CreditLoyaltyRequest) (acc : LoyaltyAccount)
    (w : W) (r : CreditLoyaltyResponse * goerror) (w' : W) : Prop :=
  let cust := cr_CustomerID cmd in
  let cause := cr_CausationEventID cmd in
  amb_ulid (get_amb w) ≤ amb_ulid (get_amb w') ∧
  (∀ c, c ≠ cust → st_account w' c = st_account w c) ∧
  match r.2 with
  | None =>
      st_account w' cust = Some acc ∧
      r.1 = mkCreditResp (acc_ID acc) (Points_Value (acc_Balance acc)) (acc_Tier acc) ∧
      (∃ e, st_published w' = st_published w ++ [e] ∧ credit_envelope cmd acc e) ∧
      (∀ k, st_marked w' k = st_marked w k || bool_decide (cause ≠ "" ∧ k = cause))
  | Some err =>
      r.1 = resp_zero ∧ (∀ k, st_marked w' k = st_marked w k) ∧ credit_failed cmd acc w err w'
  end.

(** Why a run may stop before the aggregate is saved: the causation id was
    processed already, a lookup failed, or the points are no credit. *)
Definition refusal {W} `{LoyaltyLaws W} (cmd : CreditLoyaltyRequest) (w : W) (err : error)
    (w' : W) : Prop :=
  let cause := cr_CausationEventID cmd in
  (cause ≠ "" ∧ st_marked w cause = true ∧ err = ErrDuplicateEvent) ∨
  (cause ≠ "" ∧ ∃ b w1, same_views w w1 ∧ Exists cause w1 = (Returns (b, Some err), w')) ∨
  (∃ found w1, same_views w w1 ∧
     FindByCustomerID (cr_CustomerID cmd) w1 = (Returns (found, Some err), w')) ∨
  ((cr_Points cmd < 0)%Z ∧ err = ErrNegativePoints) ∨
  (cr_Points cmd = 0%Z ∧ err = Fmt "cannot credit zero points" []).

(** A run that fails before the aggregate is saved. *)
Definition credit_refused {W} `{LoyaltyLaws W} (cmd : CreditLoyaltyRequest) (w : W)
    (r : CreditLoyaltyResponse * goerror) (w' : W) : Prop :=
  (∃ err, r = (resp_zero, Some err) ∧ refusal cmd w err w') ∧
  amb_ulid (get_amb w) ≤ amb_ulid (get_amb w') ∧ same_views w w'.

(** The account a successful credit leaves. *)
Definition credited_account {W} `{LoyaltyLaws W} (cmd : CreditLoyaltyRequest) (w : W)
    (acc : LoyaltyAccount) : Prop :=
  acc_CustomerID acc = cr_CustomerID cmd ∧
  Points_Value (acc_Balance acc) = (balance_of w (cr_CustomerID cmd) + cr_Points cmd)%Z ∧
  acc_Tier acc = CalculateTier (acc_Balance acc) ∧
  match st_account w (cr_CustomerID cmd) with
  | Some old => acc_ID acc = acc_ID old ∧ acc_CreatedAt acc = acc_CreatedAt old
  | None => acc_ID acc = ulid_at (amb_ulid (get_amb w))
  end.

(** ** Lemmas *)

Section credit_lemmas.
Context {W : Type} `{HL : LoyaltyLaws W}.
Implicit Types (w : W) (cmd : CreditLoyaltyRequest).

Lemma on_amb_eq {A} (m : M ambient A) w :
  on_amb m w = ((m (get_amb w)).1, set_amb (m (get_amb w)).2 w).
Proof. unfold on_amb. by destruct (m (get_amb w)). Qed.

Lemma views_set_amb a w :
  st_account (set_amb a w) = st_account w ∧ st_marked (set_amb a w) = st_marked w ∧
  st_published (set_amb a w) = st_published w ∧ get_amb (set_amb a w) = a.
Proof. destruct (view_set_amb a w) as (? & ? & ?). by rewrite get_set_amb. Qed.

(** The last step of the handler: only a non-empty cause is marked. *)
Lemma mark_cause cmd w :
  ∃ err w', (if bool_decide (cr_CausationEventID cmd ≠ "") then Mark (cr_CausationEventID cmd)
             else mret None) w = (Returns err, w') ∧
    amb_ulid (get_amb w') = amb_ulid (get_amb w) ∧ st_account w' = st_account w ∧
    st_published w' = st_published w ∧
    ∀ k, st_marked w' k = st_marked w k ||
           bool_decide (err = None ∧ cr_CausationEventID cmd ≠ "" ∧ k = cr_CausationEventID cmd).
Proof.
  case_bool_decide as Hcz.
  - destruct (Mark_law (cr_CausationEventID cmd) w) as (err & w' & -> & ? & ? & ? & M3).
    do 2 eexists. split; [reflexivity|]. repeat split; try done.
    intros k. rewrite M3. f_equal. apply bool_decide_ext. naive_solver.
  - do 2 eexists. split; [reflexivity|]. repeat split; try done.
    intros k. rewrite bool_decide_false by naive_solver. by rewrite orb_false_r.
Qed.

Lemma credit_commit_spec cmd acc ev w :
  acc_CustomerID acc = cr_CustomerID cmd →
  (0 ≤ Points_Value (acc_Balance acc))%Z →
  credited_event cmd acc ev →
  match st_account w (cr_CustomerID cmd) with
  | Some old => acc_ID old = acc_ID acc ∧ acc_CreatedAt old = acc_CreatedAt acc
  | None => ∀ c old, st_account w c = Some old → acc_ID old ≠ acc_ID acc
  end →
  ∃ r w', credit_commit cmd (mkAggregate acc [EvLoyaltyCredited ev]) w = (Returns r, w') ∧
          credit_effect cmd acc w r w'.
Proof.
  intros Hc Hnn Hev Hsave. unfold credit_commit, credit_effect. rewrite M_bind_eq.
  destruct (Save_law (mkAggregate acc [EvLoyaltyCredited ev]) w)
    as (err & w1 & Hrun & U1 & M1 & P1 & A1).
  { simpl. by rewrite Hc. }
  { done. }
  rewrite Hrun. simpl in A1. rewrite Hc in A1.
  destruct err as [e|]; simpl.
  { do 2 eexists. split; [reflexivity|]. simpl. rewrite U1, M1.
    split_and!; [done|intros c _; by rewrite A1|done|done|].
    left. split; [by rewrite A1|]. split; [done|].
    by exists (mkAggregate acc [EvLoyaltyCredited ev]), w. }
  rewrite M_bind_eq, on_amb_eq. simpl.
  set (a2 := mkAmbient _ _). set (env := mkEnv _ _ _ _ _ _ _).
  assert (credit_envelope cmd acc env) as Henv by (split_and!; [done..|by eexists]).
  destruct (views_set_amb a2 w1) as (VA & VM & VP & VG). rewrite M_bind_eq.
  destruct (Publish_law [env] (set_amb a2 w1))
    as (err & w2 & Hpub & U2 & A2 & M2 & sent & Hpre & P2 & Hall).
  rewrite Hpub, VP, P1 in *.
  assert (∀ c, st_account w1 c = if bool_decide (c = cr_CustomerID cmd) then Some acc else st_account w c) as A1'.
  { intros c. rewrite A1.
    destruct (decide (c = cr_CustomerID cmd));
      [rewrite !bool_decide_true by done|rewrite !bool_decide_false by naive_solver]; done. }
  assert (amb_ulid (get_amb w) ≤ amb_ulid (get_amb w2)) as U2'.
  { rewrite U2, VG. unfold a2. simpl. lia. }
  assert (∀ c, c ≠ cr_CustomerID cmd → st_account w2 c = st_account w c) as A2o.
  { intros c Hne. by rewrite A2, VA, A1', bool_decide_false. }
  assert (st_account w1 (cr_CustomerID cmd) = Some acc) as A1c by by rewrite A1', bool_decide_true.
  destruct err as [e|]; simpl.
  { do 2 eexists. split; [reflexivity|]. simpl. rewrite M2, VM, M1.
    split_and!; [done..|]. right. rewrite A2, VA. split; [done|].
    exists env. split; [done|]. left. exists sent, (set_amb a2 w1). by rewrite VA, VP. }
  rewrite M_bind_eq.
  destruct (mark_cause cmd w2) as (err & w3 & Hmark & U3 & A3 & P3 & M3).
  rewrite Hmark. rewrite (Hall eq_refl) in P2.
  destruct err as [e|]; simpl; do 2 eexists; (split; [reflexivity|]); simpl;
    (split; [lia|]); (split; [by rewrite A3|]).
  - split; [done|]. split.
    { intros k. rewrite M3, M2, VM, M1, bool_decide_false by naive_solver. by rewrite orb_false_r. }
    right. rewrite A3, A2, VA, P3, P2. split; [done|]. exists env. split; [done|]. right.
    case_bool_decide as Hcz; [|done]. split; [done|]. split; [done|].
    exists w2. by rewrite A2, VA, P2.
  - rewrite A3, A2, VA, P3, P2. split_and!; [done..|by exists env|].
    intros k. rewrite M3, M2, VM, M1. f_equal. apply bool_decide_ext. naive_solver.
Qed.

(** Only the views of the first state and its identifier supply matter. *)
Lemma same_views_trans w w1 w2 : same_views w w1 → same_views w1 w2 → same_views w w2.
Proof. intros (? & ? & ?) (? & ? & ?). split_and!; congruence. Qed.

Lemma refusal_views cmd w w1 err w' :
  same_views w w1 → refusal cmd w1 err w' → refusal cmd w err w'.
Proof. intros (A1 & M1 & P1). unfold refusal, same_views. by rewrite A1, M1, P1. Qed.

Lemma credit_refused_views cmd w w1 r w' :
  same_views w w1 → amb_ulid (get_amb w) ≤ amb_ulid (get_amb w1) →
  credit_refused cmd w1 r w' → credit_refused cmd w r w'.
Proof.
  intros Hv U1 ((err & -> & Hr) & Hu & Hs). split; [|split; [lia|by eapply same_views_trans]].
  exists err. split; [done|]. by eapply refusal_views.
Qed.

Lemma credit_failed_views cmd acc w w1 err w' :
  same_views w w1 → credit_failed cmd acc w1 err w' → credit_failed cmd acc w err w'.
Proof.
  intros (A1 & M1 & P1). unfold credit_failed, same_views. by rewrite A1, M1, P1.
Qed.

Lemma credit_effect_views cmd acc w w1 r w' :
  same_views w w1 → amb_ulid (get_amb w) ≤ amb_ulid (get_amb w1) →
  credit_effect cmd acc w1 r w' → credit_effect cmd acc w r w'.
Proof.
  intros Hv U1 (Hu & Ho & Hr). split; [lia|]. destruct r as [? [err|]]; simpl in *.
  - destruct Hr as (? & Hm & Hf). pose proof (credit_failed_views _ _ _ _ _ _ Hv Hf).
    destruct Hv as (A1 & M1 & _). rewrite A1, M1 in *. done.
  - destruct Hv as (A1 & M1 & P1). by rewrite A1, M1, P1 in *.
Qed.

Lemma credited_account_views cmd w w1 acc :
  st_account w1 = st_account w → amb_ulid (get_amb w1) = amb_ulid (get_amb w) →
  credited_account cmd w1 acc → credited_account cmd w acc.
Proof. intros A1 U1. unfold credited_account, balance_of. by rewrite A1, U1. Qed.

(** Whatever the outcome, the customer's account is the old or the credited one. *)
Lemma credit_effect_account cmd acc w r w' :
  credit_effect cmd acc w r w' →
  st_account w' (cr_CustomerID cmd) = st_account w (cr_CustomerID cmd) ∨
  st_account w' (cr_CustomerID cmd) = Some acc.
Proof.
  intros (_ & _ & Hr). destruct r as [? [err|]]; simpl in *; [|naive_solver].
  destruct Hr as (_ & _ & [[? _]|[? _]]); eauto.
Qed.

Lemma Reconstitute_account acc : account (Reconstitute acc) = acc.
Proof. reflexivity. Qed.

Lemma credit_aggregate_spec cmd a w :
  domainEvents a = [] → acc_CustomerID (account a) = cr_CustomerID cmd → agg_ok a →
  agg_Balance a = balance_of w (cr_CustomerID cmd) →
  (balance_of w (cr_CustomerID cmd) + cr_Points cmd ≤ max_int)%Z →
  match st_account w (cr_CustomerID cmd) with
  | Some old => acc_ID (account a) = acc_ID old ∧ acc_CreatedAt (account a) = acc_CreatedAt old
  | None => ∀ c old, st_account w c = Some old → acc_ID old ≠ acc_ID (account a)
  end →
  ∃ r w', (let '(pts, err) := NewPoints (cr_Points cmd) in
           if_err err resp_zero (
             r ← on_amb (CreditPoints a (cr_OrderID cmd) pts);
             if_err r.2 resp_zero (credit_commit cmd r.1))) w = (Returns r, w') ∧
    (credit_refused cmd w r w' ∨
     ∃ acc, acc_ID acc = acc_ID (account a) ∧ acc_CustomerID acc = cr_CustomerID cmd ∧
       acc_CreatedAt acc = acc_CreatedAt (account a) ∧
       Points_Value (acc_Balance acc) = (balance_of w (cr_CustomerID cmd) + cr_Points cmd)%Z ∧
       acc_Tier acc = CalculateTier (acc_Balance acc) ∧
       (0 < cr_Points cmd)%Z ∧ credit_effect cmd acc w r w').
Proof.
  intros Hev Hc [Hbal Htier] Hb Hmax Hid.
  destruct (decide (cr_Points cmd < 0)%Z) as [Hneg|Hnn].
  { rewrite NewPoints_neg by done. do 2 eexists. split; [reflexivity|]. left.
    split; [|done]. eexists. split; [done|]. do 3 right. by left. }
  rewrite NewPoints_nonneg by lia. cbn [if_err].
  rewrite M_bind_eq, on_amb_eq.
  destruct (decide (cr_Points cmd = 0%Z)) as [Hz|Hz].
  { rewrite Hz. simpl. do 2 eexists. split; [reflexivity|]. left.
    destruct (views_set_amb (get_amb w) w) as (VA & VM & VP & VG).
    unfold credit_refused, same_views. rewrite VA, VM, VP, VG. split; [|done].
    eexists. split; [done|]. by do 4 right. }
  destruct (CreditPoints_run a (cr_OrderID cmd) (cr_Points cmd) (get_amb w) Hz)
    as (acc & ev & amb' & -> & Hval & Ht & Hi & Hcu & Hcr & Ho & Hp & Hnb & Hnt & Hai & Hci & Hul).
  rewrite Hev. simpl.
  rewrite wrap64_id in Hval by (unfold is_int, min_int, max_int in *; lia).
  destruct (views_set_amb amb' w) as (VA & VM & VP & VG).
  destruct (credit_commit_spec cmd acc ev (set_amb amb' w)) as (r & w' & -> & Heff).
  { by rewrite Hcu. }
  { unfold Points_Value. lia. }
  { done. }
  { rewrite VA. destruct (st_account w (cr_CustomerID cmd)); rewrite Hi, ?Hcr; [naive_solver|done]. }
  do 2 eexists. split; [reflexivity|]. right. exists acc.
  rewrite Hb in Hval. do 5 (split; [first [done|congruence]|]). split; [lia|].
  eapply credit_effect_views; [| |exact Heff]; [done|]. by rewrite VG, Hul.
Qed.

Lemma new_id_fresh w i :
  ids_issued w → amb_ulid (get_amb w) ≤ i →
  ∀ c old, st_account w c = Some old → acc_ID old ≠ ulid_at i.
Proof.
  intros Hids Hi c old Hold Heq. destruct (Hids _ _ Hold) as [(j & Hj & Hid) _].
  rewrite Hid in Heq. apply ulid_at_inj in Heq. lia.
Qed.

(** The state after a credited account is written still has issued identifiers. *)
Lemma ids_issued_credited w w' acc cust i :
  ids_issued w → amb_ulid (get_amb w) ≤ amb_ulid (get_amb w') →
  acc_ID acc = ulid_at i → i < amb_ulid (get_amb w') → agg_ok (Reconstitute acc) →
  (∀ c, c ≠ cust → st_account w' c = st_account w c) →
  (st_account w' cust = st_account w cust ∨ st_account w' cust = Some acc) →
  ids_issued w'.
Proof.
  intros Hids Hle Hid Hi Hok Hother Hcust c a Ha.
  assert (st_account w c = Some a ∨ a = acc) as [Hold| ->].
  { destruct (decide (c = cust)) as [->|Hne]; [|left; by rewrite <- Hother].
    destruct Hcust as [Hc|Hc]; rewrite Hc in Ha; [by left|right; congruence]. }
  - destruct (Hids _ _ Hold) as [(j & Hj & Hidj) Hokj]. split; [exists j; split; [lia|done]|done].
  - split; [exists i; done|done].
Qed.

(** Every run of the body either refuses or has the credit's effect. *)
Definition credit_outcome cmd w (r : CreditLoyaltyResponse * goerror) w' : Prop :=
  ids_issued w' ∧
  (credit_refused cmd w r w' ∨
   (0 < cr_Points cmd)%Z ∧ ∃ acc, credited_account cmd w acc ∧ credit_effect cmd acc w r w').

Lemma ids_issued_same w w' :
  ids_issued w → amb_ulid (get_amb w) ≤ amb_ulid (get_amb w') → st_account w' = st_account w →
  ids_issued w'.
Proof.
  intros Hids Hle Ha c acc Hacc. rewrite Ha in Hacc.
  destruct (Hids _ _ Hacc) as [(j & Hj & Hid) Hok]. split; [exists j; split; [lia|done]|done].
Qed.

(** Steps 3 to 6 from a state [w1] that differs from [w] in the identifier supply
    and the clock only, on an aggregate whose identifier was issued. *)
Lemma credit_tail_spec cmd a i w w1 :
  ids_issued w → (balance_of w (cr_CustomerID cmd) + cr_Points cmd ≤ max_int)%Z →
  st_account w1 = st_account w → st_marked w1 = st_marked w → st_published w1 = st_published w →
  amb_ulid (get_amb w) ≤ amb_ulid (get_amb w1) →
  acc_ID (account a) = ulid_at i → i < amb_ulid (get_amb w1) →
  domainEvents a = [] → acc_CustomerID (account a) = cr_CustomerID cmd → agg_ok a →
  agg_Balance a = balance_of w (cr_CustomerID cmd) →
  match st_account w (cr_CustomerID cmd) with
  | Some old => acc_ID (account a) = acc_ID old ∧ acc_CreatedAt (account a) = acc_CreatedAt old
  | None => i = amb_ulid (get_amb w)
  end →
  ∃ r w', (let '(pts, err) := NewPoints (cr_Points cmd) in
           if_err err resp_zero (
             r ← on_amb (CreditPoints a (cr_OrderID cmd) pts);
             if_err r.2 resp_zero (credit_commit cmd r.1))) w1 = (Returns r, w') ∧
    credit_outcome cmd w r w'.
Proof.
  intros Hids Hmax A1 M1 P1 U1 Hid Hi Hev Hc Hok Hb Hacc.
  destruct (credit_aggregate_spec cmd a w1) as (r & w' & -> & Hcases); try done.
  { by rewrite Hb; unfold balance_of; rewrite A1. }
  { unfold balance_of in *. by rewrite A1. }
  { rewrite A1. destruct (st_account w (cr_CustomerID cmd)); [done|].
    rewrite Hid. apply new_id_fresh; [done|lia]. }
  do 2 eexists. split; [reflexivity|].
  assert (same_views w w1) as Hv by done.
  destruct Hcases as [[He [Hu Hs]]|(acc & Hi' & Hc' & Hcr' & Hva & Ht' & Hpos & Heff)].
  { split; [eapply ids_issued_same; [done|lia|by destruct (same_views_trans _ _ _ Hv Hs)]|].
    left. by eapply (credit_refused_views _ w w1). }
  unfold balance_of in Hva. rewrite A1 in Hva. fold (balance_of w (cr_CustomerID cmd)) in Hva.
  pose proof (credit_effect_views _ _ _ _ _ _ Hv U1 Heff) as Heff'.
  pose proof (credit_effect_account _ _ _ _ _ Heff') as Hcu. destruct Hok as [Hbal _].
  split.
  - destruct Heff' as (? & Ho & _).
    eapply (ids_issued_credited w w' acc (cr_CustomerID cmd) i); try done; [congruence| |].
    { destruct Heff as [? _]. lia. }
    split; [|done]. change (agg_Balance (Reconstitute acc)) with (Points_Value (acc_Balance acc)). lia.
  - right. split; [done|]. exists acc. split; [|done].
    split_and!; try done.
    destruct (st_account w (cr_CustomerID cmd)); [naive_solver congruence|congruence].
Qed.

Lemma credit_body_spec cmd w :
  ids_issued w → (balance_of w (cr_CustomerID cmd) + cr_Points cmd ≤ max_int)%Z →
  ∃ r w', credit_body cmd w = (Returns r, w') ∧ credit_outcome cmd w r w'.
Proof.
  intros Hids Hmax. unfold credit_body. rewrite M_bind_eq.
  destruct (Find_law (cr_CustomerID cmd) w) as ([found err] & w1 & Hfind & U1 & A1 & M1 & P1 & Hfound).
  rewrite Hfind. destruct err as [e|]; simpl in *.
  { do 2 eexists. split; [reflexivity|].
    split; [eapply ids_issued_same; [done|lia|done]|]. left. split; [|split; [simpl; lia|done]].
    exists e. split; [done|]. do 2 right. left. by exists found, w. }
  rewrite (Hfound eq_refl). rewrite M_bind_eq.
  destruct (st_account w (cr_CustomerID cmd)) as [old|] eqn:Hold; cbn [fmap option_fmap option_map].
  - destruct (Hids _ _ Hold) as [(i & Hi & Hidi) Hok]. rewrite M_ret_eq.
    eapply (credit_tail_spec cmd (Reconstitute old) i w w1); try done; try lia.
    + by eapply account_customer.
    + unfold balance_of. by rewrite Hold.
    + by rewrite Hold.
  - rewrite on_amb_eq. unfold NewLoyaltyAggregate, MustNewPoints.
    rewrite NewPoints_nonneg by done. simpl. set (a0 := mkAmbient _ _).
    destruct (views_set_amb a0 w1) as (VA & VM & VP & VG).
    eapply (credit_tail_spec cmd _ (amb_ulid (get_amb w1)) w (set_amb a0 w1)); simpl;
      rewrite ?VA, ?VM, ?VP, ?VG, ?Hold; try done; simpl; try lia.
    unfold balance_of. by rewrite Hold.
Qed.

(** The whole handler: the body runs only when the key is not marked. *)
Definition handle_outcome cmd w (r : CreditLoyaltyResponse * goerror) w' : Prop :=
  ids_issued w' ∧
  (credit_refused cmd w r w' ∨
   (cr_CausationEventID cmd ≠ "" → st_marked w (cr_CausationEventID cmd) = false) ∧
   (0 < cr_Points cmd)%Z ∧ ∃ acc, credited_account cmd w acc ∧ credit_effect cmd acc w r w').

Lemma Handle_spec cmd w :
  ids_issued w → (balance_of w (cr_CustomerID cmd) + cr_Points cmd ≤ max_int)%Z →
  ∃ r w', CreditLoyaltyHandler_Handle cmd w = (Returns r, w') ∧ handle_outcome cmd w r w'.
Proof.
  intros Hids Hmax. unfold CreditLoyaltyHandler_Handle. case_bool_decide as Hz.
  - rewrite M_bind_eq.
    destruct (Exists_law (cr_CausationEventID cmd) w) as ([ex err] & w1 & Hrun & U1 & A1 & M1 & P1 & Hex).
    rewrite Hrun. assert (same_views w w1) as Hv by done.
    assert (∀ e, refusal cmd w e w1 → handle_outcome cmd w (resp_zero, Some e) w1) as Hout.
    { intros e He. split; [eapply ids_issued_same; [done|lia|done]|]. left.
      split; [by exists e|]. split; [lia|done]. }
    destruct err as [e|]; simpl in *.
    { do 2 eexists. split; [reflexivity|]. apply Hout. right. left. split; [done|]. by exists ex, w. }
    specialize (Hex eq_refl). destruct ex.
    { do 2 eexists. split; [reflexivity|]. apply Hout. by left. }
    destruct (credit_body_spec cmd w1) as (r & w' & -> & Hids' & Hr).
    { eapply ids_issued_same; [done|lia|done]. }
    { unfold balance_of in *. by rewrite A1. }
    do 2 eexists. split; [reflexivity|]. split; [done|].
    destruct Hr as [Hr|(Hpos & acc & Hacc & Heff)].
    + left. eapply (credit_refused_views _ w w1); [done|lia|done].
    + right. split; [done|]. split; [done|]. exists acc.
      split; [by eapply (credited_account_views _ w w1)|].
      eapply (credit_effect_views _ _ w w1); [done|lia|done].
  - destruct (credit_body_spec cmd w Hids Hmax) as (r & w' & -> & Hids' & Hr).
    do 2 eexists. split; [reflexivity|]. split; [done|]. destruct Hr as [Hr|Hr]; [by left|by right].
Qed.

(** A key already marked makes the handler refuse and change nothing. *)
Lemma Handle_marked cmd w :
  cr_CausationEventID cmd ≠ "" → st_marked w (cr_CausationEventID cmd) = true →
  ∃ e w', CreditLoyaltyHandler_Handle cmd w = (Returns (resp_zero, Some e), w') ∧
    (snd <$> result (Exists (cr_CausationEventID cmd)) w = Some None → e = ErrDuplicateEvent) ∧
    st_account w' = st_account w ∧ st_marked w' = st_marked w ∧ st_published w' = st_published w.
Proof.
  intros Hz Hm. unfold CreditLoyaltyHandler_Handle, result. rewrite bool_decide_true by done.
  rewrite M_bind_eq.
  destruct (Exists_law (cr_CausationEventID cmd) w) as ([ex err] & w1 & -> & U1 & A1 & M1 & P1 & Hex).
  destruct err as [e|]; simpl in *.
  { do 2 eexists. split; [reflexivity|]. naive_solver. }
  rewrite (Hex eq_refl), Hm. do 2 eexists. split; [reflexivity|]. done.
Qed.

End credit_lemmas.
