(* ===== verification/LoyaltyRepo.v ===== *)
(** * repositories/*.go: the loyalty ports implemented on gorm

    gorm and the SQL database behind it are parameters ([GormOps]) with the
    behaviour the repositories rely on ([GormLaws]): First with a condition, an
    INSERT with an ON CONFLICT (id) clause, COUNT, INSERT, the primary keys and the
    unique indexes declared in gorm/models.  The repositories of the source are
    defined on top and shown to satisfy [LoyaltyLaws], so every theorem about the
    handlers holds for them. *)

From S2P Require Import Prelude GoFloat LoyaltyDomain Cqrs LoyaltyApp.

(** ** gorm/models *)

Record AccountModel : Type := mkAccountModel {
  am_ID : string;
  am_CustomerID : string;
  am_Balance : Z;
  am_Tier : string;
  am_CreatedAt : Z;
  am_UpdatedAt : Z;
}.

Record IdempotencyKey : Type := mkKey {
  ik_ID : string;
  ik_CausationEventID : string;
  ik_Domain : string;
  ik_Handler : string;
  ik_ProcessedAt : Z;
}.

(** ** The gorm calls of the repositories *)

Class GormOps (W : Type) : Type := {
  (** Where("customer_id = ?").First *)
  gorm_First : string → M W (AccountModel * goerror);
  (** Clauses(OnConflict id, update balance, tier, updated_at).Create *)
  gorm_Upsert : AccountModel → M W goerror;
  (** Model(IdempotencyKey).Where("causation_event_id = ?").Count *)
  gorm_Count : string → M W (Z * goerror);
  (** Create *)
  gorm_CreateKey : IdempotencyKey → M W goerror;
  uuid_New : M W string;
  (** cqrs.EventBus *)
  events_Publish : list EventEnvelope → M W goerror;
}.

(** What the statement of [gorm_Upsert] does to the table. *)
Definition upsert_rows (m : AccountModel) (rows : list AccountModel) : list AccountModel :=
  if bool_decide (am_ID m ∈ am_ID <$> rows) then
    (λ r, if bool_decide (am_ID r = am_ID m)
          then mkAccountModel (am_ID r) (am_CustomerID r) (am_Balance m) (am_Tier m)
                              (am_CreatedAt r) (am_UpdatedAt m)
          else r) <$> rows
  else rows ++ [m].

Definition ErrRecordNotFound : error := Sentinel "gorm.ErrRecordNotFound" "record not found".

(** A call that leaves the identifier supply alone. *)
Definition same_ulid {W} `{HasAmbient W} (w w' : W) : Prop :=
  amb_ulid (get_amb w') = amb_ulid (get_amb w).

Class GormLaws (W : Type) `{HasAmbient W} `{GormOps W} : Type := {
  db_accounts : W → list AccountModel;
  db_keys : W → list IdempotencyKey;
  sent_events : W → list EventEnvelope;
  amb_get_set : ∀ a w, get_amb (set_amb a w) = a;
  amb_views : ∀ a w, db_accounts (set_amb a w) = db_accounts w ∧ db_keys (set_amb a w) = db_keys w ∧
    sent_events (set_amb a w) = sent_events w;
  accounts_primary_key : ∀ w, NoDup (am_ID <$> db_accounts w);
  accounts_unique_customer : ∀ w, NoDup (am_CustomerID <$> db_accounts w);
  First_law : ∀ c w, ∃ r w', gorm_First c w = (Returns r, w') ∧ same_ulid w w' ∧
    db_accounts w' = db_accounts w ∧ db_keys w' = db_keys w ∧ sent_events w' = sent_events w ∧
    match r.2 with
    | None => r.1 ∈ db_accounts w ∧ am_CustomerID r.1 = c
    | Some e => errors_Is e "gorm.ErrRecordNotFound" = true → c ∉ am_CustomerID <$> db_accounts w
    end;
  Upsert_law : ∀ m w, ∃ err w', gorm_Upsert m w = (Returns err, w') ∧ same_ulid w w' ∧
    db_keys w' = db_keys w ∧ sent_events w' = sent_events w ∧
    db_accounts w' ≡ₚ (if bool_decide (err = None) then upsert_rows m (db_accounts w) else db_accounts w);
  Count_law : ∀ k w, ∃ r w', gorm_Count k w = (Returns r, w') ∧ same_ulid w w' ∧
    db_accounts w' = db_accounts w ∧ db_keys w' = db_keys w ∧ sent_events w' = sent_events w ∧
    (r.2 = None → r.1 = Z.of_nat (length (filter (λ x, ik_CausationEventID x = k) (db_keys w))));
  CreateKey_law : ∀ x w, ∃ err w', gorm_CreateKey x w = (Returns err, w') ∧ same_ulid w w' ∧
    db_accounts w' = db_accounts w ∧ sent_events w' = sent_events w ∧
    db_keys w' ≡ₚ (if bool_decide (err = None) then x :: db_keys w else db_keys w);
  uuid_law : ∀ w, ∃ s w', uuid_New w = (Returns s, w') ∧ same_ulid w w' ∧
    db_accounts w' = db_accounts w ∧ db_keys w' = db_keys w ∧ sent_events w' = sent_events w;
  events_law : ∀ es w, ∃ err w', events_Publish es w = (Returns err, w') ∧ same_ulid w w' ∧
    db_accounts w' = db_accounts w ∧ db_keys w' = db_keys w ∧
    ∃ sent, sent `prefix_of` es ∧ sent_events w' = sent_events w ++ sent ∧ (err = None → sent = es);
}.

(** ** The repositories *)

Section repositories.
Context {W : Type} `{Ambient} `{HasAmbient W} `{GormOps W}.

Definition to_model (acc : LoyaltyAccount) : AccountModel :=
  mkAccountModel (acc_ID acc) (acc_CustomerID acc) (Points_Value (acc_Balance acc))
                 (acc_Tier acc) (acc_CreatedAt acc) (acc_UpdatedAt acc).

Definition loyaltyWriteGormRepository_Save (agg : LoyaltyAggregate) : M W goerror :=
  gorm_Upsert (to_model (agg_Account agg)).

Definition loyaltyWriteGormRepository_FindByCustomerID (customerID : string) :
    M W (option LoyaltyAggregate * goerror) :=
  r ← gorm_First customerID;
  let '(model, err) := r in
  match (err : goerror) with
  | Some e => if errors_Is e "gorm.ErrRecordNotFound" then mret (None, None) else mret (None, Some e)
  | None =>
      match NewPoints (am_Balance model) with
      | (_, Some e) => mret (None, Some e)
      | (balance, None) =>
          mret (Some (Reconstitute (mkAccount (am_ID model) (am_CustomerID model) balance
                  (am_Tier model) (am_CreatedAt model) (am_UpdatedAt model))), None)
      end
  end.

Definition loyaltyReadGormRepository_GetBalanceByCustomerID (customerID : string) :
    M W (GetLoyaltyBalanceResponse * goerror) :=
  r ← gorm_First customerID;
  let '(model, err) := r in
  match (err : goerror) with
  | Some e =>
      if errors_Is e "gorm.ErrRecordNotFound"
      then mret (balance_zero, Some ErrLoyaltyAccountNotFound) else mret (balance_zero, Some e)
  | None => mret (mkBalanceResp (am_ID model) (am_CustomerID model) (am_Balance model) (am_Tier model), None)
  end.

Definition idempotencyGormRepository_Exists (causationEventID : string) : M W (bool * goerror) :=
  r ← gorm_Count causationEventID;
  mret (bool_decide (0 < r.1)%Z, r.2).

Definition idempotencyGormRepository_Mark (causationEventID : string) : M W goerror :=
  id ← uuid_New;
  t ← on_amb now;
  gorm_CreateKey (mkKey id causationEventID "loyalty" "credit_loyalty" t).

(** repositories/loyalty_cache_repository.go: never caches. *)
Definition noop_SetBalance (customerID : string) (b : GetLoyaltyBalanceResponse) : M W goerror :=
  mret None.

Definition noop_GetBalance (customerID : string) : M W (GetLoyaltyBalanceResponse * bool * goerror) :=
  mret (balance_zero, false, None).

Definition noop_InvalidateBalance (customerID : string) : M W goerror := mret None.

#[export] Instance repository_ports : LoyaltyPorts W := {
  Save := loyaltyWriteGormRepository_Save;
  FindByCustomerID := loyaltyWriteGormRepository_FindByCustomerID;
  GetBalanceByCustomerID := loyaltyReadGormRepository_GetBalanceByCustomerID;
  Exists := idempotencyGormRepository_Exists;
  Mark := idempotencyGormRepository_Mark;
  SetBalance := noop_SetBalance;
  GetBalance := noop_GetBalance;
  bus_Publish := events_Publish;
}.

End repositories.

(** ** The tables as the ports' abstract state *)

Definition of_model (m : AccountModel) : LoyaltyAccount :=
  mkAccount (am_ID m) (am_CustomerID m) (mkPoints (am_Balance m)) (am_Tier m)
            (am_CreatedAt m) (am_UpdatedAt m).

Definition row_of (rows : list AccountModel) (c : string) : option AccountModel :=
  head (filter (λ r, am_CustomerID r = c) rows).

Definition key_marked (keys : list IdempotencyKey) (k : string) : bool :=
  bool_decide (k ∈ ik_CausationEventID <$> keys).

Lemma row_of_Some rows c r :
  NoDup (am_CustomerID <$> rows) → row_of rows c = Some r ↔ r ∈ rows ∧ am_CustomerID r = c.
Proof.
  unfold row_of. intros Hnd. split.
  - intros Hh%head_Some_elem_of. apply list_elem_of_filter in Hh. tauto.
  - induction rows as [|x rows IH]; [set_solver|]. intros [Hin Hc]. inversion Hnd; subst.
    rewrite filter_cons. case_decide as Hx; simpl.
    + apply elem_of_cons in Hin as [->|Hin]; [done|].
      exfalso. apply H1. rewrite Hx. by apply list_elem_of_fmap_2.
    + apply elem_of_cons in Hin as [->|Hin]; [done|]. by apply IH.
Qed.

Lemma row_of_None rows c :
  row_of rows c = None ↔ (c ∉ am_CustomerID <$> rows).
Proof.
  unfold row_of. rewrite list_elem_of_fmap. split.
  - intros Hh (r & -> & Hin).
    assert (r ∈ filter (λ r', am_CustomerID r' = am_CustomerID r) rows) as Hf
      by (by apply list_elem_of_filter).
    destruct (filter _ rows); [set_solver|done].
  - intros Hn. destruct (filter _ rows) as [|r l] eqn:E; [done|].
    destruct Hn. exists r. assert (r ∈ filter (λ r, am_CustomerID r = c) rows) as Hf
      by (rewrite E; set_solver).
    apply list_elem_of_filter in Hf. naive_solver.
Qed.

(** The table after an upsert, customer by customer. *)
Lemma elem_of_upsert rows m r :
  NoDup (am_ID <$> rows) →
  r ∈ upsert_rows m rows ↔
    ((r ∈ rows ∧ am_ID r ≠ am_ID m) ∨
    (∃ o, o ∈ rows ∧ am_ID o = am_ID m ∧
       r = mkAccountModel (am_ID o) (am_CustomerID o) (am_Balance m) (am_Tier m) (am_CreatedAt o) (am_UpdatedAt m)) ∨
    ((am_ID m ∉ am_ID <$> rows) ∧ r = m)).
Proof.
  intros Hnd. unfold upsert_rows. case_bool_decide as Hin.
  - rewrite list_elem_of_fmap. split.
    + intros (o & -> & Ho). case_bool_decide; [right; left; eauto|by left].
    + intros [[Hr Hne]|[(o & Ho & Hid & ->)|[? _]]]; [| |done].
      * exists r. by rewrite bool_decide_false.
      * exists o. by rewrite bool_decide_true.
  - rewrite elem_of_app, list_elem_of_singleton. split.
    + intros [Hr| ->]; [left|by right; right]. split; [done|].
      intros Hid. apply Hin. rewrite <- Hid. by apply list_elem_of_fmap_2.
    + intros [[Hr _]|[(o & Ho & Hid & _)|[_ ->]]]; [by left| |by right].
      destruct Hin. rewrite <- Hid. by apply list_elem_of_fmap_2.
Qed.

Section laws.
Context {W : Type} `{Ambient} `{GormLaws W}.

Lemma row_of_upsert rows rows' m c :
  NoDup (am_ID <$> rows) → NoDup (am_CustomerID <$> rows) → NoDup (am_CustomerID <$> rows') →
  rows' ≡ₚ upsert_rows m rows →
  match row_of rows (am_CustomerID m) with
  | Some old => am_ID old = am_ID m ∧ am_CreatedAt old = am_CreatedAt m
  | None => ∀ c old, row_of rows c = Some old → am_ID old ≠ am_ID m
  end →
  row_of rows' c = if bool_decide (c = am_CustomerID m) then Some m else row_of rows c.
Proof.
  intros Hid Hcu Hcu' Hp Hm.
  assert (m ∈ rows' ∧ ∀ r, am_CustomerID r ≠ am_CustomerID m → r ∈ rows' ↔ r ∈ rows) as [Hin Hother].
  { destruct (row_of rows (am_CustomerID m)) as [old|] eqn:E.
    - apply row_of_Some in E as [Ho Hc]; [|done]. destruct Hm as [Hi Hcr]. split.
      + rewrite Hp, elem_of_upsert by done. right. left. exists old. split_and!; [done..|].
        rewrite Hi, Hc, Hcr. by destruct m.
      + intros r Hne. rewrite Hp, elem_of_upsert by done. split.
        * intros [[? _]|[(o & Ho' & Hi' & ->)|[Hn _]]]; [done| |].
          -- simpl in Hne. assert (o = old) as -> by (eapply (NoDup_fmap_elem am_ID); eauto; congruence).
             done.
          -- destruct Hn. rewrite <- Hi. by apply list_elem_of_fmap_2.
        * intros Hr. left. split; [done|]. intros Hri.
          assert (r = old) as -> by (eapply (NoDup_fmap_elem am_ID); eauto; congruence). done.
    - apply row_of_None in E.
      assert (am_ID m ∉ am_ID <$> rows) as Hn.
      { rewrite list_elem_of_fmap. intros (o & Hi & Ho).
        apply (Hm (am_CustomerID o) o); [by apply row_of_Some|done]. }
      unfold upsert_rows in Hp. rewrite bool_decide_false in Hp by done. split.
      + rewrite Hp. set_solver.
      + intros r Hne. rewrite Hp, elem_of_app, list_elem_of_singleton. naive_solver. }
  case_bool_decide as Hc; [subst; by apply row_of_Some|].
  destruct (row_of rows c) as [r|] eqn:E.
  - apply row_of_Some in E as [Hr Hrc]; [|done]. apply row_of_Some; [done|]. split; [|done].
    apply Hother; [congruence|done].
  - apply row_of_None. apply row_of_None in E. rewrite list_elem_of_fmap. intros (r & -> & Hr).
    apply E, list_elem_of_fmap_2, Hother; done.
Qed.

Lemma row_of_perm rows rows' c :
  NoDup (am_CustomerID <$> rows) → rows' ≡ₚ rows → row_of rows' c = row_of rows c.
Proof.
  intros Hnd Hp. assert (NoDup (am_CustomerID <$> rows')) as Hnd' by by rewrite Hp.
  destruct (row_of rows c) as [r|] eqn:E.
  - apply row_of_Some in E; [|done]. apply row_of_Some; [done|]. by rewrite Hp.
  - apply row_of_None in E. apply row_of_None. by rewrite Hp.
Qed.

Lemma Save_repo a w :
  match of_model <$> row_of (db_accounts w) (acc_CustomerID (account a)) with
  | Some old => acc_ID old = acc_ID (account a) ∧ acc_CreatedAt old = acc_CreatedAt (account a)
  | None => ∀ c old, of_model <$> row_of (db_accounts w) c = Some old → acc_ID old ≠ acc_ID (account a)
  end →
  ∃ err w', loyaltyWriteGormRepository_Save a w = (Returns err, w') ∧ same_ulid w w' ∧
    db_keys w' = db_keys w ∧ sent_events w' = sent_events w ∧
    ∀ c, of_model <$> row_of (db_accounts w') c =
      if bool_decide (err = None ∧ c = acc_CustomerID (account a))
      then Some (account a) else of_model <$> row_of (db_accounts w) c.
Proof.
  intros Hm. unfold loyaltyWriteGormRepository_Save.
  destruct (Upsert_law (to_model (agg_Account a)) w) as (err & w' & -> & U & K & S & Hp).
  do 2 eexists. split; [reflexivity|]. split_and!; [done..|]. intros c.
  destruct err as [e|]; simpl in Hp.
  { rewrite bool_decide_false by naive_solver.
    by rewrite (row_of_perm (db_accounts w)) by (done || apply accounts_unique_customer). }
  rewrite (row_of_upsert (db_accounts w) _ (to_model (agg_Account a)));
    [|apply accounts_primary_key|apply accounts_unique_customer..|done|].
  - simpl. destruct (decide (c = acc_CustomerID (account a)));
      [rewrite !bool_decide_true by done|rewrite !bool_decide_false by naive_solver; done].
    simpl. unfold agg_Account. destruct (account a) as [??[]???]. done.
  - simpl. unfold agg_Account.
    destruct (row_of (db_accounts w) (acc_CustomerID (account a))); simpl in *; [done|].
    intros c' old Hold. apply (Hm c' (of_model old)). by rewrite Hold.
Qed.

Lemma First_row c w r :
  match r.2 with
  | None => r.1 ∈ db_accounts w ∧ am_CustomerID r.1 = c
  | Some e => errors_Is e "gorm.ErrRecordNotFound" = true → c ∉ am_CustomerID <$> db_accounts w
  end →
  match (r.2 : goerror) with
  | None => row_of (db_accounts w) c = Some r.1
  | Some e => errors_Is e "gorm.ErrRecordNotFound" = true → row_of (db_accounts w) c = None
  end.
Proof.
  destruct (r.2); [by rewrite row_of_None|]. intros. by apply row_of_Some; [apply accounts_unique_customer|].
Qed.

Lemma Find_repo c w :
  ∃ r w', loyaltyWriteGormRepository_FindByCustomerID c w = (Returns r, w') ∧ same_ulid w w' ∧
    db_accounts w' = db_accounts w ∧ db_keys w' = db_keys w ∧ sent_events w' = sent_events w ∧
    (r.2 = None → r.1 = Reconstitute <$> (of_model <$> row_of (db_accounts w) c)).
Proof.
  unfold loyaltyWriteGormRepository_FindByCustomerID. rewrite M_bind_eq.
  destruct (First_law c w) as ([m err] & w' & -> & ? & ? & ? & ? & Hr%First_row).
  simpl in Hr. destruct err as [e|].
  - destruct (errors_Is e _); (do 2 eexists; split; [reflexivity|]); split_and!; try done.
    intros _. by rewrite Hr.
  - unfold NewPoints. case_bool_decide; (do 2 eexists; split; [reflexivity|]); split_and!; try done.
    intros _. by rewrite Hr.
Qed.

Lemma GetBalance_repo c w :
  ∃ r w', loyaltyReadGormRepository_GetBalanceByCustomerID c w = (Returns r, w') ∧
    db_accounts w' = db_accounts w ∧
    (r.2 = None → ∃ acc, of_model <$> row_of (db_accounts w) c = Some acc ∧
       r.1 = mkBalanceResp (acc_ID acc) c (Points_Value (acc_Balance acc)) (acc_Tier acc)).
Proof.
  unfold loyaltyReadGormRepository_GetBalanceByCustomerID. rewrite M_bind_eq.
  destruct (First_law c w) as ([m err] & w' & -> & ? & ? & ? & ? & Hr).
  pose proof (First_row c w (m, err) Hr) as Hr'. simpl in Hr, Hr'. destruct err as [e|].
  - destruct (errors_Is e _); (do 2 eexists; split; [reflexivity|]); done.
  - do 2 eexists. split; [reflexivity|]. split; [done|]. intros _. rewrite Hr'. simpl.
    eexists. split; [reflexivity|]. destruct Hr as [_ <-]. done.
Qed.

(** The read repository on a customer that has a row: the row, or the error of
    the query as it is. *)
Lemma GetBalance_found c w acc :
  of_model <$> row_of (db_accounts w) c = Some acc →
  ∃ m err w', gorm_First c w = (Returns (m, err), w') ∧
    loyaltyReadGormRepository_GetBalanceByCustomerID c w =
      (Returns (match err with
                | None => mkBalanceResp (acc_ID acc) c (Points_Value (acc_Balance acc)) (acc_Tier acc)
                | Some _ => balance_zero
                end, err), w').
Proof.
  intros Hacc. unfold loyaltyReadGormRepository_GetBalanceByCustomerID.
  destruct (First_law c w) as ([m err] & w' & Hrun & _ & _ & _ & _ & Hr).
  exists m, err, w'. split; [done|]. rewrite M_bind_eq, Hrun.
  pose proof (First_row _ _ _ Hr) as Hrow. destruct err as [e|]; simpl in *.
  - destruct (errors_Is e _) eqn:He; [|done]. by rewrite (Hrow eq_refl) in Hacc.
  - rewrite Hrow in Hacc. destruct Hr as [_ <-]. by simplify_eq/=.
Qed.

Lemma Exists_repo k w :
  ∃ r w', idempotencyGormRepository_Exists k w = (Returns r, w') ∧ same_ulid w w' ∧
    db_accounts w' = db_accounts w ∧ db_keys w' = db_keys w ∧ sent_events w' = sent_events w ∧
    (r.2 = None → r.1 = key_marked (db_keys w) k).
Proof.
  unfold idempotencyGormRepository_Exists. rewrite M_bind_eq.
  destruct (Count_law k w) as ([n err] & w' & -> & ? & ? & ? & ? & Hc).
  do 2 eexists. split; [reflexivity|]. split_and!; [done..|]. simpl in *. intros ->.
  rewrite Hc by done. unfold key_marked. apply bool_decide_ext. rewrite list_elem_of_fmap. split.
  - intros Hl. destruct (filter (λ x, ik_CausationEventID x = k) (db_keys w)) as [|x l] eqn:E; [done|].
    assert (x ∈ filter (λ x, ik_CausationEventID x = k) (db_keys w)) as Hx by (rewrite E; set_solver).
    apply list_elem_of_filter in Hx. naive_solver.
  - intros (x & -> & Hx).
    assert (x ∈ filter (λ y, ik_CausationEventID y = ik_CausationEventID x) (db_keys w)) as Hf
      by (by apply list_elem_of_filter).
    destruct (filter _ (db_keys w)); [set_solver|simpl; lia].
Qed.

Lemma Mark_repo k w :
  ∃ err w', idempotencyGormRepository_Mark k w = (Returns err, w') ∧ same_ulid w w' ∧
    db_accounts w' = db_accounts w ∧ sent_events w' = sent_events w ∧
    (∀ k', key_marked (db_keys w') k' = key_marked (db_keys w) k' || bool_decide (err = None ∧ k' = k)).
Proof.
  unfold idempotencyGormRepository_Mark. rewrite M_bind_eq.
  destruct (uuid_law w) as (s & w1 & -> & U1 & A1 & K1 & S1).
  rewrite M_bind_eq, on_amb_eq. cbn [now fst snd]. set (a := mkAmbient _ _). set (x := mkKey _ _ _ _ _).
  destruct (amb_views a w1) as (A2 & K2 & S2).
  destruct (CreateKey_law x (set_amb a w1)) as (err & w' & -> & U3 & A3 & S3 & K3).
  do 2 eexists. split; [reflexivity|]. unfold same_ulid in *. rewrite U3, amb_get_set, A3, A2, S3, S2.
  split_and!; [done..|]. intros k'. unfold key_marked.
  rewrite K2, K1 in K3. destruct err as [e|]; simpl in K3.
  - rewrite (bool_decide_false (Some e = None ∧ _)) by naive_solver. rewrite orb_false_r.
    apply bool_decide_ext. by rewrite K3.
  - rewrite <- bool_decide_or. apply bool_decide_ext. rewrite K3. simpl. set_solver.
Qed.

#[export] Instance repository_laws : LoyaltyLaws W.
Proof.
  apply (Build_LoyaltyLaws W _ _ _ (λ w c, of_model <$> row_of (db_accounts w) c)
           (λ w k, key_marked (db_keys w) k) sent_events).
  - apply amb_get_set.
  - intros a w. destruct (amb_views a w) as (-> & -> & ->). done.
  - intros w c acc (m & Hm & ->)%fmap_Some.
    apply row_of_Some in Hm as [_ Hc]; [done|apply accounts_unique_customer].
  - intros a w Hm _. destruct (Save_repo a w Hm) as (err & w' & ? & ? & K & S & A).
    exists err, w'. rewrite K, S. done.
  - intros c w. destruct (Find_repo c w) as (r & w' & ? & ? & A & K & S & ?).
    exists r, w'. rewrite K, S, A. done.
  - intros c w. destruct (GetBalance_repo c w) as (r & w' & ? & A & ?).
    exists r, w'. rewrite A. done.
  - intros k w. destruct (Exists_repo k w) as (r & w' & ? & ? & A & K & S & ?).
    exists r, w'. rewrite K, S, A. done.
  - intros k w. destruct (Mark_repo k w) as (err & w' & ? & ? & A & S & ?).
    exists err, w'. rewrite S, A. done.
  - intros es w. destruct (events_law es w) as (err & w' & ? & ? & A & K & ?).
    exists err, w'. rewrite A, K. done.
Defined.

End laws.
