(* ===== verification/LoyaltyGuarantees.v ===== *)
(** * What the loyalty use case guarantees

    The command, event and query handlers wired as drivers/watermill/register.go
    wires them.  The theorems hold for every implementation of the ports that
    satisfies [LoyaltyLaws]; the witnesses run them on an in-memory database
    ([mem]) whose every call can be made to fail by a script. *)

From S2P Require Import Prelude GoFloat LoyaltyDomain Cqrs LoyaltyApp LoyaltyRepo.

(** ** A database and bus in memory, with scripted faults *)

Record mem : Type := mkMem {
  m_amb : ambient;
  m_rows : list AccountModel;
  m_keys : list IdempotencyKey;
  m_sent : list EventEnvelope;
  m_faults : list bool;
}.

Definition tables_ok (rows : list AccountModel) : Prop :=
  NoDup (am_ID <$> rows) ∧ NoDup (am_CustomerID <$> rows).

#[global] Instance tables_ok_dec rows : Decision (tables_ok rows).
Proof. unfold tables_ok. apply _. Defined.

Definition mem_accounts (w : mem) : list AccountModel :=
  if bool_decide (tables_ok (m_rows w)) then m_rows w else [].

Definition set_rows (rows : list AccountModel) (w : mem) : mem :=
  mkMem (m_amb w) rows (m_keys w) (m_sent w) (m_faults w).

Definition IOError : error := Foreign "io" "connection reset by peer".
Definition DuplicateKey : error := Foreign "sql" "duplicate key value violates unique constraint".

(** Run [m], or return [failed] when the script says so. *)
Definition scripted {A} (failed : A) (m : M mem A) : M mem A := λ w,
  match m_faults w with
  | true :: l => (Returns failed, mkMem (m_amb w) (m_rows w) (m_keys w) (m_sent w) l)
  | false :: l => m (mkMem (m_amb w) (m_rows w) (m_keys w) (m_sent w) l)
  | [] => m w
  end.

Definition no_row : AccountModel := mkAccountModel "" "" 0 "" 0 0.

#[export] Instance mem_ambient : HasAmbient mem := {
  get_amb := m_amb;
  set_amb a w := mkMem a (m_rows w) (m_keys w) (m_sent w) (m_faults w);
}.

#[export] Instance mem_gorm : GormOps mem := {
  gorm_First c := scripted (no_row, Some IOError) (λ w,
    (Returns match row_of (mem_accounts w) c with
             | Some r => (r, None)
             | None => (no_row, Some ErrRecordNotFound)
             end, w));
  gorm_Upsert m := scripted (Some IOError) (λ w,
    let rows := upsert_rows m (mem_accounts w) in
    if bool_decide (tables_ok rows) then (Returns None, set_rows rows w)
    else (Returns (Some DuplicateKey), w));
  gorm_Count k := scripted (0%Z, Some IOError) (λ w,
    (Returns (Z.of_nat (length (filter (λ x, ik_CausationEventID x = k) (m_keys w))), None), w));
  gorm_CreateKey x := scripted (Some IOError) (λ w,
    if key_marked (m_keys w) (ik_CausationEventID x) then (Returns (Some DuplicateKey), w)
    else (Returns None, mkMem (m_amb w) (m_rows w) (x :: m_keys w) (m_sent w) (m_faults w)));
  uuid_New := mret "123e4567-e89b-42d3-a456-426614174000";
  events_Publish es := scripted (Some IOError) (λ w,
    (Returns None, mkMem (m_amb w) (m_rows w) (m_keys w) (m_sent w ++ es) (m_faults w)));
}.

Lemma mem_accounts_ok w : tables_ok (mem_accounts w).
Proof.
  unfold mem_accounts. case_bool_decide; [done|]. split; constructor.
Qed.

Lemma mem_accounts_eq w w' : m_rows w' = m_rows w → mem_accounts w' = mem_accounts w.
Proof. unfold mem_accounts. by intros ->. Qed.

(** A scripted call behaves as [m] from a state with another script, or fails. *)
Lemma scripted_spec {A} (failed : A) (m : M mem A) (P : A → mem → Prop) w :
  (∀ l, let w0 := mkMem (m_amb w) (m_rows w) (m_keys w) (m_sent w) l in
        P failed w0 ∧ ∃ r w', m w0 = (Returns r, w') ∧ P r w') →
  ∃ r w', scripted failed m w = (Returns r, w') ∧ P r w'.
Proof.
  intros Hm. unfold scripted. destruct (m_faults w) as [|[] l] eqn:E.
  - destruct (Hm (m_faults w)) as [_ Hr]. by destruct w.
  - destruct (Hm l) as [Hf _]. eauto.
  - destruct (Hm l) as [_ Hr]. done.
Qed.

#[export] Instance mem_laws : GormLaws mem.
Proof.
  apply (Build_GormLaws mem _ _ mem_accounts m_keys m_sent); try done.
  - intros w. apply mem_accounts_ok.
  - intros w. apply mem_accounts_ok.
  - intros c w. cbn [gorm_First gorm_Upsert gorm_Count gorm_CreateKey events_Publish mem_gorm]. apply scripted_spec. intros l w0. split; [done|].
    do 2 eexists. split; [reflexivity|]. split_and!; try done.
    change (mem_accounts w0) with (mem_accounts w).
    destruct (row_of (mem_accounts w) c) as [r|] eqn:E; simpl.
    + by apply row_of_Some in E; [|apply mem_accounts_ok].
    + intros _. by apply row_of_None.
  - intros m w. cbn [gorm_First gorm_Upsert gorm_Count gorm_CreateKey events_Publish mem_gorm]. apply scripted_spec. intros l w0. split; [done|]. simpl.
    change (mem_accounts w0) with (mem_accounts w). case_bool_decide as Hok;
      (do 2 eexists; split; [reflexivity|]); split_and!; try done.
    unfold mem_accounts at 1. simpl. by rewrite bool_decide_true.
  - intros k w. cbn [gorm_First gorm_Upsert gorm_Count gorm_CreateKey events_Publish mem_gorm]. apply scripted_spec. intros l w0. split; [done|].
    do 2 eexists. split; [reflexivity|]. done.
  - intros x w. cbn [gorm_First gorm_Upsert gorm_Count gorm_CreateKey events_Publish mem_gorm]. apply scripted_spec. intros l w0. split; [done|]. simpl.
    destruct (key_marked _ _); (do 2 eexists; split; [reflexivity|]); done.
  - intros w. do 2 eexists. split; [reflexivity|]. done.
  - intros es w. cbn [gorm_First gorm_Upsert gorm_Count gorm_CreateKey events_Publish mem_gorm]. apply scripted_spec. intros l w0. split.
    + split_and!; try done. exists []. split; [apply prefix_nil|]. by rewrite app_nil_r.
    + do 2 eexists. split; [reflexivity|]. split_and!; try done. exists es. done.
Defined.

(** ** Sequences of deliveries *)

(** The same command handler called for a list of commands, one after the other. *)
Fixpoint deliveries {W} `{Ambient} `{HasAmbient W} `{LoyaltyPorts W}
    (cmds : list CreditLoyaltyRequest) : M W (list goerror) :=
  match cmds with
  | [] => mret []
  | c :: cmds' =>
      r ← CreditLoyaltyHandler_Handle c;
      errs ← deliveries cmds';
      mret (r.2 :: errs)
  end.

(** ** Concrete runs for the witnesses *)

Definition mem0 (faults : list bool) : mem := mkMem (mkAmbient 0 0) [] [] [] faults.

Definition cmd100 : CreditLoyaltyRequest := mkCreditReq "c1" "o1" 100 "corr" "ev1".

(** Idempotency check, load, save succeed; the outbox insert fails. *)
Definition outbox_down : mem := mem0 [false; false; false; true].

Definition after {W A} (m : M W A) (w : W) : W := (m w).2.

Lemma mem0_ids faults : ids_issued (mem0 faults).
Proof.
  intros c acc Ha. change (of_model <$> row_of (mem_accounts (mem0 faults)) c = Some acc) in Ha.
  unfold mem_accounts in Ha. by destruct (bool_decide _).
Qed.

(** ** Theorems *)

Section guarantees.
Context {W : Type} `{HL : LoyaltyLaws W}.
Implicit Types (w : W) (cmd : CreditLoyaltyRequest).

Lemma deliveries_marked cmds k w :
  k ≠ "" → Forall (λ c, cr_CausationEventID c = k) cmds → st_marked w k = true →
  ∃ errs w', deliveries cmds w = (Returns errs, w') ∧ Forall is_Some errs ∧
    length errs = length cmds ∧
    st_account w' = st_account w ∧ st_marked w' = st_marked w ∧ st_published w' = st_published w.
Proof.
  intros Hk Hall. revert w. induction Hall as [|c cmds <- _ IH]; intros w Hm.
  { do 2 eexists. split; [reflexivity|]. done. }
  cbn [deliveries]. rewrite M_bind_eq.
  destruct (Handle_marked c w Hk Hm) as (e & w1 & -> & _ & A1 & M1 & P1).
  rewrite M_bind_eq.
  destruct (IH w1) as (errs & w2 & -> & Hs & Hl & A2 & M2 & P2); [by rewrite M1|].
  do 2 eexists. split; [reflexivity|]. rewrite A2, M2, P2, A1, M1, P1.
  split; [by constructor; eauto|]. simpl. by rewrite Hl.
Qed.

(** What a successful run leaves. *)
Lemma Handle_success cmd w r w' :
  ids_issued w → (balance_of w (cr_CustomerID cmd) + cr_Points cmd ≤ max_int)%Z →
  CreditLoyaltyHandler_Handle cmd w = (Returns (r, None), w') →
  ids_issued w' ∧ ∃ acc, credited_account cmd w acc ∧ credit_effect cmd acc w (r, None) w'.
Proof.
  intros Hids Hmax Hrun. destruct (Handle_spec cmd w Hids Hmax) as (r' & w'' & Hrun' & Hids' & Hout).
  rewrite Hrun in Hrun'. simplify_eq. split; [done|].
  destruct Hout as [[(? & ? & _) _]|(_ & _ & acc & ? & ?)]; [done|]. eauto.
Qed.

Lemma balance_of_account w c acc : st_account w c = Some acc → balance_of w c = Points_Value (acc_Balance acc).
Proof. unfold balance_of. by intros ->. Qed.

Lemma Handle_success_balance cmd w r w' :
  ids_issued w → (balance_of w (cr_CustomerID cmd) + cr_Points cmd ≤ max_int)%Z →
  CreditLoyaltyHandler_Handle cmd w = (Returns (r, None), w') →
  balance_of w' (cr_CustomerID cmd) = (balance_of w (cr_CustomerID cmd) + cr_Points cmd)%Z.
Proof.
  intros Hids Hmax Hrun.
  destruct (Handle_success _ _ _ _ Hids Hmax Hrun) as (_ & acc & (_ & Hv & _) & _ & _ & Ha & _).
  by rewrite (balance_of_account _ _ _ Ha).
Qed.

(** C1: from any state whose account identifiers were issued, and a
    credit that does not overflow [int], the credit command returns (it never
    panics or hangs).  Either it refuses before anything is written, with the
    reason: the causation id is already marked, a lookup failed, or the points
    are negative or zero; or the id is unmarked and the points positive, and the
    run saves exactly the account credited by the points with the tier
    recomputed, then publishes one [loyalty.account.credited] event for the
    order, account and new balance, then marks the id.  On success all three are
    there and the response reports that account; on an error nothing is marked,
    the response is zero, and the state is the one in which the failing call
    returned: a failed Save leaves account and outbox as they were, a failed
    publication leaves the account credited and at most that event out, a failed
    Mark leaves the account credited and the event out.  No other customer's
    account changes; the identifier invariant is preserved. *)
Theorem credit_command_spec cmd w :
  ids_issued w → (balance_of w (cr_CustomerID cmd) + cr_Points cmd ≤ max_int)%Z →
  ∃ r w', CreditLoyaltyHandler_Handle cmd w = (Returns r, w') ∧ ids_issued w' ∧
    (credit_refused cmd w r w' ∨
     (cr_CausationEventID cmd ≠ "" → st_marked w (cr_CausationEventID cmd) = false) ∧
     (0 < cr_Points cmd)%Z ∧ ∃ acc, credited_account cmd w acc ∧ credit_effect cmd acc w r w').
Proof. apply Handle_spec. Qed.

(** C2: once a credit command succeeded under a causation id, every
    further command with that id, in any number, is answered with an error and
    changes no account, publishes nothing and marks nothing: the balance stays the
    old one plus the points, once. *)
Theorem credit_exactly_once cmd r w w' retries :
  ids_issued w → (balance_of w (cr_CustomerID cmd) + cr_Points cmd ≤ max_int)%Z →
  cr_CausationEventID cmd ≠ "" →
  CreditLoyaltyHandler_Handle cmd w = (Returns (r, None), w') →
  Forall (λ c, cr_CausationEventID c = cr_CausationEventID cmd) retries →
  ∃ errs w'', deliveries retries w' = (Returns errs, w'') ∧
    length errs = length retries ∧ Forall is_Some errs ∧
    st_account w'' = st_account w' ∧ st_marked w'' = st_marked w' ∧ st_published w'' = st_published w' ∧
    balance_of w'' (cr_CustomerID cmd) = (balance_of w (cr_CustomerID cmd) + cr_Points cmd)%Z.
Proof.
  intros Hids Hmax Hk Hrun Hall.
  pose proof (Handle_success_balance _ _ _ _ Hids Hmax Hrun) as Hbal.
  destruct (Handle_success _ _ _ _ Hids Hmax Hrun) as (_ & acc & _ & _ & _ & _ & _ & _ & Hm).
  destruct (deliveries_marked retries _ w' Hk Hall) as (errs & w'' & -> & ? & ? & A & ? & P).
  { rewrite Hm, bool_decide_true by done. apply orb_true_r. }
  do 2 eexists. split; [reflexivity|]. unfold balance_of in *. by rewrite A.
Qed.

(** C13: the steps are not atomic.  When a run fails after the
    account was saved (the outbox or the idempotency insert failed), the id is not
    marked, and a successful redelivery of the same command credits the points a
    second time. *)
Theorem credit_retry_credits_twice cmd r e r2 w w1 w2 :
  ids_issued w → (balance_of w (cr_CustomerID cmd) + 2 * cr_Points cmd ≤ max_int)%Z →
  CreditLoyaltyHandler_Handle cmd w = (Returns (r, Some e), w1) →
  st_account w1 (cr_CustomerID cmd) ≠ st_account w (cr_CustomerID cmd) →
  CreditLoyaltyHandler_Handle cmd w1 = (Returns (r2, None), w2) →
  (∀ k, st_marked w1 k = st_marked w k) ∧
  balance_of w2 (cr_CustomerID cmd) = (balance_of w (cr_CustomerID cmd) + 2 * cr_Points cmd)%Z.
Proof.
  intros Hids Hmax Hrun Hch Hrun2.
  destruct (decide (0 ≤ cr_Points cmd)%Z) as [Hpos|Hneg].
  - destruct (Handle_spec cmd w Hids) as (r' & w' & Hrun' & Hids1 & Hout); [lia|].
    rewrite Hrun in Hrun'. simplify_eq.
    destruct Hout as [(_ & _ & Ha & _)|(_ & _ & acc & (_ & Hv & _) & Heff)]; [by rewrite Ha in Hch|].
    destruct (credit_effect_account _ _ _ _ _ Heff) as [Ha|Ha]; [done|].
    destruct Heff as (_ & _ & _ & Hm & _). apply balance_of_account in Ha. split; [done|].
    rewrite (Handle_success_balance _ _ r2 w2 Hids1); [..|done]; lia.
  - exfalso. destruct (Handle_spec cmd w Hids) as (r' & w' & Hrun' & Hids1 & Hout).
    { assert (balance_of w (cr_CustomerID cmd) ≤ max_int)%Z; [|lia].
      unfold balance_of. destruct (st_account w _) as [a|] eqn:Ha; [|by unfold max_int].
      destruct (Hids _ _ Ha) as [_ [[_ ?] _]]. done. }
    rewrite Hrun in Hrun'. simplify_eq.
    destruct Hout as [(_ & _ & Ha & _)|(_ & ? & _)]; [by rewrite Ha in Hch|lia].
Qed.

(** The wired buses dispatch the credit command to its handler. *)
Lemma registered_dispatch oob (d : busesState (W := W)) cmd w :
  commandBus_Dispatch (b_command (registerLoyalty oob d)) (CmdCreditLoyalty cmd) w =
  (x ← CreditLoyaltyHandler_Handle cmd; mret (ReplyCredit x.1, x.2)) w.
Proof.
  unfold commandBus_Dispatch, registerLoyalty, commandBus_Register. simpl.
  by rewrite lookup_insert_eq.
Qed.

Lemma CreditFailedEvent_run c o r a :
  NewLoyaltyCreditFailedEvent c o r a =
  (Returns (mkCreditFailed c o r (time_at (amb_tick a))), mkAmbient (S (amb_tick a)) (amb_ulid a)).
Proof. reflexivity. Qed.

(** C14: when an order-completed event that was already
    processed is delivered again, the wired event handler acknowledges it and
    leaves the accounts alone, but hands the bus a [loyalty.account.credit_failed]
    compensation for the order, although that order was credited; when the bus
    accepts it, it is published. *)
Theorem duplicate_delivery_compensates oob (d : busesState (W := W)) env p w :
  env_Payload env = Some (EvOrderCompleted p) → env_EventID env ≠ "" →
  st_marked w (env_EventID env) = true →
  (snd <$> result (Exists (env_EventID env)) w = Some None) →
  ∃ e f err w', OnOrderCompletedHandler_Handle oob
              (commandBus_Dispatch (b_command (registerLoyalty oob d))) env w = (Returns None, w') ∧
    st_account w' = st_account w ∧ st_marked w' = st_marked w ∧
    (∃ wp, bus_Publish [e] wp = (Returns err, w') ∧ st_published wp = st_published w) ∧
    (err = None → st_published w' = st_published w ++ [e]) ∧
    env_EventName e = LoyaltyCreditFailed ∧ env_CausationID e = env_EventID env ∧
    env_Payload e = Some (EvLoyaltyCreditFailed f) ∧
    lf_OrderID f = oc_OrderID p ∧ lf_CustomerID f = oc_CustomerID p ∧
    lf_Reason f = Error ErrDuplicateEvent.
Proof.
  intros Hp Hid Hm Hex. unfold OnOrderCompletedHandler_Handle. rewrite Hp, M_bind_eq.
  set (cmd := mkCreditReq _ _ _ _ _). rewrite registered_dispatch, M_bind_eq.
  destruct (Handle_marked cmd w Hid Hm) as (er & w1 & -> & Her & A1 & M1 & P1).
  rewrite (Her Hex).
  rewrite M_ret_eq. cbn [snd]. rewrite M_bind_eq, on_amb_eq. cbn [ulid_Make fst snd].
  set (a1 := mkAmbient _ _). destruct (views_set_amb a1 w1) as (VA & VM & VP & VG).
  rewrite M_bind_eq, on_amb_eq, CreditFailedEvent_run. cbn [fst snd].
  set (f := mkCreditFailed _ _ _ _). set (a2 := mkAmbient _ _).
  destruct (views_set_amb a2 (set_amb a1 w1)) as (VA2 & VM2 & VP2 & VG2).
  rewrite M_bind_eq. set (e := mkEnv _ _ _ _ _ _ _).
  destruct (Publish_law [e] (set_amb a2 (set_amb a1 w1))) as (err & w3 & Hpub & _ & A3 & M3 & sent & _ & P3 & Hall).
  rewrite Hpub. exists e, f, err, w3. split; [reflexivity|].
  rewrite A3, VA2, VA, A1, M3, VM2, VM, M1. split_and!; try done.
  - exists (set_amb a2 (set_amb a1 w1)). by rewrite Hpub, VP2, VP, P1.
  - intros Hnone. by rewrite P3, VP2, VP, P1, (Hall Hnone).
Qed.

End guarantees.

(** C10: with the repositories of the source, a balance query asked
    on the wired query bus after a successful credit dispatched on the wired
    command bus runs one SELECT by customer: when the database answers it without
    an error, the query answers, without an error, exactly the account, balance
    and tier the command reported (never "not found"); when the database fails,
    the query answers exactly that error. *)
Theorem query_reads_credited_balance {W} `{Ambient} `{GormLaws W} oob
    (d : busesState (W := W)) cmd resp (w w1 : W) :
  ids_issued w → (balance_of w (cr_CustomerID cmd) + cr_Points cmd ≤ max_int)%Z →
  commandBus_Dispatch (b_command (registerLoyalty oob d)) (CmdCreditLoyalty cmd) w =
    (Returns (ReplyCredit resp, None), w1) →
  ∃ m err w2, gorm_First (cr_CustomerID cmd) w1 = (Returns (m, err), w2) ∧
    queryBus_Ask (b_query (registerLoyalty oob d))
        (QryGetBalance (mkBalanceReq (cr_CustomerID cmd))) w1 =
      (Returns (ReplyBalance
                  match err with
                  | None => mkBalanceResp (cs_LoyaltyAccountID resp) (cr_CustomerID cmd)
                              (cs_NewBalance resp) (cs_NewTier resp)
                  | Some _ => balance_zero
                  end, err), w2).
Proof.
  intros Hids Hmax Hrun. rewrite registered_dispatch, M_bind_eq in Hrun.
  destruct (Handle_spec cmd w Hids Hmax) as ([r e] & w' & Hh & _).
  rewrite Hh, M_ret_eq in Hrun. simplify_eq.
  destruct (Handle_success _ _ _ _ Hids Hmax Hh) as (_ & acc & _ & _ & _ & Ha & Hr & _).
  simpl in Hr. subst resp.
  destruct (GetBalance_found (cr_CustomerID cmd) w1 acc Ha) as (m & err & w2 & Hfirst & Hq).
  exists m, err, w2. split; [done|].
  unfold queryBus_Ask, registerLoyalty, queryBus_Register. simpl. rewrite lookup_insert_eq.
  unfold balance_query_fn, GetLoyaltyBalanceHandler_Handle. simpl.
  rewrite M_bind_eq, M_bind_eq, M_bind_eq. unfold noop_GetBalance. rewrite !M_ret_eq, M_bind_eq, Hq.
  by destruct err.
Qed.

(** The [n] whole order totals from [z] on have the points of the documentation. *)
Fixpoint order_points_check (n : nat) (z : Z) : bool :=
  match n with
  | O => true
  | S n' => Z.eqb (order_points oob_amd64 (f64_of_Z z)) (Z.max 1 (z / 10)) && order_points_check n' (Z.succ z)
  end.

Lemma order_points_check_spec n z total :
  order_points_check n z = true → (z ≤ total < z + Z.of_nat n)%Z →
  order_points oob_amd64 (f64_of_Z total) = Z.max 1 (total / 10).
Proof.
  revert z. induction n as [|n IH]; intros z Hc Ht; [lia|]. cbn [order_points_check] in Hc.
  apply andb_prop in Hc as [Hz Hc]. destruct (decide (total = z)) as [->|Hne].
  - by apply Z.eqb_eq.
  - apply (IH (Z.succ z)); [done|lia].
Qed.

Lemma order_points_checked : order_points_check (Z.to_nat 10001) 0 = true.
Proof. vm_cast_no_check (eq_refl true). Qed.

(** C24: for every whole order total up to 10000, the float computation
    [int(total * 0.1)] of the event handler gives exactly a tenth of the total
    rounded down, and at least one point. *)
Theorem order_points_whole (total : Z) :
  (0 ≤ total ≤ 10000)%Z →
  order_points oob_amd64 (f64_of_Z total) = Z.max 1 (total / 10).
Proof.
  intros Ht. apply (order_points_check_spec _ _ _ order_points_checked); lia.
Qed.

(** ** Witnesses *)

Lemma order_points_whole_witness :
  (0 ≤ 995 ≤ 10000)%Z ∧ order_points oob_amd64 (f64_of_Z 995) = 99%Z.
Proof. split; [lia|]. apply (order_points_whole 995). lia. Defined.

Lemma credit_command_spec_witness :
  (balance_of outbox_down "c1" + 100 ≤ max_int)%Z ∧
  ∃ e w' acc, CreditLoyaltyHandler_Handle cmd100 outbox_down = (Returns (resp_zero, Some e), w') ∧
    Points_Value (acc_Balance acc) = 100%Z ∧ credit_failed cmd100 acc outbox_down e w' ∧
    balance_of w' "c1" = 100%Z.
Proof.
  split; [by vm_compute|].
  destruct (credit_command_spec cmd100 outbox_down (mem0_ids _) ltac:(by vm_compute))
    as ([r err] & w' & Hrun & _ & Hout).
  assert (w' = (CreditLoyaltyHandler_Handle cmd100 outbox_down).2) as Hw by (by rewrite Hrun).
  assert (balance_of w' "c1" = 100%Z) as Hb by (rewrite Hw; by vm_compute).
  destruct Hout as [(_ & _ & Ha & _)|(_ & _ & acc & (_ & Hv & _) & _ & _ & Hr)].
  { exfalso. unfold balance_of in Hb. rewrite Ha in Hb. by vm_compute in Hb. }
  destruct err as [e|]; simpl in Hr.
  - destruct Hr as (-> & _ & Hf). exists e, w', acc. split; [exact Hrun|].
    split; [exact Hv|]. split; [exact Hf|exact Hb].
  - exfalso. apply (f_equal (λ x, match x.1 with Returns (_, Some _) => true | _ => false end)) in Hrun.
    vm_compute in Hrun. discriminate.
Defined.

Lemma credit_exactly_once_witness :
  let w' := after (CreditLoyaltyHandler_Handle cmd100) (mem0 []) in
  ∃ errs w'', deliveries [cmd100; cmd100] w' = (Returns errs, w'') ∧
    length errs = 2 ∧ balance_of w'' "c1" = 100%Z.
Proof.
  destruct (credit_exactly_once cmd100 (mkCreditResp (ulid_at 0) 100 "BRONZE") (mem0 [])
              (after (CreditLoyaltyHandler_Handle cmd100) (mem0 [])) [cmd100; cmd100])
    as (errs & w'' & Hrun & Hlen & _ & _ & _ & _ & Hbal).
  - apply mem0_ids.
  - by vm_compute.
  - done.
  - vm_compute. reflexivity.
  - by repeat constructor.
  - exists errs, w''. split; [exact Hrun|]. split; [exact Hlen|exact Hbal].
Defined.

Lemma credit_retry_credits_twice_witness :
  let w1 := after (CreditLoyaltyHandler_Handle cmd100) outbox_down in
  let w2 := after (CreditLoyaltyHandler_Handle cmd100) w1 in
  balance_of outbox_down "c1" = 0%Z ∧ balance_of w2 "c1" = 200%Z.
Proof.
  intros w1 w2. split; [by vm_compute|].
  destruct (credit_retry_credits_twice cmd100 resp_zero IOError (mkCreditResp (ulid_at 0) 200 "BRONZE")
              outbox_down w1 w2) as [_ Hbal].
  - apply mem0_ids.
  - by vm_compute.
  - vm_compute. reflexivity.
  - vm_compute. discriminate.
  - vm_compute. reflexivity.
  - exact Hbal.
Defined.

(** The order-completed event of [completed_order], processed once. *)
Definition wired : busesState (W := mem) :=
  registerLoyalty oob_amd64
    (mkBuses newCommandBus newQueryBus (newEventBus (λ _ _, mret None))).

Definition processed : mem :=
  after (OnOrderCompletedHandler_Handle oob_amd64 (commandBus_Dispatch (b_command wired)) completed_order)
    (mem0 []).

Lemma duplicate_delivery_compensates_witness :
  balance_of processed "c1" = 10%Z ∧
  ∃ e f (err : goerror) w', OnOrderCompletedHandler_Handle oob_amd64
      (commandBus_Dispatch (b_command wired)) completed_order processed = (Returns None, w') ∧
    (err = None → st_published w' = st_published processed ++ [e]) ∧
    env_EventName e = LoyaltyCreditFailed ∧ env_Payload e = Some (EvLoyaltyCreditFailed f) ∧
    lf_OrderID f = "o1".
Proof.
  split; [by vm_compute|].
  destruct (duplicate_delivery_compensates oob_amd64
              (mkBuses newCommandBus newQueryBus (newEventBus (λ _ _, mret None)))
              completed_order (mkOrderCompleted "o1" "c1" (f64_of_Z 100)) processed)
    as (e & f & err & w' & Hrun & _ & _ & _ & Hp & Hn & _ & Hf & Ho & _).
  - reflexivity.
  - done.
  - vm_compute. reflexivity.
  - vm_compute. reflexivity.
  - exists e, f, err, w'. split; [exact Hrun|]. split; [exact Hp|]. split; [exact Hn|].
    split; [exact Hf|exact Ho].
Defined.

Lemma query_reads_credited_balance_witness :
  ∃ w2, queryBus_Ask (b_query wired) (QryGetBalance (mkBalanceReq "c1"))
      (after (CreditLoyaltyHandler_Handle cmd100) (mem0 [])) =
    (Returns (ReplyBalance (mkBalanceResp (ulid_at 0) "c1" 100 "BRONZE"), None), w2).
Proof.
  destruct (query_reads_credited_balance oob_amd64
           (mkBuses newCommandBus newQueryBus (newEventBus (λ _ _, mret None)))
           cmd100 (mkCreditResp (ulid_at 0) 100 "BRONZE") (mem0 [])
           (after (CreditLoyaltyHandler_Handle cmd100) (mem0 []))) as (m & err & w2 & Hf & Hq).
  - apply mem0_ids.
  - by vm_compute.
  - vm_compute. reflexivity.
  - exists w2. assert (err = None) as Hn.
    { apply (f_equal (λ x, match x.1 with Returns r => r.2 | _ => None end)) in Hf.
      vm_compute in Hf. by symmetry. }
    rewrite Hn in Hq. exact Hq.
Defined.
