(* ===== verification/Saga.v ===== *)
(** * use_cases/loyalty/saga: the order fulfillment saga

    The saga waits for two events of one correlation id and then publishes
    orders.fulfillment.ready.  Its repository is an interface without an
    implementation in the repository, so it is a class; the laws are what its
    comments promise (state per correlation id, kept in a table). *)

From S2P Require Import Prelude LoyaltyDomain Cqrs LoyaltyApp.

Record FulfillmentSagaState : Type := mkSaga {
  sg_CorrelationID : string;
  sg_LoyaltyCredited : bool;
  sg_InventoryReserved : bool;
  sg_CompletedAt : option Z;
}.

Definition InventoryReserved : string := "inventory.stock.reserved".

Class SagaPorts (W : Type) : Type := {
  saga_FindOrCreate : string → M W (FulfillmentSagaState * goerror);
  saga_Save : FulfillmentSagaState → M W goerror;
  saga_Publish : EventEnvelope → M W goerror;
}.

(** *** The switch on the event name *)
Definition saga_mark (name : string) (s : FulfillmentSagaState) : FulfillmentSagaState :=
  if bool_decide (name = LoyaltyCredited)
  then mkSaga (sg_CorrelationID s) true (sg_InventoryReserved s) (sg_CompletedAt s)
  else if bool_decide (name = InventoryReserved)
  then mkSaga (sg_CorrelationID s) (sg_LoyaltyCredited s) true (sg_CompletedAt s)
  else s.

Section handler.
Context {W : Type} `{Ambient} `{HasAmbient W} `{SagaPorts W}.

(** [if err := m; err != nil { return err }; k] *)
Definition ret_if_err (m k : M W goerror) : M W goerror :=
  err ← m; match err with Some e => mret (Some e) | None => k end.

(** The last steps, once both prerequisites are recorded in [m]. *)
Definition saga_complete (env : EventEnvelope) (m : FulfillmentSagaState) : M W goerror :=
  t ← on_amb now;
  ret_if_err
    (saga_Save (mkSaga (sg_CorrelationID m) (sg_LoyaltyCredited m) (sg_InventoryReserved m) (Some t)))
    (id ← on_amb ulid_Make;
     saga_Publish (mkEnv id (env_CorrelationID env) (env_EventID env)
                         OrderFulfillmentReady time_zero ∅ None)).

Definition OrderFulfillmentSaga_Handle (env : EventEnvelope) : M W goerror :=
  r ← saga_FindOrCreate (env_CorrelationID env);
  let '(state, err) := r in
  match (err : goerror) with
  | Some e => mret (Some e)
  | None =>
      match sg_CompletedAt state with
      | Some _ => mret None
      | None =>
          let state := saga_mark (env_EventName env) state in
          ret_if_err (saga_Save state) (
            if sg_LoyaltyCredited state && sg_InventoryReserved state
            then saga_complete env state
            else mret None)
      end
  end.

(** Events delivered one after the other, with the handler's answers. *)
Fixpoint saga_run (envs : list EventEnvelope) : M W (list goerror) :=
  match envs with
  | [] => mret []
  | e :: envs' =>
      err ← OrderFulfillmentSaga_Handle e;
      errs ← saga_run envs';
      mret (err :: errs)
  end.

End handler.

(** ** The repository's and the bus's contract *)

Class SagaLaws (W : Type) `{Ambient} `{HasAmbient W} `{SagaPorts W} : Type := {
  sv_state : W → string → FulfillmentSagaState;
  sv_sent : W → list EventEnvelope;
  sv_corr : ∀ w c, sg_CorrelationID (sv_state w c) = c;
  sv_amb : ∀ a w, sv_state (set_amb a w) = sv_state w ∧ sv_sent (set_amb a w) = sv_sent w;
  FindOrCreate_law : ∀ c w, ∃ r w', saga_FindOrCreate c w = (Returns r, w') ∧
    (∀ c', sv_state w' c' = sv_state w c') ∧ sv_sent w' = sv_sent w ∧
    (r.2 = None → r.1 = sv_state w c);
  saga_Save_law : ∀ s w, ∃ err w', saga_Save s w = (Returns err, w') ∧ sv_sent w' = sv_sent w ∧
    ∀ c, sv_state w' c =
      if bool_decide (err = None ∧ c = sg_CorrelationID s) then s else sv_state w c;
  saga_Publish_law : ∀ e w, ∃ err w', saga_Publish e w = (Returns err, w') ∧
    (∀ c, sv_state w' c = sv_state w c) ∧
    sv_sent w' = sv_sent w ++ (if bool_decide (err = None) then [e] else []);
}.

(** How many fulfillment.ready events were published for a correlation id. *)
Definition ready_count (c : string) (sent : list EventEnvelope) : nat :=
  length (filter (λ e, env_EventName e = OrderFulfillmentReady ∧ env_CorrelationID e = c) sent).

Definition seen (name c : string) (envs : list EventEnvelope) : bool :=
  existsb (λ e, bool_decide (env_EventName e = name ∧ env_CorrelationID e = c)) envs.

Definition saga_fresh (s : FulfillmentSagaState) : Prop :=
  sg_LoyaltyCredited s = false ∧ sg_InventoryReserved s = false ∧ sg_CompletedAt s = None.

(** ** One delivery, seen from one correlation id *)

(** What the handler can do to the state of [c] and the outbox, by its answer:
    [published] tells whether a ready event for [c] went out. *)
Definition saga_step (env : EventEnvelope) (c : string) (s s' : FulfillmentSagaState)
    (err : goerror) (published : bool) : Prop :=
  if bool_decide (env_CorrelationID env = c) then
    match sg_CompletedAt s with
    | Some _ => s' = s ∧ published = false
    | None =>
        let m := saga_mark (env_EventName env) s in
        let both := sg_LoyaltyCredited m && sg_InventoryReserved m in
        (err = None → s' = (if both then s' else m) ∧ (both = true → sg_CompletedAt s' ≠ None) ∧
                      published = both) ∧
        (published = true → sg_CompletedAt s' ≠ None) ∧
        (err ≠ None → published = false)
    end
  else s' = s ∧ published = false.

Section lemmas.
Context {W : Type} `{HL : SagaLaws W}.
Implicit Types (w : W).

Lemma ready_count_app c l1 l2 : ready_count c (l1 ++ l2) = ready_count c l1 + ready_count c l2.
Proof. unfold ready_count. by rewrite filter_app, length_app. Qed.

Lemma saga_mark_corr n s : sg_CorrelationID (saga_mark n s) = sg_CorrelationID s.
Proof. unfold saga_mark. by repeat case_bool_decide. Qed.

Lemma saga_mark_completed n s : sg_CompletedAt (saga_mark n s) = sg_CompletedAt s.
Proof. unfold saga_mark. by repeat case_bool_decide. Qed.

Lemma saga_complete_step env m c w :
  sg_CorrelationID m = env_CorrelationID env →
  ∃ err w', saga_complete env m w = (Returns err, w') ∧
    ∃ p, (c ≠ env_CorrelationID env → sv_state w' c = sv_state w c ∧ p = false) ∧
         (c = env_CorrelationID env → err = None → p = true) ∧
         (p = true → err = None ∧ sg_CompletedAt (sv_state w' c) ≠ None) ∧
         ready_count c (sv_sent w') = ready_count c (sv_sent w) + Nat.b2n p.
Proof.
  intros Hmc. unfold saga_complete.
  rewrite M_bind_eq, on_amb_eq. cbn [now fst snd]. set (a1 := mkAmbient _ _).
  destruct (sv_amb a1 w) as [AV1 AS1]. unfold ret_if_err. rewrite M_bind_eq.
  set (m2 := mkSaga _ _ _ (Some _)).
  destruct (saga_Save_law m2 (set_amb a1 w)) as (er3 & w3 & -> & S3 & V3).
  change (sg_CorrelationID m2) with (sg_CorrelationID m) in V3. rewrite Hmc in V3.
  destruct er3 as [e|].
  { do 2 eexists. split; [reflexivity|]. exists false. rewrite V3, AV1, S3, AS1.
    rewrite bool_decide_false by naive_solver. simpl. split_and!; naive_solver lia. }
  rewrite M_bind_eq, on_amb_eq. cbn [ulid_Make fst snd]. set (a2 := mkAmbient _ _).
  destruct (sv_amb a2 w3) as [AV2 AS2]. set (rd := mkEnv _ _ _ _ _ _ _).
  destruct (saga_Publish_law rd (set_amb a2 w3)) as (er4 & w4 & -> & V4 & S4).
  do 2 eexists. split; [reflexivity|]. exists (bool_decide (er4 = None ∧ c = env_CorrelationID env)).
  rewrite V4, AV2, V3, AV1, S4, AS2, S3, AS1, ready_count_app. split_and!.
  - intros Hne. by rewrite !bool_decide_false by naive_solver.
  - intros -> ->. by apply bool_decide_true.
  - intros [-> ->]%bool_decide_eq_true. split; [done|]. by rewrite bool_decide_true.
  - f_equal. destruct er4 as [e|]; [done|].
    change (if bool_decide _ then [rd] else []) with [rd].
    unfold ready_count. rewrite filter_cons.
    destruct (decide (c = env_CorrelationID env)) as [->|Hc].
    + rewrite decide_True, bool_decide_true by done. done.
    + rewrite decide_False, bool_decide_false by (simpl; naive_solver). done.
Qed.

Lemma saga_handle_step env c w :
  ∃ err w', OrderFulfillmentSaga_Handle env w = (Returns err, w') ∧
    ∃ p, saga_step env c (sv_state w c) (sv_state w' c) err p ∧
         ready_count c (sv_sent w') = ready_count c (sv_sent w) + Nat.b2n p.
Proof.
  unfold OrderFulfillmentSaga_Handle. rewrite M_bind_eq. set (cc := env_CorrelationID env).
  destruct (FindOrCreate_law cc w) as ([s er] & w1 & -> & V1 & S1 & Hs).
  destruct er as [e|].
  { do 2 eexists. split; [reflexivity|]. exists false. rewrite V1, S1. split; [|simpl; lia].
    unfold saga_step. case_bool_decide; [|done]. destruct (sg_CompletedAt _); naive_solver. }
  specialize (Hs eq_refl). simpl in Hs. subst s.
  destruct (sg_CompletedAt (sv_state w cc)) as [t|] eqn:Hd.
  { do 2 eexists. split; [reflexivity|]. exists false. rewrite V1, S1. split; [|simpl; lia].
    unfold saga_step. case_bool_decide as Hc; [|done]. subst c. fold cc. by rewrite Hd. }
  set (m := saga_mark (env_EventName env) (sv_state w cc)).
  assert (sg_CorrelationID m = cc) as Hmc by (unfold m; by rewrite saga_mark_corr, sv_corr).
  unfold ret_if_err at 1. rewrite M_bind_eq.
  destruct (saga_Save_law m w1) as (er2 & w2 & -> & S2 & V2). rewrite Hmc in V2.
  destruct er2 as [e|].
  { do 2 eexists. split; [reflexivity|]. exists false. rewrite V2, V1, S2, S1.
    rewrite bool_decide_false by naive_solver. split; [|simpl; lia].
    unfold saga_step. case_bool_decide as Hc; [|done]. subst c. fold cc. rewrite Hd. naive_solver. }
  destruct (sg_LoyaltyCredited m && sg_InventoryReserved m) eqn:Hboth.
  - destruct (saga_complete_step env m c w2 Hmc) as (err & w' & Hrun & p & Ho & Hp & Hp2 & Hcnt).
    exists err, w'. split; [exact Hrun|]. exists p. rewrite Hcnt, S2, S1. split; [|done].
    unfold saga_step. case_bool_decide as Hc.
    + subst c. fold cc. rewrite Hd. fold m. rewrite Hboth. destruct p; naive_solver.
    + destruct Ho as [-> ->]; [naive_solver|]. rewrite V2, bool_decide_false by naive_solver. done.
  - do 2 eexists. split; [reflexivity|]. exists false. rewrite V2, V1, S2, S1. split; [|simpl; lia].
    unfold saga_step. case_bool_decide as Hc.
    + subst c. fold cc. rewrite Hd. fold m. rewrite bool_decide_true by done. rewrite Hboth. done.
    + rewrite bool_decide_false by naive_solver. done.
Qed.

Lemma saga_mark_flags n s :
  sg_LoyaltyCredited (saga_mark n s) = sg_LoyaltyCredited s || bool_decide (n = LoyaltyCredited) ∧
  sg_InventoryReserved (saga_mark n s) = sg_InventoryReserved s || bool_decide (n = InventoryReserved).
Proof.
  unfold saga_mark. destruct (decide (n = LoyaltyCredited)) as [->|Hl].
  { rewrite (bool_decide_true (LoyaltyCredited = _)), (bool_decide_false (_ = InventoryReserved)) by done.
    simpl. by rewrite orb_true_r, orb_false_r. }
  rewrite (bool_decide_false (n = LoyaltyCredited)) by done.
  case_bool_decide; simpl; by rewrite ?orb_true_r, ?orb_false_r.
Qed.

Lemma seen_cons n c e envs :
  seen n c (e :: envs) = bool_decide (env_EventName e = n ∧ env_CorrelationID e = c) || seen n c envs.
Proof. reflexivity. Qed.

(** Published by the saga and completed: no later delivery publishes again. *)
Lemma saga_run_completed envs c w :
  sg_CompletedAt (sv_state w c) ≠ None →
  ∃ errs w', saga_run envs w = (Returns errs, w') ∧ sv_state w' c = sv_state w c ∧
    ready_count c (sv_sent w') = ready_count c (sv_sent w).
Proof.
  revert w. induction envs as [|e envs IH]; intros w Hd.
  { do 2 eexists. split; [reflexivity|]. done. }
  cbn [saga_run]. rewrite M_bind_eq.
  destruct (saga_handle_step e c w) as (err & w1 & -> & p & Hstep & Hcnt).
  assert (sv_state w1 c = sv_state w c ∧ p = false) as [Heq ->].
  { unfold saga_step in Hstep. case_bool_decide; [|done]. by destruct (sg_CompletedAt (sv_state w c)). }
  rewrite M_bind_eq. destruct (IH w1) as (errs & w2 & -> & Hs & Hc); [by rewrite Heq|].
  do 2 eexists. split; [reflexivity|]. rewrite Hs, Heq, Hc, Hcnt. simpl. split; [done|lia].
Qed.

(** The ready events a run without errors adds, from the recorded prerequisites. *)
Lemma saga_run_count envs c w errs w' :
  saga_run envs w = (Returns errs, w') → Forall (λ e, e = None) errs →
  sg_CompletedAt (sv_state w c) = None →
  sg_LoyaltyCredited (sv_state w c) && sg_InventoryReserved (sv_state w c) = false →
  ready_count c (sv_sent w') = ready_count c (sv_sent w) +
    Nat.b2n ((sg_LoyaltyCredited (sv_state w c) || seen LoyaltyCredited c envs) &&
             (sg_InventoryReserved (sv_state w c) || seen InventoryReserved c envs)).
Proof.
  revert w errs. induction envs as [|e envs IH]; intros w errs Hrun Hok Hd Hlb.
  { cbn [saga_run] in Hrun. rewrite M_ret_eq in Hrun. simplify_eq. cbn [seen existsb].
    rewrite !orb_false_r, Hlb. cbn [Nat.b2n]. lia. }
  cbn [saga_run] in Hrun. rewrite M_bind_eq in Hrun.
  destruct (saga_handle_step e c w) as (err & w1 & Hh & p & Hstep & Hcnt).
  rewrite Hh, M_bind_eq in Hrun. 
  destruct (saga_run envs w1) as [[errs1| |] w2] eqn:Hrest; [|discriminate Hrun..].
  rewrite M_ret_eq in Hrun. simplify_eq.
  inversion Hok as [|? ? -> Hok']; subst. unfold saga_step in Hstep. rewrite Hd in Hstep.
  rewrite !seen_cons. case_bool_decide as Hc.
  2: { destruct Hstep as [Heq ->]. rewrite (IH w1 errs1), Hcnt, Heq by (try done; by rewrite Heq).
       rewrite !bool_decide_false by naive_solver. cbn [Nat.b2n orb]. by rewrite Nat.add_0_r. }
  destruct Hstep as (Hn & _ & _). destruct (Hn eq_refl) as (Hs' & Hboth & ->). clear Hn.
  rewrite (bool_decide_ext (_ ∧ _) (env_EventName e = LoyaltyCredited)) by naive_solver.
  rewrite (bool_decide_ext (_ ∧ _) (env_EventName e = InventoryReserved)) by naive_solver.
  rewrite !orb_assoc. destruct (saga_mark_flags (env_EventName e) (sv_state w c)) as [<- <-].
  destruct (sg_LoyaltyCredited _ && sg_InventoryReserved (saga_mark _ _)) eqn:Hb.
  - destruct (saga_run_completed envs c w1 (Hboth eq_refl)) as (? & ? & Hrun' & _ & Hc2).
    rewrite Hrest in Hrun'. injection Hrun' as <- <-. rewrite Hc2, Hcnt. apply andb_prop in Hb as [-> ->]. done.
  - rewrite (IH w1 errs1), Hcnt, Hs' by (try done; rewrite Hs'; try done; by rewrite saga_mark_completed).
    cbn [Nat.b2n]. by rewrite Nat.add_0_r.
Qed.

End lemmas.

(** ** An in-memory saga table and bus with scripted faults *)

Record smem : Type := mkSmem {
  s_amb : ambient;
  s_table : gmap string FulfillmentSagaState;
  s_sent : list EventEnvelope;
  s_faults : list bool;
}.

Definition saga_new (c : string) : FulfillmentSagaState := mkSaga c false false None.

Definition saga_io : error := Foreign "io" "connection reset by peer".

(** The next call fails when the script starts with [true]. *)
Definition pop_fault (w : smem) : bool * smem :=
  match s_faults w with
  | b :: l => (b, mkSmem (s_amb w) (s_table w) (s_sent w) l)
  | [] => (false, w)
  end.

#[export] Instance smem_ambient : HasAmbient smem := {
  get_amb := s_amb;
  set_amb a w := mkSmem a (s_table w) (s_sent w) (s_faults w);
}.

Definition smem_state (w : smem) (c : string) : FulfillmentSagaState :=
  match s_table w !! c with
  | Some s => mkSaga c (sg_LoyaltyCredited s) (sg_InventoryReserved s) (sg_CompletedAt s)
  | None => saga_new c
  end.

#[export] Instance smem_ports : SagaPorts smem := {
  saga_FindOrCreate c w :=
    let '(b, w) := pop_fault w in
    if b then (Returns (saga_new c, Some saga_io), w) else (Returns (smem_state w c, None), w);
  saga_Save s w :=
    let '(b, w) := pop_fault w in
    if b then (Returns (Some saga_io), w)
    else (Returns None, mkSmem (s_amb w) (<[sg_CorrelationID s := s]> (s_table w)) (s_sent w) (s_faults w));
  saga_Publish e w :=
    let '(b, w) := pop_fault w in
    if b then (Returns (Some saga_io), w)
    else (Returns None, mkSmem (s_amb w) (s_table w) (s_sent w ++ [e]) (s_faults w));
}.

Lemma pop_fault_same w : s_table (pop_fault w).2 = s_table w ∧ s_sent (pop_fault w).2 = s_sent w.
Proof. unfold pop_fault. by destruct (s_faults w). Qed.

#[export] Instance smem_laws : SagaLaws smem.
Proof.
  apply (Build_SagaLaws smem _ _ _ smem_state s_sent).
  - intros w c. unfold smem_state. by destruct (s_table w !! c).
  - intros a w. done.
  - intros c w. simpl. pose proof (pop_fault_same w) as [Ht Hs].
    destruct (pop_fault w) as [[] w1]; simpl in *; do 2 eexists; (split; [reflexivity|]);
      unfold smem_state; rewrite Ht, Hs; done.
  - intros s w. cbn [saga_Save smem_ports]. pose proof (pop_fault_same w) as [Ht Hs].
    destruct (pop_fault w) as [[] w1]; cbn [snd] in *; do 2 eexists; (split; [reflexivity|]);
      unfold smem_state; cbn [s_table s_sent]; rewrite Ht, ?Hs; (split; [done|]); intros c.
    + by rewrite bool_decide_false by naive_solver.
    + case_bool_decide as Hc.
      * destruct Hc as [_ ->]. rewrite lookup_insert_eq. by destruct s.
      * rewrite lookup_insert_ne by naive_solver. done.
  - intros e w. simpl. pose proof (pop_fault_same w) as [Ht Hs].
    destruct (pop_fault w) as [[] w1]; simpl in *; do 2 eexists; (split; [reflexivity|]);
      unfold smem_state; simpl; rewrite Ht, Hs; (split; [done|]); simpl; by rewrite ?app_nil_r.
Defined.

Definition smem0 (faults : list bool) : smem := mkSmem (mkAmbient 0 0) ∅ [] faults.

Definition credited_ev (corr : string) : EventEnvelope := mkEnv "e1" corr "" LoyaltyCredited 0 ∅ None.
Definition reserved_ev (corr : string) : EventEnvelope := mkEnv "e2" corr "" InventoryReserved 0 ∅ None.

(** ** Theorems *)

Section theorems.
Context {W : Type} `{HL : SagaLaws W}.
Implicit Types (w : W).

(** C4: for a correlation id the table does not know yet, a sequence of
    deliveries in any order, with duplicates, other events and other correlation
    ids mixed in, all of them handled without an error, publishes exactly one
    orders.fulfillment.ready for the id when both the loyalty and the inventory
    event are among them, and none otherwise. *)
Theorem saga_joins_both_events envs c w errs w' :
  saga_run envs w = (Returns errs, w') → Forall (λ e, e = None) errs →
  saga_fresh (sv_state w c) →
  ready_count c (sv_sent w') = ready_count c (sv_sent w) +
    Nat.b2n (seen LoyaltyCredited c envs && seen InventoryReserved c envs).
Proof.
  intros Hrun Hok (Hl & Hi & Hd). rewrite (saga_run_count envs c w errs w') by (done || by rewrite Hl).
  by rewrite Hl, Hi.
Qed.

(** C5: whatever calls of the repository or the bus fail, and however
    often events are redelivered, the handler always returns and a correlation id
    gets at most one orders.fulfillment.ready. *)
Theorem saga_at_most_once envs c w :
  ∃ errs w', saga_run envs w = (Returns errs, w') ∧
    ready_count c (sv_sent w') ≤ S (ready_count c (sv_sent w)).
Proof.
  revert w. induction envs as [|e envs IH]; intros w.
  { do 2 eexists. split; [reflexivity|]. lia. }
  cbn [saga_run]. rewrite M_bind_eq.
  destruct (saga_handle_step e c w) as (err & w1 & -> & p & Hstep & Hcnt). rewrite M_bind_eq.
  destruct p; simpl in Hcnt.
  - assert (sg_CompletedAt (sv_state w1 c) ≠ None) as Hd.
    { unfold saga_step in Hstep. case_bool_decide; [|naive_solver].
      destruct (sg_CompletedAt (sv_state w c)); naive_solver. }
    destruct (saga_run_completed envs c w1 Hd) as (errs & w2 & -> & _ & Hc2).
    do 2 eexists. split; [reflexivity|]. lia.
  - destruct (IH w1) as (errs & w2 & -> & Hc2). do 2 eexists. split; [reflexivity|]. lia.
Qed.

(** C15: once the completion time is recorded, no delivery publishes for
    that id any more.  So when the publication that follows the recording fails,
    redelivering the events does not repair it: the ready event is lost. *)
Theorem saga_lost_after_failed_publish env envs c w e w1 :
  OrderFulfillmentSaga_Handle env w = (Returns (Some e), w1) →
  sg_CompletedAt (sv_state w1 c) ≠ None →
  ready_count c (sv_sent w1) = ready_count c (sv_sent w) ∧
  ∃ errs w2, saga_run envs w1 = (Returns errs, w2) ∧
    ready_count c (sv_sent w2) = ready_count c (sv_sent w).
Proof.
  intros Hrun Hd. destruct (saga_handle_step env c w) as (err & w1' & Hrun' & p & Hstep & Hcnt).
  rewrite Hrun in Hrun'. injection Hrun' as <- <-.
  assert (p = false) as ->.
  { unfold saga_step in Hstep. case_bool_decide; [|naive_solver].
    destruct (sg_CompletedAt (sv_state w c)); naive_solver. }
  simpl in Hcnt. split; [lia|].
  destruct (saga_run_completed envs c w1 Hd) as (errs & w2 & -> & _ & Hc2).
  do 2 eexists. split; [reflexivity|]. lia.
Qed.

End theorems.

(** ** Witnesses *)

Definition saga_events : list EventEnvelope :=
  [reserved_ev "x"; credited_ev "y"; reserved_ev "x"; credited_ev "x"; credited_ev "x"].

Lemma saga_joins_both_events_witness :
  ready_count "x" (sv_sent (final (saga_run saga_events) (smem0 []))) = 1.
Proof.
  etrans; [|exact (eq_refl : ready_count "x" (sv_sent (smem0 [])) + 1 = 1)].
  apply (saga_joins_both_events saga_events "x" (smem0 []) [None; None; None; None; None]
           (final (saga_run saga_events) (smem0 []))).
  - vm_compute. reflexivity.
  - by repeat constructor.
  - by vm_compute.
Defined.

(** Both saves succeed and the bus is down for the second event. *)
Definition bus_down : smem := smem0 [false; false; false; false; false; true].

Definition half_done : smem := final (OrderFulfillmentSaga_Handle (reserved_ev "x")) bus_down.

Lemma saga_lost_after_failed_publish_witness :
  ∃ errs w2, saga_run saga_events (final (OrderFulfillmentSaga_Handle (credited_ev "x")) half_done) =
      (Returns errs, w2) ∧ ready_count "x" (sv_sent w2) = 0.
Proof.
  destruct (saga_lost_after_failed_publish (credited_ev "x") saga_events "x" half_done saga_io
    (final (OrderFulfillmentSaga_Handle (credited_ev "x")) half_done)) as (_ & errs & w2 & Hrun & Hc).
  - vm_compute. reflexivity.
  - vm_compute. discriminate.
  - exists errs, w2. split; [exact Hrun|exact Hc].
Defined.
