(* ===== verification/Operation.v ===== *)
(** * use_cases/operation: commands, messages and the control registry

    The message types exchanged between the master and its workers with their
    JSON encoding, and the master's table of control commands. *)

From S2P Require Import Prelude GoStr GoJson.

(** ** command.go and payload.go *)

(** [type MsgType int]: any [int] can arrive from the wire. *)
Definition MsgType : Type := Z.

Definition Shutdown_t : MsgType := 0%Z.
Definition Drain_t : MsgType := 1%Z.
Definition Ping_t : MsgType := 2%Z.
Definition Pong_t : MsgType := 3%Z.
Definition Chat_t : MsgType := 4%Z.
Definition EventStats_t : MsgType := 5%Z.
Definition ConfigReload_t : MsgType := 6%Z.

Definition commandNames : gmap Z string :=
  list_to_map [(Shutdown_t, "SHUTDOWN"); (Drain_t, "DRAIN"); (Ping_t, "PING"); (Chat_t, "CHAT");
               (Pong_t, "PONG"); (EventStats_t, "EVENT_STATS"); (ConfigReload_t, "CONFIG_RELOAD")].

Definition MsgType_String (c : MsgType) : string :=
  match commandNames !! c with
  | Some s => s
  | None => default "" (commandNames !! Shutdown_t)
  end.

Record OpCommand : Type := mkOp {
  op_Name : string;
  op_Description : string;
  op_Usage : string;
  op_Type : MsgType;
  op_Payload : option (list nat);
}.

Record MessagePayload : Type := mkMsg {
  mp_ID : string;
  mp_FromPID : Z;
  mp_Payload : OpCommand;
  mp_Timestamp : Z;
}.

(** The zero values a composite literal leaves. *)
Definition op_zero : OpCommand := mkOp "" "" "" 0%Z None.
Definition op_of_type (t : MsgType) : OpCommand := mkOp "" "" "" t None.
Definition msg_zero : MessagePayload := mkMsg "" 0 op_zero 0.

(** *** json.Marshal and json.Unmarshal: the structs have no tags *)

Definition encode_command (c : OpCommand) : json :=
  JObj [("Name", JStr (op_Name c)); ("Description", JStr (op_Description c));
        ("Usage", JStr (op_Usage c)); ("Type", JNum (op_Type c));
        ("Payload", encode_bytes (op_Payload c))].

Definition encode_message (m : MessagePayload) : json :=
  JObj [("ID", JStr (mp_ID m)); ("FromPID", JNum (mp_FromPID m));
        ("Payload", encode_command (mp_Payload m)); ("Timestamp", JNum (mp_Timestamp m))].

Definition set_command_field (k : string) (v : json) (c : OpCommand) : OpCommand * goerror :=
  if field_is k "Name" then
    let '(x, e) := decode_string v (op_Name c) in
    (mkOp x (op_Description c) (op_Usage c) (op_Type c) (op_Payload c), e)
  else if field_is k "Description" then
    let '(x, e) := decode_string v (op_Description c) in
    (mkOp (op_Name c) x (op_Usage c) (op_Type c) (op_Payload c), e)
  else if field_is k "Usage" then
    let '(x, e) := decode_string v (op_Usage c) in
    (mkOp (op_Name c) (op_Description c) x (op_Type c) (op_Payload c), e)
  else if field_is k "Type" then
    let '(x, e) := decode_int v (op_Type c) in
    (mkOp (op_Name c) (op_Description c) (op_Usage c) x (op_Payload c), e)
  else if field_is k "Payload" then
    let '(x, e) := decode_bytes v (op_Payload c) in
    (mkOp (op_Name c) (op_Description c) (op_Usage c) (op_Type c) x, e)
  else (c, None).

Definition set_message_field (k : string) (v : json) (m : MessagePayload) : MessagePayload * goerror :=
  if field_is k "ID" then
    let '(x, e) := decode_string v (mp_ID m) in
    (mkMsg x (mp_FromPID m) (mp_Payload m) (mp_Timestamp m), e)
  else if field_is k "FromPID" then
    let '(x, e) := decode_int v (mp_FromPID m) in
    (mkMsg (mp_ID m) x (mp_Payload m) (mp_Timestamp m), e)
  else if field_is k "Payload" then
    let '(x, e) := decode_struct set_command_field v (mp_Payload m) in
    (mkMsg (mp_ID m) (mp_FromPID m) x (mp_Timestamp m), e)
  else if field_is k "Timestamp" then
    let '(x, e) := decode_int v (mp_Timestamp m) in
    (mkMsg (mp_ID m) (mp_FromPID m) (mp_Payload m) x, e)
  else (m, None).

Definition decode_message (j : json) : MessagePayload * goerror :=
  decode_struct set_message_field j msg_zero.

(** Values that fit the Go types. *)
Definition message_ok (m : MessagePayload) : Prop :=
  is_int (mp_FromPID m) ∧ is_int (mp_Timestamp m) ∧ is_int (op_Type (mp_Payload m)) ∧
  from_option (Forall (λ b, b < 256)) True (op_Payload (mp_Payload m)).

(** ** control.go and master.go *)

(** The interface handlers receive. *)
Record SystemCore (W : Type) : Type := mkSystemCore {
  sc_CheckHealth : M W string;
  sc_GetTotalWorkers : M W Z;
  sc_ScaleUp : M W ();
  sc_ScaleDown : M W ();
}.

Arguments mkSystemCore {W} _ _ _ _.
Arguments sc_CheckHealth {W} _.
Arguments sc_GetTotalWorkers {W} _.
Arguments sc_ScaleUp {W} _.
Arguments sc_ScaleDown {W} _.

Section registry.
Context {W : Type}.

Definition MasterControlHandler : Type := SystemCore W → OpCommand → M W goerror.

Record MasterRegistry : Type := mkRegistry { commands : gmap string MasterControlHandler }.

Definition NewMasterRegistry : MasterRegistry := mkRegistry ∅.

Definition MasterRegistry_Register (r : MasterRegistry) (name desc usage : string)
    (handler : MasterControlHandler) : MasterRegistry :=
  mkRegistry (<[ToUpper name := handler]> (commands r)).

(** [errors.New(fmt.Sprintf(...))]; the reply is the same text. *)
Definition unknown_command (name : string) : error :=
  Fmt "Unknown command: %s. Type HELP for list." [name].

Definition MasterRegistry_Execute (r : MasterRegistry) (syscore : SystemCore W) (cmd : OpCommand) :
    M W (string * goerror) :=
  match commands r !! op_Name cmd with
  | None => mret (Error (unknown_command (op_Name cmd)), Some (unknown_command (op_Name cmd)))
  | Some cmdFn =>
      err ← cmdFn syscore cmd;
      match (err : goerror) with
      | Some e => mret ("", Some e)
      | None => mret ("", None)
      end
  end.

(** drivers/master/command.go: the one command of the program. *)
Definition RegisterCommand : MasterRegistry :=
  MasterRegistry_Register NewMasterRegistry "noop" "description" "usage" (λ _ _, mret None).

(** A registry filled by a sequence of registrations. *)
Definition register_all (regs : list (string * MasterControlHandler)) : MasterRegistry :=
  fold_left (λ r '(n, h), MasterRegistry_Register r n "" "" h) regs NewMasterRegistry.

(** The handler registered last under a name with a given upper-case form. *)
Fixpoint last_registered (regs : list (string * MasterControlHandler)) (name : string) :
    option MasterControlHandler :=
  match regs with
  | [] => None
  | (n, h) :: regs' =>
      match last_registered regs' name with
      | Some h' => Some h'
      | None => if bool_decide (ToUpper n = name) then Some h else None
      end
  end.

End registry.

Arguments MasterControlHandler : clear implicits.
Arguments MasterRegistry : clear implicits.

(** ** Lemmas *)

Lemma upper_char_idem c : upper_char (upper_char c) = upper_char c.
Proof.
  assert (Forall (λ n, upper_char (upper_char (Ascii.ascii_of_nat n)) = upper_char (Ascii.ascii_of_nat n))
            (seq 0 256)) as Hall by decide_by_eval.
  rewrite Forall_forall in Hall. rewrite <- (Ascii.ascii_nat_embedding c).
  apply Hall, elem_of_seq. pose proof (Ascii.nat_ascii_bounded c). lia.
Qed.

Lemma ToUpper_idem s : ToUpper (ToUpper s) = ToUpper s.
Proof.
  unfold ToUpper. rewrite chars_str. f_equal. rewrite <- list_fmap_compose.
  apply list_fmap_ext. intros _ c _. apply upper_char_idem.
Qed.

Lemma register_all_lookup {W} (regs : list (string * MasterControlHandler W)) name :
  commands (register_all regs) !! name = last_registered regs name.
Proof.
  unfold register_all.
  enough (∀ r, commands (fold_left (λ r '(n, h), MasterRegistry_Register r n "" "" h) regs r) !! name =
               match last_registered regs name with Some h => Some h | None => commands r !! name end) as Hg.
  { rewrite Hg. by destruct (last_registered regs name). }
  induction regs as [|[n h] regs IH]; intros r; simpl; [done|].
  rewrite IH. destruct (last_registered regs name); [done|]. simpl.
  case_bool_decide as Hn; [subst; by rewrite lookup_insert_eq|by rewrite lookup_insert_ne].
Qed.

Lemma last_registered_upper {W} (regs : list (string * MasterControlHandler W)) name h :
  last_registered regs name = Some h → ToUpper name = name.
Proof.
  induction regs as [|[n h'] regs IH]; simpl; [done|].
  destruct (last_registered regs name); [done|].
  case_bool_decide as Hn; [|done]. intros _. rewrite <- Hn. apply ToUpper_idem.
Qed.

(** Decode an object with literal keys. *)
Ltac eval_message :=
  cbv beta iota delta [decode_struct decode_obj set_command_field set_message_field decode_string
    first_err msg_zero op_zero];
  repeat match goal with
         | |- context [field_is ?k ?n] =>
             let r := eval vm_compute in (field_is k n) in change (field_is k n) with r
         end;
  cbv beta iota delta [mp_ID mp_FromPID mp_Payload mp_Timestamp
    op_Name op_Description op_Usage op_Type op_Payload].

Lemma decode_message_encode m : message_ok m → decode_message (encode_message m) = (m, None).
Proof.
  destruct m as [id pid [n d u t p] ts]. intros (Hp & Ht & Hty & Hb). simpl in *.
  unfold decode_message, encode_message, encode_command. cbn [mp_ID mp_FromPID mp_Payload mp_Timestamp
    op_Name op_Description op_Usage op_Type op_Payload].
  eval_message. unfold decode_int. rewrite !bool_decide_true by done.
  eval_message. rewrite decode_encode_bytes by done. eval_message. reflexivity.
Qed.

(** ** Witness data *)

Definition sample_message : MessagePayload :=
  mkMsg "123" (-1) (mkOp "chat" "" "" Chat_t (Some [68; 73; 69; 10])) 1700000000000.

Definition null_core : SystemCore () :=
  mkSystemCore (mret "HEALTHY") (mret 0%Z) (mret tt) (mret tt).

(** ** Properties *)

(** a message whose numbers fit [int] and whose payload is a
    byte slice comes out of [json.Unmarshal] as it went into [json.Marshal],
    a nil and an empty payload told apart, without an error. *)
Theorem message_roundtrip m : message_ok m → decode_message (encode_message m) = (m, None).
Proof.
  apply decode_message_encode.
Qed.

Lemma message_roundtrip_witness : decode_message (encode_message sample_message) = (sample_message, None).
Proof. apply message_roundtrip. unfold message_ok. split_and!; decide_by_eval. Defined.

(** for any sequence of registrations, Execute runs the handler
    registered last under a name whose upper-case form is exactly the command
    name, returning its error; every other name, in particular every name with a
    lower-case letter (however it was registered), is answered with the
    unknown-command text as reply and error, and nothing runs. *)
Theorem Execute_spec {W} (regs : list (string * MasterControlHandler W)) syscore cmd (w : W) :
  MasterRegistry_Execute (register_all regs) syscore cmd w =
    match last_registered regs (op_Name cmd) with
    | Some h => match h syscore cmd w with
                | (Returns e, w') => (Returns ("", e), w')
                | (Panics p, w') => (Panics p, w')
                | (Blocks, w') => (Blocks, w')
                end
    | None => (Returns (Error (unknown_command (op_Name cmd)), Some (unknown_command (op_Name cmd))), w)
    end ∧
  (ToUpper (op_Name cmd) ≠ op_Name cmd → last_registered regs (op_Name cmd) = None).
Proof.
  split.
  - pose proof (register_all_lookup regs (op_Name cmd)) as Hl.
    unfold MasterRegistry_Execute, MasterControlHandler in *. rewrite Hl.
    destruct (last_registered regs (op_Name cmd)) as [h|]; [|done].
    rewrite M_bind_eq. by destruct (h syscore cmd w) as [[[e|]| |] w'].
  - intros Hne. destruct (last_registered regs (op_Name cmd)) eqn:E; [|done].
    by apply last_registered_upper in E.
Qed.
