(* ===== verification/WorkerPool.v ===== *)
(** * The master's side of its workers

    use_cases/workerclient (one client per worker), use_cases/bus/event.go (the
    event bus) and use_cases/mastercore/registry.go, orchestrator.go (the
    registry of connections and its health check).

    [pool] is the shared state: the heap of [*WorkerClient] objects, the
    registry's map from pids to pointers, what was written on each connection,
    and the goroutines [Shutdown] has started and that have not run yet.  The
    network is a parameter: [net_err c n] is the error of the [n]-th write on
    connection [c].  Maps are ranged over in any order. *)

From S2P Require Import Prelude GoStr GoJson LoyaltyDomain LoyaltyApp Operation.

(** ** workerclient/status.go *)

Inductive WorkerClientState : Type :=
| Disconnected | Connected | Connecting | Starting | StateError | Retrying | Idle.

#[global] Instance WorkerClientState_eq_dec : EqDecision WorkerClientState.
Proof. solve_decision. Defined.

Record WorkerClient : Type := mkClient {
  wc_status : WorkerClientState;
  wc_pid : Z;
  wc_l : option nat;
}.

(** A connection: how many writes were attempted, and the lines that went out. *)
Record wire : Type := mkWire { wr_writes : nat; wr_lines : list json }.

Record pool : Type := mkPool {
  p_amb : ambient;
  p_heap : gmap nat WorkerClient;
  p_conns : gmap Z nat;
  p_net : gmap nat wire;
  p_spawned : list nat;
}.

#[export] Instance pool_ambient : HasAmbient pool := {
  get_amb := p_amb;
  set_amb a s := mkPool a (p_heap s) (p_conns s) (p_net s) (p_spawned s);
}.

Definition wire_of (s : pool) (c : nat) : wire := default (mkWire 0 []) (p_net s !! c).

Definition set_heap (h : gmap nat WorkerClient) (s : pool) : pool :=
  mkPool (p_amb s) h (p_conns s) (p_net s) (p_spawned s).
Definition set_conns (m : gmap Z nat) (s : pool) : pool :=
  mkPool (p_amb s) (p_heap s) m (p_net s) (p_spawned s).
Definition set_wire (c : nat) (x : wire) (s : pool) : pool :=
  mkPool (p_amb s) (p_heap s) (p_conns s) (<[c := x]> (p_net s)) (p_spawned s).
Definition spawn (p : nat) (s : pool) : pool :=
  mkPool (p_amb s) (p_heap s) (p_conns s) (p_net s) (p_spawned s ++ [p]).

Section pool.
Context `{Ambient}.
Context (net_err : nat → nat → goerror) (line_len : json → Z).

(** ** workerclient/worker.go *)

(** Dereference a [*WorkerClient]. *)
Definition deref (p : nat) : M pool WorkerClient := λ s,
  match p_heap s !! p with
  | Some w => (Returns w, s)
  | None => (Panics "invalid memory address or nil pointer dereference", s)
  end.

Definition NewWorkerClient (l : option nat) (pid : Z) : WorkerClient := mkClient Connecting pid l.

Definition set_status (p : nat) (st : WorkerClientState) : M pool () :=
  w ← deref p;
  modify (λ s, set_heap (<[p := mkClient st (wc_pid w) (wc_l w)]> (p_heap s)) s).

Definition WorkerClient_PID (p : nat) : M pool Z := w ← deref p; mret (wc_pid w).

Definition WorkerClient_State (p : nat) : M pool WorkerClientState := w ← deref p; mret (wc_status w).

Definition WorkerClient_IsAlive (p : nat) : M pool bool :=
  w ← deref p; mret (bool_decide (wc_status w = Connected)).

(** [conn.Write] of a line. *)
Definition conn_Write (c : nat) (line : json) : M pool (Z * goerror) := λ s,
  let x := wire_of s c in
  match net_err c (wr_writes x) with
  | Some e => (Returns (0%Z, Some e), set_wire c (mkWire (S (wr_writes x)) (wr_lines x)) s)
  | None => (Returns (line_len line, None),
             set_wire c (mkWire (S (wr_writes x)) (wr_lines x ++ [line])) s)
  end.

(** The mutex makes the body atomic; json.Marshal of a message cannot fail. *)
Definition WorkerClient_Send (p : nat) (msg : MessagePayload) : M pool (Z * goerror) :=
  w ← deref p;
  match wc_l w with
  | None => mret (0%Z, Some (Fmt "worker %d has no active connection" [Itoa (wc_pid w)]))
  | Some c =>
      r ← conn_Write c (encode_message msg);
      match r.2 with
      | Some e => mret (0%Z, Some (Wrap "failed to send message to worker %d: %w" [Itoa (wc_pid w)] e))
      | None => mret (r.1, None)
      end
  end.

(** [time.Now().UnixMilli()] *)
Definition now_milli : M pool Z := t ← on_amb now; mret (t / 1000000)%Z.

Definition WorkerClient_Drain (p : nat) : M pool goerror :=
  pid ← WorkerClient_PID p;
  ts ← now_milli;
  r ← WorkerClient_Send p (mkMsg "123" pid (op_of_type Drain_t) ts);
  mret r.2.

(** The goroutine's own send is [shutdown_goroutine], run later. *)
Definition WorkerClient_Shutdown (p : nat) : M pool goerror :=
  set_status p Disconnected ≫= λ _,
  w ← deref p;
  match wc_l w with
  | None => mret None
  | Some _ => modify (spawn p) ≫= λ _, mret None
  end.

Definition shutdown_goroutine (p : nat) : M pool () :=
  ts ← now_milli;
  _ ← WorkerClient_Send p (mkMsg "123" (-1) (op_of_type Shutdown_t) ts);
  mret tt.

Definition WorkerClient_Start (p : nat) : M pool goerror :=
  set_status p Connected ≫= λ _,
  pid ← WorkerClient_PID p;
  ts ← now_milli;
  r ← WorkerClient_Send p (mkMsg "" pid (op_of_type Ping_t) ts);
  mret r.2.

(** ** bus/bus.go *)

Definition EventBus_Send (msg : MessagePayload) (p : nat) : M pool goerror :=
  r ← WorkerClient_Send p msg;
  mret r.2.

Definition broadcast_one (msg : MessagePayload) (p : nat) : M pool () :=
  st ← WorkerClient_State p;
  if bool_decide (st = Disconnected) then mret tt
  else
    err ← EventBus_Send msg p;
    match (err : goerror) with
    | Some _ => _ ← WorkerClient_Shutdown p; mret tt
    | None => mret tt
    end.

Definition EventBus_Broadcast (msg : MessagePayload) (ps : list nat) : M pool goerror :=
  for_each (broadcast_one msg) ps ≫= λ _, mret None.

(** ** mastercore/registry.go *)

Definition Registry_Remove (pid : Z) : M pool goerror :=
  modify (λ s, set_conns (delete pid (p_conns s)) s) ≫= λ _,
  mret (Some (Fmt "no worker found to remove" [])).

Definition Registry_Get (pid : Z) : M pool (option nat) := gets (λ s, p_conns s !! pid).

(** [ks] is the order in which the map is ranged over. *)
Definition Registry_GetAll (ks : list Z) : M pool (list nat) :=
  gets (λ s, omap (λ k, p_conns s !! k) ks).

Definition Registry_Total : M pool Z := gets (λ s, Z.of_nat (size (p_conns s))).

Definition Registry_Broadcast (ks : list Z) (payload : option (list nat)) : M pool () :=
  ts ← now_milli;
  ws ← Registry_GetAll ks;
  _ ← EventBus_Broadcast (mkMsg "" 0 (mkOp "" "" "" Chat_t payload) ts) ws;
  mret tt.

Definition ping_message (ts : Z) : MessagePayload := mkMsg "" (-1) (op_of_type Ping_t) ts.

Definition pingWorkers (ks : list Z) : M pool () :=
  ts ← now_milli;
  ws ← Registry_GetAll ks;
  _ ← EventBus_Broadcast (ping_message ts) ws;
  mret tt.

Definition eliminate_one (pid : Z) : M pool () :=
  r ← Registry_Get pid;
  match r with
  | None => mret tt
  | Some p =>
      st ← WorkerClient_State p;
      if bool_decide (st = Disconnected) then _ ← Registry_Remove pid; mret tt else mret tt
  end.

Definition eliminateWorkers (ks : list Z) : M pool () := for_each eliminate_one ks.

(** One tick of CheckHealthWorkers; the loop runs it until the context is done. *)
Definition health_tick (ks1 ks2 : list Z) : M pool () :=
  pingWorkers ks1 ≫= λ _, eliminateWorkers ks2.

Fixpoint CheckHealthWorkers (ticks : list (list Z * list Z)) : M pool () :=
  match ticks with
  | [] => mret tt
  | (ks1, ks2) :: ticks' => health_tick ks1 ks2 ≫= λ _, CheckHealthWorkers ticks'
  end.

Definition close_one (pid : Z) : M pool () :=
  r ← Registry_Get pid;
  match r with
  | None => mret tt
  | Some p => _ ← WorkerClient_Shutdown p; mret tt
  end.

Definition CloseAllConnections (ks : list Z) : M pool () := for_each close_one ks.

Definition Registry_Add (p : nat) : M pool goerror :=
  pid ← WorkerClient_PID p;
  modify (λ s, set_conns (<[pid := p]> (p_conns s)) s) ≫= λ _,
  mret None.

(** ** mastercore/orchestrator.go *)

Definition Orchestrator : SystemCore pool :=
  mkSystemCore (mret "HEALTHY") Registry_Total (panic "unimplemented") (panic "unimplemented").

End pool.

(** ** The well-formed states

    Every registered pointer is live and registered under its own pid, and no
    two registered clients share a connection. *)
Definition registered (s : pool) (p : nat) : Prop := ∃ pid, p_conns s !! pid = Some p.

Definition pool_ok (s : pool) : Prop :=
  (∀ pid p, p_conns s !! pid = Some p → ∃ w, p_heap s !! p = Some w ∧ wc_pid w = pid) ∧
  (∀ p1 p2 w1 w2 c, registered s p1 → registered s p2 →
     p_heap s !! p1 = Some w1 → p_heap s !! p2 = Some w2 →
     wc_l w1 = Some c → wc_l w2 = Some c → p1 = p2).

(** Would a write to this client go through now? *)
Definition deliverable (net_err : nat → nat → goerror) (s : pool) (w : WorkerClient) : bool :=
  match wc_l w with
  | None => false
  | Some c => bool_decide (net_err c (wr_writes (wire_of s c)) = None)
  end.

(** A client after a broadcast that addresses it. *)
Definition pinged (net_err : nat → nat → goerror) (s : pool) (w : WorkerClient) : WorkerClient :=
  if bool_decide (wc_status w = Disconnected) then w
  else if deliverable net_err s w then w
  else mkClient Disconnected (wc_pid w) (wc_l w).

(** Was the message put on the wire? *)
Definition delivered (net_err : nat → nat → goerror) (s : pool) (w : WorkerClient) : bool :=
  bool_decide (wc_status w ≠ Disconnected) && deliverable net_err s w.

(** ** Lemmas *)

Section lemmas.
Context `{Ambient} (net_err : nat → nat → goerror) (line_len : json → Z).
Implicit Types (s : pool) (w : WorkerClient).

Lemma wire_of_set s c x c' :
  wire_of (set_wire c x s) c' = if bool_decide (c' = c) then x else wire_of s c'.
Proof.
  unfold wire_of. simpl. case_bool_decide; [subst; by rewrite lookup_insert_eq|].
  by rewrite lookup_insert_ne.
Qed.

Lemma deref_eq p w s : p_heap s !! p = Some w → deref p s = (Returns w, s).
Proof. unfold deref. by intros ->. Qed.

(** The effect of Send on a live client. *)
Lemma Send_spec p w msg s :
  p_heap s !! p = Some w →
  ∃ r s', WorkerClient_Send net_err line_len p msg s = (Returns r, s') ∧
    (r.2 = None ↔ deliverable net_err s w = true) ∧
    p_heap s' = p_heap s ∧ p_conns s' = p_conns s ∧ p_spawned s' = p_spawned s ∧
    (∀ c, wc_l w ≠ Some c → wire_of s' c = wire_of s c) ∧
    (∀ c, wc_l w = Some c → wr_lines (wire_of s' c) =
       wr_lines (wire_of s c) ++ if deliverable net_err s w then [encode_message msg] else []).
Proof.
  intros Hp. unfold WorkerClient_Send, deliverable. rewrite M_bind_eq, (deref_eq _ _ _ Hp).
  destruct (wc_l w) as [c|]; [|do 2 eexists; split; [reflexivity|]; naive_solver].
  rewrite M_bind_eq. unfold conn_Write.
  destruct (net_err c (wr_writes (wire_of s c))) as [e|]; simpl;
    (do 2 eexists; split; [reflexivity|]); split_and!; try done.
  - intros c' Hc. rewrite wire_of_set, bool_decide_false; naive_solver.
  - intros c' [= <-]. by rewrite wire_of_set, bool_decide_true, app_nil_r.
  - intros c' Hc. rewrite wire_of_set, bool_decide_false; naive_solver.
  - intros c' [= <-]. by rewrite wire_of_set, bool_decide_true.
Qed.

Lemma Shutdown_spec p w s :
  p_heap s !! p = Some w →
  ∃ s', WorkerClient_Shutdown p s = (Returns None, s') ∧
    p_heap s' = <[p := mkClient Disconnected (wc_pid w) (wc_l w)]> (p_heap s) ∧
    p_conns s' = p_conns s ∧ p_net s' = p_net s ∧ p_amb s' = p_amb s ∧
    p_spawned s' = p_spawned s ++ (match wc_l w with Some _ => [p] | None => [] end).
Proof.
  intros Hp. unfold WorkerClient_Shutdown, set_status. rewrite M_bind_eq, M_bind_eq, (deref_eq _ _ _ Hp).
  unfold modify at 1. rewrite M_bind_eq. unfold deref. simpl. rewrite lookup_insert_eq. simpl.
  destruct (wc_l w); simpl; eexists; (split; [reflexivity|]); simpl; by rewrite ?app_nil_r.
Qed.

Lemma broadcast_one_spec p w msg s :
  p_heap s !! p = Some w →
  ∃ s', broadcast_one net_err line_len msg p s = (Returns tt, s') ∧ p_conns s' = p_conns s ∧
    p_heap s' = <[p := pinged net_err s w]> (p_heap s) ∧
    (∀ c, wc_l w ≠ Some c → wire_of s' c = wire_of s c) ∧
    (∀ c, wc_l w = Some c → wr_lines (wire_of s' c) =
       wr_lines (wire_of s c) ++ if delivered net_err s w then [encode_message msg] else []).
Proof.
  intros Hp. unfold broadcast_one, WorkerClient_State, pinged, delivered.
  rewrite M_bind_eq, M_bind_eq, (deref_eq _ _ _ Hp), M_ret_eq.
  case_bool_decide as Hd.
  { rewrite (bool_decide_false (wc_status w ≠ Disconnected)) by naive_solver.
    eexists. split; [reflexivity|]. rewrite insert_id by done. split_and!; try done.
    intros. simpl. by rewrite app_nil_r. }
  rewrite (bool_decide_true (wc_status w ≠ Disconnected)) by done. cbn [andb].
  rewrite M_bind_eq. unfold EventBus_Send. rewrite M_bind_eq.
  destruct (Send_spec p w msg s Hp) as (r & s1 & -> & Hr & H1 & C1 & S1 & W1 & L1).
  rewrite M_ret_eq. destruct (r.2) as [e|] eqn:Er.
  - assert (deliverable net_err s w = false) as Hdel.
    { destruct (deliverable net_err s w); [|done]. destruct Hr as [_ Hr]. by specialize (Hr eq_refl). }
    rewrite Hdel in *. rewrite M_bind_eq.
    destruct (Shutdown_spec p w s1) as (s2 & -> & H2 & C2 & N2 & _); [by rewrite H1|].
    eexists. split; [reflexivity|]. unfold wire_of in *. rewrite N2, H2, C2, H1. done.
  - assert (deliverable net_err s w = true) as Hdel by tauto.
    rewrite Hdel in *. eexists. split; [reflexivity|]. rewrite H1, insert_id by done. done.
Qed.

(** Pointers that are live and whose connections differ. *)
Definition targets_ok s (ps : list nat) : Prop :=
  NoDup ps ∧ (∀ p, p ∈ ps → is_Some (p_heap s !! p)) ∧
  (∀ p1 p2 w1 w2 c, p1 ∈ ps → p2 ∈ ps → p_heap s !! p1 = Some w1 → p_heap s !! p2 = Some w2 →
     wc_l w1 = Some c → wc_l w2 = Some c → p1 = p2).

Lemma pinged_conn s w : wc_l (pinged net_err s w) = wc_l w.
Proof. unfold pinged. by repeat case_match. Qed.

Lemma deliverable_frame s s' w :
  (∀ c, wc_l w = Some c → wire_of s' c = wire_of s c) →
  deliverable net_err s' w = deliverable net_err s w.
Proof. unfold deliverable. destruct (wc_l w); [|done]. intros Hc. by rewrite Hc. Qed.

Lemma broadcast_spec msg ps s :
  targets_ok s ps →
  ∃ s', for_each (broadcast_one net_err line_len msg) ps s = (Returns tt, s') ∧
    p_conns s' = p_conns s ∧
    (∀ p, p ∉ ps → p_heap s' !! p = p_heap s !! p) ∧
    (∀ p w, p ∈ ps → p_heap s !! p = Some w →
       p_heap s' !! p = Some (pinged net_err s w) ∧
       ∀ c, wc_l w = Some c → wr_lines (wire_of s' c) =
         wr_lines (wire_of s c) ++ if delivered net_err s w then [encode_message msg] else []) ∧
    (∀ c, (∀ p w, p ∈ ps → p_heap s !! p = Some w → wc_l w ≠ Some c) → wire_of s' c = wire_of s c).
Proof.
  revert s. induction ps as [|p ps IH]; intros s (Hnd & Hlive & Hdist).
  { eexists. split; [reflexivity|]. split_and!; try done. intros p w Hp. by apply not_elem_of_nil in Hp. }
  apply NoDup_cons in Hnd as [Hnin Hnd]. destruct (Hlive p) as [w Hw]; [set_solver|].
  cbn [for_each]. rewrite M_bind_eq.
  destruct (broadcast_one_spec p w msg s Hw) as (s1 & -> & C1 & H1 & W1 & L1).
  assert (∀ q, q ∈ ps → p_heap s1 !! q = p_heap s !! q) as Hsame.
  { intros q Hq. rewrite H1, lookup_insert_ne; [done|]. by intros ->. }
  assert (∀ q wq c, q ∈ ps → p_heap s !! q = Some wq → wc_l wq = Some c → wc_l w ≠ Some c) as Hother.
  { intros q wq c Hq Hwq Hc Hc'. apply Hnin.
    by rewrite (Hdist p q w wq c) by (set_solver || done). }
  destruct (IH s1) as (s2 & Hrun & C2 & O2 & P2 & N2).
  { split_and!; [done|..].
    - intros q Hq. rewrite Hsame by done. apply Hlive. set_solver.
    - intros q1 q2 w1 w2 c Hq1 Hq2. rewrite !Hsame by done. intros. apply (Hdist q1 q2 w1 w2 c); set_solver. }
  rewrite Hrun. exists s2. split; [done|]. rewrite C2, C1. split; [done|]. split_and!.
  - intros q Hq. rewrite O2, H1, lookup_insert_ne by set_solver. done.
  - intros q wq Hq Hwq. apply elem_of_cons in Hq as [->|Hq].
    + rewrite Hw in Hwq. injection Hwq as <-. rewrite O2, H1, lookup_insert_eq by done. split; [done|].
      intros c Hc. rewrite <- L1 by done. f_equal. apply N2.
      intros q wq Hq. rewrite Hsame by done. intros Hwq Hc'. by apply (Hother q wq c).
    + assert (∀ c, wc_l wq = Some c → wire_of s1 c = wire_of s c) as Hfr.
      { intros c Hc. apply W1. by apply (Hother q wq c). }
      destruct (P2 q wq Hq) as [HP HL]; [by rewrite Hsame|]. unfold pinged, delivered in *.
      rewrite (deliverable_frame s) in HP, HL by done. split; [done|].
      intros c Hc. by rewrite HL, Hfr.
  - intros c Hc. rewrite N2.
    + apply W1. apply (Hc p w); [set_solver|done].
    + intros q wq Hq. rewrite Hsame by done. apply Hc. set_solver.
Qed.

Lemma now_milli_eq s :
  ∃ ts a, now_milli s = (Returns ts, set_amb a s).
Proof. unfold now_milli. rewrite M_bind_eq, on_amb_eq. simpl. eauto. Qed.

Lemma GetAll_targets ks s :
  pool_ok s → range_order (p_conns s) ks →
  targets_ok s (omap (λ k, p_conns s !! k) ks) ∧
  ∀ p, p ∈ omap (λ k, p_conns s !! k) ks ↔ registered s p.
Proof using Type.
  clear net_err line_len. intros [Hlive Hdist] Hks.
  assert (∀ p, p ∈ omap (λ k, p_conns s !! k) ks ↔ registered s p) as Hel.
  { intros p. rewrite list_elem_of_omap. unfold registered. split; [naive_solver|].
    intros [pid Hp]. exists pid. split; [|done]. eapply range_order_elem; eauto. }
  split; [|done]. split_and!.
  - pose proof (range_order_NoDup _ _ Hks) as Hnd.
    assert (∀ k1 k2 p, p_conns s !! k1 = Some p → p_conns s !! k2 = Some p → k1 = k2) as Hinj.
    { intros k1 k2 p H1 H2. apply Hlive in H1 as (w1 & E1 & <-). apply Hlive in H2 as (w2 & E2 & <-).
      congruence. }
    clear Hks Hel. induction Hnd as [|k ks Hk Hnd IH]; simpl; [constructor|].
    destruct (p_conns s !! k) as [p|] eqn:Ek; [|done]. constructor; [|done].
    rewrite list_elem_of_omap. intros (k' & Hk' & Ek'). by rewrite (Hinj k k' p) in Hk.
  - intros p [pid Hp]%Hel. destruct (Hlive _ _ Hp) as (w & Hw & _). eauto.
  - intros p1 p2 w1 w2 c H1%Hel H2%Hel. by apply Hdist.
Qed.

Lemma pinged_status s w :
  (wc_status (pinged net_err s w) = Disconnected ↔ delivered net_err s w = false) ∧
  wc_pid (pinged net_err s w) = wc_pid w.
Proof.
  unfold pinged, delivered. case_bool_decide as Hd.
  - rewrite bool_decide_false by naive_solver. done.
  - rewrite bool_decide_true by done. destruct (deliverable net_err s w); done.
Qed.

Lemma eliminate_one_spec k s :
  (∀ pid p, p_conns s !! pid = Some p → is_Some (p_heap s !! p)) →
  ∃ s1, eliminate_one k s = (Returns tt, s1) ∧ p_heap s1 = p_heap s ∧ p_net s1 = p_net s ∧
     p_conns s1 = if bool_decide (p_conns s !! k ≫= (λ p, wc_status <$> p_heap s !! p) = Some Disconnected)
                  then delete k (p_conns s) else p_conns s.
Proof using Type.
  clear net_err line_len. intros Hlive. unfold eliminate_one. rewrite M_bind_eq. unfold Registry_Get, gets.
  destruct (p_conns s !! k) as [p|] eqn:Ek.
  2: { eexists. split; [reflexivity|]. by rewrite bool_decide_false. }
  destruct (Hlive _ _ Ek) as [w Hw]. cbn [mbind option_bind]. rewrite Hw. cbn [fmap option_fmap option_map].
  rewrite M_bind_eq. unfold WorkerClient_State. rewrite M_bind_eq, (deref_eq _ _ _ Hw), M_ret_eq.
  destruct (decide (wc_status w = Disconnected)) as [Hd|Hd].
  - rewrite !bool_decide_true by congruence. eexists. split; [reflexivity|]. done.
  - rewrite !bool_decide_false by congruence. eexists. split; [reflexivity|]. done.
Qed.

(** The elimination loop: it removes exactly the visited disconnected clients. *)
Lemma eliminate_spec ks s :
  (∀ pid p, p_conns s !! pid = Some p → is_Some (p_heap s !! p)) →
  ∃ s', eliminateWorkers ks s = (Returns tt, s') ∧ p_heap s' = p_heap s ∧ p_net s' = p_net s ∧
    ∀ pid, p_conns s' !! pid =
      match p_conns s !! pid with
      | None => None
      | Some p => if bool_decide (pid ∈ ks ∧ wc_status <$> p_heap s !! p = Some Disconnected)
                  then None else Some p
      end.
Proof using Type.
  clear net_err line_len. revert s. induction ks as [|k ks IH]; intros s Hlive.
  { eexists. split; [reflexivity|]. split_and!; try done. intros pid.
    destruct (p_conns s !! pid); [|done].
    rewrite bool_decide_false; [done|]. intros [Hn _]. by apply not_elem_of_nil in Hn. }
  unfold eliminateWorkers. cbn [for_each]. rewrite M_bind_eq.
  destruct (eliminate_one_spec k s Hlive) as (s1 & -> & H1 & N1 & C1).
  destruct (IH s1) as (s2 & Hrun & H2 & N2 & C2).
  { intros pid p. rewrite H1, C1. case_bool_decide; [|apply Hlive].
    rewrite lookup_delete_Some. intros [_ ?]. eauto. }
  unfold eliminateWorkers in Hrun. rewrite Hrun. exists s2. split; [done|].
  rewrite H2, N2, H1, N1. split_and!; try done. intros pid. rewrite C2, H1, C1.
  destruct (decide (pid = k)) as [->|Hne].
  - destruct (p_conns s !! k) as [p|] eqn:Ek; cbn [mbind option_bind].
    + destruct (decide (wc_status <$> p_heap s !! p = Some Disconnected)) as [Hd|Hd].
      * rewrite bool_decide_true, lookup_delete_eq by done. rewrite bool_decide_true; set_solver.
      * rewrite bool_decide_false, Ek by done. rewrite !bool_decide_false; naive_solver.
    + rewrite bool_decide_false by done. by rewrite Ek.
  - assert ((if bool_decide (p_conns s !! k ≫= (λ p, wc_status <$> p_heap s !! p) = Some Disconnected)
       then delete k (p_conns s) else p_conns s) !! pid = p_conns s !! pid) as ->.
    { case_bool_decide; [|done]. by rewrite lookup_delete_ne. }
    destruct (p_conns s !! pid) as [p|]; [|done].
    destruct (decide (pid ∈ ks ∧ wc_status <$> p_heap s !! p = Some Disconnected));
      [rewrite !bool_decide_true; set_solver|rewrite !bool_decide_false; set_solver].
Qed.

(** pingWorkers on a well-formed registry. *)
Lemma pingWorkers_spec ks s :
  pool_ok s → range_order (p_conns s) ks →
  ∃ ts s', pingWorkers net_err line_len ks s = (Returns tt, s') ∧ p_conns s' = p_conns s ∧
    (∀ p, ¬ registered s p → p_heap s' !! p = p_heap s !! p) ∧
    ∀ pid p w, p_conns s !! pid = Some p → p_heap s !! p = Some w →
      p_heap s' !! p = Some (pinged net_err s w) ∧
      ∀ c, wc_l w = Some c → wr_lines (wire_of s' c) = wr_lines (wire_of s c) ++
        if delivered net_err s w then [encode_message (ping_message ts)] else [].
Proof.
  intros Hok Hks. unfold pingWorkers. rewrite M_bind_eq.
  destruct (now_milli_eq s) as (ts & a & ->). rewrite M_bind_eq. unfold Registry_GetAll, gets.
  destruct (GetAll_targets ks s Hok Hks) as [Ht Hel].
  change (p_conns (set_amb a s)) with (p_conns s). unfold EventBus_Broadcast. rewrite M_bind_eq, M_bind_eq.
  destruct (broadcast_spec (ping_message ts) (omap (λ k, p_conns s !! k) ks) (set_amb a s))
    as (s' & -> & C & O & P & _); [unfold targets_ok in *; exact Ht|].
  exists ts, s'. split; [reflexivity|]. split; [done|]. split.
  { intros p Hp. apply O. by rewrite Hel. }
  intros pid p w Hp Hw.
  apply (P p w); [apply Hel; by exists pid|done].
Qed.

(** What is left of a well-formed state is well formed. *)
Lemma pool_ok_sub s s' :
  pool_ok s →
  (∀ pid p, p_conns s' !! pid = Some p → p_conns s !! pid = Some p) →
  (∀ pid p w, p_conns s' !! pid = Some p → p_heap s !! p = Some w →
     ∃ w', p_heap s' !! p = Some w' ∧ wc_pid w' = wc_pid w ∧ wc_l w' = wc_l w) →
  pool_ok s'.
Proof using Type.
  clear net_err line_len. intros [Hlive Hdist] Hsub Hkeep. split.
  - intros pid p Hp. destruct (Hlive _ _ (Hsub _ _ Hp)) as (w & Hw & <-).
    destruct (Hkeep _ _ _ Hp Hw) as (w' & ? & ? & _). eauto.
  - intros p1 p2 w1 w2 c [i1 R1] [i2 R2] E1 E2 L1 L2.
    destruct (Hlive _ _ (Hsub _ _ R1)) as (v1 & V1 & _). destruct (Hlive _ _ (Hsub _ _ R2)) as (v2 & V2 & _).
    destruct (Hkeep _ _ _ R1 V1) as (? & ? & _ & ?). destruct (Hkeep _ _ _ R2 V2) as (? & ? & _ & ?).
    simplify_eq. apply (Hdist p1 p2 v1 v2 c); try done; [by exists i1; auto|by exists i2; auto|congruence..].
Qed.

(** CloseAllConnections visits every entry once. *)
Definition closed w : WorkerClient := mkClient Disconnected (wc_pid w) (wc_l w).

Definition spawns s (k : Z) : list nat :=
  match p_conns s !! k with
  | Some p => match p_heap s !! p ≫= wc_l with Some _ => [p] | None => [] end
  | None => []
  end.

Lemma close_all_loop ks s :
  NoDup ks → (∀ pid p, p_conns s !! pid = Some p → ∃ w, p_heap s !! p = Some w ∧ wc_pid w = pid) →
  ∃ s', CloseAllConnections ks s = (Returns tt, s') ∧ p_conns s' = p_conns s ∧ p_net s' = p_net s ∧
    p_spawned s' = p_spawned s ++ (ks ≫= spawns s) ∧
    ∀ pid p w, p_conns s !! pid = Some p → p_heap s !! p = Some w →
      p_heap s' !! p = Some (if bool_decide (pid ∈ ks) then closed w else w).
Proof using Type.
  clear net_err line_len. intros Hnd. revert s. induction Hnd as [|k ks Hk Hnd IH]; intros s Hlive.
  { eexists. split; [reflexivity|]. rewrite app_nil_r. split_and!; try done. }
  unfold CloseAllConnections. cbn [for_each]. rewrite M_bind_eq. unfold close_one at 1.
  rewrite M_bind_eq. unfold Registry_Get, gets.
  destruct (p_conns s !! k) as [p|] eqn:Ek.
  2: { destruct (IH s Hlive) as (s' & Hrun & C & N & S & P). rewrite M_ret_eq.
       unfold CloseAllConnections in Hrun. rewrite Hrun. exists s'. split; [done|].
       cbn [mbind list_bind]. unfold spawns at 1. rewrite Ek. split_and!; try done.
       intros pid p w Hp Hw. rewrite (P _ _ _ Hp Hw).
       rewrite (bool_decide_ext (pid ∈ k :: ks) (pid ∈ ks)); [done|].
       assert (pid ≠ k) by congruence. set_solver. }
  destruct (Hlive _ _ Ek) as (w & Hw & Hpid). rewrite M_bind_eq.
  destruct (Shutdown_spec p w s Hw) as (s1 & -> & H1 & C1 & N1 & _ & S1). rewrite M_ret_eq.
  assert (∀ pid q, p_conns s !! pid = Some q → pid ≠ k → q ≠ p) as Hinj.
  { intros pid q Hq Hne ->. apply Hne. destruct (Hlive _ _ Hq) as (w' & Hw' & <-). congruence. }
  destruct (IH s1) as (s2 & Hrun & C2 & N2 & S2 & P2).
  { intros pid q. rewrite C1, H1. intros Hq. destruct (decide (q = p)) as [->|Hne].
    - rewrite lookup_insert_eq. eexists. split; [done|]. simpl. destruct (Hlive _ _ Hq) as (? & ? & ?). congruence.
    - rewrite lookup_insert_ne by done. by apply Hlive. }
  unfold CloseAllConnections in Hrun. rewrite Hrun. exists s2. split; [done|].
  rewrite C2, C1, N2, N1. split; [done|]. split; [done|]. split.
  - rewrite S2, S1, <- app_assoc. f_equal. cbn [mbind list_bind]. unfold spawns at 2. rewrite Ek, Hw.
    cbn [mbind option_bind]. f_equal.
    clear -Hk C1 H1 Ek Hinj. induction ks as [|k' ks IH]; [done|]. cbn [mbind list_bind].
    f_equal; [|apply IH; set_solver]. unfold spawns. rewrite C1, H1.
    destruct (p_conns s !! k') as [q|] eqn:Eq; [|done].
    rewrite lookup_insert_ne; [done|]. intros <-. apply (Hinj k' p Eq); set_solver.
  - intros pid q wq Hq Hwq. destruct (decide (pid = k)) as [->|Hne].
    + rewrite Ek in Hq. injection Hq as <-. rewrite Hw in Hwq. injection Hwq as <-.
      rewrite (P2 k p (closed w)); [|by rewrite C1|by rewrite H1, lookup_insert_eq].
      rewrite (bool_decide_false (k ∈ ks)), bool_decide_true by set_solver. done.
    + rewrite (P2 pid q wq); [|by rewrite C1|rewrite H1, lookup_insert_ne; [done|]].
      * rewrite (bool_decide_ext (pid ∈ k :: ks) (pid ∈ ks)); [done|]. set_solver.
      * intros <-. by apply (Hinj pid p Hq).
Qed.

End lemmas.

(** ** Witness data: three workers, the second unreachable, the third already
    disconnected *)

Definition flaky_net (c n : nat) : goerror :=
  if bool_decide (c = 2) then Some (Foreign "net" "write: broken pipe") else None.

Definition three_workers : pool :=
  mkPool (mkAmbient 0 0)
    (list_to_map [(10, mkClient Connected 101 (Some 1)); (11, mkClient Connected 102 (Some 2));
                  (12, mkClient Disconnected 103 (Some 3))])
    (list_to_map [(101%Z, 10); (102%Z, 11); (103%Z, 12)]) ∅ [].

Lemma three_workers_ok : pool_ok three_workers.
Proof.
  assert (∀ pid p, p_conns three_workers !! pid = Some p →
            (pid, p) ∈ [(101%Z, 10); (102%Z, 11); (103%Z, 12)]) as Hc.
  { intros pid p Hp. by apply elem_of_list_to_map_2 in Hp. }
  split.
  - intros pid p Hp%Hc. set_unfold in Hp. destruct_or! Hp; simplify_eq; eexists; split; reflexivity.
  - intros p1 p2 w1 w2 c [i1 R1%Hc] [i2 R2%Hc] E1 E2. set_unfold in R1. set_unfold in R2.
    destruct_or! R1; destruct_or! R2; simplify_eq; try done; vm_compute in E1, E2; naive_solver.
Qed.

(** ** Properties *)

Lemma health_tick_run `{Ambient} net_err line_len ks1 ks2 s :
  pool_ok s → range_order (p_conns s) ks1 → range_order (p_conns s) ks2 →
  ∃ ts s', health_tick net_err line_len ks1 ks2 s = (Returns tt, s') ∧ pool_ok s' ∧
    (∀ pid, p_conns s !! pid = None → p_conns s' !! pid = None) ∧
    (∀ p, ¬ registered s p → p_heap s' !! p = p_heap s !! p) ∧
    ∀ pid p w, p_conns s !! pid = Some p → p_heap s !! p = Some w →
      p_conns s' !! pid = (if delivered net_err s w then Some p else None) ∧
      p_heap s' !! p = Some (pinged net_err s w) ∧
      ∀ c, wc_l w = Some c → wr_lines (wire_of s' c) = wr_lines (wire_of s c) ++
        if delivered net_err s w then [encode_message (ping_message ts)] else [].
Proof.
  intros Hok Hks1 Hks2. unfold health_tick. rewrite M_bind_eq.
  destruct (pingWorkers_spec net_err line_len ks1 s Hok Hks1) as (ts & s1 & -> & C1 & O1 & P1).
  destruct Hok as [Hlive Hdist].
  destruct (eliminate_spec ks2 s1) as (s2 & -> & H2 & N2 & C2).
  { intros pid p. rewrite C1. intros Hp. destruct (Hlive _ _ Hp) as (w & Hw & _).
    destruct (P1 _ _ _ Hp Hw) as [-> _]. done. }
  assert (∀ pid p w, p_conns s !! pid = Some p → p_heap s !! p = Some w →
    p_conns s2 !! pid = if delivered net_err s w then Some p else None) as Hcon.
  { intros pid p w Hp Hw. rewrite C2, C1, Hp. destruct (P1 _ _ _ Hp Hw) as [-> _].
    destruct (pinged_status net_err s w) as [Hst _].
    assert (pid ∈ ks2) as Hin by (eapply range_order_elem; eauto). simpl.
    destruct (delivered net_err s w).
    - rewrite bool_decide_false; [done|]. intros [_ [= Hx]]. by apply Hst in Hx.
    - rewrite bool_decide_true; [done|]. split; [done|]. f_equal. by apply Hst. }
  exists ts, s2. split; [done|]. split.
  { apply (pool_ok_sub s); [done|..].
    - intros pid p. rewrite C2, C1. destruct (p_conns s !! pid); [|done]. by case_bool_decide.
    - intros pid p w Hp Hw. rewrite C2, C1 in Hp. destruct (p_conns s !! pid) as [q|] eqn:Eq; [|done].
      assert (q = p) as -> by (by case_bool_decide; simplify_eq).
      rewrite H2. destruct (P1 _ _ _ Eq Hw) as [-> _]. eexists. split; [reflexivity|].
      split; [apply pinged_status|apply pinged_conn]. }
  split.
  { intros pid Hp. by rewrite C2, C1, Hp. }
  split.
  { intros p Hp. rewrite H2. by apply O1. }
  intros pid p w Hp Hw. split; [by apply Hcon|]. rewrite H2. unfold wire_of. rewrite N2.
  by apply (P1 pid).
Qed.

(** C3: one tick of the health check, for every order in which the
    registry map is ranged over and every behaviour of the network, returns and
    leaves registered exactly the clients that were not disconnected and whose
    ping could be written; exactly those have one ping line more on their
    connection, the others are disconnected; nothing new is registered, and the
    registry stays well formed. *)
Theorem health_tick_spec `{Ambient} net_err line_len ks1 ks2 s :
  pool_ok s → range_order (p_conns s) ks1 → range_order (p_conns s) ks2 →
  ∃ ts s', health_tick net_err line_len ks1 ks2 s = (Returns tt, s') ∧ pool_ok s' ∧
    (∀ pid, p_conns s !! pid = None → p_conns s' !! pid = None) ∧
    ∀ pid p w, p_conns s !! pid = Some p → p_heap s !! p = Some w →
      p_conns s' !! pid = (if delivered net_err s w then Some p else None) ∧
      p_heap s' !! p = Some (pinged net_err s w) ∧
      ∀ c, wc_l w = Some c → wr_lines (wire_of s' c) = wr_lines (wire_of s c) ++
        if delivered net_err s w then [encode_message (ping_message ts)] else [].
Proof.
  intros Hok Hks1 Hks2. destruct (health_tick_run net_err line_len ks1 ks2 s Hok Hks1 Hks2)
    as (ts & s' & Hrun & Hok' & Hn & _ & Hall). by exists ts, s'.
Qed.

Lemma health_tick_spec_witness :
  ∃ ts s', health_tick flaky_net (λ _, 1%Z) [103%Z; 101%Z; 102%Z] [102%Z; 103%Z; 101%Z] three_workers =
      (Returns tt, s') ∧ p_conns s' !! 101%Z = Some 10 ∧ p_conns s' !! 102%Z = None ∧
    p_conns s' !! 103%Z = None ∧ wr_lines (wire_of s' 1) = [encode_message (ping_message ts)].
Proof.
  destruct (health_tick_spec flaky_net (λ _, 1%Z) [103%Z; 101%Z; 102%Z] [102%Z; 103%Z; 101%Z] three_workers
              three_workers_ok ltac:(decide_by_eval) ltac:(decide_by_eval)) as (ts & s' & Hrun & _ & _ & Hall).
  exists ts, s'. split; [exact Hrun|].
  destruct (Hall 101%Z 10 (mkClient Connected 101 (Some 1)) eq_refl eq_refl) as (H1 & _ & L1).
  destruct (Hall 102%Z 11 (mkClient Connected 102 (Some 2)) eq_refl eq_refl) as (H2 & _).
  destruct (Hall 103%Z 12 (mkClient Disconnected 103 (Some 3)) eq_refl eq_refl) as (H3 & _).
  split; [exact H1|]. split; [exact H2|]. split; [exact H3|]. exact (L1 1 eq_refl).
Defined.

Lemma tick_of_disconnected `{Ambient} net_err line_len ks1 ks2 s :
  pool_ok s → range_order (p_conns s) ks1 → range_order (p_conns s) ks2 →
  (∀ pid p, p_conns s !! pid = Some p → wc_status <$> p_heap s !! p = Some Disconnected) →
  ∃ s', health_tick net_err line_len ks1 ks2 s = (Returns tt, s') ∧ p_conns s' = ∅.
Proof.
  intros Hok Hks1 Hks2 Hd. unfold health_tick. rewrite M_bind_eq.
  destruct (pingWorkers_spec net_err line_len ks1 s Hok Hks1) as (ts & s1 & -> & C1 & _ & P1).
  assert (∀ pid p, p_conns s !! pid = Some p → wc_status <$> p_heap s1 !! p = Some Disconnected) as Hd1.
  { intros pid p Hp. destruct (proj1 Hok _ _ Hp) as (w & Hw & _).
    destruct (P1 _ _ _ Hp Hw) as [-> _]. specialize (Hd _ _ Hp). rewrite Hw in Hd. injection Hd as Hd.
    simpl. unfold pinged. by rewrite bool_decide_true, Hd. }
  destruct (eliminate_spec ks2 s1) as (s2 & -> & _ & _ & C2).
  { intros pid p. rewrite C1. intros Hp. specialize (Hd1 _ _ Hp). by destruct (p_heap s1 !! p). }
  exists s2. split; [done|]. apply map_eq. intros pid. rewrite C2, C1, lookup_empty.
  destruct (p_conns s !! pid) as [p|] eqn:Hp; [|done].
  rewrite bool_decide_true; [done|]. split; [eapply range_order_elem; eauto|by apply (Hd1 pid)].
Qed.

(** The shutdown message carries the time at which the goroutine runs. *)
Lemma shutdown_goroutine_at `{Ambient} net_err line_len p w c s :
  p_heap s !! p = Some w → wc_l w = Some c → net_err c (wr_writes (wire_of s c)) = None →
  let ts := (time_at (amb_tick (p_amb s)) / 1000000)%Z in
  ∃ sg, shutdown_goroutine net_err line_len p s = (Returns tt, sg) ∧
    wr_lines (wire_of sg c) = wr_lines (wire_of s c) ++ [encode_message (mkMsg "123" (-1) (op_of_type Shutdown_t) ts)].
Proof.
  intros Hp Hc Hnet ts. unfold shutdown_goroutine. rewrite M_bind_eq.
  assert (∃ a, now_milli s = (Returns ts, set_amb a s)) as [a ->].
  { unfold now_milli. rewrite M_bind_eq, on_amb_eq. simpl. eauto. }
  rewrite M_bind_eq.
  destruct (Send_spec net_err line_len p w (mkMsg "123" (-1) (op_of_type Shutdown_t) ts) (set_amb a s))
    as (r & s' & -> & _ & _ & _ & _ & _ & L); [exact Hp|].
  exists s'. split; [reflexivity|]. rewrite (L c Hc). unfold deliverable. rewrite Hc.
  rewrite bool_decide_true by done. done.
Qed.

Lemma shutdown_goroutine_spec `{Ambient} net_err line_len p w c s ls :
  p_heap s !! p = Some w → wc_l w = Some c → net_err c (wr_writes (wire_of s c)) = None →
  ls = wr_lines (wire_of s c) →
  ∃ ts sg, shutdown_goroutine net_err line_len p s = (Returns tt, sg) ∧
    wr_lines (wire_of sg c) = ls ++ [encode_message (mkMsg "123" (-1) (op_of_type Shutdown_t) ts)].
Proof.
  intros Hp Hc Hnet ->. eexists. by eapply shutdown_goroutine_at.
Qed.

(** C21: CloseAllConnections, in every range order, disconnects every
    registered client and starts exactly one shutdown goroutine for each that has
    a connection; the goroutine of a client whose write succeeds puts one SHUTDOWN
    message on its wire; and the next health tick, in any order, empties the
    registry. *)
Theorem close_all_empties_registry `{Ambient} net_err line_len ks ks1 ks2 s :
  pool_ok s → range_order (p_conns s) ks → range_order (p_conns s) ks1 → range_order (p_conns s) ks2 →
  ∃ s' s'', CloseAllConnections ks s = (Returns tt, s') ∧
    p_spawned s' = p_spawned s ++ (ks ≫= spawns s) ∧
    (∀ pid p w, p_conns s !! pid = Some p → p_heap s !! p = Some w →
       p_heap s' !! p = Some (closed w) ∧
       ∀ c, wc_l w = Some c → net_err c (wr_writes (wire_of s c)) = None →
         ∃ ts sg, shutdown_goroutine net_err line_len p s' = (Returns tt, sg) ∧
           wr_lines (wire_of sg c) = wr_lines (wire_of s c) ++
             [encode_message (mkMsg "123" (-1) (op_of_type Shutdown_t) ts)]) ∧
    health_tick net_err line_len ks1 ks2 s' = (Returns tt, s'') ∧ p_conns s'' = ∅.
Proof.
  intros Hok Hks Hks1 Hks2.
  destruct (close_all_loop ks s (range_order_NoDup _ _ Hks) (proj1 Hok)) as (s' & -> & C & N & S & P).
  assert (∀ pid p w, p_conns s !! pid = Some p → p_heap s !! p = Some w → p_heap s' !! p = Some (closed w)) as Hcl.
  { intros pid p w Hp Hw. rewrite (P _ _ _ Hp Hw), bool_decide_true; [done|].
    eapply range_order_elem; eauto. }
  destruct (tick_of_disconnected net_err line_len ks1 ks2 s') as (s'' & Htick & Hempty).
  { eapply pool_ok_sub; [done|by rewrite C|]. intros pid p w. rewrite C. intros Hp Hw. eauto. }
  { by rewrite C. }
  { by rewrite C. }
  { intros pid p. rewrite C. intros Hp. destruct (proj1 Hok _ _ Hp) as (w & Hw & _).
    by rewrite (Hcl _ _ _ Hp Hw). }
  exists s', s''. split_and!; try done. intros pid p w Hp Hw. split; [by apply (Hcl pid)|].
  intros c Hc Hnet. eapply shutdown_goroutine_spec; [by apply (Hcl pid)|done|..];
    unfold wire_of in *; by rewrite N.
Qed.

Lemma close_all_empties_registry_witness :
  ∃ s' s'', CloseAllConnections [102%Z; 101%Z; 103%Z] three_workers = (Returns tt, s') ∧
    p_spawned s' = [11; 10; 12] ∧
    health_tick flaky_net (λ _, 1%Z) [103%Z; 101%Z; 102%Z] [102%Z; 103%Z; 101%Z] s' = (Returns tt, s'') ∧
    p_conns s'' = ∅.
Proof.
  destruct (close_all_empties_registry flaky_net (λ _, 1%Z) [102%Z; 101%Z; 103%Z] [103%Z; 101%Z; 102%Z]
              [102%Z; 103%Z; 101%Z] three_workers three_workers_ok
              ltac:(decide_by_eval) ltac:(decide_by_eval) ltac:(decide_by_eval))
    as (s' & s'' & Hrun & Hsp & _ & Ht & He).
  exists s', s''. split; [exact Hrun|]. split; [exact Hsp|]. split; [exact Ht|exact He].
Defined.
