(* ===== verification/WorkerCore.v ===== *)
(** * use_cases/workercore and the handshake

    The worker process: its builder, the receipt of the listener's file
    descriptor, the report of its pid, the loop that obeys the master's
    messages, its shutdown; and the master's half of the handshake
    (use_cases/bus/ipc_server.go, and the older one of mastercore/master.go).

    The operating system is a parameter: what a receive returns, and the errors
    of write and close calls. *)

From S2P Require Import Prelude GoStr GoJson Operation.

(** ** worker_state.go, worker.go, builder.go *)

Inductive WorkerState : Type :=
| WDisconnected | WConnected | WConnecting | WStarting | WError | WRetrying | WIdle.

#[global] Instance WorkerState_eq_dec : EqDecision WorkerState.
Proof. solve_decision. Defined.

(** [w_ExtraFile] is the wrapped descriptor, [w_l] the connection to the master. *)
Record Worker : Type := mkWorker {
  w_status : WorkerState;
  w_pid : Z;
  w_ExtraFile : option Z;
  w_fd : Z;
  w_l : option nat;
}.

Definition NewWorker : Worker := mkWorker WDisconnected 0 None 0 None.

(** [&Worker{}]: the zero status is Disconnected. *)
Definition NewWorkerBuilder : Worker := mkWorker WDisconnected 0 None 0 None.

Definition SetPID (pid : Z) (w : Worker) : Worker :=
  mkWorker (w_status w) pid (w_ExtraFile w) (w_fd w) (w_l w).

Definition SetStatus (status : WorkerState) (w : Worker) : Worker :=
  mkWorker status (w_pid w) (w_ExtraFile w) (w_fd w) (w_l w).

Definition SetListener (l : option nat) (w : Worker) : Worker :=
  mkWorker (w_status w) (w_pid w) (w_ExtraFile w) (w_fd w) l.

Definition Build (w : Worker) : Worker := w.

(** What the worker does to the outside world. *)
Inductive io : Type :=
| IoWrite (data : string)
| IoCloseFile (fd : Z)
| IoCloseConn.

Record wstate : Type := mkWstate { ws_worker : Worker; ws_io : list io }.

Definition set_worker (w : Worker) (s : wstate) : wstate := mkWstate w (ws_io s).
Definition do_io (x : io) (s : wstate) : wstate := mkWstate (ws_worker s) (ws_io s ++ [x]).

(** Control data received with a message: none, unparsable, or a list of control
    messages, each carrying descriptors or not of the rights type. *)
Inductive cmsg : Type := CRights (fds : list Z) | CBad (e : error).

Inductive oob_data : Type :=
| OobEmpty
| OobBad (e : error)
| OobMsgs (msgs : list cmsg).

(** The result of [ReadMsgUnix]: a failure, or the bytes read (at most 128) with
    the control data. *)
Inductive recv : Type := RecvErr (e : error) | Recv (data : string) (oob : oob_data).

Section worker.
Context (write_err close_err fclose_err : goerror).

(** A write on the connection; on a nil connection [net.UnixConn] returns EINVAL. *)
Definition w_Write (data : string) : M wstate goerror := λ s,
  match w_l (ws_worker s) with
  | None => (Returns (Some (Foreign "syscall.EINVAL" "invalid argument")), s)
  | Some _ => match write_err with
              | Some e => (Returns (Some e), s)
              | None => (Returns None, do_io (IoWrite data) s)
              end
  end.

Definition receiveFD (r : recv) : Z * string * goerror :=
  match r with
  | RecvErr e => (0%Z, "", Some e)
  | Recv data OobEmpty => (0%Z, data, Some (Fmt "master kirim pesan '%s' tapi OOB DATA KOSONG" [data]))
  | Recv data (OobBad e) => (0%Z, "", Some (Fmt "parse control msg error: %v" [Error e]))
  | Recv data (OobMsgs []) => (0%Z, "", Some (Fmt "control message kosong" []))
  | Recv data (OobMsgs (CBad e :: _)) => (0%Z, "", Some (Fmt "parse unix rights error: %v" [Error e]))
  | Recv data (OobMsgs (CRights [] :: _)) =>
      (0%Z, "", Some (Fmt "paket OOB diterima tapi ARRAY FD KOSONG" []))
  | Recv data (OobMsgs (CRights (fd :: _) :: _)) => (fd, data, None)
  end.

(** [fmt.Sprintf("%d\n", pid)] *)
Definition pid_report (pid : Z) : string := Itoa pid +:+ String newline "".

Definition AcceptHandshake (r : recv) : M wstate goerror :=
  let '(fd, msgPayload, err) := receiveFD r in
  match (err : goerror) with
  | Some e => mret (Some (Wrap "gagal menerima FD: %w" [] e))
  | None =>
      modify (λ s, let w := ws_worker s in
                   set_worker (mkWorker (w_status w) (w_pid w) (Some fd) fd (w_l w)) s) ≫= λ _,
      w ← gets ws_worker;
      err ← w_Write (pid_report (w_pid w));
      match err with
      | Some e => mret (Some (Wrap "gagal kirim ack ke master: %w" [] e))
      | None => mret None
      end
  end.

Definition Worker_Send (payload : string) : M wstate goerror := w_Write payload.

Definition SendPing : M wstate goerror := Worker_Send ("PING" +:+ String newline "").

(** The deferred function runs on every return. *)
Definition Worker_Shutdown : M wstate goerror :=
  w ← gets ws_worker;
  err ← (match w_l w with
         | None => mret None
         | Some _ =>
             if bool_decide (w_status w = WDisconnected)
             then mret (Some (Fmt "connection already closed" []))
             else
               err ← w_Write "DIE";
               match err with
               | Some e => mret (Some e)
               | None =>
                   err ← (match w_ExtraFile w with
                          | None => mret (Some (Sentinel "os.ErrInvalid" "invalid argument"))
                          | Some fd => match fclose_err with
                                       | Some e => mret (Some e)
                                       | None => modify (do_io (IoCloseFile fd)) ≫= λ _, mret None
                                       end
                          end);
                   match (err : goerror) with
                   | Some e => mret (Some e)
                   | None => match close_err with
                             | Some e => mret (Some e)
                             | None => modify (do_io IoCloseConn) ≫= λ _, mret None
                             end
                   end
               end
         end);
  modify (λ s, set_worker (SetStatus WDisconnected (ws_worker s)) s) ≫= λ _,
  mret (err : goerror).

Definition Worker_Start : M wstate goerror :=
  modify (λ s, set_worker (SetStatus WStarting (ws_worker s)) s) ≫= λ _, mret None.

End worker.

Definition Worker_Status (w : Worker) : WorkerState := w_status w.
Definition Worker_PID (w : Worker) : Z := w_pid w.
Definition Worker_FD (w : Worker) : Z := w_fd w.

(** *** ReceiveMessage

    One element per round of the loop: the context is done, or the scanner
    delivers a line (its JSON value, [None] when the line is not JSON).  The end
    of the list is the scanner's end, by EOF or by an error.  The result tells
    whether the worker stopped by calling [cancelFunc], and after how many
    lines. *)
Inductive round : Type := CtxDone | Line (j : option json).

Definition unmarshal_line (j : option json) : MessagePayload * goerror :=
  match j with
  | None => (msg_zero, Some (Foreign "json.SyntaxError" "invalid character"))
  | Some v => decode_message v
  end.

Fixpoint ReceiveMessage (rounds : list round) (n : nat) : bool * nat :=
  match rounds with
  | [] => (true, n)
  | CtxDone :: _ => (false, n)
  | Line j :: rounds' =>
      let '(body, err) := unmarshal_line j in
      match err with
      | Some _ => (true, S n)
      | None =>
          if bool_decide (op_Type (mp_Payload body) = Shutdown_t) then (true, S n)
          else ReceiveMessage rounds' (S n)
      end
  end.

(** ** The master's half: reading the pid

    bus/ipc_server.go, handleHandshake, up to the registration. *)

Inductive handshake : Type :=
| HsReadError
| HsInvalidPID (text : string)
| HsPID (pid : Z).

Definition handshake_pid (stream : list Ascii.ascii) : handshake :=
  match read_line stream with
  | None => HsReadError
  | Some (payload, _) =>
      let payload := TrimSpace (str payload) in
      match Atoi payload with
      | (_, Some _) => HsInvalidPID payload
      | (pid, None) => HsPID pid
      end
  end.

(** mastercore/master.go, handleHandshake: the worker handed to spawnNewWorker,
    which starts it. *)
Definition Master_handleHandshake (stream : list Ascii.ascii) (conn : nat) : option Worker :=
  match handshake_pid stream with
  | HsPID pid => Some (Build (SetPID pid (SetListener (Some conn) NewWorkerBuilder)))
  | _ => None
  end.

(** ** bus/command.go and bus/network.go *)

Definition bus_commandNames : gmap Z string :=
  list_to_map [(0%Z, "DIE"); (1%Z, "DRAIN"); (2%Z, "PING"); (3%Z, "PONG")].

Definition BusCommand_String (c : Z) : string :=
  match bus_commandNames !! c with Some s => s | None => "DIE" end.

Definition networks : gmap Z string := list_to_map [(0%Z, "tcp"); (1%Z, "udp")].

Definition NetworkType_String (c : Z) : string :=
  match networks !! c with Some s => s | None => default "" (networks !! 0%Z) end.

(** ** Lemmas *)

Lemma handshake_report pid rest : is_int pid → handshake_pid (chars (pid_report pid) ++ rest) = HsPID pid.
Proof.
  intros Hp. unfold handshake_pid, pid_report.
  assert (chars (Itoa pid +:+ String newline "") ++ rest = chars (Itoa pid) ++ newline :: rest) as ->.
  { rewrite chars_app. simpl. by rewrite <- app_assoc. }
  pose proof (Itoa_no_space pid) as Hns. rewrite read_line_app.
  - rewrite TrimSpace_line by (eapply Forall_impl; [exact Hns|naive_solver]).
    by rewrite str_chars, Atoi_Itoa.
  - eapply Forall_impl; [exact Hns|naive_solver].
Qed.

(** Decoding keeps the command when no key is Payload. *)
Lemma decode_without_payload kvs m err :
  Forall (λ kv, field_is kv.1 "Payload" = false) kvs →
  mp_Payload (decode_obj set_message_field kvs m err).1 = mp_Payload m.
Proof.
  intros Hall. revert m err. induction Hall as [|[k v] kvs Hk _ IH]; intros m err; [done|].
  cbn [decode_obj]. simpl in Hk.
  assert (mp_Payload (set_message_field k v m).1 = mp_Payload m) as Hm.
  { unfold set_message_field. rewrite Hk.
    destruct (field_is k "ID"); [by destruct (decode_string v (mp_ID m))|].
    destruct (field_is k "FromPID"); [by destruct (decode_int v (mp_FromPID m))|].
    destruct (field_is k "Timestamp"); [by destruct (decode_int v (mp_Timestamp m))|done]. }
  destruct (set_message_field k v m) as [m' e]. by rewrite IH.
Qed.

(** The messages the master puts on the wire, as the worker reads them. *)
Definition wire_lines (msgs : list MessagePayload) : list round :=
  (λ m, Line (Some (encode_message m))) <$> msgs.

Definition is_shutdown (m : MessagePayload) : Prop := op_Type (mp_Payload m) = Shutdown_t.

#[global] Instance is_shutdown_dec m : Decision (is_shutdown m).
Proof. unfold is_shutdown. apply _. Defined.

(** ** Witness data *)

Definition ping_msg : MessagePayload := mkMsg "" (-1) (op_of_type Ping_t) 1700000000000.
Definition stop_msg : MessagePayload := mkMsg "123" (-1) (op_of_type Shutdown_t) 1700000000001.

(** ** Properties *)

(** C18: a worker built as drivers/worker does, receiving the descriptor
    [fd] and able to write, stores the descriptor, wraps it and reports its pid;
    the master, reading that report from the stream, whatever follows it, gets
    exactly that pid, for every [int]. *)
Theorem handshake_roundtrip pid fd fds msgs data conn rest :
  is_int pid →
  let w := Build (SetPID pid (SetListener (Some conn) NewWorkerBuilder)) in
  let '(r, s') := AcceptHandshake None (Recv data (OobMsgs (CRights (fd :: fds) :: msgs))) (mkWstate w []) in
  r = Returns None ∧ w_fd (ws_worker s') = fd ∧ w_ExtraFile (ws_worker s') = Some fd ∧
  ∃ report, ws_io s' = [IoWrite report] ∧ handshake_pid (chars report ++ rest) = HsPID pid.
Proof.
  intros Hp. simpl. split_and!; try done. eexists. split; [done|]. by apply handshake_report.
Qed.

Lemma handshake_roundtrip_witness :
  is_int 4242 ∧
  ∃ report, ws_io (AcceptHandshake None (Recv "PROCEED" (OobMsgs [CRights [7%Z]]))
      (mkWstate (Build (SetPID 4242 (SetListener (Some 1) NewWorkerBuilder))) [])).2 = [IoWrite report] ∧
    handshake_pid (chars report ++ chars "junk") = HsPID 4242.
Proof.
  assert (is_int 4242) as Hp by decide_by_eval. split; [exact Hp|].
  exact (proj2 (proj2 (proj2 (handshake_roundtrip 4242 7 [] [] "PROCEED" 1 (chars "junk") Hp)))).
Defined.

(** every failed receipt of the descriptor (a read error, no
    control data, unparsable control data, no control message, a message without
    rights, no descriptor in it) makes the handshake fail with an error that wraps
    the cause, and the worker neither changes nor writes anything. *)
Theorem handshake_errors write_err r s :
  (receiveFD r).2 ≠ None →
  ∃ e, (receiveFD r).2 = Some e ∧
    AcceptHandshake write_err r s = (Returns (Some (Wrap "gagal menerima FD: %w" [] e)), s) ∧
    (∀ data oob fd fds msgs, r = Recv data oob → oob ≠ OobMsgs (CRights (fd :: fds) :: msgs)).
Proof.
  intros Hr. unfold AcceptHandshake. destruct (receiveFD r) as [[fd data] [e|]] eqn:E; [|done].
  exists e. split_and!; try done. intros data' oob fd' fds msgs -> ->. simpl in E. done.
Qed.

Lemma handshake_errors_witness :
  ∃ e, AcceptHandshake None (Recv "PROCEED" OobEmpty) (mkWstate NewWorker []) =
    (Returns (Some (Wrap "gagal menerima FD: %w" [] e)), mkWstate NewWorker []).
Proof.
  destruct (handshake_errors None (Recv "PROCEED" OobEmpty) (mkWstate NewWorker []) ltac:(done))
    as (e & _ & He & _).
  exists e. exact He.
Defined.

(** fed with messages the master marshals, the worker's loop goes on
    exactly until the first SHUTDOWN message and stops there; if there is none it
    has read them all when its context is cancelled. *)
Theorem worker_stops_on_first_shutdown msgs :
  Forall message_ok msgs →
  ReceiveMessage (wire_lines msgs ++ [CtxDone]) 0 =
    match list_find is_shutdown msgs with
    | Some (i, _) => (true, S i)
    | None => (false, length msgs)
    end.
Proof.
  intros Hall.
  enough (∀ n, ReceiveMessage (wire_lines msgs ++ [CtxDone]) n =
     match list_find is_shutdown msgs with
     | Some (i, _) => (true, S (n + i))
     | None => (false, n + length msgs)
     end) as Hg by apply (Hg 0).
  induction Hall as [|m msgs Hm _ IH]; intros n; [cbn; by rewrite Nat.add_0_r|].
  change (wire_lines (m :: msgs)) with (Line (Some (encode_message m)) :: wire_lines msgs).
  cbn [app ReceiveMessage unmarshal_line list_find]. rewrite decode_message_encode by done. unfold is_shutdown in *.
  destruct (decide (op_Type (mp_Payload m) = Shutdown_t)) as [Hs|Hs].
  - rewrite bool_decide_true by done. by rewrite Nat.add_0_r.
  - rewrite bool_decide_false by done. rewrite IH.
    destruct (list_find _ msgs) as [[i x]|]; simpl; f_equal; lia.
Qed.

Lemma worker_stops_on_first_shutdown_witness :
  ReceiveMessage (wire_lines [ping_msg; ping_msg; stop_msg; ping_msg] ++ [CtxDone]) 0 = (true, 3).
Proof.
  apply (worker_stops_on_first_shutdown [ping_msg; ping_msg; stop_msg; ping_msg]).
  repeat constructor; decide_by_eval.
Defined.

(** since SHUTDOWN is the zero value of the message type, any JSON
    object without a Payload key stops the worker. *)
Theorem message_without_payload_stops_worker kvs rounds n :
  Forall (λ kv, field_is kv.1 "Payload" = false) kvs →
  ReceiveMessage (Line (Some (JObj kvs)) :: rounds) n = (true, S n).
Proof.
  intros Hk. cbn [ReceiveMessage unmarshal_line]. unfold decode_message. cbn [decode_struct].
  pose proof (decode_without_payload kvs msg_zero None Hk) as Hp.
  destruct (decode_obj set_message_field kvs msg_zero None) as [m [e|]]; [done|].
  simpl in Hp. by rewrite Hp.
Qed.

Lemma message_without_payload_stops_worker_witness :
  ReceiveMessage [Line (Some (JObj [("id", JStr "42"); ("note", JNull)])); CtxDone] 0 = (true, 1).
Proof.
  apply (message_without_payload_stops_worker [("id", JStr "42"); ("note", JNull)] [CtxDone] 0).
  repeat constructor; vm_compute; reflexivity.
Defined.

(** a worker built by drivers/worker never leaves the zero status
    Disconnected, so after any handshake its Shutdown only reports that the
    connection is already closed: it writes nothing and closes neither the
    descriptor nor the connection. *)
Theorem built_worker_shutdown_closes_nothing write_err close_err fclose_err pid conn r :
  let w := Build (SetPID pid (SetListener (Some conn) NewWorkerBuilder)) in
  let s' := (AcceptHandshake write_err r (mkWstate w [])).2 in
  (Worker_Shutdown write_err close_err fclose_err s').1 = Returns (Some (Fmt "connection already closed" [])) ∧
  ws_io (Worker_Shutdown write_err close_err fclose_err s').2 = ws_io s'.
Proof.
  unfold AcceptHandshake. destruct (receiveFD r) as [[fd data] [e|]]; [done|].
  destruct write_err; done.
Qed.
