(* ===== verification/Master.v ===== *)
(** * The master process

    use_cases/mastercore/master.go (the two loops started by Run),
    use_cases/bus/ipc_server.go (the gateway that accepts workers and control
    connections) and drivers/master/master.go (the instruction dispatcher).

    The gateway hands accepted workers to the registration loop through a channel
    of capacity one.  [gateway] is the state the goroutines share; [mstate] adds
    where each of them is, and [master_step] interleaves their actions: the
    handshakes, the registration loop, the health check, CloseAllConnections and
    the goroutines Shutdown starts.  eliminateWorkers and CloseAllConnections
    range over the registry without its lock, so other goroutines write the map
    in the middle of the loop, and the run-time may stop the program for it. *)

From S2P Require Import Prelude GoStr GoJson LoyaltyDomain LoyaltyApp Operation WorkerPool WorkerCore.

Record gateway : Type := mkGw {
  g_pool : pool;
  g_chan : list nat;
  g_loop : bool;
}.

Definition gw_pool {A} (m : M pool A) : M gateway A := λ g,
  let '(r, s') := m (g_pool g) in (r, mkGw s' (g_chan g) (g_loop g)).

(** The capacity of WorkerEvent and Event. *)
Definition chan_cap : nat := 1.

(** ** bus/ipc_server.go *)

(** [new(WorkerClient)]: a pointer nobody uses. *)
Definition alloc_client (w : WorkerClient) : M pool nat := λ s,
  let p := fresh (dom (p_heap s)) in (Returns p, set_heap (<[p := w]> (p_heap s)) s).

(** A send on the buffered channel waits for room. *)
Definition chan_send (p : nat) : M gateway () := λ g,
  if bool_decide (length (g_chan g) < chan_cap)
  then (Returns tt, mkGw (g_pool g) (g_chan g ++ [p]) (g_loop g))
  else (Blocks, g).

Definition bus_handleHandshake (stream : list Ascii.ascii) (conn : nat) : M gateway () :=
  match handshake_pid stream with
  | HsPID pid => p ← gw_pool (alloc_client (NewWorkerClient (Some conn) pid)); chan_send p
  | _ => mret tt
  end.

(** The steps of processWorker's goroutine: a failed write of the descriptor
    closes the connection and skips the handshake. *)
Definition worker_goroutine (proceed_err : goerror) (stream : list Ascii.ascii) (conn : nat) : M gateway () :=
  match proceed_err with
  | Some _ => mret tt
  | None => bus_handleHandshake stream conn
  end.

(** handleConnectionController wraps each line of a control connection. *)
Definition controller_event (line : string) : OpCommand :=
  mkOp line "" "" Ping_t (Some (Ascii.nat_of_ascii <$> chars line)).

(** ** mastercore/master.go *)

Section master.
Context `{Ambient} (net_err : nat → nat → goerror) (line_len : json → Z).

(** The registration loop waits for a worker on the channel. *)
Definition receive : M gateway nat := λ g,
  match g_loop g, g_chan g with
  | true, p :: rest => (Returns p, mkGw (g_pool g) rest true)
  | _, _ => (Blocks, g)
  end.

(** One round of the registration loop up to Start, whose error returns from the
    goroutine; then Add. *)
Definition register_start : M gateway (nat * goerror) :=
  p ← receive;
  err ← gw_pool (WorkerClient_Start net_err line_len p);
  match (err : goerror) with
  | Some _ => modify (λ g, mkGw (g_pool g) (g_chan g) false) ≫= λ _, mret (p, err)
  | None => mret (p, None)
  end.

Definition register_add (p : nat) : M gateway () := _ ← gw_pool (Registry_Add p); mret tt.

End master.

(** ** The goroutines of the running master *)

(** [for pid, worker := range c.conns] without the lock.  An entry that is there
    from the start is owed a visit until it is visited or deleted; an entry that
    is created during the loop may be visited or skipped. *)
Record range_pc : Type := mkRange { rg_owed : gset Z; rg_seen : gset Z }.

Definition range_start (s : pool) : range_pc := mkRange (dom (p_conns s)) ∅.
Definition range_visit (pid : Z) (r : range_pc) : range_pc :=
  mkRange (rg_owed r ∖ {[pid]}) ({[pid]} ∪ rg_seen r).
Definition range_forget (pid : Z) (r : range_pc) : range_pc :=
  mkRange (rg_owed r ∖ {[pid]}) (rg_seen r ∖ {[pid]}).

(** Where the health check is: waiting for the ticker; broadcasting a ping to the
    rest of the snapshot GetAll made, about to send to a client or to shut it
    down; ranging over the registry, about to remove a pid; returned. *)
Inductive health_pc : Type :=
| HWaiting
| HPinging (msg : MessagePayload) (todo : list nat)
| HSending (msg : MessagePayload) (p : nat) (todo : list nat)
| HShutting (msg : MessagePayload) (p : nat) (todo : list nat)
| HRanging (r : range_pc)
| HRemoving (r : range_pc) (pid : Z)
| HStopped.

(** [m_hand] is the worker the registration loop has started and not added yet,
    [m_closer] the loop of a running CloseAllConnections. *)
Record mstate : Type := mkMaster {
  m_gw : gateway;
  m_hand : option nat;
  m_health : health_pc;
  m_closer : option range_pc;
  m_crashed : bool;
}.

Definition m_pool (m : mstate) : pool := g_pool (m_gw m).

Definition with_gw (g : gateway) (m : mstate) : mstate :=
  mkMaster g (m_hand m) (m_health m) (m_closer m) (m_crashed m).
Definition with_pool (s : pool) (m : mstate) : mstate :=
  with_gw (mkGw s (g_chan (m_gw m)) (g_loop (m_gw m))) m.
Definition with_hand (h : option nat) (m : mstate) : mstate :=
  mkMaster (m_gw m) h (m_health m) (m_closer m) (m_crashed m).
Definition with_health (h : health_pc) (m : mstate) : mstate :=
  mkMaster (m_gw m) (m_hand m) h (m_closer m) (m_crashed m).
Definition with_closer (c : option range_pc) (m : mstate) : mstate :=
  mkMaster (m_gw m) (m_hand m) (m_health m) c (m_crashed m).

Definition with_spawned (ps : list nat) (s : pool) : pool :=
  mkPool (p_amb s) (p_heap s) (p_conns s) (p_net s) ps.

(** What a step is seen to do. *)
Inductive mlabel : Type :=
| LHandshake (proceed_err : goerror) (stream : list Ascii.ascii) (conn : nat)
| LStarted (pid : Z)
| LRefused (pid : Z)
| LAdded (pid : Z)
| LHealth
| LRemoved (pid : Z)
| LClosing
| LShutdown (p : nat)
| LFatal.

Section steps.
Context `{Ambient} (net_err : nat → nat → goerror) (line_len : json → Z).

(** The actions of the goroutines.  A handshake arrives on a connection of its own;
    Send holds the client's mutex, GetAll, Remove and Add the registry's lock. *)
Inductive goroutine_step : mstate → mlabel → mstate → Prop :=
| step_handshake perr stream conn m g' :
    (∀ p w, p_heap (m_pool m) !! p = Some w → wc_l w ≠ Some conn) →
    worker_goroutine perr stream conn (m_gw m) = (Returns tt, g') →
    goroutine_step m (LHandshake perr stream conn) (with_gw g' m)
| step_start p err w m g' :
    m_hand m = None → register_start net_err line_len (m_gw m) = (Returns (p, err), g') →
    p_heap (g_pool g') !! p = Some w →
    goroutine_step m (match err with None => LStarted (wc_pid w) | Some _ => LRefused (wc_pid w) end)
      (with_hand (match err with None => Some p | Some _ => None end) (with_gw g' m))
| step_add p w m g' :
    m_hand m = Some p → p_heap (m_pool m) !! p = Some w →
    register_add p (m_gw m) = (Returns tt, g') →
    goroutine_step m (LAdded (wc_pid w)) (with_hand None (with_gw g' m))
| step_tick ks ts s1 ws s2 m :
    m_health m = HWaiting → range_order (p_conns (m_pool m)) ks →
    now_milli (m_pool m) = (Returns ts, s1) → Registry_GetAll ks s1 = (Returns ws, s2) →
    goroutine_step m LHealth (with_health (HPinging (ping_message ts) ws) (with_pool s2 m))
| step_ping_state msg p ws st s' m :
    m_health m = HPinging msg (p :: ws) → WorkerClient_State p (m_pool m) = (Returns st, s') →
    goroutine_step m LHealth
      (with_health (if bool_decide (st = Disconnected) then HPinging msg ws else HSending msg p ws)
         (with_pool s' m))
| step_ping_send msg p ws (err : goerror) s' m :
    m_health m = HSending msg p ws →
    EventBus_Send net_err line_len msg p (m_pool m) = (Returns err, s') →
    goroutine_step m LHealth
      (with_health (match err with None => HPinging msg ws | Some _ => HShutting msg p ws end)
         (with_pool s' m))
| step_ping_shutdown msg p ws err s' m :
    m_health m = HShutting msg p ws → WorkerClient_Shutdown p (m_pool m) = (Returns err, s') →
    goroutine_step m LHealth (with_health (HPinging msg ws) (with_pool s' m))
| step_eliminate msg m :
    m_health m = HPinging msg [] →
    goroutine_step m LHealth (with_health (HRanging (range_start (m_pool m))) m)
| step_visit r pid p st s' m :
    m_health m = HRanging r → p_conns (m_pool m) !! pid = Some p → pid ∉ rg_seen r →
    WorkerClient_State p (m_pool m) = (Returns st, s') →
    goroutine_step m LHealth
      (with_health (if bool_decide (st = Disconnected) then HRemoving (range_visit pid r) pid
                    else HRanging (range_visit pid r)) (with_pool s' m))
| step_remove r pid err s' m :
    m_health m = HRemoving r pid → Registry_Remove pid (m_pool m) = (Returns err, s') →
    goroutine_step m (LRemoved pid)
      (with_health (HRanging (range_forget pid r))
         (with_closer (range_forget pid <$> m_closer m) (with_pool s' m)))
| step_eliminated r m :
    m_health m = HRanging r → rg_owed r = ∅ → goroutine_step m LHealth (with_health HWaiting m)
| step_health_done m :
    m_health m = HWaiting → goroutine_step m LHealth (with_health HStopped m)
| step_close m :
    m_closer m = None → goroutine_step m LClosing (with_closer (Some (range_start (m_pool m))) m)
| step_close_visit r pid p err s' m :
    m_closer m = Some r → p_conns (m_pool m) !! pid = Some p → pid ∉ rg_seen r →
    WorkerClient_Shutdown p (m_pool m) = (Returns err, s') →
    goroutine_step m LClosing (with_closer (Some (range_visit pid r)) (with_pool s' m))
| step_closed r m :
    m_closer m = Some r → rg_owed r = ∅ → goroutine_step m LClosing (with_closer None m)
| step_shutdown p ps1 ps2 s' m :
    p_spawned (m_pool m) = ps1 ++ p :: ps2 →
    shutdown_goroutine net_err line_len p (with_spawned (ps1 ++ ps2) (m_pool m)) = (Returns tt, s') →
    goroutine_step m (LShutdown p) (with_pool s' m).

(** A goroutine is about to write the map while another one ranges over it. *)
Definition racing (m : mstate) : Prop :=
  (is_Some (m_hand m) ∧ ((∃ r, m_health m = HRanging r) ∨ is_Some (m_closer m))) ∨
  ((∃ r pid, m_health m = HRemoving r pid) ∧ is_Some (m_closer m)).

(** "fatal error: concurrent map iteration and map write" ends the process; the
    run-time may also not notice. *)
Inductive master_step : mstate → mlabel → mstate → Prop :=
| master_goroutine l m m' : m_crashed m = false → goroutine_step m l m' → master_step m l m'
| master_fatal m :
    m_crashed m = false → racing m →
    master_step m LFatal (mkMaster (m_gw m) (m_hand m) (m_health m) (m_closer m) true).

Inductive master_run : mstate → list mlabel → mstate → Prop :=
| run_nil m : master_run m [] m
| run_cons m1 l m2 ls m3 : master_step m1 l m2 → master_run m2 ls m3 → master_run m1 (l :: ls) m3.

End steps.

(** The control loop: Execute every event until one fails; what is left of the
    stream is never read. *)
Fixpoint control_loop {W} (r : MasterRegistry W) (core : SystemCore W) (events : list OpCommand) :
    M W (list OpCommand) :=
  match events with
  | [] => mret []
  | e :: events' =>
      x ← MasterRegistry_Execute r core e;
      match x.2 with
      | Some _ => mret events'
      | None => control_loop r core events'
      end
  end.

Definition NewMasterCore (a : ambient) : gateway := mkGw (mkPool a ∅ ∅ ∅ []) [] true.

(** The master when Run has started its goroutines. *)
Definition running_master (a : ambient) : mstate := mkMaster (NewMasterCore a) None HWaiting None false.

(** ** drivers/master/master.go: handleInstruction

    The replies written on the connection, and whether the application is
    stopped (by the deferred call of the exit command). *)

Record console : Type := mkConsole { cs_pool : pool; cs_replies : list string }.

Section instruction.
Context `{Ambient} (net_err : nat → nat → goerror) (line_len : json → Z).
(** The order in which Broadcast ranges over the registry. *)
Context (order : pool → list Z).

Definition reply_with (text : string) : M console () :=
  modify (λ c, mkConsole (cs_pool c) (cs_replies c ++ [text])).

Definition on_pool {A} (m : M pool A) : M console A := λ c,
  let '(r, s') := m (cs_pool c) in (r, mkConsole s' (cs_replies c)).

Definition with_newline (s : string) : string := s +:+ String newline "".

Fixpoint handleInstruction (lines : list string) : M console bool :=
  match lines with
  | [] => mret false
  | text :: lines' =>
      let command := TrimSpace text in
      if bool_decide (command = "") then handleInstruction lines'
      else if bool_decide (command = "ping") then
        reply_with (with_newline "PONG") ≫= λ _, handleInstruction lines'
      else if bool_decide (command = "status") then
        total ← on_pool Registry_Total;
        reply_with (with_newline (sprintf "Active Workers: %d" [Itoa total])) ≫= λ _,
        handleInstruction lines'
      else if HasPrefix command "broadcast " then
        on_pool (s ← gets id; Registry_Broadcast net_err line_len (order s) (Some [68; 73; 69; 10])) ≫= λ _,
        handleInstruction lines'
      else if bool_decide (command = "exit") then
        reply_with (with_newline "Bye!") ≫= λ _, mret true
      else
        reply_with (with_newline (sprintf "Unknown command: %s" [command])) ≫= λ _,
        handleInstruction lines'
  end.

End instruction.

(** ** The invariant of the master *)

Definition gw_ok (g : gateway) : Prop :=
  let s := g_pool g in
  (∀ pid p, p_conns s !! pid = Some p → ∃ w, p_heap s !! p = Some w ∧ wc_pid w = pid) ∧
  (∀ p1 p2 w1 w2 c, p_heap s !! p1 = Some w1 → p_heap s !! p2 = Some w2 →
     wc_l w1 = Some c → wc_l w2 = Some c → p1 = p2) ∧
  (∀ p, p ∈ g_chan g → is_Some (p_heap s !! p)) ∧
  length (g_chan g) ≤ chan_cap.

Section invariant.
Context `{Ambient} (net_err : nat → nat → goerror) (line_len : json → Z).

Lemma gw_ok_pool g : gw_ok g → pool_ok (g_pool g).
Proof. intros (Ha & Hb & _). split; [done|]. intros p1 p2 w1 w2 c _ _. apply Hb. Qed.

(** Changing states of clients keeps the invariant. *)
Lemma gw_ok_update g s' chan loop :
  gw_ok g →
  (∀ pid p, p_conns s' !! pid = Some p → ∃ w, p_heap (g_pool g) !! p = Some w ∧ wc_pid w = pid) →
  (∀ p w, p_heap (g_pool g) !! p = Some w →
     ∃ w', p_heap s' !! p = Some w' ∧ wc_pid w' = wc_pid w ∧ wc_l w' = wc_l w) →
  (∀ p, is_Some (p_heap s' !! p) → is_Some (p_heap (g_pool g) !! p)) →
  (∀ p, p ∈ chan → p ∈ g_chan g) → length chan ≤ chan_cap →
  gw_ok (mkGw s' chan loop).
Proof.
  intros (Ha & Hb & Hc & Hd) Hconns Hheap Hdom Hchan Hlen. split_and!; simpl; try done.
  - intros pid p Hp. destruct (Hconns _ _ Hp) as (w & Hw & <-).
    destruct (Hheap _ _ Hw) as (w' & ? & ? & _). eauto.
  - intros p1 p2 w1 w2 c E1 E2 L1 L2.
    destruct (Hdom p1) as [v1 V1]; [eauto|]. destruct (Hdom p2) as [v2 V2]; [eauto|].
    destruct (Hheap _ _ V1) as (? & ? & _ & ?). destruct (Hheap _ _ V2) as (? & ? & _ & ?).
    simplify_eq. apply (Hb p1 p2 v1 v2 c); congruence.
  - intros p Hp. destruct (Hc p) as [w Hw]; [auto|]. destruct (Hheap _ _ Hw) as (? & ? & _). eauto.
Qed.

Lemma Start_spec p w s :
  p_heap s !! p = Some w →
  ∃ err s', WorkerClient_Start net_err line_len p s = (Returns err, s') ∧
    (err = None ↔ deliverable net_err s w = true) ∧
    p_heap s' = <[p := mkClient Connected (wc_pid w) (wc_l w)]> (p_heap s) ∧ p_conns s' = p_conns s ∧
    p_spawned s' = p_spawned s.
Proof.
  intros Hp. unfold WorkerClient_Start, set_status. rewrite M_bind_eq, M_bind_eq, (deref_eq _ _ _ Hp).
  unfold modify. set (w1 := mkClient _ _ _). set (s1 := set_heap _ s).
  assert (p_heap s1 !! p = Some w1) as Hp1 by apply lookup_insert_eq.
  rewrite M_bind_eq. unfold WorkerClient_PID. rewrite M_bind_eq, (deref_eq _ _ _ Hp1), M_ret_eq, M_bind_eq.
  destruct (now_milli_eq s1) as (ts & a & ->). rewrite M_bind_eq.
  destruct (Send_spec net_err line_len p w1 (mkMsg "" (wc_pid w1) (op_of_type Ping_t) ts) (set_amb a s1))
    as (r & s2 & -> & Hr & H2 & C2 & S2 & _); [exact Hp1|].
  exists r.2, s2. split; [reflexivity|]. rewrite Hr, H2, C2, S2. split; [|done]. reflexivity.
Qed.

Lemma register_start_spec g g' p err :
  gw_ok g → register_start net_err line_len g = (Returns (p, err), g') →
  g_loop g = true ∧
  ∃ rest w, g_chan g = p :: rest ∧ p_heap (g_pool g) !! p = Some w ∧ g_chan g' = rest ∧
    p_heap (g_pool g') = <[p := mkClient Connected (wc_pid w) (wc_l w)]> (p_heap (g_pool g)) ∧
    p_conns (g_pool g') = p_conns (g_pool g) ∧ p_spawned (g_pool g') = p_spawned (g_pool g) ∧
    (err = None ↔ deliverable net_err (g_pool g) w = true) ∧
    g_loop g' = deliverable net_err (g_pool g) w.
Proof.
  intros (_ & _ & Hc & _) Hrun. unfold register_start in Hrun. rewrite M_bind_eq in Hrun.
  unfold receive in Hrun. destruct (g_loop g); [|done]. split; [done|].
  destruct (g_chan g) as [|q rest] eqn:Ech; [done|].
  destruct (Hc q) as [w Hw]; [set_solver|]. rewrite M_bind_eq in Hrun. unfold gw_pool in Hrun.
  cbn [g_pool] in Hrun. destruct (Start_spec q w (g_pool g) Hw) as (e & s1 & HS & He & H1 & C1 & S1).
  rewrite HS in Hrun.
  assert (deliverable net_err (g_pool g) w = bool_decide (e = None)) as Hd.
  { destruct (deliverable net_err (g_pool g) w); symmetry;
      [apply bool_decide_eq_true_2; tauto|apply bool_decide_eq_false_2]. intros ->.
    destruct He as [He _]. by specialize (He eq_refl). }
  assert (p = q ∧ err = e ∧ g' = mkGw s1 rest (bool_decide (e = None))) as (-> & -> & ->).
  { destruct e as [e|]; [rewrite M_bind_eq in Hrun; unfold modify in Hrun; rewrite M_ret_eq in Hrun|
      rewrite M_ret_eq in Hrun]; by simplify_eq. }
  exists rest, w. cbn [g_chan g_pool g_loop]. by split_and!.
Qed.

Lemma register_add_spec g g' p w :
  p_heap (g_pool g) !! p = Some w → register_add p g = (Returns tt, g') →
  g' = mkGw (set_conns (<[wc_pid w := p]> (p_conns (g_pool g))) (g_pool g)) (g_chan g) (g_loop g).
Proof using Type.
  clear net_err line_len. intros Hw Hrun. unfold register_add in Hrun. rewrite M_bind_eq in Hrun.
  unfold gw_pool, Registry_Add, WorkerClient_PID in Hrun.
  rewrite M_bind_eq, M_bind_eq, (deref_eq _ _ _ Hw), M_ret_eq, M_bind_eq in Hrun.
  cbn in Hrun. by injection Hrun as <-.
Qed.

(** The pid a connection announces, if its handshake gets that far. *)
Definition announced_pid (perr : goerror) (stream : list Ascii.ascii) : option Z :=
  match perr with
  | Some _ => None
  | None => match handshake_pid stream with HsPID pid => Some pid | _ => None end
  end.

Lemma worker_cases g g' perr stream conn :
  worker_goroutine perr stream conn g = (Returns tt, g') →
  (g' = g ∧ announced_pid perr stream = None) ∨
  ∃ pid q, announced_pid perr stream = Some pid ∧ p_heap (g_pool g) !! q = None ∧
    length (g_chan g) < chan_cap ∧
    g' = mkGw (set_heap (<[q := NewWorkerClient (Some conn) pid]> (p_heap (g_pool g))) (g_pool g))
              (g_chan g ++ [q]) (g_loop g).
Proof using Type.
  clear net_err line_len. intros Hrun. unfold worker_goroutine, bus_handleHandshake, announced_pid in *.
  destruct perr as [e|]; [rewrite M_ret_eq in Hrun; simplify_eq; by left|].
  destruct (handshake_pid stream) as [|t|pid]; [rewrite M_ret_eq in Hrun; simplify_eq; by left..|].
  right. rewrite M_bind_eq in Hrun. unfold gw_pool, alloc_client, chan_send in Hrun.
  cbn [g_chan g_pool g_loop] in Hrun. case_bool_decide as Hlen; [|done]. injection Hrun as <-.
  eexists pid, _. split; [done|]. split; [|split; [done|reflexivity]].
  apply not_elem_of_dom, is_fresh.
Qed.

Lemma worker_step g g' perr stream conn :
  gw_ok g → (∀ p w, p_heap (g_pool g) !! p = Some w → wc_l w ≠ Some conn) →
  worker_goroutine perr stream conn g = (Returns tt, g') →
  gw_ok g' ∧ p_conns (g_pool g') = p_conns (g_pool g) ∧ g_loop g' = g_loop g.
Proof using Type.
  clear net_err line_len. intros Hok Hfresh Hrun.
  destruct (worker_cases _ _ _ _ _ Hrun) as [[-> _]|(pid & q & _ & Hq & Hlen & ->)]; [done|].
  destruct Hok as (Ha & Hb & Hc & Hd). split_and!; try done. split_and!; cbn [g_pool g_chan p_conns set_heap p_heap].
  - intros pid' p Hp. destruct (Ha _ _ Hp) as (w & Hw & Hpid). exists w.
    rewrite lookup_insert_ne by congruence. done.
  - intros p1 p2 w1 w2 c. rewrite !lookup_insert_Some.
    intros [[<- <-]|[? E1]] [[<- <-]|[? E2]] L1 L2; simpl in *; simplify_eq; try done.
    + by destruct (Hfresh _ _ E2).
    + by destruct (Hfresh _ _ E1).
    + by apply (Hb p1 p2 w1 w2 c).
  - intros p [Hp| ->%list_elem_of_singleton]%elem_of_app; [|rewrite lookup_insert_eq; eauto].
    destruct (Hc p Hp) as [w Hw]. rewrite lookup_insert_ne by congruence. eauto.
  - rewrite length_app. simpl. unfold chan_cap in *. lia.
Qed.

(** ** Quiet actions: what they keep of the clients *)

Definition client_id (s : pool) (p : nat) : option (Z * option nat) :=
  (λ w, (wc_pid w, wc_l w)) <$> p_heap s !! p.

Definition same_clients (s s' : pool) : Prop := ∀ p, client_id s' p = client_id s p.

Lemma same_clients_live s s' p : same_clients s s' → is_Some (p_heap s' !! p) ↔ is_Some (p_heap s !! p).
Proof using Type.
  clear net_err line_len. intros Hs. specialize (Hs p). unfold client_id in Hs.
  by rewrite <- (fmap_is_Some (λ w, (wc_pid w, wc_l w)) (p_heap s' !! p)), Hs, fmap_is_Some.
Qed.

Lemma same_clients_insert s s' p w st :
  p_heap s !! p = Some w → p_heap s' = <[p := mkClient st (wc_pid w) (wc_l w)]> (p_heap s) →
  same_clients s s'.
Proof using Type.
  clear net_err line_len. intros Hw Hh q. unfold client_id. rewrite Hh.
  destruct (decide (q = p)) as [->|Hne]; [by rewrite lookup_insert_eq, Hw|by rewrite lookup_insert_ne].
Qed.

Lemma same_clients_heap s s' : p_heap s' = p_heap s → same_clients s s'.
Proof using Type. clear net_err line_len. intros Hh p. unfold client_id. by rewrite Hh. Qed.

(** A state whose clients are those of [s] and whose registry is not larger. *)
Definition quiet (s s' : pool) : Prop :=
  same_clients s s' ∧ p_conns s' = p_conns s ∧
  ∀ p, p ∈ p_spawned s' → p ∈ p_spawned s ∨ is_Some (p_heap s !! p).

Lemma quiet_same s s' :
  p_heap s' = p_heap s → p_conns s' = p_conns s → p_spawned s' = p_spawned s → quiet s s'.
Proof using Type.
  clear net_err line_len. intros Hh Hc Hs. split; [by apply same_clients_heap|]. split; [done|].
  intros p. rewrite Hs. auto.
Qed.

Lemma State_quiet p s st s' : WorkerClient_State p s = (Returns st, s') → quiet s s'.
Proof using Type.
  clear net_err line_len. unfold WorkerClient_State. rewrite M_bind_eq. unfold deref.
  destruct (p_heap s !! p); [|done]. rewrite M_ret_eq. intros [= _ <-]. by apply quiet_same.
Qed.

Lemma Send_quiet p msg s r s' :
  is_Some (p_heap s !! p) → WorkerClient_Send net_err line_len p msg s = (Returns r, s') → quiet s s'.
Proof.
  intros [w Hw] Hrun.
  destruct (Send_spec net_err line_len p w msg s Hw) as (r' & s'' & Hrun' & _ & Hh & Hc & Hs & _).
  rewrite Hrun in Hrun'. simplify_eq. by apply quiet_same.
Qed.

Lemma Shutdown_quiet p s err s' :
  is_Some (p_heap s !! p) → WorkerClient_Shutdown p s = (Returns err, s') → quiet s s'.
Proof using Type.
  clear net_err line_len. intros [w Hw] Hrun.
  destruct (Shutdown_spec p w s Hw) as (s'' & Hrun' & Hh & Hc & _ & _ & Hs).
  rewrite Hrun in Hrun'. simplify_eq.
  split; [by eapply same_clients_insert|]. split; [done|]. intros q. rewrite Hs.
  intros [Hq|Hq]%elem_of_app; [by left|]. right. destruct (wc_l w); [|by apply not_elem_of_nil in Hq].
  apply list_elem_of_singleton in Hq as ->. eauto.
Qed.

Lemma goroutine_quiet p s s' :
  is_Some (p_heap s !! p) → shutdown_goroutine net_err line_len p s = (Returns tt, s') → quiet s s'.
Proof.
  intros Hp Hrun. unfold shutdown_goroutine in Hrun. rewrite M_bind_eq in Hrun.
  destruct (now_milli_eq s) as (ts & a & Hts). rewrite Hts, M_bind_eq in Hrun.
  destruct (WorkerClient_Send _ _ _ _ _) as [[r|e|] s1] eqn:E; try done.
  rewrite M_ret_eq in Hrun. simplify_eq.
  exact (Send_quiet p _ (set_amb a s) _ _ Hp E).
Qed.

(** ** The invariant of the running master *)

Definition in_hand (m : mstate) : list nat := match m_hand m with Some p => [p] | None => [] end.

Definition health_ptrs (h : health_pc) : list nat :=
  match h with
  | HPinging _ todo => todo
  | HSending _ p todo | HShutting _ p todo => p :: todo
  | _ => []
  end.

(** The shared state is well formed; every client a goroutine still refers to is
    live; and a worker that is waiting or in hand is there once and not
    registered, so only the registration loop touches it. *)
Definition master_ok (m : mstate) : Prop :=
  gw_ok (m_gw m) ∧
  (∀ p, p ∈ in_hand m ++ health_ptrs (m_health m) ++ p_spawned (m_pool m) →
     is_Some (p_heap (m_pool m) !! p)) ∧
  NoDup (in_hand m ++ g_chan (m_gw m)) ∧
  (∀ pid p, p_conns (m_pool m) !! pid = Some p → p ∉ in_hand m ++ g_chan (m_gw m)).

Lemma gw_ok_same g s' chan loop :
  gw_ok g → same_clients (g_pool g) s' →
  (∀ pid p, p_conns s' !! pid = Some p → ∃ w, p_heap (g_pool g) !! p = Some w ∧ wc_pid w = pid) →
  (∀ p, p ∈ chan → p ∈ g_chan g) → length chan ≤ chan_cap →
  gw_ok (mkGw s' chan loop).
Proof using Type.
  clear net_err line_len. intros Hok Hs Hconns Hchan Hlen. eapply gw_ok_update; try done.
  - intros p w Hw. specialize (Hs p). unfold client_id in Hs. rewrite Hw in Hs. simpl in Hs.
    apply fmap_Some in Hs as (w' & ? & ?). exists w'. by simplify_eq.
  - intros p Hp. by apply (same_clients_live _ _ p Hs).
Qed.

Lemma master_ok_quiet m s' h c b :
  master_ok m → same_clients (m_pool m) s' →
  (∀ pid p, p_conns s' !! pid = Some p → p_conns (m_pool m) !! pid = Some p) →
  (∀ p, p ∈ health_ptrs h ++ p_spawned s' → is_Some (p_heap (m_pool m) !! p)) →
  master_ok (mkMaster (mkGw s' (g_chan (m_gw m)) (g_loop (m_gw m))) (m_hand m) h c b).
Proof using Type.
  clear net_err line_len. intros (Hgw & Hlive & Hnd & Hreg) Hs Hsub Hptr. split_and!.
  - apply (gw_ok_same (m_gw m)); [done|done| |done|apply Hgw].
    intros pid p Hp. by apply Hgw, Hsub.
  - cbn. intros p Hp. apply (same_clients_live _ _ _ Hs).
    apply elem_of_app in Hp as [Hp|Hp]; [|by apply Hptr]. apply Hlive. apply elem_of_app. by left.
  - done.
  - cbn. intros pid p Hp. by apply (Hreg pid p), Hsub.
Qed.

Lemma master_ok_health m p :
  master_ok m → p ∈ health_ptrs (m_health m) → is_Some (p_heap (m_pool m) !! p).
Proof using Type. clear net_err line_len. intros (_ & Hl & _) Hp. apply Hl. set_solver. Qed.

Lemma master_ok_spawned m p :
  master_ok m → p ∈ p_spawned (m_pool m) → is_Some (p_heap (m_pool m) !! p).
Proof using Type. clear net_err line_len. intros (_ & Hl & _) Hp. apply Hl. set_solver. Qed.

Lemma master_ok_registered m pid p :
  master_ok m → p_conns (m_pool m) !! pid = Some p → is_Some (p_heap (m_pool m) !! p).
Proof using Type.
  clear net_err line_len. intros ((Ha & _) & _) Hp. destruct (Ha _ _ Hp) as (w & Hw & _). eauto.
Qed.

(** A quiet action of a goroutine that goes on with a part of what it had. *)
Lemma master_ok_pool m s' h c b :
  master_ok m → quiet (m_pool m) s' →
  (∀ p, p ∈ health_ptrs h → is_Some (p_heap (m_pool m) !! p)) →
  master_ok (mkMaster (mkGw s' (g_chan (m_gw m)) (g_loop (m_gw m))) (m_hand m) h c b).
Proof using Type.
  clear net_err line_len. intros Hok (Hs & Hc & Hsp) Hh.
  apply master_ok_quiet; [done|done|by rewrite Hc|].
  intros p [Hp|Hp]%elem_of_app; [by apply Hh|].
  destruct (Hsp p Hp) as [Hp'|Hp']; [by apply master_ok_spawned|done].
Qed.

Lemma master_ok_pc m h c :
  master_ok m → (∀ p, p ∈ health_ptrs h → is_Some (p_heap (m_pool m) !! p)) →
  master_ok (mkMaster (m_gw m) (m_hand m) h c (m_crashed m)).
Proof using Type.
  clear net_err line_len. intros Hok Hh. destruct m as [[s ch l] hand h0 c0 b].
  apply (master_ok_pool (mkMaster (mkGw s ch l) hand h0 c0 b) s); [done|by apply quiet_same|done].
Qed.

(** ** Every step keeps the invariant *)

Lemma handshake_ok m g' perr stream conn :
  master_ok m → (∀ p w, p_heap (m_pool m) !! p = Some w → wc_l w ≠ Some conn) →
  worker_goroutine perr stream conn (m_gw m) = (Returns tt, g') → master_ok (with_gw g' m).
Proof using Type.
  clear net_err line_len. intros Hok Hfresh Hrun.
  destruct (worker_step _ _ _ _ _ (proj1 Hok) Hfresh Hrun) as (Hgw & _).
  destruct (worker_cases _ _ _ _ _ Hrun) as [[-> _]|(pid & q & _ & Hq & _ & ->)].
  { by destruct m. }
  destruct Hok as (Hgw0 & Hlive & Hnd & Hreg).
  assert (∀ p, is_Some (p_heap (m_pool m) !! p) → p ≠ q) as Hne.
  { intros p [w Hw] ->. unfold m_pool in Hw. congruence. }
  split; [done|]. cbn. split_and!.
  - intros p Hp. destruct (Hlive p Hp) as [w Hw]. rewrite lookup_insert_ne; [eauto|].
    intros <-. by apply (Hne q); [eexists|].
  - rewrite app_assoc. apply NoDup_app. split; [done|]. split; [|apply NoDup_singleton].
    intros p Hp ->%list_elem_of_singleton.
    apply (Hne q); [|done]. apply elem_of_app in Hp as [Hp|Hp]; [apply Hlive; set_solver|].
    by apply Hgw0.
  - intros pid' p Hp. rewrite app_assoc. intros [Hin| ->%list_elem_of_singleton]%elem_of_app.
    + by eapply Hreg.
    + apply (Hne q); [|done]. destruct Hgw0 as (Ha & _). destruct (Ha _ _ Hp) as (w & Hw & _). eauto.
Qed.

Lemma start_ok m g' p err :
  master_ok m → m_hand m = None → register_start net_err line_len (m_gw m) = (Returns (p, err), g') →
  master_ok (with_hand (match err with None => Some p | Some _ => None end) (with_gw g' m)).
Proof.
  intros (Hgw & Hlive & Hnd & Hreg) Hh Hrun.
  destruct (register_start_spec _ _ _ _ Hgw Hrun) as (_ & rest & w & Ech & Hw & Hch & Hheap & Hc & Hs & _).
  unfold in_hand in *. rewrite Hh, Ech in *. cbn [app] in *.
  assert (same_clients (m_pool m) (g_pool g')) as Hsame by by eapply same_clients_insert.
  assert (is_Some (p_heap (g_pool g') !! p)) as Hp by (rewrite Hheap, lookup_insert_eq; eauto).
  apply NoDup_cons in Hnd as [Hp1 Hnd]. split_and!; cbn.
  - destruct g' as [s' ch' l']. cbn in *. subst ch'. apply (gw_ok_same (m_gw m)); [done|done|..].
    + intros pid q. rewrite Hc. apply Hgw.
    + rewrite Ech. set_solver.
    + destruct Hgw as (_ & _ & _ & Hd). rewrite Ech in Hd. simpl in Hd. lia.
  - intros q Hq. unfold m_pool in *. cbn in *. rewrite Hs in Hq.
    apply elem_of_app in Hq as [Hq|Hq]; [|by apply (same_clients_live _ _ q Hsame), Hlive].
    destruct err; [by apply not_elem_of_nil in Hq|]. by apply list_elem_of_singleton in Hq as ->.
  - rewrite Hch. destruct err; [done|by apply NoDup_cons].
  - intros pid q Hq. unfold m_pool in Hq. cbn in Hq. rewrite Hc in Hq. specialize (Hreg pid q Hq).
    rewrite Hch. destruct err; cbn; set_solver.
Qed.

Lemma add_ok m g' p w :
  master_ok m → m_hand m = Some p → p_heap (m_pool m) !! p = Some w →
  register_add p (m_gw m) = (Returns tt, g') → master_ok (with_hand None (with_gw g' m)).
Proof using Type.
  clear net_err line_len. intros (Hgw & Hlive & Hnd & Hreg) Hh Hw Hrun.
  rewrite (register_add_spec _ _ _ _ Hw Hrun). unfold in_hand in *. rewrite Hh in *. cbn in Hnd, Hreg.
  apply NoDup_cons in Hnd as [Hp Hnd]. split_and!; cbn.
  - apply (gw_ok_same (m_gw m)); [done|by apply same_clients_heap| |done|apply Hgw].
    intros pid q. cbn. rewrite lookup_insert_Some. intros [[<- <-]|[_ Hq]]; [eauto|by apply Hgw].
  - intros q Hq. apply Hlive. by apply elem_of_app; right.
  - done.
  - intros pid q. rewrite lookup_insert_Some. intros [[_ <-]|[_ Hq]]; [done|].
    specialize (Hreg pid q Hq). set_solver.
Qed.

Lemma goroutine_step_ok m l m' : master_ok m → goroutine_step net_err line_len m l m' → master_ok m'.
Proof.
  intros Hok Hstep. destruct Hstep as
    [perr stream conn m g' Hf Hrun|p err w m g' Hh Hrun _|p w m g' Hh Hw Hrun
    |ks ts s1 ws s2 m Hpc Hks Hnow Hall|msg p ws st s' m Hpc Hrun|msg p ws err s' m Hpc Hrun
    |msg p ws err s' m Hpc Hrun|msg m Hpc|r pid p st s' m Hpc Hp Hseen Hrun|r pid err s' m Hpc Hrun
    |r m Hpc Ho|m Hpc|m Hc|r pid p err s' m Hc Hp Hseen Hrun|r m Hc Ho|p ps1 ps2 s' m Hsp Hrun].
  - by eapply handshake_ok.
  - by apply start_ok.
  - by eapply add_ok.
  - unfold now_milli in Hnow. destruct (now_milli_eq (m_pool m)) as (ts' & a & Hnow').
    unfold now_milli in Hnow'. rewrite Hnow' in Hnow. simplify_eq.
    unfold Registry_GetAll, gets in Hall. simplify_eq.
    apply (master_ok_pool m); [done|by apply quiet_same|]. cbn.
    intros p (k & _ & Hk)%list_elem_of_omap. by eapply master_ok_registered.
  - apply (master_ok_pool m); [done|by eapply State_quiet|]. intros q Hq. apply master_ok_health; [done|].
    rewrite Hpc. cbn. case_bool_decide; cbn in Hq; set_solver.
  - unfold EventBus_Send in Hrun. rewrite M_bind_eq in Hrun.
    destruct (WorkerClient_Send _ _ _ _ _) as [[r|e|] s1] eqn:E; try done. rewrite M_ret_eq in Hrun. simplify_eq.
    apply Send_quiet in E; [|apply master_ok_health; [done|rewrite Hpc; cbn; set_solver]].
    apply (master_ok_pool m); [done|done|]. intros q Hq. apply master_ok_health; [done|].
    rewrite Hpc. cbn. destruct (r.2); cbn in Hq; set_solver.
  - apply Shutdown_quiet in Hrun; [|apply master_ok_health; [done|rewrite Hpc; cbn; set_solver]].
    apply (master_ok_pool m); [done|done|]. intros q Hq. apply master_ok_health; [done|].
    rewrite Hpc. cbn. cbn in Hq. set_solver.
  - apply (master_ok_pc m); [done|]. cbn. set_solver.
  - apply (master_ok_pool m); [done|by eapply State_quiet|]. case_bool_decide; cbn; set_solver.
  - unfold Registry_Remove in Hrun. rewrite M_bind_eq in Hrun. injection Hrun as <- <-.
    apply (master_ok_quiet m); [done|by apply same_clients_heap| |].
    + cbn. intros pid' p [_ Hp]%lookup_delete_Some. done.
    + cbn. intros p. by apply master_ok_spawned.
  - apply (master_ok_pc m); [done|]. cbn. set_solver.
  - apply (master_ok_pc m); [done|]. cbn. set_solver.
  - apply (master_ok_pc m); [done|]. intros p. by apply master_ok_health.
  - apply Shutdown_quiet in Hrun; [|by eapply master_ok_registered].
    apply (master_ok_pool m); [done|done|]. exact (λ q, master_ok_health m q Hok).
  - apply (master_ok_pc m); [done|]. intros p. by apply master_ok_health.
  - assert (is_Some (p_heap (m_pool m) !! p)) as Hp.
    { apply master_ok_spawned; [done|]. rewrite Hsp. set_solver. }
    apply goroutine_quiet in Hrun as (Hs & Hc & Hsp'); [|done].
    apply (master_ok_quiet m); [done|done|by rewrite Hc|].
    intros q [Hq|Hq]%elem_of_app; [exact (master_ok_health m q Hok Hq)|]. destruct (Hsp' q Hq) as [Hq'|?]; [|done].
    apply master_ok_spawned; [done|]. rewrite Hsp. cbn in Hq'.
    apply elem_of_app in Hq' as [Hq'|Hq']; apply elem_of_app; [by left|right; by apply elem_of_cons; right].
Qed.

Lemma master_step_ok m l m' : master_ok m → master_step net_err line_len m l m' → master_ok m'.
Proof.
  intros Hok Hst. destruct Hst as [l m m' _ Hs|m _ _]; [exact (goroutine_step_ok _ _ _ Hok Hs)|exact Hok].
Qed.

Lemma master_run_ok m ls m' : master_ok m → master_run net_err line_len m ls m' → master_ok m'.
Proof. intros Hok Hr. induction Hr as [|m1 l m2 ls m3 Hs _ IH]; [done|]. eauto using master_step_ok. Qed.

(** ** A tick nobody disturbs

    When no other goroutine moves, the health check's steps do what [health_tick]
    does, for every order of its two loops. *)

Lemma master_run_app m1 ls1 m2 ls2 m3 :
  master_run net_err line_len m1 ls1 m2 → master_run net_err line_len m2 ls2 m3 →
  master_run net_err line_len m1 (ls1 ++ ls2) m3.
Proof. intros H1 H2. induction H1; [done|]. econstructor; eauto. Qed.

Definition quiet_run (m m' : mstate) : Prop := ∃ ls, master_run net_err line_len m ls m'.

Lemma quiet_run_step m1 l m2 m3 :
  m_crashed m1 = false → goroutine_step net_err line_len m1 l m2 → quiet_run m2 m3 → quiet_run m1 m3.
Proof. intros Hc Hs [ls Hr]. exists (l :: ls). econstructor; [by constructor|done]. Qed.

Lemma broadcast_one_run m msg p ws s :
  m_crashed m = false → is_Some (p_heap s !! p) →
  ∃ s', broadcast_one net_err line_len msg p s = (Returns tt, s') ∧ same_clients s s' ∧
    ∀ m', quiet_run (with_health (HPinging msg ws) (with_pool s' m)) m' →
          quiet_run (with_health (HPinging msg (p :: ws)) (with_pool s m)) m'.
Proof.
  intros Hcr [w Hw].
  destruct (broadcast_one_spec net_err line_len p w msg s Hw) as (s' & Hrun & _ & Hh & _).
  exists s'. split; [done|]. split.
  { unfold pinged in Hh. destruct w as [st i c]. repeat case_match;
      by eapply same_clients_insert; [exact Hw|exact Hh]. }
  intros m' Hr. unfold broadcast_one in Hrun. rewrite M_bind_eq in Hrun.
  assert (WorkerClient_State p s = (Returns (wc_status w), s)) as Hst.
  { unfold WorkerClient_State. by rewrite M_bind_eq, (deref_eq _ _ _ Hw), M_ret_eq. }
  rewrite Hst in Hrun.
  eapply quiet_run_step; [done|by eapply (step_ping_state _ _ msg p ws)|].
  case_bool_decide as Hd; [rewrite M_ret_eq in Hrun; by simplify_eq|].
  rewrite M_bind_eq in Hrun.
  destruct (EventBus_Send net_err line_len msg p s) as [[err|e|] s1] eqn:Es; [|done..].
  eapply quiet_run_step; [done|by eapply (step_ping_send _ _ msg p ws)|].
  destruct err as [e|]; [|rewrite M_ret_eq in Hrun; by simplify_eq].
  rewrite M_bind_eq in Hrun.
  destruct (WorkerClient_Shutdown p s1) as [[r|e'|] s2] eqn:Esd; [|done..].
  rewrite M_ret_eq in Hrun. simplify_eq.
  eapply quiet_run_step; [done|by eapply (step_ping_shutdown _ _ msg p ws)|]. done.
Qed.

Lemma broadcast_conns msg ws s s' :
  for_each (broadcast_one net_err line_len msg) ws s = (Returns tt, s') →
  same_clients s s' ∧ p_conns s' = p_conns s.
Proof.
  revert s. induction ws as [|p ws IH]; intros s; cbn [for_each].
  { rewrite M_ret_eq. intros [= <-]. done. }
  rewrite M_bind_eq. destruct (p_heap s !! p) as [w|] eqn:Hw.
  - destruct (broadcast_one_spec net_err line_len p w msg s Hw) as (s1 & -> & Hc & Hh & _).
    intros Hrun. destruct (IH s1 Hrun) as [Hs ->]. split; [|done]. intros q. rewrite Hs.
    unfold client_id. rewrite Hh. destruct (decide (q = p)) as [->|Hne]; [|by rewrite lookup_insert_ne].
    rewrite lookup_insert_eq, Hw. cbn. unfold pinged. by repeat case_match.
  - unfold broadcast_one, WorkerClient_State. rewrite M_bind_eq, M_bind_eq. unfold deref. by rewrite Hw.
Qed.

Lemma broadcast_run m msg ws s :
  m_crashed m = false → (∀ p, p ∈ ws → is_Some (p_heap s !! p)) →
  ∃ s', for_each (broadcast_one net_err line_len msg) ws s = (Returns tt, s') ∧
    ∀ m', quiet_run (with_health (HPinging msg []) (with_pool s' m)) m' →
          quiet_run (with_health (HPinging msg ws) (with_pool s m)) m'.
Proof.
  intros Hcr. revert s. induction ws as [|p ws IH]; intros s Hlive; [by exists s|].
  destruct (broadcast_one_run m msg p ws s) as (s1 & Hrun & Hsame & Hr1); [done|apply Hlive; set_solver|].
  destruct (IH s1) as (s2 & Hrun2 & Hr2).
  { intros q Hq. apply (same_clients_live _ _ q Hsame), Hlive. set_solver. }
  exists s2. cbn [for_each]. rewrite M_bind_eq, Hrun. auto.
Qed.

Lemma eliminate_run m ks r s :
  m_crashed m = false → NoDup ks → rg_owed r = list_to_set ks →
  (∀ k, k ∈ ks → (k ∉ rg_seen r) ∧ ∃ p, p_conns s !! k = Some p ∧ is_Some (p_heap s !! p)) →
  m_closer m = None →
  ∃ s', eliminateWorkers ks s = (Returns tt, s') ∧
    ∀ m', quiet_run (with_health HWaiting (with_pool s' m)) m' →
          quiet_run (with_health (HRanging r) (with_pool s m)) m'.
Proof.
  intros Hcr Hnd. revert r s. induction Hnd as [|k ks Hk Hnd IH]; intros r s Ho Hin Hcl.
  { exists s. split; [done|]. intros m' Hr. eapply quiet_run_step; [done|by eapply step_eliminated|done]. }
  destruct (Hin k) as (Hs & p & Hp & [w Hw]); [set_solver|].
  assert (WorkerClient_State p s = (Returns (wc_status w), s)) as Hst.
  { unfold WorkerClient_State. by rewrite M_bind_eq, (deref_eq _ _ _ Hw), M_ret_eq. }
  unfold eliminateWorkers. cbn [for_each]. rewrite M_bind_eq. unfold eliminate_one at 1.
  rewrite M_bind_eq. unfold Registry_Get, gets. rewrite Hp, M_bind_eq, Hst.
  assert ((rg_owed r ∖ {[k]}) = list_to_set ks) as Ho' by (rewrite Ho; set_solver).
  case_bool_decide as Hd.
  - rewrite M_bind_eq. unfold Registry_Remove. rewrite M_bind_eq. cbn.
    set (s1 := set_conns _ s).
    destruct (IH (range_forget k (range_visit k r)) s1) as (s2 & Hrun & Hr2).
    { cbn. set_solver. }
    { intros k' Hk'. destruct (Hin k') as (? & p' & Hp' & ?); [set_solver|]. split; [cbn; set_solver|].
      exists p'. cbn. rewrite lookup_delete_ne by set_solver. done. }
    { done. }
    exists s2. split; [exact Hrun|]. intros m' Hr.
    eapply quiet_run_step; [done|eapply (step_visit _ _ r k p (wc_status w) s); done|].
    rewrite bool_decide_true by done.
    eapply quiet_run_step; [done|by eapply (step_remove _ _ (range_visit k r) k)|].
    cbn. rewrite Hcl. cbn. specialize (Hr2 m' Hr). by destruct m; cbn in *; subst.
  - rewrite M_ret_eq.
    destruct (IH (range_visit k r) s) as (s2 & Hrun & Hr2).
    { done. }
    { intros k' Hk'. destruct (Hin k') as (? & p' & Hp' & ?); [set_solver|]. split; [cbn; set_solver|].
      eauto. }
    { done. }
    exists s2. split; [exact Hrun|]. intros m' Hr.
    eapply quiet_run_step; [done|eapply (step_visit _ _ r k p (wc_status w) s); done|].
    rewrite bool_decide_false by done. auto.
Qed.

(** [health_tick] is a run of the health check that nobody disturbs. *)
Lemma health_tick_undisturbed m ks1 ks2 :
  master_ok m → m_crashed m = false → m_health m = HWaiting → m_closer m = None →
  range_order (p_conns (m_pool m)) ks1 → range_order (p_conns (m_pool m)) ks2 →
  ∃ s', health_tick net_err line_len ks1 ks2 (m_pool m) = (Returns tt, s') ∧
    quiet_run m (with_pool s' m).
Proof.
  intros Hok Hcr Hpc Hcl Hk1 Hk2. unfold health_tick, pingWorkers. rewrite M_bind_eq, M_bind_eq.
  destruct (now_milli_eq (m_pool m)) as (ts & a & Hnow). rewrite Hnow, M_bind_eq.
  set (ws := omap (λ k, p_conns (m_pool m) !! k) ks1).
  assert (Registry_GetAll ks1 (set_amb a (m_pool m)) = (Returns ws, set_amb a (m_pool m))) as Hall by done.
  rewrite Hall, M_bind_eq. unfold EventBus_Broadcast. rewrite M_bind_eq.
  destruct (broadcast_run m (ping_message ts) ws (set_amb a (m_pool m))) as (s1 & Hb & Hr1).
  { done. }
  { intros p (k & _ & Hk)%list_elem_of_omap. by eapply (master_ok_registered m). }
  destruct (broadcast_conns (ping_message ts) ws (set_amb a (m_pool m)) s1 Hb) as [Hsame Hc].
  rewrite Hb, !M_ret_eq.
  destruct (eliminate_run m ks2 (range_start s1) s1) as (s2 & He & Hr2).
  { done. }
  { by eapply range_order_NoDup. }
  { cbn. rewrite Hc. apply set_eq. intros k. rewrite elem_of_list_to_set, elem_of_dom.
    symmetry. exact (range_order_elem _ _ k Hk2). }
  { intros k Hk. split; [cbn; set_solver|]. rewrite Hc. apply (range_order_elem _ _ k Hk2) in Hk as [p Hp].
    exists p. split; [exact Hp|]. apply (same_clients_live _ _ p Hsame). by eapply (master_ok_registered m). }
  { done. }
  exists s2. split; [exact He|].
  eapply quiet_run_step; [done|by eapply (step_tick _ _ ks1)|]. apply Hr1.
  eapply quiet_run_step; [done|by eapply (step_eliminate _ _ (ping_message ts))|]. apply Hr2.
  exists []. destruct m; cbn in *; subst. constructor.
Qed.

End invariant.

Lemma NewMasterCore_ok a : gw_ok (NewMasterCore a).
Proof.
  split_and!; simpl.
  - intros pid p Hp. by rewrite lookup_empty in Hp.
  - intros p1 p2 w1 w2 c Hp. by rewrite lookup_empty in Hp.
  - intros p Hp. by apply not_elem_of_nil in Hp.
  - unfold chan_cap. lia.
Qed.

(** The registry of the program knows one name. *)
Lemma RegisterCommand_lookup {W} name :
  commands (RegisterCommand (W := W)) !! name =
    if bool_decide (name = "NOOP") then Some (λ _ _, mret None) else None.
Proof.
  unfold RegisterCommand, MasterRegistry_Register, NewMasterRegistry. simpl.
  change (ToUpper "noop") with (String.String (Ascii.ascii_of_nat 78) "OOP").
  case_bool_decide as Hn; [subst; by rewrite lookup_insert_eq|by rewrite lookup_insert_ne].
Qed.

Lemma running_master_ok a : master_ok (running_master a).
Proof.
  split; [apply NewMasterCore_ok|]. cbn. split_and!.
  - intros p Hp. by apply not_elem_of_nil in Hp.
  - constructor.
  - intros pid p Hp. by rewrite lookup_empty in Hp.
Qed.

(** ** Witness data

    Worker 7 registers.  Worker 8 is started while the health check, after its
    ping to worker 7, ranges over the registry. *)

Definition good_net (c n : nat) : goerror := None.

Definition report (pid : Z) (conn : nat) (m : mstate) : mstate :=
  with_gw (worker_goroutine None (chars (pid_report pid)) conn (m_gw m)).2 m.

Definition started (net : nat → nat → goerror) (p : nat) (m : mstate) : mstate :=
  with_hand (Some p) (with_gw (register_start net (λ _, 1%Z) (m_gw m)).2 m).

Definition master0 : mstate := running_master (mkAmbient 0 0).
Definition first_started : mstate := started good_net 0 (report 7 1 master0).
Definition first_added : mstate := with_hand None (with_gw (register_add 0 (m_gw first_started)).2 first_started).
Definition second_waits : mstate := report 8 2 first_added.

Definition tick_time (s : pool) : Z := match (now_milli s).1 with Returns ts => ts | _ => 0%Z end.
Definition ping_now : MessagePayload := ping_message (tick_time (m_pool second_waits)).

Definition ticking : mstate :=
  with_health (HPinging ping_now [0]) (with_pool (now_milli (m_pool second_waits)).2 second_waits).
Definition sending : mstate := with_health (HSending ping_now 0 []) ticking.
Definition pinged_first : mstate :=
  with_health (HPinging ping_now [])
    (with_pool (EventBus_Send good_net (λ _, 1%Z) ping_now 0 (m_pool sending)).2 sending).
Definition ranging : mstate := with_health (HRanging (range_start (m_pool pinged_first))) pinged_first.
Definition second_started : mstate := started good_net 1 ranging.

Definition race_labels : list mlabel :=
  [LHandshake None (chars (pid_report 7)) 1; LStarted 7; LAdded 7;
   LHandshake None (chars (pid_report 8)) 2; LHealth; LHealth; LHealth; LHealth; LStarted 8].

Lemma no_shared_conn (m : mstate) conn :
  bool_decide (map_Forall (λ _ w, wc_l w ≠ Some conn) (p_heap (m_pool m))) = true →
  ∀ p w, p_heap (m_pool m) !! p = Some w → wc_l w ≠ Some conn.
Proof. intros Hd p w. by apply (bool_decide_eq_true_1 _ Hd p w). Qed.

Lemma race_run : master_run good_net (λ _, 1%Z) master0 race_labels second_started.
Proof.
  eapply run_cons; [apply master_goroutine; [done|]|].
  { apply (step_handshake _ _ None _ 1); [by apply no_shared_conn|reflexivity]. }
  eapply run_cons; [apply master_goroutine; [done|]|].
  { apply (step_start _ _ 0 None (mkClient Connected 7 (Some 1))); vm_compute; reflexivity. }
  eapply run_cons; [apply master_goroutine; [done|]|].
  { apply (step_add _ _ 0 (mkClient Connected 7 (Some 1))); vm_compute; reflexivity. }
  eapply run_cons; [apply master_goroutine; [done|]|].
  { apply (step_handshake _ _ None _ 2); [by apply no_shared_conn|reflexivity]. }
  eapply run_cons; [apply master_goroutine; [done|]|].
  { apply (step_tick _ _ [7%Z] (tick_time (m_pool second_waits)) (now_milli (m_pool second_waits)).2 [0]
             (now_milli (m_pool second_waits)).2); [reflexivity|decide_by_eval|reflexivity..]. }
  eapply run_cons; [apply master_goroutine; [done|]|].
  { apply (step_ping_state _ _ ping_now 0 [] Connected (m_pool ticking) ticking); vm_compute; reflexivity. }
  eapply run_cons; [apply master_goroutine; [done|]|].
  { apply (step_ping_send _ _ ping_now 0 [] None); vm_compute; reflexivity. }
  eapply run_cons; [apply master_goroutine; [done|]|].
  { apply (step_eliminate _ _ ping_now pinged_first). reflexivity. }
  eapply run_cons; [apply master_goroutine; [done|]|constructor].
  apply (step_start _ _ 1 None (mkClient Connected 8 (Some 2))); vm_compute; reflexivity.
Qed.

(** The unlocked loop of eliminateWorkers is not safe: a run with two healthy
    workers ends with the run-time stopping the process. *)
Lemma registry_race_is_fatal :
  ∃ ls m, master_run good_net (λ _, 1%Z) master0 ls m ∧ m_crashed m = true.
Proof.
  eexists _, _. split; [eapply master_run_app; [exact race_run|]|].
  - eapply run_cons; [|constructor]. apply (master_fatal _ _ second_started); [reflexivity|].
    left. split; [eauto|]. left. eexists. reflexivity.
  - reflexivity.
Qed.

(** ** Properties *)

(** C8: in every state the master reaches from its start, by any interleaving
    of the actions of its goroutines (handshakes on connections of their own, the
    registration loop between Start and Add, each send and each removal of the
    health check, which works on a snapshot and then ranges over the registry
    without its lock, CloseAllConnections, the shutdown goroutines), whatever the
    network does, and also when the run-time stops the process for a concurrent
    map access: the registry maps pids to live clients of that pid, no two clients
    share a connection, at most one worker waits in the channel, every client a
    goroutine still refers to is live, and a worker that waits or is being started
    is there once and not registered. *)
Theorem master_invariant `{Ambient} net_err line_len a ls m :
  master_run net_err line_len (running_master a) ls m → master_ok m.
Proof. intros Hr. exact (master_run_ok _ _ _ _ _ (running_master_ok a) Hr). Qed.

Lemma master_invariant_witness :
  m_hand second_started = Some 1 ∧ (∃ r, m_health second_started = HRanging r) ∧ master_ok second_started.
Proof.
  split; [reflexivity|]. split; [eexists; reflexivity|].
  apply (master_invariant good_net (λ _, 1%Z) (mkAmbient 0 0) race_labels). exact race_run.
Defined.

(** with the registry of the program, the control loop executes
    commands named exactly NOOP and ends for good at the first other command: the
    events after it are never read. In particular every line typed in lower case
    ends it. *)
Theorem control_loop_ends_at_unknown {W} (core : SystemCore W) events (w : W) :
  control_loop RegisterCommand core events w =
    (Returns match list_find (λ e, op_Name e ≠ "NOOP") events with
             | Some (i, _) => drop (S i) events
             | None => []
             end, w).
Proof.
  induction events as [|e events IH]; [done|]. cbn [control_loop]. rewrite M_bind_eq.
  unfold MasterRegistry_Execute. rewrite RegisterCommand_lookup. cbn [list_find].
  case_bool_decide as Hn.
  - rewrite decide_False by naive_solver. rewrite M_bind_eq, !M_ret_eq. cbn [snd]. rewrite IH.
    by destruct (list_find _ events) as [[i x]|].
  - rewrite decide_True by done. done.
Qed.
