(* ===== verification/Membership.v ===== *)
(** * What the master promises about its workers

    An abstract account of the master: the workers that have announced themselves and
    are not settled yet, the members, and whether announcements are still taken up.
    What a step of the master ([master_step], Master.v) is seen to do determines what
    happens to this account ([events_of]), and every run of the master is a run of the
    account under exactly those events. *)

From S2P Require Import Prelude GoStr GoJson LoyaltyDomain LoyaltyApp Operation WorkerPool WorkerCore Master.

Record membership : Type := mkMembership {
  ms_waiting : list Z;
  ms_members : gset Z;
  ms_accepting : bool;
}.

Inductive member_event : Type := Announced (pid : Z) | Joined (pid : Z) | Refused (pid : Z) | Dropped (pid : Z).

(** At most two workers are waiting: one in the hands of the registration loop and
    one in the channel.  The first refusal is the last word: nobody joins after it.
    Members leave only by being dropped. *)
Inductive member_step : membership → member_event → membership → Prop :=
| ms_announce pid ws X b :
    length ws < 2 →
    member_step (mkMembership ws X b) (Announced pid) (mkMembership (ws ++ [pid]) X b)
| ms_join pid ws X :
    member_step (mkMembership (pid :: ws) X true) (Joined pid) (mkMembership ws ({[pid]} ∪ X) true)
| ms_refuse pid ws X :
    member_step (mkMembership (pid :: ws) X true) (Refused pid) (mkMembership ws X false)
| ms_drop pid ws X b :
    member_step (mkMembership ws X b) (Dropped pid) (mkMembership ws (X ∖ {[pid]}) b).

Inductive member_trace : membership → list member_event → membership → Prop :=
| mt_nil m : member_trace m [] m
| mt_cons m1 e m2 es m3 : member_step m1 e m2 → member_trace m2 es m3 → member_trace m1 (e :: es) m3.

Definition no_members : membership := mkMembership [] ∅ true.

(** The abstraction of a state of the master. *)
Definition pids_of (s : pool) (ps : list nat) : list Z := omap (λ p, wc_pid <$> p_heap s !! p) ps.

Definition waiting_pids (m : mstate) : list Z := pids_of (m_pool m) (in_hand m ++ g_chan (m_gw m)).

Definition membership_of (m : mstate) : membership :=
  mkMembership (waiting_pids m) (dom (p_conns (m_pool m))) (g_loop (m_gw m)).

(** What the account sees of a step. *)
Definition events_of (l : mlabel) : list member_event :=
  match l with
  | LHandshake perr stream _ =>
      match announced_pid perr stream with Some pid => [Announced pid] | None => [] end
  | LAdded pid => [Joined pid]
  | LRefused pid => [Refused pid]
  | LRemoved pid => [Dropped pid]
  | _ => []
  end.

(** ** The specification *)

Lemma member_trace_app m1 es1 es2 m3 :
  member_trace m1 (es1 ++ es2) m3 → ∃ m2, member_trace m1 es1 m2 ∧ member_trace m2 es2 m3.
Proof.
  revert m1. induction es1 as [|e es1 IH]; intros m1 Ht; [exists m1; split; [constructor|done]|].
  inversion Ht as [|? ? m2 ? ? Hs Ht']; subst. destruct (IH _ Ht') as (m & H1 & H2).
  exists m. split; [by econstructor|done].
Qed.

(** The pids a trace announces, and those it refuses. *)
Definition announced (es : list member_event) : list Z :=
  omap (λ e, match e with Announced pid => Some pid | _ => None end) es.

Definition joined (es : list member_event) : list Z :=
  omap (λ e, match e with Joined pid => Some pid | _ => None end) es.

Definition settled (es : list member_event) : list Z :=
  omap (λ e, match e with Joined pid | Refused pid => Some pid | _ => None end) es.

(** Workers are taken up in the order in which they announced themselves. *)
Lemma member_trace_fifo m1 es m2 :
  member_trace m1 es m2 → ms_waiting m1 ++ announced es = settled es ++ ms_waiting m2.
Proof.
  induction 1 as [m|m1 e m2 es m3 Hs _ IH]; [by rewrite app_nil_r|].
  destruct Hs; cbn in IH |- *; try done; [by rewrite <- app_assoc in IH|by f_equal..].
Qed.

Lemma member_trace_members m1 es m2 :
  member_trace m1 es m2 → ms_members m2 ⊆ ms_members m1 ∪ list_to_set (joined es).
Proof.
  induction 1 as [m|m1 e m2 es m3 Hs _ IH]; [set_solver|].
  destruct Hs; cbn in IH |- *; set_solver.
Qed.

Lemma member_trace_closed m1 es m2 :
  member_trace m1 es m2 → ms_accepting m1 = false → settled es = [] ∧ ms_accepting m2 = false.
Proof.
  induction 1 as [m|m1 e m2 es m3 Hs _ IH]; intros Hc; [done|].
  destruct Hs; cbn in *; try done; by apply IH.
Qed.

Lemma member_trace_trans m1 es1 m2 es2 m3 :
  member_trace m1 es1 m2 → member_trace m2 es2 m3 → member_trace m1 (es1 ++ es2) m3.
Proof. intros H1 H2. induction H1; [done|]. econstructor; eauto. Qed.

Lemma member_trace_one m1 e m2 : member_step m1 e m2 → member_trace m1 [e] m2.
Proof. intros. econstructor; [done|constructor]. Qed.

(** ** The simulation *)

Section simulation.
Context `{Ambient} (net_err : nat → nat → goerror) (line_len : json → Z).

(** The pids of the waiting clients survive as long as the clients do. *)
Lemma pids_of_same s s' ps : same_clients s s' → pids_of s' ps = pids_of s ps.
Proof using Type.
  clear net_err line_len. intros Hs. unfold pids_of. induction ps as [|p ps IH]; [done|]. cbn.
  assert (wc_pid <$> p_heap s' !! p = wc_pid <$> p_heap s !! p) as ->; [|by rewrite IH].
  specialize (Hs p). unfold client_id in Hs. apply (f_equal (fmap fst)) in Hs.
  by rewrite <- !option_fmap_compose in Hs.
Qed.

Lemma pids_of_app s ps1 ps2 : pids_of s (ps1 ++ ps2) = pids_of s ps1 ++ pids_of s ps2.
Proof using Type. clear net_err line_len. unfold pids_of. by rewrite omap_app. Qed.

(** A quiet action of a goroutine is not seen by the account. *)
Lemma quiet_membership m s' h c b :
  same_clients (m_pool m) s' → p_conns s' = p_conns (m_pool m) →
  membership_of (mkMaster (mkGw s' (g_chan (m_gw m)) (g_loop (m_gw m))) (m_hand m) h c b) = membership_of m.
Proof using Type.
  clear net_err line_len. intros Hs Hc. unfold membership_of, waiting_pids. cbn. rewrite Hc.
  by rewrite (pids_of_same (m_pool m)).
Qed.

Lemma handshake_simulates m g' perr stream conn :
  master_ok m → worker_goroutine perr stream conn (m_gw m) = (Returns tt, g') →
  member_trace (membership_of m) (events_of (LHandshake perr stream conn)) (membership_of (with_gw g' m)).
Proof using Type.
  clear net_err line_len. intros Hok Hrun. cbn [events_of].
  destruct (worker_cases _ _ _ _ _ Hrun) as [[-> ->]|(pid & q & -> & Hq & Hlen & ->)].
  { destruct m. constructor. }
  apply member_trace_one.
  set (s' := set_heap (<[q:=NewWorkerClient (Some conn) pid]> (p_heap (m_pool m))) (m_pool m)).
  assert (pids_of s' (in_hand m ++ g_chan (m_gw m)) = waiting_pids m) as Hw.
  { unfold waiting_pids, pids_of. apply list_omap_ext, Forall_Forall2_diag, Forall_forall.
    intros p Hp. cbn. rewrite lookup_insert_ne; [done|]. intros <-. destruct Hok as (Hgw & Hlive & _).
    assert (is_Some (p_heap (m_pool m) !! q)) as [w Hw]; [|unfold m_pool in Hw; congruence].
    apply elem_of_app in Hp as [Hp|Hp]; [apply Hlive; set_solver|by apply Hgw]. }
  assert (membership_of (with_gw (mkGw s' (g_chan (m_gw m) ++ [q]) (g_loop (m_gw m))) m) =
    mkMembership (waiting_pids m ++ [pid]) (dom (p_conns (m_pool m))) (g_loop (m_gw m))) as Heq.
  { unfold membership_of. f_equal. rewrite <- Hw. unfold waiting_pids at 1.
    change (pids_of s' (in_hand m ++ g_chan (m_gw m) ++ [q]) = pids_of s' (in_hand m ++ g_chan (m_gw m)) ++ [pid]).
    rewrite app_assoc, pids_of_app. f_equal. unfold pids_of. cbn. by rewrite lookup_insert_eq. }
  unfold m_pool in s'. fold s'. rewrite Heq. constructor. unfold waiting_pids, in_hand, pids_of.
  assert (g_chan (m_gw m) = []) as ->.
  { destruct (g_chan (m_gw m)); [done|]. unfold chan_cap in Hlen. cbn in Hlen. lia. }
  destruct (m_hand m) as [p|]; cbn; [|lia]. destruct (p_heap (m_pool m) !! p); cbn; lia.
Qed.

Lemma start_simulates m g' p (err : goerror) w :
  master_ok m → m_hand m = None → register_start net_err line_len (m_gw m) = (Returns (p, err), g') →
  p_heap (g_pool g') !! p = Some w →
  member_trace (membership_of m)
    (events_of match err with None => LStarted (wc_pid w) | Some _ => LRefused (wc_pid w) end)
    (membership_of (with_hand (match err with None => Some p | Some _ => None end) (with_gw g' m))).
Proof.
  intros (Hgw & _) Hh Hrun Hw.
  destruct (register_start_spec _ _ _ _ _ _ Hgw Hrun)
    as (Hl & rest & v & Ech & Hv & Hch & Hheap & Hc & _ & Herr & Hl').
  assert (same_clients (m_pool m) (g_pool g')) as Hs by by eapply same_clients_insert.
  assert (waiting_pids m = wc_pid w :: pids_of (g_pool g') rest) as Hwait.
  { unfold waiting_pids, in_hand. rewrite Hh, Ech. change ([] ++ p :: rest) with (p :: rest).
    rewrite <- (pids_of_same _ _ (p :: rest) Hs).
    unfold pids_of. cbn. by rewrite Hw. }
  unfold membership_of at 1. rewrite Hwait, Hl. unfold membership_of, waiting_pids, in_hand, m_pool. cbn.
  rewrite Hch, Hc, Hl'. destruct err as [e|]; cbn.
  - assert (deliverable net_err (g_pool (m_gw m)) v = false) as ->.
    { destruct (deliverable _ _ _); [|done]. destruct Herr as [_ Herr]. by specialize (Herr eq_refl). }
    apply member_trace_one. constructor.
  - assert (deliverable net_err (g_pool (m_gw m)) v = true) as -> by by apply Herr.
    unfold pids_of. cbn. rewrite Hw. constructor.
Qed.

Lemma add_simulates m g' p w :
  master_ok m → m_hand m = Some p → p_heap (m_pool m) !! p = Some w → g_loop (m_gw m) = true →
  register_add p (m_gw m) = (Returns tt, g') →
  member_trace (membership_of m) (events_of (LAdded (wc_pid w))) (membership_of (with_hand None (with_gw g' m))).
Proof using Type.
  clear net_err line_len. intros Hok Hh Hw Hl Hrun. rewrite (register_add_spec _ _ _ _ Hw Hrun).
  apply member_trace_one. unfold membership_of, waiting_pids, in_hand. rewrite Hh, Hl. cbn.
  unfold pids_of. cbn. rewrite Hw, dom_insert_L. cbn. constructor.
Qed.

(** The registration loop runs as long as it has a worker in hand. *)
Definition hand_loop (m : mstate) : Prop := is_Some (m_hand m) → g_loop (m_gw m) = true.

Lemma hand_loop_step m l m' :
  master_ok m → hand_loop m → goroutine_step net_err line_len m l m' → hand_loop m'.
Proof.
  intros Hok Hl Hstep. unfold hand_loop in *. destruct Hstep; cbn; try done.
  - destruct (worker_cases _ _ _ _ _ H1) as [[-> _]|(? & ? & _ & _ & _ & ->)]; done.
  - destruct (register_start_spec _ _ _ _ _ _ (proj1 Hok) H1)
      as (_ & rest & v & _ & _ & _ & _ & _ & _ & Herr & Hl').
    destruct err; [by intros [? ?]|]. intros _. rewrite Hl'. by apply Herr.
Qed.

Lemma step_simulates m l m' :
  master_ok m → hand_loop m → goroutine_step net_err line_len m l m' →
  member_trace (membership_of m) (events_of l) (membership_of m').
Proof.
  intros Hok Hl Hstep. destruct Hstep as
    [perr stream conn m g' Hf Hrun|p err w m g' Hh Hrun Hw|p w m g' Hh Hw Hrun
    |ks ts s1 ws s2 m Hpc Hks Hnow Hall|msg p ws st s' m Hpc Hrun|msg p ws err s' m Hpc Hrun
    |msg p ws err s' m Hpc Hrun|msg m Hpc|r pid p st s' m Hpc Hp Hseen Hrun|r pid err s' m Hpc Hrun
    |r m Hpc Ho|m Hpc|m Hc|r pid p err s' m Hc Hp Hseen Hrun|r m Hc Ho|p ps1 ps2 s' m Hsp Hrun].
  1: by apply handshake_simulates.
  1: by apply start_simulates.
  1: by apply (add_simulates m g' p); [done..|apply Hl; eauto|done].
  all: cbn [events_of].
  - destruct (now_milli_eq (m_pool m)) as (ts' & a & Hnow'). rewrite Hnow' in Hnow.
    unfold Registry_GetAll, gets in Hall. simplify_eq.
    rewrite <- (quiet_membership m (set_amb a (m_pool m)) (HPinging (ping_message ts) (omap (λ k, p_conns (m_pool m) !! k) ks))
                  (m_closer m) (m_crashed m)); [constructor|by apply same_clients_heap|done].
  - apply State_quiet in Hrun as (Hs & Hc & _). erewrite <- quiet_membership; [constructor|done..].
  - unfold EventBus_Send in Hrun. rewrite M_bind_eq in Hrun.
    destruct (WorkerClient_Send _ _ _ _ _) as [[r|e|] s1] eqn:E; try done. rewrite M_ret_eq in Hrun. simplify_eq.
    apply Send_quiet in E as (Hs & Hc & _); [|apply master_ok_health; [done|rewrite Hpc; cbn; set_solver]].
    erewrite <- quiet_membership; [constructor|done..].
  - apply Shutdown_quiet in Hrun as (Hs & Hc & _); [|apply master_ok_health; [done|rewrite Hpc; cbn; set_solver]].
    erewrite <- quiet_membership; [constructor|done..].
  - constructor.
  - apply State_quiet in Hrun as (Hs & Hc & _). erewrite <- quiet_membership; [constructor|done..].
  - unfold Registry_Remove in Hrun. rewrite M_bind_eq in Hrun. injection Hrun as <- <-.
    apply member_trace_one. unfold membership_of, waiting_pids. cbn. rewrite dom_delete_L. constructor.
  - constructor.
  - constructor.
  - constructor.
  - apply Shutdown_quiet in Hrun as (Hs & Hc' & _); [|by eapply master_ok_registered].
    erewrite <- quiet_membership; [constructor|done..].
  - constructor.
  - apply goroutine_quiet in Hrun as (Hs & Hc & _).
    + erewrite <- quiet_membership; [constructor|done..].
    + apply (master_ok_spawned m); [done|]. rewrite Hsp. set_solver.
Qed.

Lemma run_simulates m ls m' :
  master_ok m → hand_loop m → master_run net_err line_len m ls m' →
  member_trace (membership_of m) (ls ≫= events_of) (membership_of m').
Proof.
  intros Hok Hl Hr. revert Hok Hl. induction Hr as [m|m1 l m2 ls m3 Hs _ IH]; intros Hok Hl; [constructor|].
  pose proof (master_step_ok _ _ _ _ _ Hok Hs) as Hok2. cbn [mbind list_bind].
  destruct Hs as [l m1 m2 _ Hs|m1 _ _].
  - eapply member_trace_trans; [by apply step_simulates|]. apply IH; [done|]. exact (hand_loop_step _ _ _ Hok Hl Hs).
  - by apply IH.
Qed.

End simulation.

(** ** Properties *)

(** The pids that connections announced in a run, in order, and those the
    registration loop settled, by adding the worker or by refusing it. *)
Definition announced_in (ls : list mlabel) : list Z :=
  omap (λ l, match l with LHandshake perr stream _ => announced_pid perr stream | _ => None end) ls.

Definition settled_in (ls : list mlabel) : list Z :=
  omap (λ l, match l with LAdded pid | LRefused pid => Some pid | _ => None end) ls.

Lemma announced_events ls : announced (ls ≫= events_of) = announced_in ls.
Proof.
  induction ls as [|l ls IH]; [done|]. cbn [mbind list_bind]. unfold announced in *. rewrite omap_app, IH.
  destruct l; cbn; try done. by destruct (announced_pid _ _).
Qed.

Lemma settled_events ls : settled (ls ≫= events_of) = settled_in ls.
Proof.
  induction ls as [|l ls IH]; [done|]. cbn [mbind list_bind]. unfold settled in *. rewrite omap_app, IH.
  destruct l; cbn; try done. by destruct (announced_pid _ _).
Qed.

Lemma joined_events ls pid : pid ∈ joined (ls ≫= events_of) → LAdded pid ∈ ls.
Proof.
  unfold joined. intros (e & He & Hp)%list_elem_of_omap. destruct e as [|pid'| |]; simplify_eq.
  apply list_elem_of_bind in He as (l & He & Hl).
  destruct l; cbn in He; try (by apply not_elem_of_nil in He);
    [destruct (announced_pid _ _); [|by apply not_elem_of_nil in He]|..];
    apply list_elem_of_singleton in He; by simplify_eq.
Qed.

(** C7: every run of the master, whatever the interleaving and the network, is a
    run of the abstract membership from the empty one, under the events the steps
    of the run determine: a connection that got its descriptor and sent a pid line
    announces that pid, Add makes that pid a member, a failed Start refuses it,
    Remove drops it, and no other step changes the membership.  So the pids taken
    up are the announced ones, in the order of the handshakes, less those still
    waiting; every registered pid was added by the loop; and once the loop has
    refused a worker it has ended, and nobody is added or refused any more. *)
Theorem master_refines_membership `{Ambient} net_err line_len a ls m :
  master_run net_err line_len (running_master a) ls m →
  member_trace no_members (ls ≫= events_of) (membership_of m) ∧
  announced_in ls = settled_in ls ++ waiting_pids m ∧
  (∀ pid, is_Some (p_conns (m_pool m) !! pid) → LAdded pid ∈ ls) ∧
  ∀ ls1 pid ls2, ls = ls1 ++ LRefused pid :: ls2 →
    settled_in ls2 = [] ∧ g_loop (m_gw m) = false.
Proof.
  intros Hr. assert (hand_loop (running_master a)) as Hl by (intros [? ?]; done).
  pose proof (run_simulates _ _ _ _ _ (running_master_ok a) Hl Hr) as Ht.
  change (membership_of (running_master a)) with no_members in Ht. split; [done|].
  split; [rewrite <- announced_events, <- settled_events; exact (member_trace_fifo _ _ _ Ht)|]. split.
  - intros pid Hp%elem_of_dom. apply joined_events.
    pose proof (member_trace_members _ _ _ Ht) as Hm. cbn in Hm. set_solver.
  - intros ls1 pid ls2 ->. rewrite bind_app in Ht. apply member_trace_app in Ht as (m1 & _ & Ht).
    cbn [mbind list_bind events_of app] in Ht.
    inversion Ht as [|? ? m2 ? ? Hs Ht']; subst. inversion Hs; subst. rewrite <- settled_events.
    by destruct (member_trace_closed _ _ _ Ht' eq_refl).
Qed.

Lemma master_refines_membership_witness :
  announced_in race_labels = [7%Z; 8%Z] ∧ settled_in race_labels = [7%Z] ∧
  waiting_pids second_started = [8%Z] ∧
  member_trace no_members [Announced 7; Joined 7; Announced 8] (membership_of second_started).
Proof.
  destruct (master_refines_membership good_net (λ _, 1%Z) (mkAmbient 0 0) race_labels second_started race_run)
    as (Ht & Ha & _).
  split; [vm_compute; reflexivity|]. split; [vm_compute; reflexivity|]. split.
  - vm_compute. reflexivity.
  - exact Ht.
Defined.

(** ** A worker whose first ping fails *)

Definition broken_net (c n : nat) : goerror := Some (Foreign "net" "write: broken pipe").

Definition loop_dead : mstate :=
  with_gw (register_start broken_net (λ _, 0%Z) (m_gw (report 7 1 master0))).2 (report 7 1 master0).

Lemma loop_dead_run :
  master_run broken_net (λ _, 0%Z) master0 [LHandshake None (chars (pid_report 7)) 1; LRefused 7] loop_dead.
Proof.
  eapply run_cons; [apply master_goroutine; [done|]|].
  { apply (step_handshake _ _ None _ 1); [by apply no_shared_conn|reflexivity]. }
  eapply run_cons; [apply master_goroutine; [done|]|constructor].
  apply (step_start _ _ 0 (Some (Wrap "failed to send message to worker %d: %w" ["7"] (Foreign "net" "write: broken pipe")))
           (mkClient Connected 7 (Some 1))); vm_compute; reflexivity.
Qed.

(** The registration loop ends on the first worker whose first ping cannot be
    written: however the run goes on and however many workers connect, none is
    registered after it. *)
Lemma failed_start_stops_registration `{Ambient} net_err line_len a ls1 pid ls2 m :
  master_run net_err line_len (running_master a) (ls1 ++ LRefused pid :: ls2) m →
  g_loop (m_gw m) = false ∧ ∀ pid', LAdded pid' ∉ ls2.
Proof.
  intros Hr. assert (hand_loop (running_master a)) as Hl by (intros [? ?]; done).
  pose proof (run_simulates _ _ _ _ _ (running_master_ok a) Hl Hr) as Ht.
  rewrite bind_app in Ht. apply member_trace_app in Ht as (m1 & _ & Ht).
  cbn [mbind list_bind events_of app] in Ht.
  inversion Ht as [|? ? m2 ? ? Hs Ht']; subst. inversion Hs; subst.
  destruct (member_trace_closed _ _ _ Ht' eq_refl) as [Hset ?]. split; [done|].
  intros pid' Hin. rewrite settled_events in Hset.
  assert (pid' ∈ settled_in ls2) as Hp by (apply list_elem_of_omap; eauto).
  rewrite Hset in Hp. by apply not_elem_of_nil in Hp.
Qed.

Lemma failed_start_stops_registration_witness :
  g_loop (m_gw loop_dead) = false ∧ p_conns (m_pool loop_dead) = ∅.
Proof.
  split; [|vm_compute; reflexivity].
  apply (failed_start_stops_registration broken_net (λ _, 0%Z) (mkAmbient 0 0)
           [LHandshake None (chars (pid_report 7)) 1] 7 []). exact loop_dead_run.
Defined.
