(* ===== verification/Config.v ===== *)
(** * pkg/config: the configuration and its validation

    The struct types, one [Validate] per type, and [NewConfig], which panics
    unless the file is read, decoded and valid.  Viper (reading and decoding) and
    ozzo-validation are parameters; of ozzo the rules used are [Required] and
    [In], and [ValidateStruct] over fields. *)

From S2P Require Import Prelude.

(** ** The structs *)

Record AppConfig : Type := mkAppConfig { ac_Name : string; ac_Mode : string; ac_Version : Z }.

Record Monitoring : Type := mkMonitoring {
  mo_OtelEndpoint : string; mo_EnableCollectLog : bool; mo_EnableTelemetry : bool }.

Record Database : Type := mkDatabase {
  db_Adapter : string;
  db_Encoding : string;
  db_Reconnect : bool;
  db_DatabaseName : string;
  db_SSLMode : bool;
  db_Alias : string;
  db_Pool : Z;
  db_Schema : string;
  db_Host : string;
  db_Port : Z;
  db_Username : string;
  db_Password : string;
  db_Path : string;
}.

Record CorsConfig : Type := mkCors { co_AllowedOrigins : list string; co_AllowedMethods : list string }.

Record ApiConfig : Type := mkApi { ap_Port : Z; ap_Cors : CorsConfig }.

Record Config : Type := mkConfig {
  cf_App : AppConfig;
  cf_Database : Database;
  cf_Monitoring : Monitoring;
  cf_ExternalDatabases : list Database;
  cf_Api : ApiConfig;
}.

(** ** ozzo-validation *)

(** The values rules are applied to. *)
Inductive ozzo_value : Type :=
| OStr (s : string)
| OInt (z : Z)
| OBool (b : bool)
| OStrs (l : list string)
| OStruct.

(** ozzo's IsEmpty: zero numbers, false, empty strings and slices; a struct is
    never empty. *)
Definition ozzo_empty (v : ozzo_value) : bool :=
  match v with
  | OStr s => bool_decide (s = "")
  | OInt z => bool_decide (z = 0%Z)
  | OBool b => negb b
  | OStrs l => bool_decide (l = [])
  | OStruct => false
  end.

(** [Required] and [In] are rules; a field is checked by its rules and then, if its
    value can validate itself, by its own [Validate]; [ValidateStruct] collects the
    failing fields. *)
Class Ozzo : Type := {
  ozzo_Required : ozzo_value → goerror;
  ozzo_In : list string → string → goerror;
  ozzo_Field : list goerror → goerror → goerror;
  ozzo_ValidateStruct : list goerror → goerror;
  Required_law : ∀ v, ozzo_Required v = None ↔ ozzo_empty v = false;
  In_law : ∀ l s, ozzo_In l s = None ↔ s = "" ∨ s ∈ l;
  Field_law : ∀ rules nested, ozzo_Field rules nested = None ↔ Forall (λ e, e = None) rules ∧ nested = None;
  ValidateStruct_law : ∀ fs, ozzo_ValidateStruct fs = None ↔ Forall (λ e, e = None) fs;
}.

Section validate.
Context `{Ozzo}.

Definition field (rules : list goerror) : goerror := ozzo_Field rules None.

Definition AppConfig_Validate (c : AppConfig) : goerror :=
  ozzo_ValidateStruct [
    field [ozzo_Required (OInt (ac_Version c))];
    field [ozzo_Required (OStr (ac_Name c))];
    field [ozzo_Required (OStr (ac_Mode c)); ozzo_In ["development"; "production"] (ac_Mode c)]].

Definition Monitoring_Validate (c : Monitoring) : goerror :=
  ozzo_ValidateStruct [field [ozzo_Required (OStr (mo_OtelEndpoint c))]].

Definition isSQLite (c : Database) : bool :=
  bool_decide (db_Adapter c = "sqlite" ∨ db_Adapter c = "sqlite-gorm").

Definition Database_Validate (c : Database) : goerror :=
  if isSQLite c then
    ozzo_ValidateStruct [
      field [ozzo_Required (OStr (db_Adapter c))];
      field [ozzo_Required (OStr (db_Alias c))]]
  else
    ozzo_ValidateStruct [
      field [ozzo_Required (OStr (db_Adapter c))];
      field [ozzo_Required (OStr (db_Encoding c))];
      field [ozzo_Required (OStr (db_DatabaseName c))];
      field [];
      field [];
      field [ozzo_Required (OStr (db_Alias c))];
      field [ozzo_Required (OInt (db_Pool c))];
      field [ozzo_Required (OInt (db_Port c))];
      field [ozzo_Required (OStr (db_Host c))];
      field [ozzo_Required (OStr (db_Username c))];
      field [ozzo_Required (OStr (db_Password c))]].

Definition CorsConfig_Validate (c : CorsConfig) : goerror :=
  ozzo_ValidateStruct [
    field [ozzo_Required (OStrs (co_AllowedOrigins c))];
    field [ozzo_Required (OStrs (co_AllowedMethods c))]].

Definition ApiConfig_Validate (c : ApiConfig) : goerror :=
  ozzo_ValidateStruct [
    field [ozzo_Required (OInt (ap_Port c))];
    ozzo_Field [ozzo_Required OStruct] (CorsConfig_Validate (ap_Cors c))].

(** A slice of validatable values is validated element by element. *)
Definition validate_slice (l : list Database) : goerror :=
  ozzo_ValidateStruct (Database_Validate <$> l).

(** Monitoring is not among the validated fields. *)
Definition Config_Validate (c : Config) : goerror :=
  ozzo_ValidateStruct [
    ozzo_Field [] (AppConfig_Validate (cf_App c));
    ozzo_Field [] (Database_Validate (cf_Database c));
    ozzo_Field [] (validate_slice (cf_ExternalDatabases c));
    ozzo_Field [] (ApiConfig_Validate (cf_Api c))].

(** The outcome of [viper.ReadInConfig]. *)
Inductive viper_read : Type := ReadOk | NotFound | ReadError (msg : string).

Definition NewConfig (read : viper_read) (unmarshal : Config + error) : outcome Config :=
  match read with
  | NotFound => Panics "config not found"
  | ReadError msg => Panics (sprintf "Config error occured, %s" [msg])
  | ReadOk =>
      match unmarshal with
      | inr e => Panics (sprintf "error while marshalling to struct %s" [Error e])
      | inl config =>
          match Config_Validate config with
          | Some e => Panics (Error e)
          | None => Returns config
          end
      end
  end.

End validate.

(** ** What a valid configuration is *)

Definition app_ok (c : AppConfig) : Prop :=
  ac_Version c ≠ 0%Z ∧ ac_Name c ≠ "" ∧ ac_Mode c ∈ ["development"; "production"].

Definition database_ok (c : Database) : Prop :=
  db_Alias c ≠ "" ∧
  (db_Adapter c = "sqlite" ∨ db_Adapter c = "sqlite-gorm" ∨
   db_Adapter c ≠ "" ∧ db_Encoding c ≠ "" ∧ db_DatabaseName c ≠ "" ∧ db_Pool c ≠ 0%Z ∧
   db_Port c ≠ 0%Z ∧ db_Host c ≠ "" ∧ db_Username c ≠ "" ∧ db_Password c ≠ "").

Definition config_ok (c : Config) : Prop :=
  app_ok (cf_App c) ∧ database_ok (cf_Database c) ∧ Forall database_ok (cf_ExternalDatabases c) ∧
  ap_Port (cf_Api c) ≠ 0%Z ∧ co_AllowedOrigins (ap_Cors (cf_Api c)) ≠ [] ∧
  co_AllowedMethods (ap_Cors (cf_Api c)) ≠ [].

Section lemmas.
Context `{Ozzo}.

Lemma field_required v : field [ozzo_Required v] = None ↔ ozzo_empty v = false.
Proof. unfold field. rewrite Field_law, Forall_singleton, Required_law. tauto. Qed.

Lemma field_empty : field [] = None.
Proof. unfold field. apply Field_law. by split; [constructor|]. Qed.

Lemma required_str s : ozzo_empty (OStr s) = false ↔ s ≠ "".
Proof. apply bool_decide_eq_false. Qed.

Lemma required_int z : ozzo_empty (OInt z) = false ↔ z ≠ 0%Z.
Proof. apply bool_decide_eq_false. Qed.

Lemma app_validate c : AppConfig_Validate c = None ↔ app_ok c.
Proof.
  unfold AppConfig_Validate, app_ok. rewrite ValidateStruct_law, !Forall_cons, !field_required.
  unfold field. rewrite Field_law, !Forall_cons, Required_law, In_law, required_str, required_int, required_str.
  rewrite !Forall_nil. split.
  - intros (? & ? & ((? & [?|?] & _) & _) & _); done.
  - intros (? & ? & Hm). split_and!; try done; [|by right].
    intros E. rewrite E, !elem_of_cons in Hm. destruct Hm as [?|[?|Hm]]; [done..|].
    by apply not_elem_of_nil in Hm.
Qed.

Lemma database_validate c : Database_Validate c = None ↔ database_ok c.
Proof.
  unfold Database_Validate, database_ok, isSQLite. case_bool_decide as Hs.
  - rewrite ValidateStruct_law, !Forall_cons, !field_required, Forall_nil, !required_str.
    split; [naive_solver|]. intros [? _]. split_and!; try done. by destruct Hs as [->| ->].
  - rewrite ValidateStruct_law, !Forall_cons, !field_required, Forall_nil, !required_str, !required_int.
    pose proof field_empty. split; [naive_solver|]. intros [? [?|[?|?]]]; [naive_solver..|]. tauto.
Qed.

Lemma config_validate c : Config_Validate c = None ↔ config_ok c.
Proof.
  unfold Config_Validate, config_ok.
  rewrite ValidateStruct_law, !Forall_cons, !Field_law, Forall_nil, app_validate, database_validate.
  unfold validate_slice, ApiConfig_Validate, CorsConfig_Validate.
  rewrite !ValidateStruct_law, Forall_fmap, !Forall_cons, !Field_law, !Forall_cons, !Forall_nil, !field_required.
  rewrite Required_law, ValidateStruct_law, !Forall_cons, !field_required, Forall_nil, required_int.
  assert (∀ l, ozzo_empty (OStrs l) = false ↔ l ≠ []) as Hl by (intros; apply bool_decide_eq_false).
  rewrite !Hl.
  assert (Forall ((λ e, e = None) ∘ Database_Validate) (cf_ExternalDatabases c) ↔
          Forall database_ok (cf_ExternalDatabases c)) as ->.
  { apply Forall_iff. intros d. apply database_validate. }
  assert (ozzo_empty OStruct = false) as Ho by done. tauto.
Qed.

End lemmas.

(** ** An instance of ozzo's rules *)

Definition all_nil (l : list goerror) : goerror :=
  match omap id l with [] => None | e :: _ => Some e end.

Lemma all_nil_spec l : all_nil l = None ↔ Forall (λ e, e = None) l.
Proof.
  unfold all_nil. induction l as [|[e|] l IH]; simpl.
  - split; [constructor|done].
  - split; [done|]. intros Hf. by inversion Hf.
  - rewrite IH, Forall_cons. tauto.
Qed.

#[export] Instance ozzo_demo : Ozzo.
Proof.
  refine {| ozzo_Required v := if ozzo_empty v then Some (Fmt "cannot be blank" []) else None;
            ozzo_In l s := if bool_decide (s = "" ∨ s ∈ l) then None else Some (Fmt "must be a valid value" []);
            ozzo_Field rules nested := all_nil (rules ++ [nested]);
            ozzo_ValidateStruct := all_nil |}.
  - intros v. by destruct (ozzo_empty v).
  - intros l s. case_bool_decide; naive_solver.
  - intros rules nested. rewrite all_nil_spec, Forall_app, Forall_singleton. done.
  - apply all_nil_spec.
Defined.

Definition demo_config : Config :=
  mkConfig (mkAppConfig "shop" "production" 1)
    (mkDatabase "sqlite" "" false "" false "default" 0 "" "" 0 "" "" "shop.db")
    (mkMonitoring "" false false) [] (mkApi 8080 (mkCors ["*"] ["GET"])).

(** C26: NewConfig returns a configuration exactly when the file was read and
    decoded to it and it is valid (version, name and a known mode; for every
    database the alias, and unless it is SQLite the adapter, encoding, name, pool,
    port, host and credentials; the port and non-empty CORS lists), and it panics in
    every other case.  The monitoring section is never checked, and for SQLite
    neither is the path nor the database name. *)
Theorem NewConfig_spec `{Ozzo} read unmarshal :
  (∀ c, NewConfig read unmarshal = Returns c ↔ read = ReadOk ∧ unmarshal = inl c ∧ config_ok c) ∧
  ((¬ ∃ c, read = ReadOk ∧ unmarshal = inl c ∧ config_ok c) ↔ ∃ msg, NewConfig read unmarshal = Panics msg).
Proof.
  unfold NewConfig. destruct read; [|naive_solver..]. destruct unmarshal as [c'|e]; [|naive_solver].
  pose proof (config_validate c') as Hv. destruct (Config_Validate c') as [e|]; naive_solver.
Qed.

Definition mode_typo : Config :=
  mkConfig (mkAppConfig "shop" "prod" 1) (cf_Database demo_config) (cf_Monitoring demo_config) []
    (cf_Api demo_config).

Lemma NewConfig_spec_witness :
  NewConfig ReadOk (inl demo_config) = Returns demo_config ∧
  ∃ msg, NewConfig ReadOk (inl mode_typo) = Panics msg.
Proof.
  split.
  - apply (NewConfig_spec ReadOk (inl demo_config)).
    split; [reflexivity|]. split; [reflexivity|].
    unfold config_ok, app_ok, database_ok. simpl. split_and!; try done.
    + right. left.
    + by left.
  - apply (NewConfig_spec ReadOk (inl mode_typo)). intros (c & _ & Hc & Hok). injection Hc as <-.
    unfold config_ok, app_ok in Hok. simpl in Hok. set_solver.
Defined.
