(* ===== verification/Persistence.v ===== *)
(** * Data sources: managers, SQL adapters and database drivers

    pkg/datamanager (version 1, which panics, and version 2, which returns
    errors), adapters/sql_adapters.go, and the adapters of
    infrastructure/persistent.  The adapters are package-level singletons, one
    per driver name, each keeping the last connection it opened.

    The database drivers are a parameter: the errors of opening, pinging,
    configuring and closing a handle. *)

From S2P Require Import Prelude GoStr Config.

(** ** pkg/datamanager *)

Record DataAdapter (W : Type) : Type := mkDataAdapter {
  da_Connect : (error → M W ()) → M W ();
  da_Get : string → M W any;
  da_Disconnect : (error → M W ()) → M W ();
}.

Arguments mkDataAdapter {W} _ _ _.
Arguments da_Connect {W} _ _.
Arguments da_Get {W} _ _.
Arguments da_Disconnect {W} _ _.

(** Both versions declare the same struct. *)
Record DataManager (W : Type) : Type := mkDataManager { dm_adapter : gmap string (DataAdapter W) }.

Arguments mkDataManager {W} _.
Arguments dm_adapter {W} _.

Section datamanager.
Context {W : Type}.

Definition DataManager_New : DataManager W := mkDataManager ∅.

Definition AddAdapter (d : DataManager W) (key : string) (a : DataAdapter W) : DataManager W :=
  mkDataManager (<[key := a]> (dm_adapter d)).

Definition no_adapter (dbType : string) : string :=
  sprintf "cannot find adapter for type %s" [dbType].

(** *** Version 1 *)

Definition v1_Get (d : DataManager W) (dbType connectionName : string) : M W any :=
  match dm_adapter d !! dbType with
  | None => panic (no_adapter dbType)
  | Some a => da_Get a connectionName
  end.

Definition v1_Connect (d : DataManager W) (dbType : string) (f : error → M W ()) : M W () :=
  match dm_adapter d !! dbType with
  | None => panic (no_adapter dbType)
  | Some a => da_Connect a f
  end.

Definition v1_Close (d : DataManager W) (dbType : string) (f : error → M W ()) : M W () :=
  match dm_adapter d !! dbType with
  | None => panic (no_adapter dbType)
  | Some a => da_Disconnect a f
  end.

(** *** Version 2 *)

Definition err_no_adapter (dbType : string) : error := Fmt "cannot find adapter for type %q" [dbType].

Definition v2_Has (d : DataManager W) (dbType : string) : bool :=
  bool_decide (is_Some (dm_adapter d !! dbType)).

Definition v2_GetRaw (d : DataManager W) (dbType connectionName : string) : M W (any * goerror) :=
  match dm_adapter d !! dbType with
  | None => mret (None, Some (err_no_adapter dbType))
  | Some a => x ← da_Get a connectionName; mret (x, None)
  end.

Definition v2_Connect (d : DataManager W) (dbType : string) (f : error → M W ()) : M W goerror :=
  match dm_adapter d !! dbType with
  | None => mret (Some (err_no_adapter dbType))
  | Some a => da_Connect a f ≫= λ _, mret None
  end.

Definition v2_Close (d : DataManager W) (dbType : string) (f : error → M W ()) : M W goerror :=
  match dm_adapter d !! dbType with
  | None => mret (Some (err_no_adapter dbType))
  | Some a => da_Disconnect a f ≫= λ _, mret None
  end.

(** Go's [Get[T]]: the type is named by a string. *)
Definition dm_Get (T : string) (d : DataManager W) (dbType connectionName : string) : M W (any * goerror) :=
  r ← v2_GetRaw d dbType connectionName;
  let '(raw, err) := r in
  match (err : goerror), (raw : any) with
  | Some e, _ => mret (None, Some e)
  | None, None => mret (None, Some (Fmt "connection %q not found in adapter %q" [connectionName; dbType]))
  | None, Some v =>
      match type_assert raw T with
      | Some typed => mret (Some typed, None)
      | None => mret (None, Some (Fmt "connection %q in adapter %q is %T, expected %T"
                                      [connectionName; dbType; dyn_type v; T]))
      end
  end.

Definition dm_MustGet (T : string) (d : DataManager W) (dbType connectionName : string) : M W any :=
  r ← dm_Get T d dbType connectionName;
  match r.2 with
  | Some e => panic (sprintf "datamanager.MustGet: %s" [Error e])
  | None => mret r.1
  end.

End datamanager.

(** ** adapters/sql_adapters.go *)

(** The interface of adapters/register.go. *)
Record SqlAdapter (W : Type) : Type := mkSqlAdapter {
  sq_DriverName : string;
  sq_Connect : Database → M W (any * goerror);
  sq_Close : M W goerror;
}.

Arguments mkSqlAdapter {W} _ _ _.
Arguments sq_DriverName {W} _.
Arguments sq_Connect {W} _ _.
Arguments sq_Close {W} _.

(** The maps of a [*SqlAdapters], beside the state of the adapters. *)
Record sqlMaps (W : Type) : Type := mkSqlMaps {
  sm_alias : gmap string (SqlAdapter W);
  sm_result : gmap string any;
}.

Arguments mkSqlMaps {W} _ _.
Arguments sm_alias {W} _.
Arguments sm_result {W} _.

Section sqladapters.
Context {W : Type} (adapters : list (SqlAdapter W)) (cfg : Config).

Definition NewSqlAdapters : sqlMaps W := mkSqlMaps ∅ ∅.

Fixpoint first_adapter (l : list (SqlAdapter W)) (driver : string) : option (SqlAdapter W) :=
  match l with
  | [] => None
  | a :: l' => if bool_decide (sq_DriverName a = driver) then Some a else first_adapter l' driver
  end.

Definition getAdapterByDriver (driver : string) : option (SqlAdapter W) := first_adapter adapters driver.

(** [f] reports the error, and then the function panics. *)
Definition initConnection (c : Database) (f : error → M W ()) : M (sqlMaps W * W) any :=
  match getAdapterByDriver (db_Adapter c) with
  | None => on_snd (f (Fmt "cannot find adapter for %s" [db_Adapter c])) ≫= λ _, panic ""
  | Some adapter =>
      r ← on_snd (sq_Connect adapter c);
      match r.2 with
      | Some e => on_snd (f (Fmt "cannot connect %s database detail=%s" [db_Alias c; Error e])) ≫= λ _, panic ""
      | None => mret r.1
      end
  end.

Definition SqlAdapters_Get (connectionName : string) : M (sqlMaps W * W) any :=
  gets (λ s, default None (sm_result s.1 !! connectionName)).

(** A nil adapter cannot be stored: initConnection has panicked before. *)
Definition connect_one (f : error → M W ()) (c : Database) : M (sqlMaps W * W) () :=
  db ← initConnection c f;
  modify (λ s, (mkSqlMaps (match getAdapterByDriver (db_Adapter c) with
                           | Some a => <[db_Alias c := a]> (sm_alias s.1)
                           | None => sm_alias s.1
                           end) (<[db_Alias c := db]> (sm_result s.1)), s.2)).

Definition SqlAdapters_Connect (f : error → M W ()) : M (sqlMaps W * W) () :=
  connect_one f (cf_Database cfg) ≫= λ _, for_each (connect_one f) (cf_ExternalDatabases cfg).

(** [ks] is the order in which the alias map is ranged over. *)
Definition disconnect_one (f : error → M W ()) (k : string) : M (sqlMaps W * W) () :=
  m ← gets fst;
  match sm_alias m !! k with
  | None => mret tt
  | Some adapter =>
      err ← on_snd (sq_Close adapter);
      match err with
      | Some e => on_snd (f (Fmt "cannot close database %s detail=%s" [sq_DriverName adapter; Error e]))
      | None => mret tt
      end
  end.

Definition SqlAdapters_Disconnect (ks : list string) (f : error → M W ()) : M (sqlMaps W * W) () :=
  for_each (disconnect_one f) ks.

End sqladapters.

(** ** infrastructure/persistent

    Handles are numbered in the order they are opened: [ds_opened] lists, for each
    one, the driver and the data source name it was opened with.  [ds_db] and
    [ds_gorm] are the fields of the adapter singletons, by driver name. *)

Record dbstate : Type := mkDbstate {
  ds_opened : list (string * string);
  ds_db : gmap string nat;
  ds_gorm : gmap string nat;
  ds_closed : list nat;
}.

(** The number of the next handle. *)
Definition ds_next (s : dbstate) : nat := length (ds_opened s).

(** The errors of the drivers, by driver name and what they are asked to do. *)
Class DbEnv : Type := {
  open_err : string → string → goerror;
  ping_err : string → string → goerror;
  exec_err : string → string → goerror;
  gorm_open_err : string → goerror;
  gorm_use_err : string → goerror;
  close_err : nat → goerror;
}.

Definition postgres_driver : string := "postgres-sql/db".
Definition mysql_driver : string := "mysql".
Definition sqlite_driver : string := "sqlite".
Definition postgresgormdriver : string := "postgres-gorm".
Definition sqlitegormdriver : string := "sqlite-gorm".

Definition sql_DB (h : nat) : any := Some (mkDyn "*sql.DB" (Some h)).
Definition gorm_DB (h : nat) : any := Some (mkDyn "*gorm.DB" (Some h)).

Section persistent.
Context `{DbEnv}.

Definition open_handle (driver dsn : string) : M dbstate nat := λ s,
  (Returns (ds_next s), mkDbstate (ds_opened s ++ [(driver, dsn)]) (ds_db s) (ds_gorm s) (ds_closed s)).

Definition close_handle (h : nat) : M dbstate goerror := λ s,
  (Returns (close_err h), mkDbstate (ds_opened s) (ds_db s) (ds_gorm s) (ds_closed s ++ [h])).

Definition set_db (driver : string) (h : nat) : M dbstate () :=
  modify (λ s, mkDbstate (ds_opened s) (<[driver := h]> (ds_db s)) (ds_gorm s) (ds_closed s)).

Definition set_gorm (driver : string) (h : nat) : M dbstate () :=
  modify (λ s, mkDbstate (ds_opened s) (ds_db s) (<[driver := h]> (ds_gorm s)) (ds_closed s)).

Definition postgres_dsn (c : Database) : string :=
  let sslmode := if db_SSLMode c then "enable" else "disable" in
  let dsn := sprintf "user=%s password=%s host=%s port=%d database=%s sslmode=%s"
               [db_Username c; db_Password c; db_Host c; Itoa (db_Port c); db_DatabaseName c; sslmode] in
  if bool_decide (db_Schema c ≠ "") then sprintf "%s search_path=%s" [dsn; db_Schema c] else dsn.

(** A failed ping leaves the pool open. *)
Definition postgres_open (c : Database) : M dbstate (nat + error) :=
  let dsn := postgres_dsn c in
  match open_err postgres_driver dsn with
  | Some e => mret (inr e)
  | None =>
      h ← open_handle postgres_driver dsn;
      match ping_err postgres_driver dsn with
      | Some e => mret (inr e)
      | None => mret (inl h)
      end
  end.

Definition Postgres_Connect (c : Database) : M dbstate (any * goerror) :=
  r ← postgres_open c;
  match r with
  | inr e => mret (None, Some e)
  | inl h => set_db postgres_driver h ≫= λ _, mret (sql_DB h, None)
  end.

(** [p.db.Close()]; a nil [*sql.DB] panics. *)
Definition close_db (driver : string) : M dbstate goerror :=
  s ← gets ds_db;
  match s !! driver with
  | Some h => close_handle h
  | None => panic "invalid memory address or nil pointer dereference"
  end.

Definition Postgres_Close : M dbstate goerror := close_db postgres_driver.

Definition mysql_dsn (c : Database) : string :=
  sprintf "%s:%s@tcp(%s:%d)/%s" [db_Username c; db_Password c; db_Host c; Itoa (db_Port c); db_DatabaseName c].

Definition MySQL_Connect (c : Database) : M dbstate (any * goerror) :=
  match open_err mysql_driver (mysql_dsn c) with
  | Some e => mret (None, Some e)
  | None =>
      h ← open_handle mysql_driver (mysql_dsn c);
      match ping_err mysql_driver (mysql_dsn c) with
      | Some e => mret (None, Some e)
      | None => set_db mysql_driver h ≫= λ _, mret (sql_DB h, None)
      end
  end.

Definition MySQL_Close : M dbstate goerror := close_db mysql_driver.

Definition sqlite_dsn (c : Database) : string :=
  if bool_decide (db_Path c = "") then db_DatabaseName c else db_Path c.

(** The checks after opening: the first failure closes the handle. *)
Definition sqlite_steps : list (string * string) :=
  [("PRAGMA journal_mode=WAL", "failed to set WAL mode: %w");
   ("PRAGMA foreign_keys=ON", "failed to enable foreign keys: %w");
   ("PRAGMA busy_timeout=5000", "failed to set busy timeout: %w")].

Fixpoint sqlite_setup (dsn : string) (h : nat) (steps : list (string * string)) : M dbstate goerror :=
  match steps with
  | [] =>
      match ping_err sqlite_driver dsn with
      | Some e => _ ← close_handle h; mret (Some (Wrap "failed to ping sqlite database: %w" [] e))
      | None => mret None
      end
  | (sql, f) :: steps' =>
      match exec_err sqlite_driver sql with
      | Some e => _ ← close_handle h; mret (Some (Wrap f [] e))
      | None => sqlite_setup dsn h steps'
      end
  end.

Definition sqlite_open (c : Database) : M dbstate (nat + error) :=
  let dsn := sqlite_dsn c in
  if bool_decide (dsn = "")
  then mret (inr (Fmt "sqlite requires a file path via 'path' or 'database_name' config field" []))
  else
    match open_err sqlite_driver dsn with
    | Some e => mret (inr (Wrap "failed to open sqlite database: %w" [] e))
    | None =>
        h ← open_handle sqlite_driver dsn;
        err ← sqlite_setup dsn h sqlite_steps;
        match err with
        | Some e => mret (inr e)
        | None => mret (inl h)
        end
    end.

Definition SQLite_Connect (c : Database) : M dbstate (any * goerror) :=
  r ← sqlite_open c;
  match r with
  | inr e => mret (None, Some e)
  | inl h => set_db sqlite_driver h ≫= λ _, mret (sql_DB h, None)
  end.

(** The pool size set on the handle. *)
Definition sqlite_pool (c : Database) : Z := if bool_decide (db_Pool c ≤ 0)%Z then 1%Z else db_Pool c.

Definition close_if_set (driver : string) : M dbstate goerror :=
  s ← gets ds_db;
  match s !! driver with Some h => close_handle h | None => mret None end.

Definition SQLite_Close : M dbstate goerror := close_if_set sqlite_driver.

(** The gorm adapters open a raw connection with a throw-away raw adapter and wrap
    it; the gorm value shares the handle. *)
Definition PostgresGorm_Connect (c : Database) : M dbstate (any * goerror) :=
  r ← postgres_open c;
  match r with
  | inr e => mret (None, Some e)
  | inl h =>
      set_db postgresgormdriver h ≫= λ _,
      match gorm_open_err postgresgormdriver with
      | Some e => mret (None, Some e)
      | None =>
          match gorm_use_err postgresgormdriver with
          | Some e => mret (None, Some e)
          | None => set_gorm postgresgormdriver h ≫= λ _, mret (gorm_DB h, None)
          end
      end
  end.

(** [gorm.DB()] of a value opened on a [*sql.DB] returns it; the handle is closed
    twice. *)
Definition PostgresGorm_Close : M dbstate goerror :=
  g ← gets ds_gorm;
  match g !! postgresgormdriver with
  | None => panic "invalid memory address or nil pointer dereference"
  | Some h => _ ← close_db postgresgormdriver; close_handle h
  end.

Definition SQLiteGorm_Connect (c : Database) : M dbstate (any * goerror) :=
  r ← sqlite_open c;
  match r with
  | inr e => mret (None, Some e)
  | inl h =>
      set_db sqlitegormdriver h ≫= λ _,
      match gorm_open_err sqlitegormdriver with
      | Some e => _ ← close_handle h; mret (None, Some (Wrap "failed to open gorm sqlite connection: %w" [] e))
      | None =>
          match gorm_use_err sqlitegormdriver with
          | Some e => _ ← close_handle h; mret (None, Some (Wrap "failed to register otel tracing plugin: %w" [] e))
          | None => set_gorm sqlitegormdriver h ≫= λ _, mret (gorm_DB h, None)
          end
      end
  end.

Definition SQLiteGorm_Close : M dbstate goerror :=
  g ← gets ds_gorm;
  match g !! sqlitegormdriver with
  | Some h => close_handle h
  | None => close_if_set sqlitegormdriver
  end.

Definition RegisteredSQLAdapters : list (SqlAdapter dbstate) :=
  [mkSqlAdapter postgres_driver Postgres_Connect Postgres_Close;
   mkSqlAdapter mysql_driver MySQL_Connect MySQL_Close;
   mkSqlAdapter postgresgormdriver PostgresGorm_Connect PostgresGorm_Close;
   mkSqlAdapter sqlite_driver SQLite_Connect SQLite_Close;
   mkSqlAdapter sqlitegormdriver SQLiteGorm_Connect SQLiteGorm_Close].

End persistent.

(** ** Lemmas *)

Lemma sqlite_setup_spec `{DbEnv} dsn h steps s :
  ∃ err, sqlite_setup dsn h steps s =
    (Returns err, match err with
                  | None => s
                  | Some _ => mkDbstate (ds_opened s) (ds_db s) (ds_gorm s) (ds_closed s ++ [h])
                  end).
Proof.
  induction steps as [|[sql f] steps IH]; cbn [sqlite_setup].
  - destruct (ping_err sqlite_driver dsn) as [e|]; [|by exists None].
    eexists (Some _). reflexivity.
  - destruct (exec_err sqlite_driver sql) as [e|]; [|exact IH]. eexists (Some _). reflexivity.
Qed.

(** Closing a list of aliases that all belong to the postgres adapter. *)
Lemma disconnect_shared `{DbEnv} f ks (m : sqlMaps dbstate) s h :
  (∀ k, close_err k = None) → ds_db s !! postgres_driver = Some h →
  Forall (λ k, sm_alias m !! k = Some (mkSqlAdapter postgres_driver Postgres_Connect Postgres_Close)) ks →
  SqlAdapters_Disconnect ks f (m, s) =
    (Returns tt, (m, mkDbstate (ds_opened s) (ds_db s) (ds_gorm s) (ds_closed s ++ replicate (length ks) h))).
Proof.
  intros Hc Hh Hall. revert s Hh. induction Hall as [|k ks Hk _ IH]; intros s Hh.
  { unfold SqlAdapters_Disconnect. simpl. rewrite app_nil_r. by destruct s. }
  unfold SqlAdapters_Disconnect. cbn [for_each]. rewrite M_bind_eq. unfold disconnect_one at 1.
  rewrite M_bind_eq. unfold gets at 1. cbn [fst]. rewrite Hk, M_bind_eq.
  unfold on_snd at 1. cbn [sq_Close snd fst]. unfold Postgres_Close, close_db. rewrite M_bind_eq.
  unfold gets at 1. rewrite Hh. unfold close_handle. rewrite Hc, M_ret_eq.
  unfold SqlAdapters_Disconnect in IH. rewrite IH by done. cbn [ds_opened ds_db ds_gorm ds_closed].
  rewrite <- app_assoc. reflexivity.
Qed.

(** A successful connection through the postgres adapter. *)
Lemma connect_one_postgres `{DbEnv} f d (m : sqlMaps dbstate) s :
  db_Adapter d = postgres_driver →
  open_err postgres_driver (postgres_dsn d) = None → ping_err postgres_driver (postgres_dsn d) = None →
  connect_one RegisteredSQLAdapters f d (m, s) =
    (Returns tt, (mkSqlMaps (<[db_Alias d := mkSqlAdapter postgres_driver Postgres_Connect Postgres_Close]> (sm_alias m))
                            (<[db_Alias d := sql_DB (ds_next s)]> (sm_result m)),
                  mkDbstate (ds_opened s ++ [(postgres_driver, postgres_dsn d)])
                    (<[postgres_driver := ds_next s]> (ds_db s)) (ds_gorm s) (ds_closed s))).
Proof.
  intros Hd Ho Hp. unfold connect_one, initConnection, getAdapterByDriver. rewrite Hd.
  cbn [first_adapter RegisteredSQLAdapters sq_DriverName]. rewrite bool_decide_true by done.
  rewrite M_bind_eq, M_bind_eq. unfold on_snd. cbn [sq_Connect snd fst].
  unfold Postgres_Connect, postgres_open. rewrite Ho, M_bind_eq, M_bind_eq.
  unfold open_handle. rewrite Hp. reflexivity.
Qed.

(** ** Witness data *)

#[export] Instance quiet_env : DbEnv :=
  {| open_err _ _ := None; ping_err _ _ := None; exec_err _ _ := None;
     gorm_open_err _ := None; gorm_use_err _ := None; close_err _ := None |}.

Definition pg (alias : string) : Database :=
  mkDatabase postgres_driver "utf8" false "shop" false alias 5 "" "localhost" 5432 "u" "p" "".

Definition two_postgres : Config :=
  mkConfig (mkAppConfig "shop" "production" 1) (pg "default") (mkMonitoring "" false false) [pg "reports"]
    (mkApi 8080 (mkCors ["*"] ["GET"])).

Definition db0 : dbstate := mkDbstate [] ∅ ∅ [].

Definition ignore_error : error → M dbstate () := λ _, mret tt.

(** ** Properties *)

(** version 2 of the data manager does what version 1 does when the
    adapter is registered, and where version 1 panics it returns the error and
    changes nothing. *)
Theorem datamanager_v1_v2 {W} (d : DataManager W) ty name f (w : W) :
  (v2_Has d ty = true →
     v2_GetRaw d ty name w = (x ← v1_Get d ty name; mret (x, None)) w ∧
     v2_Connect d ty f w = (v1_Connect d ty f ≫= λ _, mret None) w ∧
     v2_Close d ty f w = (v1_Close d ty f ≫= λ _, mret None) w) ∧
  (v2_Has d ty = false →
     v1_Get d ty name w = (Panics (no_adapter ty), w) ∧
     v1_Connect d ty f w = (Panics (no_adapter ty), w) ∧ v1_Close d ty f w = (Panics (no_adapter ty), w) ∧
     v2_GetRaw d ty name w = (Returns (None, Some (err_no_adapter ty)), w) ∧
     v2_Connect d ty f w = (Returns (Some (err_no_adapter ty)), w) ∧
     v2_Close d ty f w = (Returns (Some (err_no_adapter ty)), w)).
Proof.
  unfold v2_Has, v2_GetRaw, v2_Connect, v2_Close, v1_Get, v1_Connect, v1_Close.
  split; intros Hh; destruct (dm_adapter d !! ty) as [a|] eqn:E.
  - done.
  - apply bool_decide_eq_true in Hh. by destruct Hh.
  - apply bool_decide_eq_false in Hh. by destruct Hh.
  - done.
Qed.

(** connecting the SQLite adapter always returns; on success the
    new handle is stored, returned and open; on every error path (no path, open, any
    pragma, ping) the adapter keeps its old handle and a handle opened by the
    attempt has been closed. *)
Theorem SQLite_Connect_no_leak `{DbEnv} c s :
  ∃ r s', SQLite_Connect c s = (Returns r, s') ∧
    match r.2 with
    | None => r.1 = sql_DB (ds_next s) ∧ ds_opened s' = ds_opened s ++ [(sqlite_driver, sqlite_dsn c)] ∧
              ds_closed s' = ds_closed s ∧
              ds_db s' = <[sqlite_driver := ds_next s]> (ds_db s)
    | Some _ => r.1 = None ∧ ds_db s' = ds_db s ∧
        ds_closed s' = ds_closed s ++ seq (ds_next s) (ds_next s' - ds_next s) ∧ ds_next s ≤ ds_next s'
    end.
Proof.
  unfold SQLite_Connect, sqlite_open. rewrite M_bind_eq. case_bool_decide.
  { do 2 eexists. split; [reflexivity|]. simpl. rewrite Nat.sub_diag, app_nil_r. done. }
  destruct (open_err sqlite_driver (sqlite_dsn c)) as [e|].
  { do 2 eexists. split; [reflexivity|]. simpl. rewrite Nat.sub_diag, app_nil_r. done. }
  rewrite M_bind_eq. unfold open_handle. rewrite M_bind_eq.
  destruct (sqlite_setup_spec (sqlite_dsn c) (ds_next s) sqlite_steps
              (mkDbstate (ds_opened s ++ [(sqlite_driver, sqlite_dsn c)]) (ds_db s) (ds_gorm s) (ds_closed s)))
    as [[e|] ->].
  - do 2 eexists. split; [reflexivity|]. unfold ds_next. cbn [snd fst ds_opened ds_db ds_closed ds_gorm].
    rewrite length_app. cbn [length].
    replace (length (ds_opened s) + 1 - length (ds_opened s)) with 1 by lia. simpl. split_and!; [done..|lia].
  - do 2 eexists. split; [reflexivity|]. done.
Qed.

(** the adapters are one object per driver. When the default and
    an external database both use the postgres adapter, disconnecting in any order
    closes the second connection twice and never the first one, which stays open. *)
Theorem shared_adapter_leaks_first `{DbEnv} f cfg d1 d2 s m s1 ks :
  (∀ h, close_err h = None) →
  cf_Database cfg = d1 → cf_ExternalDatabases cfg = [d2] → db_Alias d1 ≠ db_Alias d2 →
  Forall (λ d, db_Adapter d = postgres_driver ∧ open_err postgres_driver (postgres_dsn d) = None ∧
               ping_err postgres_driver (postgres_dsn d) = None) [d1; d2] →
  SqlAdapters_Connect RegisteredSQLAdapters cfg f (NewSqlAdapters, s) = (Returns tt, (m, s1)) →
  range_order (sm_alias m) ks → ds_next s ∉ ds_closed s →
  ∃ s2, SqlAdapters_Disconnect ks f (m, s1) = (Returns tt, (m, s2)) ∧
    ds_closed s2 = ds_closed s ++ [S (ds_next s); S (ds_next s)] ∧ ds_next s ∉ ds_closed s2.
Proof.
  intros Hcl Hd1 Hd2 Hal Hall Hrun Hks Hfresh.
  rewrite !Forall_cons in Hall. destruct Hall as ((A1 & O1 & P1) & (A2 & O2 & P2) & _).
  unfold SqlAdapters_Connect in Hrun. rewrite Hd1, Hd2, M_bind_eq in Hrun.
  rewrite connect_one_postgres in Hrun by done. cbn [for_each] in Hrun.
  rewrite M_bind_eq, connect_one_postgres in Hrun by done. rewrite M_ret_eq in Hrun.
  injection Hrun as <- <-. cbn [ds_opened ds_db ds_gorm ds_closed sm_alias] in *.
  set (ad := mkSqlAdapter _ _ _) in *.
  assert (length ks = 2) as Hlen.
  { rewrite (range_order_length _ _ Hks), !map_size_insert_None; [by rewrite map_size_empty|..].
    - by rewrite lookup_empty.
    - by rewrite lookup_insert_ne, lookup_empty. }
  rewrite (disconnect_shared f ks _ _ (S (ds_next s))).
  - eexists. split; [reflexivity|]. cbn [ds_closed]. rewrite Hlen. split; [reflexivity|].
    cbn [replicate]. rewrite elem_of_app. intros [?|Hin]; [done|].
    rewrite !elem_of_cons in Hin. destruct Hin as [?|[?|Hin]]; [lia..|]. by apply not_elem_of_nil in Hin.
  - done.
  - cbn [ds_db]. rewrite lookup_insert_eq. unfold ds_next. cbn [ds_opened].
    by rewrite length_app, Nat.add_comm.
  - apply Forall_forall. intros k Hk. apply (range_order_elem _ _ _ Hks) in Hk as [a Ha].
    cbn [sm_alias]. rewrite Ha. f_equal.
    apply lookup_insert_Some in Ha as [[_ <-]|[_ Ha]]; [done|].
    apply lookup_insert_Some in Ha as [[_ <-]|[_ Ha]]; [done|]. by rewrite lookup_empty in Ha.
Qed.

Definition connected : sqlMaps dbstate * dbstate :=
  (SqlAdapters_Connect RegisteredSQLAdapters two_postgres ignore_error (NewSqlAdapters, db0)).2.

Lemma shared_adapter_leaks_first_witness :
  ∃ s2, SqlAdapters_Disconnect ["reports"; "default"] ignore_error connected = (Returns tt, (connected.1, s2)) ∧
    ds_closed s2 = [1; 1] ∧ (0 ∉ ds_closed s2).
Proof.
  destruct (shared_adapter_leaks_first ignore_error two_postgres (pg "default") (pg "reports") db0
              connected.1 connected.2 ["reports"; "default"]) as (s2 & Hrun & Hc & Hn).
  - done.
  - reflexivity.
  - reflexivity.
  - done.
  - by repeat constructor.
  - apply injective_projections; [vm_compute; reflexivity|]. unfold connected. apply surjective_pairing.
  - unfold range_order. vm_compute. apply Permutation_swap || reflexivity.
  - apply not_elem_of_nil.
  - exists s2. split; [exact Hrun|]. split; [exact Hc|exact Hn].
Defined.
