(* ===== verification/BaseApp.v ===== *)
(** * internal/base_app.go and service.go: the application's life cycle

    [appcore] holds the fields the hook handlers and drivers work on (the
    configuration, the data manager, the log, the context and the outside world
    [W]); [BaseApp] adds the lazily created hooks and driver managers.  Handlers
    registered by the program act on [appcore]. *)

From S2P Require Import Prelude GoStr Hooks Drivers Config Persistence.

(** ** Paths: filepath.Base, Ext and Dir *)

Definition slash : Ascii.ascii := Ascii.ascii_of_nat 47.
Definition dot : Ascii.ascii := Ascii.ascii_of_nat 46.

(** The pieces between separators. *)
Fixpoint split_on (sep : Ascii.ascii) (l : list Ascii.ascii) : list (list Ascii.ascii) :=
  match l with
  | [] => [[]]
  | c :: l' =>
      if bool_decide (c = sep) then [] :: split_on sep l'
      else match split_on sep l' with
           | p :: ps => (c :: p) :: ps
           | [] => [[c]]
           end
  end.

(** One element of [filepath.Clean], on the stack of kept elements (reversed). *)
Definition clean_step (rooted : bool) (stack : list (list Ascii.ascii)) (p : list Ascii.ascii) :
    list (list Ascii.ascii) :=
  if bool_decide (p = [] ∨ p = [dot]) then stack
  else if bool_decide (p = [dot; dot]) then
    match stack with
    | [] => if rooted then [] else [p]
    | q :: stack' => if bool_decide (q = [dot; dot]) then p :: stack else stack'
    end
  else p :: stack.

Definition join_slash (ps : list (list Ascii.ascii)) : list Ascii.ascii :=
  match ps with
  | [] => []
  | p :: ps' => p ++ (ps' ≫= λ q, slash :: q)
  end.

Definition filepath_Clean (l : list Ascii.ascii) : list Ascii.ascii :=
  let rooted := bool_decide (head l = Some slash) in
  let body := join_slash (rev (fold_left (clean_step rooted) (split_on slash l) [])) in
  if rooted then slash :: body else if bool_decide (body = []) then [dot] else body.

(** The longest prefix that ends with a slash. *)
Definition up_to_slash (l : list Ascii.ascii) : list Ascii.ascii :=
  rev ((fix go (r : list Ascii.ascii) := match r with
        | [] => []
        | c :: r' => if bool_decide (c = slash) then r else go r'
        end) (rev l)).

Definition filepath_Dir (s : string) : string := str (filepath_Clean (up_to_slash (chars s))).

Fixpoint drop_slashes (r : list Ascii.ascii) : list Ascii.ascii :=
  match r with
  | c :: r' => if bool_decide (c = slash) then drop_slashes r' else r
  | [] => []
  end.

Fixpoint take_until_slash (r : list Ascii.ascii) : list Ascii.ascii :=
  match r with
  | c :: r' => if bool_decide (c = slash) then [] else c :: take_until_slash r'
  | [] => []
  end.

Definition filepath_Base (s : string) : string :=
  if bool_decide (s = "") then "."
  else
    let r := drop_slashes (rev (chars s)) in
    let b := rev (take_until_slash r) in
    if bool_decide (b = []) then "/" else str b.

(** [strings.TrimSuffix(base, filepath.Ext(base))]: cut at the last dot; a base has
    no slash. *)
Fixpoint cut_ext (r : list Ascii.ascii) : option (list Ascii.ascii) :=
  match r with
  | [] => None
  | c :: r' => if bool_decide (c = dot) then Some r'
               else if bool_decide (c = slash) then None else cut_ext r'
  end.

Definition getFileName (filePath : string) : string :=
  let base := filepath_Base filePath in
  match cut_ext (rev (chars base)) with
  | Some r => str (rev r)
  | None => base
  end.

Definition getDirectoryPath (filePath : string) : string := filepath_Dir filePath.

(** ** The application *)

(** [a_ctx]: no context yet, a live one, a cancelled one. *)
Record appcore (W : Type) : Type := mkCore {
  a_config : option Config;
  a_data : option (DataManager W);
  a_log : list string;
  a_ctx : option bool;
  a_world : W;
}.

Arguments mkCore {W} _ _ _ _ _.
Arguments a_config {W} _.
Arguments a_data {W} _.
Arguments a_log {W} _.
Arguments a_ctx {W} _.
Arguments a_world {W} _.

(** The events carry the application, which is the handlers' state. *)
Inductive CloseEvent : Type := close_event.
Inductive BeforeBootstrapped : Type := before_event.
Inductive AfterBootstrapped : Type := after_event (ConfigPath : string).

(** [ba_mu]: is the mutex allocated?  NewTestApp leaves it nil. *)
Record BaseApp (W : Type) : Type := mkBaseApp {
  ba_mu : bool;
  ba_core : appcore W;
  ba_before : option (Hook (appcore W) BeforeBootstrapped);
  ba_stop : option (Hook (appcore W) CloseEvent);
  ba_after : option (Hook (appcore W) AfterBootstrapped);
  ba_driver : option (Driver (appcore W));
  ba_driverv2 : option (Manager (appcore W));
}.

Arguments mkBaseApp {W} _ _ _ _ _ _ _.
Arguments ba_mu {W} _.
Arguments ba_core {W} _.
Arguments ba_before {W} _.
Arguments ba_stop {W} _.
Arguments ba_after {W} _.
Arguments ba_driver {W} _.
Arguments ba_driverv2 {W} _.

Section app.
Context {W : Type}.

Definition set_core (c : appcore W) (b : BaseApp W) : BaseApp W :=
  mkBaseApp (ba_mu b) c (ba_before b) (ba_stop b) (ba_after b) (ba_driver b) (ba_driverv2 b).

Definition on_core {A} (m : M (appcore W) A) : M (BaseApp W) A := λ b,
  let '(r, c) := m (ba_core b) in (r, set_core c b).

Definition NewBaseApp (w : W) : BaseApp W :=
  mkBaseApp true (mkCore None None [] None w) None None None None None.

Definition NewTestApp (w : W) : BaseApp W :=
  mkBaseApp false (mkCore None None [] None w) None None None None None.

(** [b.mu.Lock()] on a nil mutex panics. *)
Definition lock : M (BaseApp W) () := λ b,
  if ba_mu b then (Returns tt, b) else (Panics "invalid memory address or nil pointer dereference", b).

Definition set_ctx (x : bool) (c : appcore W) : appcore W :=
  mkCore (a_config c) (a_data c) (a_log c) (Some x) (a_world c).

(** Returns whether the context is already cancelled. *)
Definition BaseApp_Context : M (BaseApp W) bool :=
  lock ≫= λ _,
  b ← gets id;
  match a_ctx (ba_core b) with
  | Some x => mret x
  | None => modify (λ b, set_core (set_ctx false (ba_core b)) b) ≫= λ _, mret false
  end.

Definition BaseApp_Stop : M (BaseApp W) () :=
  modify (λ b, match a_ctx (ba_core b) with
               | None => b
               | Some _ => set_core (set_ctx true (ba_core b)) b
               end).

Definition Logger_log (msg : string) : M (appcore W) () :=
  modify (λ c, mkCore (a_config c) (a_data c) (a_log c ++ [msg]) (a_ctx c) (a_world c)).

(** The lazily created hooks and driver managers. *)
Definition OnApplicationStop : M (BaseApp W) (Hook (appcore W) CloseEvent) :=
  lock ≫= λ _,
  b ← gets id;
  match ba_stop b with
  | Some h => mret h
  | None => modify (λ b, mkBaseApp (ba_mu b) (ba_core b) (ba_before b) (Some Hook_New) (ba_after b)
                                   (ba_driver b) (ba_driverv2 b)) ≫= λ _, mret Hook_New
  end.

Definition OnBeforeApplicationBootstrapped : M (BaseApp W) (Hook (appcore W) BeforeBootstrapped) :=
  lock ≫= λ _,
  b ← gets id;
  match ba_before b with
  | Some h => mret h
  | None => modify (λ b, mkBaseApp (ba_mu b) (ba_core b) (Some Hook_New) (ba_stop b) (ba_after b)
                                   (ba_driver b) (ba_driverv2 b)) ≫= λ _, mret Hook_New
  end.

Definition OnAfterApplicationBootstrapped : M (BaseApp W) (Hook (appcore W) AfterBootstrapped) :=
  lock ≫= λ _,
  b ← gets id;
  match ba_after b with
  | Some h => mret h
  | None => modify (λ b, mkBaseApp (ba_mu b) (ba_core b) (ba_before b) (ba_stop b) (Some Hook_New)
                                   (ba_driver b) (ba_driverv2 b)) ≫= λ _, mret Hook_New
  end.

Definition DriverV1 : M (BaseApp W) (Driver (appcore W)) :=
  b ← gets id;
  match ba_driver b with
  | Some d => mret d
  | None => lock ≫= λ _,
            modify (λ b, mkBaseApp (ba_mu b) (ba_core b) (ba_before b) (ba_stop b) (ba_after b)
                                   (Some NewDriver) (ba_driverv2 b)) ≫= λ _, mret NewDriver
  end.

Definition DriverV2 : M (BaseApp W) (Manager (appcore W)) :=
  b ← gets id;
  match ba_driverv2 b with
  | Some d => mret d
  | None => lock ≫= λ _,
            modify (λ b, mkBaseApp (ba_mu b) (ba_core b) (ba_before b) (ba_stop b) (ba_after b)
                                   (ba_driver b) (Some NewManagerV2)) ≫= λ _, mret NewManagerV2
  end.

(** [b.OnApplicationStop().Add(key, handler)]: the hook is shared. *)
Definition stop_Add (key : string) (handler : Handler (appcore W) CloseEvent) : M (BaseApp W) goerror :=
  h ← OnApplicationStop;
  let '(err, h') := Hook_Add h key handler in
  modify (λ b, mkBaseApp (ba_mu b) (ba_core b) (ba_before b) (Some h') (ba_after b)
                         (ba_driver b) (ba_driverv2 b)) ≫= λ _, mret err.

Definition after_Add (key : string) (handler : Handler (appcore W) AfterBootstrapped) : M (BaseApp W) goerror :=
  h ← OnAfterApplicationBootstrapped;
  let '(err, h') := Hook_Add h key handler in
  modify (λ b, mkBaseApp (ba_mu b) (ba_core b) (ba_before b) (ba_stop b) (Some h')
                         (ba_driver b) (ba_driverv2 b)) ≫= λ _, mret err.

(** [ks] is the order in which the hook's map is visited. *)
Definition stop_Execute (ks : list string) : M (BaseApp W) goerror :=
  h ← OnApplicationStop; on_core (Hook_Execute h ks close_event).

(** Run code of the data manager. *)
Definition on_world {A} (m : M W A) : M (appcore W) A := λ c,
  let '(r, w) := m (a_world c) in (r, mkCore (a_config c) (a_data c) (a_log c) (a_ctx c) w).

(** The handler that closes the SQL connections. *)
Definition close_connection_db : Handler (appcore W) CloseEvent := λ _,
  data ← gets a_data;
  match data with
  | None => Logger_log "skip closing driver" ≫= λ _, mret None
  | Some d => on_world (v1_Close d "sql" (λ e, mret tt)) ≫= λ _, mret None
  end.

Definition print_log : Handler (appcore W) CloseEvent := λ _,
  Logger_log "Application Stopped, ciao !" ≫= λ _, mret None.

(** [order] picks the order of the final execution. *)
Definition BaseApp_Shutdown (order : Hook (appcore W) CloseEvent → list string) : M (BaseApp W) goerror :=
  err ← stop_Add "close_connection_db" close_connection_db;
  match err with
  | Some e => mret (Some e)
  | None =>
      _ ← stop_Add "print_log" print_log;
      h ← OnApplicationStop;
      _ ← stop_Execute (order h);
      mret None
  end.

Definition IsDev : M (appcore W) bool :=
  c ← gets id;
  match a_config c with
  | Some cfg => mret (bool_decide (ac_Mode (cf_App cfg) = "development"))
  | None => panic "invalid memory address or nil pointer dereference"
  end.

(** [read] and [decode] are what viper finds for a file name and a directory. *)
Definition loadConfig `{Ozzo} (read : string → string → viper_read) (decode : string → string → Config + error)
    (configPath : string) : outcome Config :=
  let '(name, path) := if bool_decide (configPath = "") then ("config", ".")
                       else (getFileName configPath, getDirectoryPath configPath) in
  NewConfig (read name path) (decode name path).

Definition set_config (cfg : Config) (c : appcore W) : appcore W :=
  mkCore (Some cfg) (a_data c) (a_log c) (a_ctx c) (a_world c).

(** The first handler only loads the configuration; the second loads it again and
    opens the data sources. *)
Definition a_load_cfg (load : string → outcome Config) : Handler (appcore W) AfterBootstrapped :=
  λ '(after_event path) c, match load path with
            | Returns cfg => (Returns None, set_config cfg c)
            | Panics m => (Panics m, c)
            | Blocks => (Blocks, c)
            end.

Definition b_bootstrap (load : string → outcome Config)
    (initDatasource : Config → M W (DataManager W)) : Handler (appcore W) AfterBootstrapped :=
  λ '(after_event path) c,
    match load path with
    | Returns cfg =>
        let c := set_config cfg c in
        match initDatasource cfg (a_world c) with
        | (Returns d, w) =>
            (Returns None, mkCore (a_config c) (Some d)
               (a_log c ++ ["Bootstrapping Application..."; "Application Bootstrapped"]) (a_ctx c) w)
        | (Panics m, w) => (Panics m, mkCore (a_config c) (a_data c)
               (a_log c ++ ["Bootstrapping Application..."]) (a_ctx c) w)
        | (Blocks, w) => (Blocks, c)
        end
    | Panics m => (Panics m, c)
    | Blocks => (Blocks, c)
    end.

Definition Bootstrap (order : Hook (appcore W) BeforeBootstrapped → list string)
    (load : string → outcome Config) (initDatasource : Config → M W (DataManager W)) : M (BaseApp W) goerror :=
  h ← OnBeforeApplicationBootstrapped;
  _ ← on_core (Hook_Execute h (order h) before_event);
  _ ← after_Add "a_load_cfg" (a_load_cfg load);
  _ ← after_Add "b_bootstrap" (b_bootstrap load initDatasource);
  mret None.

(** ** service.go *)

(** Run the driver manager on the application's core. *)
Definition close_drivers : M (BaseApp W) goerror :=
  m ← DriverV2;
  (λ b, let '(r, (m', c)) := Manager_CloseAllDriver (λ _ _, Logger_log "Error closing driver") (m, ba_core b) in
        (r, mkBaseApp (ba_mu b) c (ba_before b) (ba_stop b) (ba_after b) (ba_driver b) (Some m')))
    : M (BaseApp W) goerror.

(** The two range orders are those of the two executions of the stop hooks. *)
Definition Service_Shutdown (ks1 : list string) (order2 : Hook (appcore W) CloseEvent → list string) :
    M (BaseApp W) () :=
  _ ← stop_Execute ks1;
  _ ← close_drivers;
  _ ← BaseApp_Shutdown order2;
  mret tt.

End app.

(** ** Lemmas *)

Definition add_logs {W} (l : list string) (c : appcore W) : appcore W :=
  mkCore (a_config c) (a_data c) (a_log c ++ l) (a_ctx c) (a_world c).

(** A handler that does nothing but log a line. *)
Definition logs_line {W} (f : Handler (appcore W) CloseEvent) (line : string) : Prop :=
  ∀ c, f close_event c = (Returns None, add_logs [line] c).

Lemma add_logs_app {W} l1 l2 (c : appcore W) : add_logs l2 (add_logs l1 c) = add_logs (l1 ++ l2) c.
Proof. unfold add_logs. simpl. by rewrite app_assoc. Qed.

Lemma execute_logging {W} (h : Hook (appcore W) CloseEvent) (label : string → string) ks c :
  Forall (λ k, ∃ f, handlers h !! k = Some f ∧ logs_line f (label k)) ks →
  for_until_err (λ k, ExecuteOnly h k close_event) ks c = (Returns None, add_logs (label <$> ks) c).
Proof.
  intros Hall. revert c. induction Hall as [|k ks (f & Hf & Hl) _ IH]; intros c.
  { unfold add_logs. simpl. rewrite app_nil_r. by destruct c. }
  cbn [for_until_err]. rewrite M_bind_eq, (ExecuteOnly_Some _ _ _ _ _ Hf), Hl, IH, add_logs_app.
  done.
Qed.

(** Executing logging handlers in any range order. *)
Lemma Hook_Execute_logging {W} (h : Hook (appcore W) CloseEvent) (label : string → string) ks c :
  (∀ k f, handlers h !! k = Some f → logs_line f (label k)) → range_order (handlers h) ks →
  (Hook_Execute h ks close_event c).2 = add_logs (label <$> ks) c ∧ ∃ e, (Hook_Execute h ks close_event c).1 = Returns e.
Proof.
  intros Hh Hks. unfold Hook_Execute. case_bool_decide as Hsz.
  - pose proof (range_order_length _ _ Hks) as Hl. destruct ks; [|simpl in Hl; lia].
    unfold add_logs. simpl. rewrite app_nil_r. split; [by destruct c|eauto].
  - rewrite (execute_logging h label ks c); [eauto|].
    apply Forall_forall. intros k Hk. apply (range_order_elem _ _ _ Hks) in Hk as [f Hf]. eauto.
Qed.

(** The two handlers Shutdown adds, on an application without data manager. *)
Definition final_line (k : string) : string :=
  if bool_decide (k = "close_connection_db") then "skip closing driver"
  else if bool_decide (k = "print_log") then "Application Stopped, ciao !" else k.

Lemma count_perm (k : string) l1 l2 :
  l1 ≡ₚ l2 → length (filter (λ x, x = k) l1) = length (filter (λ x, x = k) l2).
Proof. intros Hp. by rewrite Hp. Qed.

Lemma count_NoDup (k : string) l : NoDup l → k ∈ l → length (filter (λ x, x = k) l) = 1.
Proof.
  induction 1 as [|x l Hx Hnd IH]; intros Hin; [by apply not_elem_of_nil in Hin|].
  rewrite filter_cons. case_decide as Hk.
  - subst x. simpl. f_equal. destruct (filter (λ x, x = k) l) as [|y l'] eqn:E; [done|].
    assert (y ∈ filter (λ x, x = k) l) as Hy by (rewrite E; set_solver).
    apply list_elem_of_filter in Hy as [-> Hy]. done.
  - apply IH. set_solver.
Qed.

Lemma count_final_line k ks :
  final_line k = k → k ∉ ["skip closing driver"; "Application Stopped, ciao !"] →
  length (filter (λ x, x = k) (final_line <$> ks)) = length (filter (λ x, x = k) ks).
Proof.
  intros Hk Hn. induction ks as [|x ks IH]; [done|]. rewrite fmap_cons, !filter_cons.
  destruct (decide (x = k)) as [->|Hne].
  - rewrite decide_True by done. cbn [length]. by rewrite IH.
  - destruct (decide (final_line x = k)) as [Hx|]; [|exact IH]. exfalso. revert Hx. unfold final_line.
    repeat case_bool_decide; intros Hx; [apply Hn; rewrite <- Hx; set_solver..|done].
Qed.

(** ** Witness data *)

Definition flush_hook : Hook (appcore ()) CloseEvent :=
  mkHook {["flush_metrics" := λ _, Logger_log "flush_metrics" ≫= λ _, mret None]}.

Definition running_app : BaseApp () :=
  mkBaseApp true (mkCore None None [] (Some false) ()) None (Some flush_hook) None None None.

Definition visit {W} (h : Hook (appcore W) CloseEvent) : list string := (map_to_list (handlers h)).*1.

Inductive life_op : Type := CallContext | CallStop.

Definition is_stop (o : life_op) : bool := match o with CallStop => true | CallContext => false end.

Definition run_life {W} (o : life_op) : M (BaseApp W) () :=
  match o with
  | CallContext => _ ← BaseApp_Context; mret tt
  | CallStop => BaseApp_Stop
  end.

(** Is there a Stop after the first Context? *)
Fixpoint stopped (ops : list life_op) : bool :=
  match ops with
  | [] => false
  | CallStop :: ops' => stopped ops'
  | CallContext :: ops' => existsb is_stop ops'
  end.

Lemma run_life_ctx {W} ops (b : BaseApp W) :
  ba_mu b = true →
  ∃ b', for_each run_life ops b = (Returns tt, b') ∧ ba_mu b' = true ∧
    a_ctx (ba_core b') = match a_ctx (ba_core b) with
                         | Some x => Some (x || existsb is_stop ops)
                         | None => if existsb (negb ∘ is_stop) ops then Some (stopped ops) else None
                         end.
Proof.
  revert b. induction ops as [|o ops IH]; intros b Hmu.
  { eexists. split; [reflexivity|]. split; [done|]. simpl. destruct (a_ctx (ba_core b)); [|done].
    by rewrite orb_false_r. }
  cbn [for_each]. rewrite M_bind_eq. destruct o; cbn [run_life].
  - rewrite M_bind_eq. unfold BaseApp_Context, lock. rewrite M_bind_eq, Hmu, M_bind_eq. unfold gets. cbn [id].
    destruct (a_ctx (ba_core b)) as [x|] eqn:Ec.
    + rewrite M_ret_eq, M_ret_eq. destruct (IH b Hmu) as (b' & -> & Hmu' & Hc).
      exists b'. by rewrite Hc, Ec.
    + rewrite M_bind_eq. unfold modify. rewrite !M_ret_eq.
      destruct (IH (set_core (set_ctx false (ba_core b)) b) Hmu) as (b' & -> & Hmu' & Hc).
      exists b'. by rewrite Hc.
  - unfold BaseApp_Stop, modify. destruct (a_ctx (ba_core b)) as [x|] eqn:Ec.
    + destruct (IH (set_core (set_ctx true (ba_core b)) b) Hmu) as (b' & -> & Hmu' & Hc).
      exists b'. rewrite Hc. simpl. by rewrite orb_true_r.
    + destruct (IH b Hmu) as (b' & -> & Hmu' & Hc). exists b'. by rewrite Hc, Ec.
Qed.

(** ** Properties *)

(** for any sequence of Context and Stop calls on a new application,
    the context it then hands out is cancelled exactly when a Stop came after the
    first Context: a Stop before anybody asked for the context is lost. *)
Theorem stop_before_context_is_lost {W} (w : W) ops :
  ∃ b, (for_each run_life ops ≫= λ _, BaseApp_Context) (NewBaseApp w) = (Returns (stopped ops), b).
Proof.
  rewrite M_bind_eq. destruct (run_life_ctx ops (NewBaseApp w)) as (b & -> & Hmu & Hc); [done|].
  unfold BaseApp_Context, lock. rewrite M_bind_eq, Hmu, M_bind_eq. unfold gets. cbn [id]. rewrite Hc.
  cbn [NewBaseApp ba_core a_ctx].
  destruct (existsb (negb ∘ is_stop) ops) eqn:He; [by eexists|]. rewrite M_bind_eq. unfold modify.
  assert (stopped ops = false) as ->; [|by eexists]. clear -He.
  induction ops as [|[] ops IH]; [done|done|apply IH, He].
Qed.

(** The program's stop handlers only log their key. *)
Definition logging_hook {W} (h : Hook (appcore W) CloseEvent) : Prop :=
  ∀ k f, handlers h !! k = Some f → logs_line f k ∧ final_line k = k.

Lemma stop_hook_eq {W} (b : BaseApp W) h :
  ba_mu b = true → ba_stop b = Some h → OnApplicationStop b = (Returns h, b).
Proof.
  intros Hmu Hs. unfold OnApplicationStop, lock. rewrite M_bind_eq, Hmu, M_bind_eq. unfold gets. cbn [id].
  by rewrite Hs.
Qed.

Definition set_stop {W} (h : Hook (appcore W) CloseEvent) (b : BaseApp W) : BaseApp W :=
  mkBaseApp (ba_mu b) (ba_core b) (ba_before b) (Some h) (ba_after b) (ba_driver b) (ba_driverv2 b).

Lemma stop_Add_fresh {W} (b : BaseApp W) h key f :
  ba_mu b = true → ba_stop b = Some h → handlers h !! key = None →
  stop_Add key f b = (Returns None, set_stop (mkHook (<[key := f]> (handlers h))) b).
Proof.
  intros Hmu Hs Hk. unfold stop_Add. rewrite M_bind_eq, (stop_hook_eq b h) by done.
  unfold Hook_Add, IsKeyAlreadySet, Handler, M in *. by rewrite Hk.
Qed.

Lemma close_connection_db_line {W} (c : appcore W) :
  a_data c = None → close_connection_db close_event c = (Returns None, add_logs ["skip closing driver"] c).
Proof. intros Hd. unfold close_connection_db, gets. rewrite M_bind_eq. by rewrite Hd. Qed.

(** On an application without data manager, handlers that log, run in any order. *)
Lemma execute_logging_nodata {W} (h : Hook (appcore W) CloseEvent) (label : string → string) ks c :
  a_data c = None →
  Forall (λ k, ∃ f, handlers h !! k = Some f ∧
            ∀ c, a_data c = None → f close_event c = (Returns None, add_logs [label k] c)) ks →
  for_until_err (λ k, ExecuteOnly h k close_event) ks c = (Returns None, add_logs (label <$> ks) c).
Proof.
  intros Hd Hall. revert c Hd. induction Hall as [|k ks (f & Hf & Hl) _ IH]; intros c Hd.
  { unfold add_logs. simpl. rewrite app_nil_r. by destruct c. }
  cbn [for_until_err]. rewrite M_bind_eq, (ExecuteOnly_Some _ _ _ _ _ Hf), Hl, IH, add_logs_app by done.
  done.
Qed.

(** Shutdown of an application without data manager. *)
Lemma BaseApp_Shutdown_logging {W} (b : BaseApp W) h (order2 : Hook (appcore W) CloseEvent → list string) :
  ba_mu b = true → ba_stop b = Some h → a_data (ba_core b) = None → logging_hook h →
  (∀ h', range_order (handlers h') (order2 h')) →
  ∃ b' ks, BaseApp_Shutdown order2 b = (Returns None, b') ∧
    NoDup ks ∧ (∀ k, k ∈ ks ↔ is_Some (handlers h !! k) ∨ k = "print_log" ∨ k = "close_connection_db") ∧
    a_log (ba_core b') = a_log (ba_core b) ++ (final_line <$> ks) ∧
    a_world (ba_core b') = a_world (ba_core b) ∧ a_ctx (ba_core b') = a_ctx (ba_core b) ∧
    ba_driverv2 b' = ba_driverv2 b.
Proof.
  intros Hmu Hs Hd Hlog Hord.
  assert (∀ k, final_line k ≠ k → handlers h !! k = None) as Hnone.
  { intros k Hk. destruct (handlers h !! k) as [f|] eqn:E; [|done]. by destruct (Hlog _ _ E). }
  unfold BaseApp_Shutdown. rewrite M_bind_eq, (stop_Add_fresh b h) by (try done; by apply Hnone).
  set (h1 := mkHook _). rewrite M_bind_eq, (stop_Add_fresh (set_stop h1 b) h1); try done.
  2: { unfold h1. cbn [handlers]. rewrite lookup_insert_ne by done. by apply Hnone. }
  set (h2 := mkHook _). set (b2 := set_stop h2 _).
  rewrite M_bind_eq, (stop_hook_eq b2 h2) by done. rewrite M_bind_eq. unfold stop_Execute.
  rewrite M_bind_eq, (stop_hook_eq b2 h2) by done. unfold on_core, Hook_Execute.
  assert (∀ k, k ∈ order2 h2 ↔ is_Some (handlers h !! k) ∨ k = "print_log" ∨ k = "close_connection_db") as Hel.
  { intros k. rewrite (range_order_elem _ _ _ (Hord h2)). unfold h2, h1. cbn [handlers].
    rewrite !lookup_insert_is_Some.
    destruct (decide ("print_log" = k)) as [<-|H1]; [split; [by right; left|by left]|].
    destruct (decide ("close_connection_db" = k)) as [<-|H2].
    - split; [by right; right|]. intros _. right. split; [done|by left].
    - split; [tauto|]. intros [?|[?|?]]; [tauto|congruence..]. }
  rewrite bool_decide_false.
  2: { rewrite <- (range_order_length _ _ (Hord h2)).
       assert ("print_log" ∈ order2 h2) as Hin by (apply Hel; tauto). destruct (order2 h2); [by apply not_elem_of_nil in Hin|simpl; lia]. }
  rewrite (execute_logging_nodata h2 final_line (order2 h2) (ba_core b2)); [|done|].
  - do 2 eexists. split; [reflexivity|]. split; [by eapply range_order_NoDup|]. split; [exact Hel|]. done.
  - apply Forall_forall. intros k Hk%Hel. unfold h2, h1. cbn [handlers].
    destruct (decide (k = "print_log")) as [->|H1]; [rewrite lookup_insert_eq; eexists; split; [done|]; done|].
    rewrite lookup_insert_ne by done.
    destruct (decide (k = "close_connection_db")) as [->|H2].
    { rewrite lookup_insert_eq. eexists. split; [done|]. apply close_connection_db_line. }
    rewrite lookup_insert_ne by done. destruct Hk as [[f Hf]|[?|?]]; [|done..].
    exists f. split; [done|]. destruct (Hlog _ _ Hf) as [Hl Hfl]. intros c _. by rewrite Hfl.
Qed.

Lemma close_drivers_none {W} (b : BaseApp W) :
  ba_mu b = true → ba_driverv2 b = None →
  close_drivers b = (Returns None, mkBaseApp (ba_mu b) (ba_core b) (ba_before b) (ba_stop b) (ba_after b)
                                     (ba_driver b) (Some NewManagerV2)).
Proof.
  intros Hmu Hv. unfold close_drivers, DriverV2. rewrite M_bind_eq, M_bind_eq. unfold gets at 1. cbn [id].
  rewrite Hv, M_bind_eq. unfold lock. rewrite Hmu at 1. reflexivity.
Qed.

(** on an application whose stop handlers only log their key, with no
    drivers and no data manager, the service's Shutdown runs every one of the
    program's handlers twice, whatever the two map orders, and runs the two built-in
    handlers once. *)
Theorem shutdown_runs_stop_handlers_twice {W} (b : BaseApp W) h ks1
    (order2 : Hook (appcore W) CloseEvent → list string) k :
  ba_mu b = true → ba_stop b = Some h → ba_driverv2 b = None → a_data (ba_core b) = None →
  logging_hook h → k ∉ ["skip closing driver"; "Application Stopped, ciao !"] →
  is_Some (handlers h !! k) →
  range_order (handlers h) ks1 → (∀ h', range_order (handlers h') (order2 h')) →
  ∃ b', Service_Shutdown ks1 order2 b = (Returns tt, b') ∧
    length (filter (λ x, x = k) (a_log (ba_core b'))) =
      2 + length (filter (λ x, x = k) (a_log (ba_core b))) ∧
    "Application Stopped, ciao !" ∈ a_log (ba_core b').
Proof.
  intros Hmu Hs Hv Hd Hlog Hn Hk Hks1 Hord.
  unfold Service_Shutdown. rewrite M_bind_eq. unfold stop_Execute. rewrite M_bind_eq, (stop_hook_eq b h) by done.
  unfold on_core.
  destruct (Hook_Execute_logging h id ks1 (ba_core b)) as (Hc & e & He); [|done|].
  { intros k' f Hf. by destruct (Hlog _ _ Hf). }
  destruct (Hook_Execute h ks1 close_event (ba_core b)) as [r c1]. cbn [fst snd] in *. subst r c1.
  rewrite M_bind_eq, close_drivers_none by done. set (b1 := mkBaseApp _ _ _ _ _ _ _).
  destruct (BaseApp_Shutdown_logging b1 h order2 Hmu Hs Hd Hlog Hord) as (b' & ks & Hrun & Hnd & Hel & Hl & _).
  rewrite M_bind_eq, Hrun. exists b'. split; [reflexivity|].
  destruct Hk as [f Hf]. destruct (Hlog _ _ Hf) as [_ Hfl]. rewrite Hl. split.
  - unfold b1. cbn [ba_core a_log add_logs set_core]. rewrite list_fmap_id.
    rewrite !filter_app, !length_app, count_final_line by done.
    rewrite (count_NoDup k ks) by (done || (apply Hel; eauto)).
    rewrite (count_NoDup k ks1); [lia|by eapply range_order_NoDup|eapply range_order_elem; eauto].
  - apply elem_of_app. right. apply list_elem_of_fmap. exists "print_log". split; [done|]. apply Hel. tauto.
Qed.

Lemma shutdown_runs_stop_handlers_twice_witness :
  ∃ b', Service_Shutdown ["flush_metrics"] visit running_app = (Returns tt, b') ∧
    length (filter (λ x, x = "flush_metrics") (a_log (ba_core b'))) = 2 ∧
    "Application Stopped, ciao !" ∈ a_log (ba_core b').
Proof.
  apply (shutdown_runs_stop_handlers_twice running_app flush_hook ["flush_metrics"] visit "flush_metrics").
  - done.
  - done.
  - done.
  - done.
  - intros k f Hf. unfold flush_hook in Hf. cbn [handlers] in Hf. apply lookup_singleton_Some in Hf as [<- <-]. done.
  - decide_by_eval.
  - by eexists.
  - decide_by_eval.
  - intros h'. apply range_order_canonical.
Defined.
