(* ===== verification/Paginate.v ===== *)
(** * gorm/models/paginate.go and gorm/utils: list queries

    A [Paginate] carries the two query parameters of a list request as text.
    [Pagination] turns them into an [OFFSET]/[LIMIT] scope; the helpers of
    [gorm/utils] add search, sort and value clauses to a query under
    construction.  gorm is not part of the repository: a [*gorm.DB] is the list
    of the calls the helpers make on it, in order, and what a count query
    answers is an argument. *)

From S2P Require Import Prelude GoStr GoFloat.

Inductive db_call : Type :=
| Count (table_rows : Z)
| Offset (n : Z)
| Limit (n : Z)
| Where (sql arg : string)
| Or (sql arg : string)
| Order (column : string) (desc : bool)
| OrderByMatch (sql column value : string).

#[global] Instance db_call_eq_dec : EqDecision db_call.
Proof. solve_decision. Defined.

Definition Tx : Type := list db_call.

Definition call (c : db_call) : M Tx () := modify (λ tx, tx ++ [c]).

(** ** Paginate *)

Record Paginate : Type := mkPaginate {
  pg_Page : string;
  pg_PageSize : string;
  pg_Offset : Z;
  pg_Total : Z;
  pg_PageCount : Z;
}.

Section paginate.
(** What the platform gives for [int(x)] when [x] is not an [int]. *)
Variable oob : float64 → Z.

(** [int(math.Ceil(float64(total) / float64(pageSize)))] *)
Definition page_count (total pageSize : Z) : Z :=
  let q := f64_div (f64_of_Z total) (f64_of_Z pageSize) in
  match f64_ceil q with
  | Some z => if bool_decide (is_int z) then z else oob q
  | None => oob q
  end.

Definition SetPageCount (p : Paginate) (total pageSize : Z) : Paginate :=
  mkPaginate (pg_Page p) (pg_PageSize p) (pg_Offset p) total (page_count total pageSize).

(** The errors of [Atoi] are dropped: what it returned beside the error is the
    page number. *)
Definition page_number (s : string) : Z :=
  let page := (Atoi s).1 in
  if bool_decide (page = 0)%Z then 1%Z else page.

Definition page_size (s : string) : Z :=
  let pageSize := (Atoi s).1 in
  if bool_decide (100 < pageSize)%Z then 100%Z
  else if bool_decide (pageSize ≤ 0)%Z then 10%Z
  else pageSize.

Definition SetPagination (p : Paginate) : Paginate :=
  let page := page_number (pg_Page p) in
  let pageSize := page_size (pg_PageSize p) in
  let offset := wrap64 (wrap64 (page - 1) * pageSize) in
  mkPaginate (pg_Page p) (pg_PageSize p) offset (pg_Total p) (page_count (pg_Total p) pageSize).

(** The scope that [Pagination] returns, run when the query is: it writes to
    the shared [Paginate] and adds the window to the query. *)
Definition Pagination : M (Paginate * Tx) () := λ '(p, tx),
  let page := page_number (pg_Page p) in
  let pageSize := page_size (pg_PageSize p) in
  let offset := wrap64 (wrap64 (page - 1) * pageSize) in
  let p' := mkPaginate (pg_Page p) (pg_PageSize p) offset (pg_Total p)
              (page_count (pg_Total p) pageSize) in
  (Returns tt, (p', tx ++ [Offset offset; Limit pageSize])).

(** [WithPagination], with the scope it registers run by the query that
    follows.  [rows] is what the count query writes to [pagination.Total]. *)
Definition WithPagination (rows : Z) : M (Paginate * Tx) () := λ '(p, tx),
  let p1 := mkPaginate (pg_Page p) (pg_PageSize p) (pg_Offset p) rows (pg_PageCount p) in
  Pagination (p1, tx ++ [Count rows]).

End paginate.

(** ** gorm/utils: search *)

Definition lower_char (c : Ascii.ascii) : Ascii.ascii :=
  if bool_decide (65 ≤ code c ≤ 90)%Z then Ascii.ascii_of_nat (Ascii.nat_of_ascii c + 32) else c.

(** [strings.ToLower] on ASCII text. *)
Definition ToLower (s : string) : string := str (lower_char <$> chars s).

Definition search_sql (column : string) : string := sprintf "lower(%s) like ? " [column].
Definition search_arg (text : string) : string := "%" +:+ ToLower text +:+ "%".

(** The loop over [keys] in the order [ks]: the position among the keys the
    request sets decides between [Where] and [Or]. *)
Fixpoint WithSearch_loop (request keys : gmap string string) (index : nat) (ks : list string) :
    M Tx () :=
  match ks with
  | [] => mret tt
  | key :: ks' =>
      match keys !! key, request !! key with
      | Some value, Some text =>
          (if bool_decide (1 < index) then call (Or (search_sql value) (search_arg text))
           else call (Where (search_sql value) (search_arg text)))
          ≫= λ _, WithSearch_loop request keys (S index) ks'
      | _, _ => WithSearch_loop request keys index ks'
      end
  end.

Definition WithSearch (request keys : gmap string string) (ks : list string) : M Tx () :=
  WithSearch_loop request keys 0 ks.

Definition SearchHandler : Type := gmap string (string → M Tx ()).

Record WithSearchParam : Type := mkSearchParam { sp_Column : string; sp_Value : string }.

Definition WithSearchV2 (param : WithSearchParam) (handlers : SearchHandler) : M Tx () :=
  match handlers !! sp_Column param with
  | Some value => value (sp_Value param)
  | None => mret tt
  end.

Definition WithSearchAllColumn (request : gmap string string) (handlers : SearchHandler)
    (ks : list string) : M Tx () :=
  for_each (λ key, match handlers !! key, request !! key with
                   | Some value, Some text => value text
                   | _, _ => mret tt
                   end) ks.

(** ** gorm/utils: sort *)

Definition WithSort (request keys : gmap string string) (ks : list string) : M Tx () :=
  for_each (λ key, match keys !! key, request !! key with
                   | Some value, Some direction =>
                       call (Order value (bool_decide (direction = "descend")))
                   | _, _ => mret tt
                   end) ks.

Definition SortHandler : Type := gmap string (string → bool → M Tx ()).

Definition WithDefaultSort (column : string) : string → bool → M Tx () :=
  λ _ desc, call (Order column desc).

Record WithSortV2Param : Type := mkSortParam { so_Column : string; so_Direction : string }.

Definition WithSortV2 (param : WithSortV2Param) (handlers : SortHandler) : M Tx () :=
  match handlers !! so_Column param with
  | Some value =>
      let desc := bool_decide (so_Direction param = "descend" ∨ so_Direction param = "desc") in
      value (so_Column param) desc
  | None => mret tt
  end.

Definition WithSortAllColumn (request : gmap string string) (handlers : SortHandler)
    (ks : list string) : M Tx () :=
  for_each (λ key, match handlers !! key, request !! key with
                   | Some value, Some direction => value direction (bool_decide (direction = "descend"))
                   | _, _ => mret tt
                   end) ks.

(** ** gorm/utils: rows with a value first *)

Definition WithValue (column value : string) : M Tx () :=
  call (OrderByMatch "(? = ?) DESC" column value).

Record WithValueV2Param : Type := mkValueParam { va_Col : string; va_Val : string }.

Definition WithValueV2 (param : WithValueV2Param) (handlers : SortHandler) : M Tx () :=
  match handlers !! va_Col param with
  | Some _ => WithValue (va_Col param) (va_Val param)
  | None => mret tt
  end.

(** ** Specifications *)

(** The rows [OFFSET o LIMIT n] selects from a result of [rows] rows, as
    positions; SQL has no meaning for a negative offset. *)
Definition window (o n : Z) : list Z := seqZ o n.

Definition matched (request keys : gmap string string) (key : string) : option (string * string) :=
  value ← keys !! key; text ← request !! key; Some (search_sql value, search_arg text).

(** The clause at position [i] of a search. *)
Definition search_clause (i : nat) (c : string * string) : db_call :=
  if bool_decide (1 < i) then Or c.1 c.2 else Where c.1 c.2.

(** ** Lemmas *)

Lemma page_size_bounds s : (1 ≤ page_size s ≤ 100)%Z.
Proof. unfold page_size. repeat case_bool_decide; lia. Qed.

Lemma page_size_Itoa n : (1 ≤ n ≤ 100)%Z → page_size (Itoa n) = n.
Proof.
  intros Hn. unfold page_size. rewrite Atoi_Itoa by (unfold is_int, min_int, max_int; lia).
  simpl. rewrite !bool_decide_false by lia. done.
Qed.

Lemma page_number_Itoa p : is_int p → p ≠ 0%Z → page_number (Itoa p) = p.
Proof. intros Hp H0. unfold page_number. rewrite Atoi_Itoa by done. simpl. by rewrite bool_decide_false. Qed.

Lemma Atoi_is_int s : is_int (Atoi s).1.
Proof.
  assert (∀ cs n m, (0 ≤ n)%Z → parse_uint_loop cs n = UOk m → (0 ≤ m)%Z) as Hpos.
  { induction cs as [|c cs IH]; cbn [parse_uint_loop]; intros n m Hn; [congruence|].
    unfold digit_val. case_bool_decide; [|congruence].
    case_bool_decide; [congruence|]. case_bool_decide; [congruence|]. apply IH. lia. }
  assert (∀ cs m, ParseUint cs = UOk m → (0 ≤ m)%Z) as Hun.
  { intros [|c cs] m; [done|]. apply Hpos. lia. }
  unfold Atoi, is_int, min_int, max_int.
  set (x := match chars s with [] => _ | _ => _ end). destruct x as [neg cs].
  destruct (ParseUint cs) as [un|[]] eqn:E; [|destruct neg; simpl; lia..].
  apply Hun in E. destruct neg; case_bool_decide; simpl; lia.
Qed.

Lemma page_number_is_int s : is_int (page_number s).
Proof.
  unfold page_number. case_bool_decide; [|apply Atoi_is_int].
  unfold is_int, min_int, max_int. lia.
Qed.

Lemma WithSearch_loop_spec request keys ks i tx :
  WithSearch_loop request keys i ks tx =
    (Returns tt, tx ++ imap (λ j c, search_clause (i + j) c) (omap (matched request keys) ks)).
Proof.
  revert i tx. induction ks as [|k ks IH]; intros i tx; simpl; [by rewrite app_nil_r|].
  unfold matched at 1. destruct (keys !! k) as [v|]; simpl; [|apply IH].
  destruct (request !! k) as [t|]; simpl; [|apply IH].
  assert (∀ l : list (string * string),
    imap (λ j c, search_clause (i + S j) c) l = imap (λ j c, search_clause (S i + j) c) l) as Hs.
  { intros l. apply imap_ext. intros. f_equal. lia. }
  unfold search_clause at 1. rewrite Nat.add_0_r. unfold compose. rewrite Hs.
  rewrite M_bind_eq. case_bool_decide; cbn [call modify]; unfold modify; cbv beta iota;
    rewrite IH, <- app_assoc; done.
Qed.

Lemma seqZ_concat n k : (0 ≤ n)%Z →
  mjoin ((λ i, window (Z.of_nat i * n) n) <$> seq 0 k) = seqZ 0 (Z.of_nat k * n).
Proof.
  intros Hn. induction k as [|k IH]; [done|].
  rewrite seq_S, fmap_app, join_app, IH. simpl. rewrite app_nil_r. unfold window.
  replace (Z.of_nat (S k) * n)%Z with (Z.of_nat k * n + n)%Z by lia.
  rewrite seqZ_app by lia. f_equal.
Qed.

(** The window a run of the scope adds to the query. *)
Definition added_window (r : outcome () * (Paginate * Tx)) : list Z :=
  match reverse r.2.2 with
  | Limit n :: Offset o :: _ => window o n
  | _ => []
  end.

Definition page_request (page size : Z) : Paginate := mkPaginate (Itoa page) (Itoa size) 0 0 0.

Lemma Pagination_request oob page n total tx :
  (1 ≤ page)%Z → (1 ≤ n ≤ 100)%Z → (page * n ≤ max_int)%Z →
  added_window (WithPagination oob total (page_request page n, tx)) = window ((page - 1) * n) n.
Proof.
  intros Hp Hn Hm. unfold added_window, WithPagination, Pagination, page_request.
  cbn [fst snd pg_Page pg_PageSize]. rewrite reverse_app. cbn.
  rewrite page_size_Itoa by done.
  rewrite page_number_Itoa by (unfold is_int, min_int, max_int in *; nia).
  rewrite (wrap64_id (page - 1)) by (unfold is_int, min_int, max_int in *; nia).
  rewrite wrap64_id; [done|]. unfold is_int, min_int, max_int in *. nia.
Qed.

(** ** Properties *)

(** C27: the first [k] pages of a list read every row of [0, k*n)
    exactly once and in order, for every page size from 1 to 100 whose rows an
    [int] can count, whatever the query already contains. *)
Theorem pages_tile oob (n total : Z) (k : nat) (tx : Tx) :
  (1 ≤ n ≤ 100)%Z → (Z.of_nat k * n ≤ max_int)%Z →
  mjoin ((λ i, added_window (WithPagination oob total (page_request (Z.of_nat i + 1) n, tx)))
           <$> seq 0 k) = seqZ 0 (Z.of_nat k * n).
Proof.
  intros Hn Hk. rewrite <- seqZ_concat by lia. f_equal.
  apply list_fmap_ext. intros j i [-> Hi]%lookup_seq. rewrite Pagination_request; [|nia..].
  f_equal. lia.
Qed.

Lemma pages_tile_witness :
  mjoin ((λ i, added_window (WithPagination oob_amd64 7 (page_request (Z.of_nat i + 1) 3, [])))
           <$> seq 0 2) = [0; 1; 2; 3; 4; 5]%Z.
Proof. apply (pages_tile oob_amd64 3 7 2 []); [lia|unfold max_int; lia]. Defined.

(** what the scope does for every pair of texts, errors of the
    parser included.  The limit is always from 1 to 100, the offset is an [int];
    a page that is not a number is page 1 (offset 0), and a page below zero asks
    the database for a negative offset. *)
Theorem Pagination_scope_spec oob p tx :
  ∃ o n p', Pagination oob (p, tx) = (Returns tt, (p', tx ++ [Offset o; Limit n])) ∧
    (1 ≤ n ≤ 100)%Z ∧ is_int o ∧ pg_Offset p' = o ∧ p' = SetPagination oob p ∧
    ((Atoi (pg_Page p)).2 = Some ErrSyntax → o = 0%Z) ∧
    ((- 2 ^ 56 ≤ (Atoi (pg_Page p)).1 < 0)%Z → (o < 0)%Z).
Proof.
  set (page := page_number (pg_Page p)). set (n := page_size (pg_PageSize p)).
  exists (wrap64 (wrap64 (page - 1) * n)), n, (SetPagination oob p).
  pose proof (page_size_bounds (pg_PageSize p)) as Hn. fold n in Hn.
  split; [done|]. split; [done|]. split; [apply wrap64_is_int|]. split; [done|]. split; [done|]. split.
  - intros He. assert (page = 1%Z) as ->; [|done].
    subst page. unfold page_number. rewrite bool_decide_true; [done|].
    revert He. unfold Atoi. destruct (match chars (pg_Page p) with [] => _ | _ => _ end) as [neg cs].
    destruct (ParseUint cs) as [un|[]], neg; try done; case_bool_decide; done.
  - intros Hp. assert (page = (Atoi (pg_Page p)).1) as Hpg.
    { subst page. unfold page_number. rewrite bool_decide_false by lia. done. }
    rewrite (wrap64_id (page - 1)), wrap64_id; unfold is_int, min_int, max_int; nia.
Qed.

(** whatever order the run-time visits the columns in, [WithSearch]
    adds one clause per column the request names; the first two are joined with
    AND and only the third and the following with OR. *)
Theorem WithSearch_spec request keys ks tx :
  range_order keys ks →
  ∃ cs, WithSearch request keys ks tx = (Returns tt, tx ++ imap search_clause cs) ∧
    (∀ c, c ∈ cs ↔ ∃ key column text, keys !! key = Some column ∧ request !! key = Some text ∧
                     c = (search_sql column, search_arg text)) ∧
    (∀ c0 c1 rest, cs = c0 :: c1 :: rest →
       imap search_clause cs = Where c0.1 c0.2 :: Where c1.1 c1.2 :: ((λ c, Or c.1 c.2) <$> rest)).
Proof.
  intros Ho. exists (omap (matched request keys) ks).
  split; [apply (WithSearch_loop_spec _ _ ks 0)|]. split.
  - intros c. rewrite list_elem_of_omap. unfold matched. split.
    + intros (k & _ & Hk). destruct (keys !! k) as [v|] eqn:Ek; [|done].
      destruct (request !! k) as [t|] eqn:Er; [|done]. simplify_eq/=. eauto 10.
    + intros (k & v & t & Ek & Er & ->). exists k.
      rewrite (range_order_elem _ _ _ Ho), Ek, Er. eauto.
  - intros c0 c1 rest ->. simpl. do 2 f_equal.
    apply list_eq. intros i. rewrite list_lookup_imap, list_lookup_fmap. done.
Qed.

Definition two_columns : gmap string string := {[ "name" := "users.name"; "city" := "users.city" ]}.

Lemma WithSearch_spec_witness :
  ∃ cs, WithSearch {[ "name" := "Bo"; "city" := "Rome" ]} two_columns ["name"; "city"] [] =
          (Returns tt, imap search_clause cs) ∧ length cs = 2.
Proof.
  destruct (WithSearch_spec {[ "name" := "Bo"; "city" := "Rome" ]} two_columns ["name"; "city"] [])
    as (cs & Hrun & _); [decide_by_eval|].
  exists cs. split; [done|].
  vm_compute in Hrun. injection Hrun as Hrun. apply (f_equal length) in Hrun.
  rewrite length_imap in Hrun. done.
Defined.

(** The page count of the default page size is the rounded-up quotient for
    totals up to two thousand. *)
Lemma page_count_default_size :
  forallb (λ t, bool_decide (page_count oob_amd64 t 10 = (t + 9) `div` 10)%Z) (seqZ 0 2000) = true.
Proof. vm_compute. reflexivity. Qed.
