(* ===== verification/Tools.v ===== *)
(** * tools/stack, tools/utils and internal/query.go

    A generic stack guarded by a mutex, a membership test, and the builder that
    wraps a query handler with hooks. *)

From S2P Require Import Prelude.

(** ** tools/stack

    The mutex is part of the state: it is not released when an operation panics
    between [Lock] and [Unlock], since no operation defers the [Unlock]. *)

Module StackOps.

Record Stack (T : Type) : Type := mkStack { data : list T; locked : bool }.

Arguments mkStack {T} _ _.
Arguments data {T} _.
Arguments locked {T} _.

Section stack.
Context {T : Type}.

Definition Stack_New : Stack T := mkStack [] false.

Definition stack_lock : M (Stack T) () := λ s,
  if locked s then (Blocks, s) else (Returns tt, mkStack (data s) true).

Definition stack_unlock : M (Stack T) () := modify (λ s, mkStack (data s) false).

Definition set_data (l : list T) : M (Stack T) () := modify (λ s, mkStack l (locked s)).

Definition Push (x : T) : M (Stack T) () :=
  _ ← stack_lock; l ← gets data; _ ← set_data (l ++ [x]); stack_unlock.

Definition Pop : M (Stack T) T :=
  _ ← stack_lock;
  l ← gets data;
  match l !! (length l - 1) with
  | None => panic "index out of range [-1]"
  | Some last =>
      _ ← set_data (take (length l - 1) l);
      _ ← stack_unlock;
      mret last
  end.

Fixpoint PopByLength_loop (n : nat) (result : list T) : M (Stack T) (list T) :=
  match n with
  | 0 => mret result
  | S n => x ← Pop; PopByLength_loop n (result ++ [x])
  end.

(** A length below one makes no turn of the loop. *)
Definition PopByLength (len : Z) : M (Stack T) (list T) := PopByLength_loop (Z.to_nat len) [].

Definition Peek : M (Stack T) T :=
  _ ← stack_lock;
  l ← gets data;
  match l !! 0 with
  | None => panic "index out of range [0] with length 0"
  | Some peek => _ ← stack_unlock; mret peek
  end.

Definition Len : M (Stack T) Z :=
  _ ← stack_lock; l ← gets data; _ ← stack_unlock; mret (Z.of_nat (length l)).

Lemma Push_eq x l : Push x (mkStack l false) = (Returns tt, mkStack (l ++ [x]) false).
Proof. reflexivity. Qed.

Lemma Pop_snoc l x : Pop (mkStack (l ++ [x]) false) = (Returns x, mkStack l false).
Proof.
  unfold Pop. go. rewrite length_app, Nat.add_sub. simpl.
  rewrite list_lookup_middle by done. simpl.
  rewrite take_app_le, firstn_all by lia. done.
Qed.

Lemma Pop_empty : Pop (mkStack [] false) = (Panics "index out of range [-1]", mkStack [] true).
Proof. reflexivity. Qed.

Lemma push_all l xs :
  for_each Push xs (mkStack l false) = (Returns tt, mkStack (l ++ xs) false).
Proof.
  revert l. induction xs as [|x xs IH]; intros l; simpl; [by rewrite app_nil_r|].
  rewrite M_bind_eq, Push_eq. rewrite IH. by rewrite <- app_assoc.
Qed.

Lemma PopByLength_loop_spec l xs acc :
  PopByLength_loop (length xs) acc (mkStack (l ++ xs) false) = (Returns (acc ++ reverse xs), mkStack l false).
Proof.
  revert acc. induction xs as [|x xs IH] using rev_ind; intros acc; simpl.
  { by rewrite !app_nil_r. }
  rewrite length_app, Nat.add_comm, reverse_snoc. simpl.
  rewrite M_bind_eq, app_assoc, Pop_snoc, IH. by rewrite <- app_assoc.
Qed.

Lemma PopByLength_loop_empty n l acc :
  length l < n → PopByLength_loop n acc (mkStack l false) = (Panics "index out of range [-1]", mkStack [] true).
Proof.
  revert n acc. induction l as [|x l IH] using rev_ind; intros [|n] acc Hn; simpl in *; [lia| |lia|].
  - by rewrite M_bind_eq, Pop_empty.
  - rewrite length_app in Hn. simpl in Hn. rewrite M_bind_eq, Pop_snoc, IH by lia. done.
Qed.

End stack.
End StackOps.

Import StackOps.

(** elements come back in the reverse order of their pushes, also
    when the stack was not empty; the elements below are left alone, the length
    is counted and the lock is free again.  [Peek] reads the element that was
    pushed first. *)
Theorem stack_lifo {T} (l xs : list T) :
  let s := (for_each Push xs (mkStack l false)).2 in
  PopByLength (Z.of_nat (length xs)) s = (Returns (reverse xs), mkStack l false) ∧
  Len s = (Returns (Z.of_nat (length l + length xs)), s) ∧
  (∀ x rest, l ++ xs = x :: rest → Peek s = (Returns x, s)).
Proof.
  rewrite push_all. simpl. split_and!.
  - unfold PopByLength. rewrite Nat2Z.id. apply (PopByLength_loop_spec l xs []).
  - unfold Len. go. by rewrite length_app.
  - intros x rest ->. reflexivity.
Qed.

(** popping more than the stack holds panics with the mutex
    held, and every later operation on the same stack blocks for ever. *)
Theorem stack_pop_empty_deadlocks {T} (l : list T) (n : nat) (x : T) (m : Z) :
  length l < n →
  ∃ msg s, PopByLength (Z.of_nat n) (mkStack l false) = (Panics msg, s) ∧
    Push x s = (Blocks, s) ∧ Pop s = (Blocks, s) ∧ Peek s = (Blocks, s) ∧ Len s = (Blocks, s) ∧
    (0 < m → PopByLength m s = (Blocks, s))%Z.
Proof.
  intros Hn. eexists _, _. split.
  { unfold PopByLength. rewrite Nat2Z.id. by apply PopByLength_loop_empty. }
  split_and!; [done..|]. intros Hm. unfold PopByLength.
  destruct (Z.to_nat m) as [|k] eqn:E; [lia|]. done.
Qed.

Lemma stack_pop_empty_deadlocks_witness :
  ∃ msg s, PopByLength 2 (mkStack [7%Z] false) = (Panics msg, s) ∧ Push 9%Z s = (Blocks, s).
Proof.
  destruct (stack_pop_empty_deadlocks [7%Z] 2 9%Z 1%Z) as (msg & s & Hp & Hpush & _);
    [simpl; lia|]. by exists msg, s.
Defined.

(** ** tools/utils *)

Fixpoint IsInclude {T} `{EqDecision T} (data : list T) (target : T) : bool :=
  match data with
  | [] => false
  | datum :: data' => if bool_decide (datum = target) then true else IsInclude data' target
  end.

Lemma IsInclude_spec {T} `{EqDecision T} (data : list T) target :
  IsInclude data target = true ↔ target ∈ data.
Proof.
  induction data as [|d data IH]; simpl; [by rewrite elem_of_nil|].
  rewrite elem_of_cons. case_bool_decide as Hd; [naive_solver|]. rewrite IH. naive_solver.
Qed.

(** ** internal/query.go

    [W] is the world the handlers act on; a hook is called when it is
    registered and again when the query executes. *)

Module Query.

Section query.
Context {W Result : Type}.

Record IQuery : Type := mkIQuery {
  iq_Validate : M W goerror;
  iq_Handle : M W (Result * goerror);
}.

Record withQuery : Type := mkWQ {
  wq_handler : IQuery;
  wq_err : goerror;
  wq_res : Result;
  wq_before : option (M W goerror);
  wq_after : option (M W goerror);
}.

(** [zero] is the zero value of the result type. *)
Definition WithQuery (zero : Result) (h : IQuery) : withQuery := mkWQ h None zero None None.

(** An error overwrites the recorded one; a nil error leaves it. *)
Definition record_err (old e : goerror) : goerror :=
  match e with Some _ => e | None => old end.

Definition BeforeQueryFunc (q : withQuery) (handler : M W goerror) : M W withQuery :=
  e ← handler;
  mret (mkWQ (wq_handler q) (record_err (wq_err q) e) (wq_res q) (Some handler) (wq_after q)).

Definition AfterQueryFunc (q : withQuery) (handler : M W goerror) : M W withQuery :=
  e ← handler;
  mret (mkWQ (wq_handler q) (record_err (wq_err q) e) (wq_res q) (wq_before q) (Some handler)).

Definition IsError (q : withQuery) : bool :=
  match wq_err q with Some _ => true | None => false end.

Definition wq_Error (q : withQuery) : goerror := wq_err q.

Definition GetResult (q : withQuery) : Result := wq_res q.

Definition Validate (q : withQuery) : M W withQuery :=
  e ← iq_Validate (wq_handler q);
  mret (mkWQ (wq_handler q) (record_err (wq_err q) e) (wq_res q) (wq_before q) (wq_after q)).

(** The errors of the two hooks are dropped here. *)
Definition run_hook (h : option (M W goerror)) : M W () :=
  match h with
  | Some f => _ ← f; mret tt
  | None => mret tt
  end.

Definition Execute (q : withQuery) : M W withQuery :=
  match wq_err q with
  | Some _ => mret q
  | None =>
      _ ← run_hook (wq_before q);
      r ← iq_Handle (wq_handler q);
      let q' := mkWQ (wq_handler q) r.2 r.1 (wq_before q) (wq_after q) in
      _ ← run_hook (wq_after q);
      mret q'
  end.

(** The chain [WithQuery(h).BeforeQueryFunc(b).AfterQueryFunc(a).Validate().Execute(ctx)]. *)
Definition full_chain (zero : Result) (h : IQuery) (b a : M W goerror) : M W withQuery :=
  q1 ← BeforeQueryFunc (WithQuery zero h) b;
  q2 ← AfterQueryFunc q1 a;
  q3 ← Validate q2;
  Execute q3.

End query.

Arguments IQuery : clear implicits.
Arguments withQuery : clear implicits.

(** Handlers that log their name. *)
Definition logged {A} (name : string) (x : A) : M (list string) A := λ w, (Returns x, w ++ [name]).

End Query.

Import Query.

(** in a full chain whose hooks and handler log that they ran,
    both hooks run when they are registered, before validation.  The handler
    runs exactly when neither hook nor the validation failed, and then both hooks
    run a second time around it; otherwise the result stays the zero value and
    the last error is the one reported. *)
Theorem query_chain_trace {R} (zero : R) (r : R) (eb ea ev eh : goerror) :
  let h := mkIQuery (logged "validate" ev) (logged "handle" (r, eh)) in
  ∃ q, full_chain zero h (logged "before" eb) (logged "after" ea) [] =
         (Returns q,
          match eb, ea, ev with
          | None, None, None => ["before"; "after"; "validate"; "before"; "handle"; "after"]
          | _, _, _ => ["before"; "after"; "validate"]
          end) ∧
    (eb = None ∧ ea = None ∧ ev = None → GetResult q = r ∧ wq_Error q = eh) ∧
    (¬ (eb = None ∧ ea = None ∧ ev = None) →
       GetResult q = zero ∧ IsError q = true ∧
       wq_Error q = record_err (record_err eb ea) ev).
Proof.
  destruct eb as [eb|], ea as [ea|], ev as [ev|];
    eexists; (split; [cbv; reflexivity|]); split; intros H; try naive_solver; try done; by destruct H.
Qed.
