(* ===== verification/Http.v ===== *)
(** * exceptions and drivers/http: the REST surface

    Errors of the use cases become [ApiError]s, and the error handler of the
    server turns whatever a route returned into a response.  The loyalty
    controller binds requests to the buses of [Cqrs]; two routes report on the
    master process.  echo is not part of the repository: a request is the data
    the code reads from it, a handler returns the response it writes or an
    error, and the outcome of binding a body is an argument.  So is [JSON], what
    [c.JSON] returns for a response: it can fail, in encoding or in writing, and
    a write that fails may have sent a part already. *)

From S2P Require Import Prelude GoStr GoFloat GoJson Drivers LoyaltyDomain Cqrs LoyaltyApp LoyaltyRepo LoyaltyGuarantees Paginate.

(** ** exceptions *)

Definition Status : Type := Z.
Definition Status_Error : Status := 0%Z.
Definition ValidationException : Status := 1%Z.

Definition statusNames : gmap Z string :=
  {[ Status_Error := "ERROR"; ValidationException := "INVALID_INPUT" ]}.

Definition Status_String (o : Status) : string :=
  match statusNames !! o with
  | Some name => name
  | None => "unknown"
  end.

Definition NewBaseException (code : Z) (message : string) : error := BaseExc code 0 message.

(** [(b *BaseException) WithStatus] *)
Definition BaseException_WithStatus (b : error) (status : Status) : error :=
  match b with
  | BaseExc code _ msg => BaseExc code status msg
  | e => e
  end.

(** [errors.As(err, &srvErr)] with [srvErr *BaseException]: the first one along
    the wrapping chain, depth first through joined errors. *)
Fixpoint as_base (e : error) : option (Z * Status * string) :=
  match e with
  | BaseExc code status msg => Some (code, status, msg)
  | Wrap _ _ i => as_base i
  | Joined es => (fix first (l : list error) : option (Z * Status * string) :=
                    match l with
                    | [] => None
                    | x :: l' => match as_base x with Some b => Some b | None => first l' end
                    end) es
  | _ => None
  end.

(** ** drivers/http/api/api_error.go *)

Record ApiError : Type := mkApiError {
  ae_Code : Z;
  ae_RequestId : string;
  ae_Message : string;
  ae_Status : string;
  ae_Time : Z;
  ae_rawData : option string;
}.

Definition NewApiError (now : Z) (status : Z) (message : string) (data : option string) : ApiError :=
  mkApiError status "" (TrimSpace message) "" now data.

Definition ApiError_WithStatus (b : ApiError) (status : Status) : ApiError :=
  mkApiError (ae_Code b) (ae_RequestId b) (ae_Message b) (Status_String status) (ae_Time b)
             (ae_rawData b).

Definition ApiError_Error (e : ApiError) : string := ae_Message e.

Definition RawData (e : ApiError) : option string := ae_rawData e.

Definition or_default (message default_message : string) : string :=
  if bool_decide (message = "") then default_message else message.

Definition NewNotFoundError (now : Z) (message : string) (data : option string) : ApiError :=
  NewApiError now 404 (or_default message "The requested resource wasn't found.") data.

Definition NewBadRequestError (now : Z) (message : string) (data : option string) : ApiError :=
  ApiError_WithStatus
    (NewApiError now 400 (or_default message "Something went wrong while processing your request.") data)
    Status_Error.

Definition NewForbiddenError (now : Z) (message : string) (data : option string) : ApiError :=
  NewApiError now 403 (or_default message "You are not allowed to perform this request.") data.

Definition NewUnauthorizedError (now : Z) (message : string) (data : option string) : ApiError :=
  ApiError_WithStatus
    (NewApiError now 401 (or_default message "Missing or invalid authentication token.") data)
    Status_Error.

Definition NewInternalServerError (now : Z) (err : error) : ApiError :=
  ApiError_WithStatus (NewApiError now 500 (Error err) None) Status_Error.

Definition NewServiceError (now : Z) (err : error) : ApiError :=
  match as_base err with
  | Some (code, status, msg) => ApiError_WithStatus (NewApiError now code msg None) status
  | None => NewInternalServerError now err
  end.

(** [marshalled] is what [json.Marshal(err)] gives. *)
Definition NewValidationErrorV2 (now : Z) (err : error) (marshalled : string + error) : ApiError :=
  match marshalled with
  | inr errParse => ApiError_WithStatus (NewApiError now 500 (Error errParse) None) Status_Error
  | inl b => ApiError_WithStatus (NewApiError now 422 (Error err) (Some b)) Status_Error
  end.

Definition encode_ApiError (e : ApiError) : json :=
  JObj ([("code", JNum (ae_Code e)); ("request_id", JStr (ae_RequestId e));
         ("message", JStr (ae_Message e))] ++
        (if bool_decide (ae_Status e = "") then [] else [("event_code", JStr (ae_Status e))]) ++
        [("time", JTime (ae_Time e))]).

(** ** Responses *)

Inductive body : Type := JsonBody (j : json) | TextBody (s : string).

Record response : Type := mkResponse { rs_code : Z; rs_body : body }.

(** An error a route returns: an [*echo.HTTPError], an [*ApiError], an error
    wrapping another, or any other error. *)
Inductive herror : Type :=
| HEcho (code : Z) (msg : string) (internal : option herror)
| HApi (e : ApiError)
| HWrap (text : string) (inner : herror)
| HErr (e : error).

Inductive hresult : Type := Responds (r : response) | Fails (e : herror).

(** [errors.As(err, &errorApp)] with [errorApp *ApiError]. *)
Fixpoint as_api (e : herror) : option ApiError :=
  match e with
  | HApi a => Some a
  | HWrap _ i => as_api i
  | HEcho _ _ (Some i) => as_api i
  | _ => None
  end.

(** ** drivers/http/httperrorhandler.go *)

(** The two headers: of the request, and of the response under construction. *)
Definition GetRequestId (request_header response_header : string) : string :=
  if bool_decide (request_header = "") then response_header else request_header.

Inductive handled : Type := Sent (r : response) | Exits (msg : string).

Definition generic_message : string := "Oops something went wrong, Contact Developer for the issue".

(** A response the client gets, unless [c.JSON] fails: then the process ends. *)
Definition send (JSON : response → goerror) (r : response) : handled :=
  match JSON r with
  | Some e => Exits ("Cannot return anything " +:+ Error e)
  | None => Sent r
  end.

(** [requestId] is the request's id. *)
Definition HttpErrorHandler (mode : string) (requestId : string) (JSON : response → goerror) (err : herror) :
    handled :=
  let '(code, errorApp) :=
    match err with
    | HEcho code _ _ => (code, None)
    | _ =>
        match as_api err with
        | Some a =>
            let message := if bool_decide (mode = "production" ∧ ae_Code a = 500%Z)
                           then generic_message else ae_Message a in
            (ae_Code a, Some (mkApiError (ae_Code a) requestId message (ae_Status a) (ae_Time a)
                                         (ae_rawData a)))
        | None => (500%Z, None)
        end
    end in
  send JSON (mkResponse code (JsonBody (match errorApp with
                                        | Some a => encode_ApiError a
                                        | None => JNull
                                        end))).

(** ** drivers/http/api/api_response.go *)

Definition encode_ApiResponse (path : string) (now : Z) (data : json) (code : Z) : json :=
  JObj [("path", JStr path); ("time", JTime now); ("data", data); ("code", JNum code);
        ("request_id", JStr "")].

(** [return c.JSON(...)] *)
Definition return_JSON (JSON : response → goerror) (r : response) : hresult :=
  match JSON r with
  | Some e => Fails (HErr e)
  | None => Responds r
  end.

Definition NewApiResponse (JSON : response → goerror) (path : string) (now : Z) (data : json) (code : Z) :
    hresult :=
  return_JSON JSON (mkResponse code (JsonBody (encode_ApiResponse path now data code))).

(** The fields of [Paginate] under the raw text of their json tags, over the data
    under the caller's key; [Offset] has the tag [-]. *)
Definition paginate_fields (p : Paginate) : list (string * json) :=
  [("page", JStr (pg_Page p)); ("page_size", JStr (pg_PageSize p)); ("-", JNum (pg_Offset p));
   ("total", JNum (pg_Total p)); ("page_count", JNum (pg_PageCount p))].

Definition NewApiPaginationResponse (JSON : response → goerror) (key : string) (meta : option Paginate)
    (data : json) (code : Z) : outcome hresult :=
  match meta with
  | None => Panics "invalid memory address or nil pointer dereference"
  | Some p =>
      let res := fold_left (λ (m : gmap string json) '(k, v), <[k := v]> m) (paginate_fields p)
                           {[ key := data ]} in
      Returns (return_JSON JSON (mkResponse code (JsonBody (JObj (map_to_list res)))))
  end.

Definition encode_credit_response (r : CreditLoyaltyResponse) : json :=
  JObj [("LoyaltyAccountID", JStr (cs_LoyaltyAccountID r)); ("NewBalance", JNum (cs_NewBalance r));
        ("NewTier", JStr (cs_NewTier r))].

Definition encode_balance_response (r : GetLoyaltyBalanceResponse) : json :=
  JObj [("LoyaltyAccountID", JStr (gr_LoyaltyAccountID r)); ("CustomerID", JStr (gr_CustomerID r));
        ("Balance", JNum (gr_Balance r)); ("Tier", JStr (gr_Tier r))].

(** ** drivers/http/api/loyalty.go *)

Definition LoyaltyController_Register (prefix : string) : list (string * string * string) :=
  [("GET", prefix +:+ "/v1/loyalty", "GetBalance"); ("POST", prefix +:+ "/v1/loyalty/credit", "CreditPoints")].

Section controller.
Context {W : Type} (JSON : response → goerror) (now : Z).

Definition Controller_GetBalance (Ask : Query → M W (reply * goerror)) (path customer_id : string) :
    M W hresult :=
  r ← Ask (QryGetBalance (mkBalanceReq customer_id));
  match r.2 with
  | Some err => mret (Fails (HApi (NewServiceError now err)))
  | None =>
      match r.1 with
      | ReplyBalance b => mret (NewApiResponse JSON path now (encode_balance_response b) 200)
      | _ => panic "interface conversion"
      end
  end.

(** [bound] is what [c.Bind(&req)] left: the request or an error. *)
Definition Controller_CreditPoints (Dispatch : Command → M W (reply * goerror)) (path : string)
    (bound : CreditLoyaltyRequest + error) : M W hresult :=
  match bound with
  | inr err => mret (Fails (HApi (NewBadRequestError now (Error err) None)))
  | inl req =>
      r ← Dispatch (CmdCreditLoyalty req);
      match r.2 with
      | Some err => mret (Fails (HApi (NewServiceError now err)))
      | None =>
          match r.1 with
          | ReplyCredit c => mret (NewApiResponse JSON path now (encode_credit_response c) 201)
          | _ => panic "interface conversion"
          end
      end
  end.

(** What the client receives: the response, or what the error handler sends for the
    error the route returned, which may be the one of writing the response. *)
Definition serve (mode requestId : string) (route : M W hresult) : M W handled :=
  r ← route;
  mret (match r with
        | Responds resp => Sent resp
        | Fails e => HttpErrorHandler mode requestId JSON e
        end).

End controller.

(** ** drivers/http/api/init.go *)

Section routes.
Context {St : Type}.

Definition Master_type : string := "*mastercore.Master".
Definition Master_name : string := "MasterAdapter".

(** [total] reads the worker total of the master a pointer refers to. *)
Definition health_route (m : Manager St) (s : St) : outcome response :=
  match driver_Get Master_type m Master_name s with
  | (_, Some _) => Returns (mkResponse 200 (TextBody "NOT HEALTHY"))
  | (v, None) =>
      match v ≫= dyn_ptr with
      | Some _ => Returns (mkResponse 200 (TextBody "HEALTHY"))
      | None => Panics "invalid memory address or nil pointer dereference"
      end
  end.

Definition workers_route (total : nat → Z) (m : Manager St) (s : St) : outcome response :=
  match driver_Get Master_type m Master_name s with
  | (_, Some _) => Returns (mkResponse 400 (TextBody "WORKER NOT READY"))
  | (v, None) =>
      match v ≫= dyn_ptr with
      | Some p => Returns (mkResponse 200 (TextBody (Itoa (total p))))
      | None => Panics "invalid memory address or nil pointer dereference"
      end
  end.

End routes.

(** ** drivers/http/echo.go: the access log *)

Inductive level : Type := LInfo | LWarn | LError.

(** [v.Error] is nil when the route returned nil. *)
Definition LogValuesFunc (status : Z) (host : string) (v_Error : option herror)
    (text : herror → string) : outcome (level * string) :=
  let deref l := match v_Error with
                 | Some e => Returns (l, text e)
                 | None => Panics "invalid memory address or nil pointer dereference"
                 end in
  if bool_decide (100 < status < 400)%Z then Returns (LInfo, host)
  else if bool_decide (400 ≤ status < 500)%Z then deref LWarn
  else if bool_decide (500 ≤ status)%Z then deref LError
  else deref LError.

(** ** drivers/http/api/request_binder.go *)

Record req_field : Type := mkField {
  fd_name : string;
  (** the value of a field whose kind is a map of strings *)
  fd_map : option (gmap string string);
  fd_settable : bool;
}.

Definition HasSuffix (s suf : string) : bool :=
  bool_decide (drop (length (chars s) - length (chars suf)) (chars s) = chars suf
               ∧ length (chars suf) ≤ length (chars s)).

(** [key[7:len(key)-1]], when the key has the prefix and the suffix. *)
Definition bracket_key (prefix key : string) : option string :=
  if HasPrefix key prefix && HasSuffix key "]"
  then Some (str (take (length (chars key) - 1 - 7) (drop 7 (chars key)))) else None.

(** The loop over the query parameters, in the order [ks]. *)
Fixpoint bind_params (prefix : string) (params : gmap string (list string)) (ks : list string)
    (m : gmap string string) : outcome (gmap string string) :=
  match ks with
  | [] => Returns m
  | key :: ks' =>
      match bracket_key prefix key with
      | None => bind_params prefix params ks' m
      | Some sortKey =>
          match params !! key with
          | Some (v :: _) => bind_params prefix params ks' (<[sortKey := v]> m)
          | _ => Panics "index out of range [0] with length 0"
          end
      end
  end.

Definition bind_field (params : gmap string (list string)) (ks : list string) (f : req_field) :
    outcome req_field :=
  let set prefix :=
    match fd_map f with
    | Some _ =>
        if fd_settable f then
          match bind_params prefix params ks ∅ with
          | Returns m => Returns (mkField (fd_name f) (Some m) (fd_settable f))
          | Panics e => Panics e
          | Blocks => Blocks
          end
        else Returns f
    | None => Returns f
    end in
  if bool_decide (fd_name f = "Sorter") then set "sorter["
  else if bool_decide (fd_name f = "Search") then set "search["
  else Returns f.

Fixpoint bind_fields (params : gmap string (list string)) (ks : list string) (fs : list req_field) :
    outcome (list req_field) :=
  match fs with
  | [] => Returns []
  | f :: fs' =>
      match bind_field params ks f with
      | Returns f' => match bind_fields params ks fs' with
                      | Returns l => Returns (f' :: l)
                      | Panics e => Panics e
                      | Blocks => Blocks
                      end
      | Panics e => Panics e
      | Blocks => Blocks
      end
  end.

(** [bound] is what [c.Bind(param)] left: the fields of the struct, or an error. *)
Definition requestBinder (params : gmap string (list string)) (ks : list string)
    (bound : list req_field + error) : outcome (list req_field + error) :=
  match bound with
  | inr err => Returns (inr err)
  | inl fs => match bind_fields params ks fs with
              | Returns l => Returns (inl l)
              | Panics e => Panics e
              | Blocks => Blocks
              end
  end.

(** ** Lemmas *)

Definition bracketed (prefix k : string) : string := prefix +:+ k +:+ "]".

Definition is_bracket_prefix (p : string) : Prop := p = "sorter[" ∨ p = "search[".

Lemma bracket_prefix_length p : is_bracket_prefix p → length (chars p) = 7.
Proof. by intros [->| ->]. Qed.

Lemma bracket_prefix_last p : is_bracket_prefix p → drop 6 (chars p) ≠ chars "]".
Proof. by intros [->| ->]. Qed.

Lemma bracket_key_sound p key k :
  is_bracket_prefix p → bracket_key p key = Some k → key = bracketed p k.
Proof.
  intros Hp. pose proof (bracket_prefix_length p Hp) as Hlen. unfold bracket_key, HasPrefix, HasSuffix.
  case_bool_decide as Hpre; [|done]. case_bool_decide as Hsuf; [|done]. simpl. intros [= <-].
  rewrite Hlen in Hpre. destruct Hsuf as [Hsuf Hle]. simpl in Hle.
  pose proof (take_drop 7 (chars key)) as Hkey. rewrite Hpre in Hkey.
  apply (inj chars). unfold bracketed. rewrite !chars_app, chars_str.
  revert Hkey Hsuf. generalize (drop 7 (chars key)) as r. intros r <-.
  rewrite length_app, Hlen. destruct r as [|x r _] using rev_ind.
  { rewrite app_nil_r. simpl. intros Hl. by apply bracket_prefix_last in Hl. }
  rewrite length_app. simpl length.
  replace (7 + (length r + 1) - 1) with (length (chars p ++ r)) by (rewrite length_app; lia).
  rewrite app_assoc, drop_app_length. intros ->.
  replace (length (chars p ++ r) - 7) with (length r) by (rewrite length_app; lia).
  by rewrite take_app_length, app_assoc.
Qed.

Lemma bracket_key_complete p k : is_bracket_prefix p → bracket_key p (bracketed p k) = Some k.
Proof.
  intros Hp. pose proof (bracket_prefix_length p Hp) as Hlen. unfold bracket_key, HasPrefix, HasSuffix, bracketed.
  rewrite !chars_app, !length_app, Hlen. simpl (length (chars "]")).
  rewrite (bool_decide_true (take _ _ = _)) by (rewrite <- Hlen at 1; apply take_app_length).
  rewrite bool_decide_true.
  2: { split; [|lia]. replace (7 + (length (chars k) + 1) - 1) with (length (chars p ++ chars k))
         by (rewrite length_app; lia). by rewrite app_assoc, drop_app_length. }
  simpl andb. cbv iota. f_equal.
  assert (drop 7 (chars p ++ chars k ++ chars "]") = chars k ++ chars "]") as ->
    by (rewrite <- Hlen; apply drop_app_length).
  replace (7 + (length (chars k) + 1) - 1 - 7) with (length (chars k)) by lia.
  rewrite take_app_length. apply str_chars.
Qed.

Lemma bind_params_spec p (params : gmap string (list string)) ks m :
  is_bracket_prefix p → (∀ key, key ∈ ks → ∃ v vs, params !! key = Some (v :: vs)) →
  ∃ m', bind_params p params ks m = Returns m' ∧
    ∀ k, m' !! k = if bool_decide (bracketed p k ∈ ks)
                   then params !! bracketed p k ≫= head else m !! k.
Proof.
  intros Hp. revert m. induction ks as [|key ks IH]; intros m Hks; cbn [bind_params].
  { exists m. split; [done|]. done. }
  destruct (Hks key) as (v & vs & Hv); [left|].
  assert (∀ key', key' ∈ ks → ∃ v vs, params !! key' = Some (v :: vs)) as Hks'.
  { intros key' Hin. apply Hks. by right. }
  destruct (bracket_key p key) as [sk|] eqn:Ek.
  - apply bracket_key_sound in Ek as ->; [|done]. rewrite Hv.
    destruct (IH (<[sk := v]> m) Hks') as (m' & -> & Hm'). exists m'. split; [done|].
    intros k. rewrite Hm'. destruct (decide (k = sk)) as [->|Hne].
    + rewrite (bool_decide_true (_ ∈ _ :: _)) by left. rewrite Hv, lookup_insert_eq. by case_bool_decide.
    + rewrite lookup_insert_ne by done. apply (f_equal (λ b : bool, if b then _ else _)).
      apply bool_decide_ext. rewrite elem_of_cons. split; [by right|]. intros [E|]; [|done].
      destruct Hne. pose proof (bracket_key_complete p k Hp) as H1. rewrite E in H1.
      rewrite bracket_key_complete in H1 by done. congruence.
  - destruct (IH m Hks') as (m' & -> & Hm'). exists m'. split; [done|].
    intros k. rewrite Hm'. apply (f_equal (λ b : bool, if b then _ else _)).
    apply bool_decide_ext. rewrite elem_of_cons. split; [by right|]. intros [E|]; [|done].
    subst key. by rewrite bracket_key_complete in Ek.
Qed.

(** What a field holds after binding. *)
Definition field_bound (params : gmap string (list string)) (f f' : req_field) : Prop :=
  fd_name f' = fd_name f ∧
  match fd_map f, fd_settable f with
  | Some _, true =>
      (fd_name f = "Sorter" → ∃ m, fd_map f' = Some m ∧
         ∀ k, m !! k = params !! bracketed "sorter[" k ≫= head) ∧
      (fd_name f = "Search" → ∃ m, fd_map f' = Some m ∧
         ∀ k, m !! k = params !! bracketed "search[" k ≫= head) ∧
      (fd_name f ≠ "Sorter" → fd_name f ≠ "Search" → f' = f)
  | _, _ => f' = f
  end.

Lemma bind_params_all p (params : gmap string (list string)) ks :
  is_bracket_prefix p → range_order params ks → (∀ key vs, params !! key = Some vs → vs ≠ []) →
  ∃ m, bind_params p params ks ∅ = Returns m ∧ ∀ k, m !! k = params !! bracketed p k ≫= head.
Proof.
  intros Hp Ho Hne. destruct (bind_params_spec p params ks ∅ Hp) as (m & Hm & Hk).
  { intros key [vs Hvs]%(range_order_elem _ _ _ Ho). destruct vs as [|v vs]; [|eauto].
    by destruct (Hne _ _ Hvs). }
  exists m. split; [done|]. intros k. rewrite Hk. case_bool_decide as Hin; [done|].
  rewrite lookup_empty. destruct (params !! bracketed p k) eqn:E; [|done].
  destruct Hin. apply (range_order_elem _ _ _ Ho). eauto.
Qed.

Lemma bind_field_spec (params : gmap string (list string)) ks f :
  range_order params ks → (∀ key vs, params !! key = Some vs → vs ≠ []) →
  ∃ f', bind_field params ks f = Returns f' ∧ field_bound params f f'.
Proof.
  intros Ho Hne. unfold bind_field, field_bound. destruct f as [name [m0|] [|]]; simpl;
    [|by repeat case_bool_decide; eauto..].
  destruct (bind_params_all "sorter[" params ks) as (m1 & -> & H1); [by left|done..|].
  destruct (bind_params_all "search[" params ks) as (m2 & -> & H2); [by right|done..|].
  case_bool_decide as Hs; [subst|case_bool_decide as Hc; [subst|]]; eexists; (split; [done|]); simpl;
    (split; [done|]); split_and!; intros; try done; eauto.
Qed.

Lemma bind_fields_spec (params : gmap string (list string)) ks fs :
  range_order params ks → (∀ key vs, params !! key = Some vs → vs ≠ []) →
  ∃ fs', bind_fields params ks fs = Returns fs' ∧ Forall2 (field_bound params) fs fs'.
Proof.
  intros Ho Hne. induction fs as [|f fs (fs' & Hrun & Hall)]; simpl; [by exists []|].
  destruct (bind_field_spec params ks f Ho Hne) as (f' & -> & Hf). rewrite Hrun.
  exists (f' :: fs'). split; [done|]. by constructor.
Qed.

(** A wired balance query asks the database once. *)
Lemma wired_query {W} `{Ambient} `{GormLaws W} oob (d : busesState (W := W)) cust (w : W) :
  ∃ b err w', queryBus_Ask (b_query (registerLoyalty oob d)) (QryGetBalance (mkBalanceReq cust)) w =
      (Returns (ReplyBalance b, err), w') ∧
    loyaltyReadGormRepository_GetBalanceByCustomerID cust w = (Returns (b, err), w').
Proof.
  unfold queryBus_Ask, registerLoyalty, queryBus_Register. simpl. rewrite lookup_insert_eq.
  unfold balance_query_fn, GetLoyaltyBalanceHandler_Handle. simpl.
  rewrite M_bind_eq, M_bind_eq, M_bind_eq. unfold noop_GetBalance. rewrite !M_ret_eq. rewrite M_bind_eq.
  unfold loyaltyReadGormRepository_GetBalanceByCustomerID. rewrite !M_bind_eq.
  destruct (First_law cust w) as ([model err] & w' & -> & _). destruct err as [e|]; simpl.
  - destruct (errors_Is e "gorm.ErrRecordNotFound"); do 3 eexists; split; reflexivity.
  - do 3 eexists; split; reflexivity.
Qed.

(** ** Properties *)

(** the error handler sends one response, or ends the process
    when that cannot be written.  A plain error or an echo error has a [null] body; an
    [ApiError], also a wrapped one, is sent with its code, its event code and the
    request's id; and in production a response with code 500 carries the generic
    message or nothing, never the text of the error. *)
Theorem HttpErrorHandler_spec mode requestId JSON err :
  ∃ r, HttpErrorHandler mode requestId JSON err = send JSON r ∧
    (∀ code msg i, err = HEcho code msg i → r = mkResponse code (JsonBody JNull)) ∧
    ((∀ code msg i, err ≠ HEcho code msg i) →
       match as_api err with
       | None => r = mkResponse 500 (JsonBody JNull)
       | Some a => rs_code r = ae_Code a ∧
           ∃ m, rs_body r = JsonBody (encode_ApiError (mkApiError (ae_Code a) requestId m (ae_Status a)
                                        (ae_Time a) (ae_rawData a))) ∧
             (m = ae_Message a ∨ m = generic_message)
       end) ∧
    (mode = "production" → rs_code r = 500%Z →
       rs_body r = JsonBody JNull ∨
       ∃ a, rs_body r = JsonBody (encode_ApiError a) ∧ ae_Message a = generic_message).
Proof.
  unfold HttpErrorHandler. destruct err as [code msg i|a|t i|e].
  - eexists. split; [done|]. split_and!; [naive_solver|naive_solver|by left].
  - eexists. split; [done|]. simpl. split_and!; [done| |].
    + intros _. split; [done|]. eexists. split; [reflexivity|]. case_bool_decide; [by right|by left].
    + intros -> Hc. right. eexists. split; [reflexivity|]. simpl. by rewrite bool_decide_true.
  - simpl as_api. destruct (as_api i) as [a|]; eexists; (split; [done|]); simpl; split_and!; try done.
    + intros _. split; [done|]. eexists. split; [reflexivity|]. case_bool_decide; [by right|by left].
    + intros -> Hc. right. eexists. split; [reflexivity|]. simpl. by rewrite bool_decide_true.
    + by left.
  - eexists. split; [done|]. split_and!; [done|done|by left].
Qed.

(** The response that reports an [ApiError]. *)
Definition api_error_response (mode requestId : string) (a : ApiError) : response :=
  mkResponse (ae_Code a) (JsonBody (encode_ApiError (mkApiError (ae_Code a) requestId
    (if bool_decide (mode = "production" ∧ ae_Code a = 500%Z) then generic_message else ae_Message a)
    (ae_Status a) (ae_Time a) (ae_rawData a)))).

(** What becomes of an error response [r]: the client gets it, or the process ends
    with the error of the write. *)
Definition reported (JSON : response → goerror) (r : response) : handled :=
  match JSON r with
  | None => Sent r
  | Some e => Exits ("Cannot return anything " +:+ Error e)
  end.

Lemma send_reported JSON r : send JSON r = reported JSON r.
Proof. unfold send, reported. by destruct (JSON r). Qed.

(** What the client of a route gets that answers [r]: [r], or, when writing it
    fails, the error handler's 500. *)
Definition answered (JSON : response → goerror) (r : response) : handled :=
  match JSON r with
  | None => Sent r
  | Some _ => reported JSON (mkResponse 500 (JsonBody JNull))
  end.

Lemma NewServiceError_code now e :
  ae_Code (NewServiceError now e) = match as_base e with Some (code, _, _) => code | None => 500%Z end.
Proof. unfold NewServiceError. by destruct (as_base e) as [[[]]|]. Qed.

(** C25: what the credit endpoint over the wired command bus does, exactly, for
    every behaviour of [c.JSON].  A body that does not bind is answered with the 400
    of the binding error and changes nothing.  Otherwise the command runs once.
    When it succeeds the answer is the 201 with the new account in it, and the
    balance grew by the points; if that answer cannot be written, the error handler
    tries a 500 with no body.  When it fails with a [BaseException] the answer has
    that exception's code, and with any other error, among them the sentinels of
    the loyalty domain, it is a 500.  An error answer that cannot be written ends
    the process. *)
Theorem credit_endpoint_spec {W} `{HL : LoyaltyLaws W} mode requestId JSON now oob
    (d : busesState (W := W)) path req (w : W) :
  ids_issued w → (balance_of w (cr_CustomerID req) + cr_Points req ≤ max_int)%Z →
  let post := λ bound, serve JSON mode requestId
    (Controller_CreditPoints JSON now (commandBus_Dispatch (b_command (registerLoyalty oob d))) path bound) in
  (∀ err, ∃ r, rs_code r = 400%Z ∧
     r = api_error_response mode requestId (NewBadRequestError now (Error err) None) ∧
     post (inr err) w = (Returns (reported JSON r), w)) ∧
  ∃ c e w', CreditLoyaltyHandler_Handle req w = (Returns (c, e), w') ∧
    match e with
    | None =>
        balance_of w' (cr_CustomerID req) = (balance_of w (cr_CustomerID req) + cr_Points req)%Z ∧
        post (inl req) w = (Returns (answered JSON (mkResponse 201
          (JsonBody (encode_ApiResponse path now (encode_credit_response c) 201)))), w')
    | Some err =>
        ∃ r, r = api_error_response mode requestId (NewServiceError now err) ∧
          rs_code r = match as_base err with Some (code, _, _) => code | None => 500%Z end ∧
          post (inl req) w = (Returns (reported JSON r), w')
    end.
Proof.
  intros Hids Hmax post. split.
  { intros err. set (r := api_error_response mode requestId (NewBadRequestError now (Error err) None)).
    exists r. split; [reflexivity|]. split; [reflexivity|]. rewrite <- send_reported. reflexivity. }
  destruct (Handle_spec req w Hids Hmax) as ([c e] & w' & Hh & _). exists c, e, w'. split; [done|].
  assert (post (inl req) w = (r ← (x ← CreditLoyaltyHandler_Handle req;
     match x.2 with
     | Some err => mret (Fails (HApi (NewServiceError now err)))
     | None => mret (NewApiResponse JSON path now (encode_credit_response x.1) 201)
     end); mret (match r with Responds resp => Sent resp | Fails e => HttpErrorHandler mode requestId JSON e end)) w)
    as Hpost.
  { unfold post, serve, Controller_CreditPoints. rewrite !M_bind_eq, registered_dispatch, M_bind_eq, Hh.
    rewrite M_ret_eq. by destruct e. }
  rewrite !M_bind_eq, Hh in Hpost. destruct e as [err|]; cbn [fst snd] in Hpost; rewrite !M_ret_eq in Hpost.
  - eexists. split; [reflexivity|]. split; [apply NewServiceError_code|]. by rewrite <- send_reported.
  - split; [by eapply Handle_success_balance|]. rewrite Hpost. unfold answered, NewApiResponse, return_JSON.
    destruct (JSON _); [|done]. by rewrite <- send_reported.
Qed.

(** A connection on which every write succeeds, and one that is gone. *)
Definition writes_all (r : response) : goerror := None.
Definition client_gone (r : response) : goerror := Some (Foreign "net" "write: broken pipe").

Lemma credit_endpoint_spec_witness :
  (∃ w', serve writes_all "production" "rid"
           (Controller_CreditPoints writes_all 0 (commandBus_Dispatch (b_command wired))
              "/api/v1/loyalty/credit" (inl cmd100)) (mem0 []) =
         (Returns (Sent (mkResponse 201 (JsonBody (encode_ApiResponse "/api/v1/loyalty/credit" 0
            (encode_credit_response (mkCreditResp (ulid_at 0) 100 "BRONZE")) 201)))), w') ∧
         balance_of w' "c1" = 100%Z) ∧
  serve client_gone "production" "rid"
    (Controller_CreditPoints client_gone 0 (commandBus_Dispatch (b_command wired))
       "/api/v1/loyalty/credit" (inr (Foreign "json" "unexpected EOF"))) (mem0 []) =
    (Returns (Exits "Cannot return anything write: broken pipe"), mem0 []).
Proof.
  split.
  - destruct (credit_endpoint_spec "production" "rid" writes_all 0 oob_amd64
                (mkBuses newCommandBus newQueryBus (newEventBus (λ _ _, mret None)))
                "/api/v1/loyalty/credit" cmd100 (mem0 [])) as (_ & c & e & w' & Hh & Hr).
    + apply mem0_ids.
    + by vm_compute.
    + assert (c = mkCreditResp (ulid_at 0) 100 "BRONZE" ∧ e = None) as [Hc He].
      { apply (f_equal (λ x, match x.1 with Returns r => r | _ => (resp_zero, Some ErrDuplicateEvent) end)) in Hh.
        vm_compute in Hh. by injection Hh as <- <-. }
      rewrite He, Hc in Hr. exists w'. split; [exact (proj2 Hr)|].
      etransitivity; [exact (proj1 Hr)|]. vm_compute. reflexivity.
  - destruct (credit_endpoint_spec "production" "rid" client_gone 0 oob_amd64
                (mkBuses newCommandBus newQueryBus (newEventBus (λ _ _, mret None)))
                "/api/v1/loyalty/credit" cmd100 (mem0 [])) as (Hbad & _).
    + apply mem0_ids.
    + by vm_compute.
    + destruct (Hbad (Foreign "json" "unexpected EOF")) as (r & _ & _ & Hrun). exact Hrun.
Defined.

(** when answers can be written, the balance endpoint answers 200 with the balance row of
    the customer; for a customer without an account the not-found sentinel of the
    domain is no [BaseException], so the answer is a 500 and not a 404. *)
Theorem balance_endpoint_spec {W} `{Ambient} `{GormLaws W} mode requestId JSON now oob
    (d : busesState (W := W)) path cust (w : W) :
  (∀ r, JSON r = None) →
  ∃ r w', serve JSON mode requestId
      (Controller_GetBalance JSON now (queryBus_Ask (b_query (registerLoyalty oob d))) path cust) w =
      (Returns (Sent r), w') ∧
    match gorm_First cust w with
    | (Returns (row, None), _) =>
        am_CustomerID row = cust ∧
        r = mkResponse 200 (JsonBody (encode_ApiResponse path now
              (encode_balance_response (mkBalanceResp (am_ID row) cust (am_Balance row) (am_Tier row))) 200))
    | (Returns (_, Some e), _) =>
        errors_Is e "gorm.ErrRecordNotFound" = true → rs_code r = 500%Z
    | _ => False
    end.
Proof.
  intros HJ. unfold serve, Controller_GetBalance. rewrite M_bind_eq, M_bind_eq.
  destruct (wired_query oob d cust w) as (b & err & w' & -> & Hr).
  unfold loyaltyReadGormRepository_GetBalanceByCustomerID in Hr. rewrite M_bind_eq in Hr.
  destruct (First_law cust w) as ([row fe] & w'' & Hf & _ & _ & _ & _ & Hrow). rewrite Hf in Hr |- *.
  destruct fe as [e|]; simpl in Hr, Hrow.
  - destruct (errors_Is e _); rewrite M_ret_eq in Hr; injection Hr as <- <- <-; cbn [fst snd];
      rewrite !M_ret_eq; do 2 eexists; (split; [unfold HttpErrorHandler, send; cbn [as_api]; by rewrite HJ|]); done.
  - rewrite M_ret_eq in Hr; injection Hr as <- <- <-; cbn [fst snd]; rewrite !M_ret_eq.
    unfold NewApiResponse, return_JSON. rewrite HJ. destruct Hrow as [_ Hc]. do 2 eexists. split; [reflexivity|]. split; [done|]. by rewrite Hc.
Qed.

(** without a running master, [/workers] answers 400 and returns
    no error, and the access log, which reads the error of every answer from 400
    on, panics on exactly such answers. *)
Theorem workers_route_breaks_access_log {St} total (m : Manager St) (s : St) host text :
  (driver_Get Master_type m Master_name s).2 ≠ None →
  ∃ r, workers_route total m s = Returns r ∧ rs_code r = 400%Z ∧
    health_route m s = Returns (mkResponse 200 (TextBody "NOT HEALTHY")) ∧
    (∃ msg, LogValuesFunc (rs_code r) host None text = Panics msg) ∧
    (∀ status v_Error, (∃ l, LogValuesFunc status host v_Error text = Returns l) ↔
       ((100 < status < 400)%Z ∨ v_Error ≠ None)).
Proof.
  intros He. unfold workers_route, health_route.
  destruct (driver_Get Master_type m Master_name s) as [v [e|]]; [|done].
  eexists. split; [reflexivity|]. split; [done|]. split; [done|]. split; [by eexists|].
  intros status v_Error. unfold LogValuesFunc.
  destruct v_Error as [er|]; repeat case_bool_decide; split; intros Hx; try eauto;
    try (by left); try (by right); try (destruct Hx as [l Hl]; discriminate);
    destruct Hx as [Hx|Hx]; (lia || done).
Qed.

Lemma workers_route_breaks_access_log_witness :
  ∃ r, workers_route (λ _, 0%Z) (NewManagerV2 (St := ())) tt = Returns r ∧ rs_code r = 400%Z.
Proof.
  destruct (workers_route_breaks_access_log (λ _, 0%Z) (NewManagerV2 (St := ())) tt "h" (λ _, ""))
    as (r & Hr & Hc & _); [vm_compute; discriminate|]. by exists r.
Defined.

(** C28: for every order the run-time visits the query parameters
    in, binding never slices or indexes out of range, the [Sorter] and [Search]
    maps of the request hold under [k] exactly the first value of the parameter
    [sorter[k]] or [search[k]], and every other field is left as the body bound
    it. *)
Theorem requestBinder_spec (params : gmap string (list string)) ks fs :
  range_order params ks → (∀ key vs, params !! key = Some vs → vs ≠ []) →
  ∃ fs', requestBinder params ks (inl fs) = Returns (inl fs') ∧ Forall2 (field_bound params) fs fs'.
Proof.
  intros Ho Hne. destruct (bind_fields_spec params ks fs Ho Hne) as (fs' & Hrun & Hall).
  exists fs'. split; [|done]. unfold requestBinder. by rewrite Hrun.
Qed.

Definition sort_params : gmap string (list string) :=
  {[ "sorter[name]" := ["descend"]; "search[city]" := ["Rome"; "Oslo"] ]}.

Lemma requestBinder_spec_witness :
  ∃ f', requestBinder sort_params ["sorter[name]"; "search[city]"]
          (inl [mkField "Sorter" (Some ∅) true]) = Returns (inl [f']) ∧
    (fd_map f' ≫= λ m, m !! "name") = Some "descend".
Proof.
  destruct (requestBinder_spec sort_params ["sorter[name]"; "search[city]"]
              [mkField "Sorter" (Some ∅) true]) as (fs' & Hrun & Hall).
  - decide_by_eval.
  - change (map_Forall (λ _ vs, vs ≠ []) sort_params). decide_by_eval.
  - apply Forall2_cons_inv_l in Hall as (f' & l & Hf & ->%Forall2_nil_inv_l & ->).
    exists f'. split; [exact Hrun|]. destruct Hf as (_ & Hs & _).
    destruct (Hs eq_refl) as (m & -> & Hm). simpl. rewrite Hm. vm_compute. reflexivity.
Defined.
