(* ===== verification/Orders.v ===== *)
(** * use_cases/orders, its repository, and the detail request of loyalty

    Creating an order, the request-reply pair with which the loyalty domain reads
    an order over NATS ([OrderDetailRequestImpl] and [OrderDetailListenerImpl]),
    the circuit breakers around the requests, and the publisher.  gorm, NATS and
    gobreaker are parameters: [OrderGorm] with [OrderGormLaws], [NatsRequest] and
    [Breaker] with their documented behaviour.  Log lines are not modelled. *)

From S2P Require Import Prelude GoStr GoFloat GoJson JsonText LoyaltyRepo.
From Stdlib Require Import SpecFloat.

(** ** dto/create_order.go and gorm/models *)

Record OrderItemRequest : Type := mkItemReq {
  oi_ProductId : string;
  oi_ProductName : string;
  oi_Quantity : Z;
  oi_Price : float64;
}.

Record CreateOrderRequest : Type := mkOrderReq {
  co_CustomerName : string;
  co_TotalAmount : float64;
  co_Address : string;
  co_Items : list OrderItemRequest;
}.

(** [CreateOrderRepositoryResult] and [CreateOrderResponse] have the same fields. *)
Record CreateOrderResult : Type := mkOrderResult {
  or_Id : string;
  or_CustomerName : string;
  or_TotalAmount : float64;
  or_Address : string;
  or_Items : list OrderItemRequest;
  or_Status : string;
  or_CreatedAt : Z;
  or_UpdatedAt : Z;
}.

Record GetOrderByIDResult : Type := mkOrderById {
  ob_Id : string;
  ob_CustomerName : string;
  ob_TotalAmount : float64;
  ob_Address : string;
  ob_Status : string;
}.

Record OrderModel : Type := mkOrderModel {
  om_ID : string;
  om_CustomerName : string;
  om_TotalAmount : float64;
  om_Status : string;
  om_Address : string;
  om_Created : Z;
  om_Updated : Z;
}.

(** The columns of an item that the code sets. *)
Record OrderItemModel : Type := mkItemModel {
  im_ProductId : string;
  im_ProductName : string;
  im_Price : float64;
}.

Definition f64_zero : float64 := S754_zero false.

Definition order_zero : CreateOrderResult := mkOrderResult "" "" f64_zero "" [] "" 0 0.
Definition by_id_zero : GetOrderByIDResult := mkOrderById "" "" f64_zero "" "".

(** ** The gorm calls of the repository *)

Class OrderGorm (W : Type) : Type := {
  (** Model(&OrderItem{}).Create *)
  gorm_CreateItem : OrderItemModel → M W goerror;
  (** Model(&Order{}).Create(&p): what [p] holds afterwards *)
  gorm_CreateOrder : OrderModel → M W (OrderModel * goerror);
  (** First(&m, "id = ?") *)
  gorm_FirstOrder : string → M W (OrderModel * goerror);
}.

(** An insert adds the row or fails; the hooks of the base model fill in the
    identifier and the times; a lookup changes nothing. *)
Class OrderGormLaws (W : Type) `{OrderGorm W} : Type := {
  db_orders : W → list OrderModel;
  db_items : W → list OrderItemModel;
  CreateItem_law : ∀ i w, ∃ err w', gorm_CreateItem i w = (Returns err, w') ∧
    db_orders w' = db_orders w ∧
    db_items w' = match err with None => db_items w ++ [i] | Some _ => db_items w end;
  CreateOrder_law : ∀ p w, ∃ p' err w', gorm_CreateOrder p w = (Returns (p', err), w') ∧
    db_items w' = db_items w ∧
    match err with
    | Some _ => db_orders w' = db_orders w
    | None => db_orders w' = db_orders w ++ [p'] ∧ (om_ID p' ∉ (om_ID <$> db_orders w)) ∧
        om_CustomerName p' = om_CustomerName p ∧ om_TotalAmount p' = om_TotalAmount p ∧
        om_Status p' = om_Status p ∧ om_Address p' = om_Address p
    end;
  FirstOrder_law : ∀ i w, ∃ r w', gorm_FirstOrder i w = (Returns r, w') ∧
    db_orders w' = db_orders w ∧ db_items w' = db_items w ∧
    (r.2 = None → r.1 ∈ db_orders w ∧ om_ID r.1 = i);
}.

(** ** repositories/order_postgres_repository.go *)

Section repository.
Context {W : Type} `{OrderGorm W}.

Definition to_item (i : OrderItemRequest) : OrderItemModel :=
  mkItemModel (oi_ProductId i) (oi_ProductName i) (oi_Price i).

(** The item the result echoes: its price is left at zero. *)
Definition echo_item (i : OrderItemRequest) : OrderItemRequest :=
  mkItemReq (oi_ProductId i) (oi_ProductName i) (oi_Quantity i) f64_zero.

Fixpoint save_items (items acc : list OrderItemRequest) : M W (list OrderItemRequest * goerror) :=
  match items with
  | [] => mret (acc, None)
  | i :: items' =>
      err ← gorm_CreateItem (to_item i);
      match (err : goerror) with
      | Some e => mret (acc, Some e)
      | None => save_items items' (acc ++ [echo_item i])
      end
  end.

Definition SaveOrder (payload : CreateOrderRequest) : M W (CreateOrderResult * goerror) :=
  let p := mkOrderModel "" (co_CustomerName payload) (co_TotalAmount payload) "PENDING"
                        (co_Address payload) 0 0 in
  r ← save_items (co_Items payload) [];
  match r.2 with
  | Some e => mret (order_zero, Some e)
  | None =>
      x ← gorm_CreateOrder p;
      match x.2 with
      | Some e => mret (order_zero, Some e)
      | None =>
          let p := x.1 in
          mret (mkOrderResult (om_ID p) (om_CustomerName p) (om_TotalAmount p) (om_Address p) r.1 ""
                              (om_Created p) (om_Updated p), None)
      end
  end.

Definition FindByID (orderID : string) : M W (GetOrderByIDResult * goerror) :=
  r ← gorm_FirstOrder orderID;
  match r.2 with
  | Some e => mret (by_id_zero, Some e)
  | None => let m := r.1 in
      mret (mkOrderById (om_ID m) (om_CustomerName m) (om_TotalAmount m) (om_Address m) (om_Status m),
            None)
  end.

End repository.

(** ** order_service_impl.go *)

Definition ErrOrderFailedToCreate : error :=
  Sentinel "exception.ErrOrderFailedToCreate" "ErrOrderFailedToCreate".

(** The dependencies a configuration set; the tracer only opens a span. *)
Record OrderServiceImpl (W : Type) : Type := mkOrderService {
  os_repo : option (CreateOrderRequest → M W (CreateOrderResult * goerror));
  os_publisher : option ();
  os_customer : option ();
}.

Arguments mkOrderService {W} _ _ _.
Arguments os_repo {W} _.
Arguments os_publisher {W} _.
Arguments os_customer {W} _.

Section service.
Context {W : Type}.

Definition OrderServiceConfiguration : Type := OrderServiceImpl W → OrderServiceImpl W * goerror.

Definition WithOrderPublisher (p : option ()) : OrderServiceConfiguration := λ srv,
  match p with
  | None => (srv, Some (Fmt "OrderPublisher required" []))
  | Some _ => (mkOrderService (os_repo srv) p (os_customer srv), None)
  end.

Definition WithCustomerDetailRequest (c : option ()) : OrderServiceConfiguration := λ srv,
  match c with
  | None => (srv, Some (Fmt "CustomerDetailRequest required" []))
  | Some _ => (mkOrderService (os_repo srv) (os_publisher srv) c, None)
  end.

Definition WithOrderRepository (r : option (CreateOrderRequest → M W (CreateOrderResult * goerror))) :
    OrderServiceConfiguration := λ srv,
  match r with
  | None => (srv, Some (Fmt "OrderRepository required" []))
  | Some _ => (mkOrderService r (os_publisher srv) (os_customer srv), None)
  end.

Fixpoint apply_configurations (cfgs : list OrderServiceConfiguration) (srv : OrderServiceImpl W) :
    option (OrderServiceImpl W) * goerror :=
  match cfgs with
  | [] => (Some srv, None)
  | cfg :: cfgs' =>
      match cfg srv with
      | (_, Some e) => (None, Some e)
      | (srv', None) => apply_configurations cfgs' srv'
      end
  end.

Definition NewOrderServiceImpl (cfgs : list OrderServiceConfiguration) :
    option (OrderServiceImpl W) * goerror :=
  apply_configurations cfgs (mkOrderService None None None).

Definition CreateOrder (o : OrderServiceImpl W) (payload : CreateOrderRequest) :
    M W (CreateOrderResult * goerror) :=
  match os_repo o with
  | None => panic "invalid memory address or nil pointer dereference"
  | Some save =>
      r ← save payload;
      match r.2 with
      | Some _ => mret (order_zero, Some ErrOrderFailedToCreate)
      | None =>
          let order := r.1 in
          mret (mkOrderResult (or_Id order) (or_CustomerName order) (or_TotalAmount order)
                  (or_Address order) (or_Items order) (or_Status order) (or_CreatedAt order)
                  (or_UpdatedAt order), None)
      end
  end.

End service.

(** ** order_publisher_impl.go *)

Definition createId (orderId status : string) : string := sprintf "orders.%s.%s" [orderId; status].

(** [payload] is the order id and the outcome of [proto.Marshal]. *)
Definition PublishOrder {W} (infra_Publish : string → string → M W goerror)
    (payload : option (string * (string + error))) : M W goerror :=
  match payload with
  | None => mret (Some (Fmt "payload cannot be nil" []))
  | Some (orderId, marshalled) =>
      match marshalled with
      | inr err => mret (Some err)
      | inl data => infra_Publish (createId orderId "PENDING") data
      end
  end.

(** ** The wire of the detail request *)

(** The two [orderDetailReplyWire] structs and loyalty's [OrderDetail]. *)
Record OrderDetail : Type := mkDetail {
  od_OrderID : string;
  od_CustomerName : string;
  od_TotalAmount : float64;
  od_Status : string;
}.

Definition detail_zero : OrderDetail := mkDetail "" "" f64_zero "".

(** The value that the text [json.Marshal] writes denotes: bytes of a string that are
    not UTF-8 are replaced. *)
Definition encode_request (orderID : string) : json := valid_json (JObj [("order_id", JStr orderID)]).

Definition set_request_field (k : string) (v : json) (id : string) : string * goerror :=
  if field_is k "order_id" then decode_string v id else (id, None).

Definition decode_request (j : json) : string * goerror := decode_struct set_request_field j "".

Definition encode_reply (d : OrderDetail) : option json :=
  total ← encode_float (od_TotalAmount d);
  Some (valid_json (JObj [("order_id", JStr (od_OrderID d)); ("customer_name", JStr (od_CustomerName d));
                          ("total_amount", total); ("status", JStr (od_Status d))])).

Definition decode_float (j : json) (cur : float64) : float64 * goerror :=
  match j with
  | JFloat f => (f, None)
  | JNum z => (f64_of_Z z, None)
  | JNull => (cur, None)
  | _ => (cur, Some UnmarshalTypeError)
  end.

Definition set_reply_field (k : string) (v : json) (d : OrderDetail) : OrderDetail * goerror :=
  let '(mkDetail id name total status) := d in
  if field_is k "order_id" then let '(x, e) := decode_string v id in (mkDetail x name total status, e)
  else if field_is k "customer_name"
  then let '(x, e) := decode_string v name in (mkDetail id x total status, e)
  else if field_is k "total_amount"
  then let '(x, e) := decode_float v total in (mkDetail id name x status, e)
  else if field_is k "status"
  then let '(x, e) := decode_string v status in (mkDetail id name total x, e)
  else (d, None).

Definition decode_reply (j : json) : OrderDetail * goerror := decode_struct set_reply_field j detail_zero.

(** A NATS payload: bytes that are a JSON text, or not. *)
Definition payload : Type := option json.

Definition ErrSyntaxJSON : error := Foreign "json.SyntaxError" "unexpected end of JSON input".

(** ** order_detail_listener_impl.go

    The subscription's callback: what it responds, if anything. *)
Definition order_detail_handler {W} `{OrderGorm W} (data : payload) : M W (option payload) :=
  match data with
  | None => mret None
  | Some j =>
      match decode_request j with
      | (_, Some _) => mret None
      | (orderID, None) =>
          r ← FindByID orderID;
          match r.2 with
          | Some _ => mret None
          | None =>
              let order := r.1 in
              mret (Some (encode_reply (mkDetail (ob_Id order) (ob_CustomerName order)
                                                 (ob_TotalAmount order) (ob_Status order))))
          end
      end
  end.

(** The listener holds its subscription. *)
Definition OrderDetailListener_Start (subscribe : nat + error) : M (option nat) goerror :=
  match subscribe with
  | inr err => mret (Some err)
  | inl sub => modify (λ _, Some sub) ≫= λ _, mret None
  end.

Definition OrderDetailListener_Stop (unsubscribe : goerror) : M (option nat) goerror :=
  sub ← gets id;
  match (sub : option nat) with
  | Some _ => mret unsubscribe
  | None => mret None
  end.

(** ** Circuit breakers *)

Record Counts : Type := mkCounts { Requests : Z; TotalFailures : Z }.

(** order_detail_request_impl.go *)
Definition loyalty_ReadyToTrip (c : Counts) : bool :=
  if bool_decide (Requests c < 3)%Z then false
  else f64_leb f64_0_6 (f64_div (f64_of_Z (TotalFailures c)) (f64_of_Z (Requests c))).

(** customer_detail_request_impl.go *)
Definition customer_ReadyToTrip (c : Counts) : bool :=
  let failureRatio := f64_div (f64_of_Z (TotalFailures c)) (f64_of_Z (Requests c)) in
  bool_decide (3 ≤ Requests c)%Z && f64_leb f64_0_6 failureRatio.

(** gobreaker's [Execute]: it runs the request and hands its result on, or
    refuses with an error of its own; the breaker keeps its own state [B]. *)
Class Breaker (B W : Type) : Type := {
  cb_Execute : M W (payload * goerror) → M (B * W) (payload * goerror);
  cb_law : ∀ f b w, ∃ b',
    (∃ e, cb_Execute f (b, w) = (Returns (None, Some e), (b', w))) ∨
    cb_Execute f (b, w) = (let '(r, w') := f w in (r, (b', w')));
}.

(** ** order_detail_request_impl.go *)

Definition subjectGetOrderDetail : string := "orders.get.detail".

Section request.
Context {B W : Type} `{Breaker B W}.
Variable infra_Request : string → payload → M W (payload * goerror).

Definition GetOrderDetail (orderID : string) : M (B * W) (OrderDetail * goerror) :=
  x ← cb_Execute (infra_Request subjectGetOrderDetail (Some (encode_request orderID)));
  match x.2 with
  | Some err => mret (detail_zero, Some (Wrap "nats request: %w" [] err))
  | None =>
      match x.1 with
      | None => mret (detail_zero, Some (Wrap "unmarshal reply: %w" [] ErrSyntaxJSON))
      | Some j =>
          match decode_reply j with
          | (_, Some err) => mret (detail_zero, Some (Wrap "unmarshal reply: %w" [] err))
          | (wire, None) => mret (wire, None)
          end
      end
  end.

(** ** customer_detail_request_impl.go

    [data] is the marshalled request; the reply is dropped, and so is the error
    of each of the fifty rounds. *)
Definition GetDetailCustomer (data : payload) : M (B * W) () :=
  for_each (λ _, _ ← cb_Execute (infra_Request "customer.get.detail" data); mret tt) (seq 0 50).

End request.

(** NATS request-reply with the listener subscribed: a request is lost, or the
    callback runs once for it; the requester gets its response or an error. *)
Class NatsRequest (W : Type) `{OrderGorm W} : Type := {
  nats_Request : string → payload → M W (payload * goerror);
  nats_Request_law : ∀ data w, ∃ r w', nats_Request subjectGetOrderDetail data w = (Returns r, w') ∧
    ((w' = w ∧ r.2 ≠ None) ∨
     ∃ resp, order_detail_handler data w = (Returns resp, w') ∧ (r.2 = None → resp = Some r.1));
}.

(** ** Lemmas *)

Section lemmas.
Context {W : Type} `{OrderGormLaws W}.


Lemma FindByID_spec i w :
  ∃ r w', FindByID i w = (Returns r, w') ∧ db_orders w' = db_orders w ∧ db_items w' = db_items w ∧
    (r.2 = None → ∃ m, m ∈ db_orders w ∧ om_ID m = i ∧ r.1 = mkOrderById i (om_CustomerName m)
       (om_TotalAmount m) (om_Address m) (om_Status m)).
Proof.
  unfold FindByID. rewrite M_bind_eq.
  destruct (FirstOrder_law i w) as ([m err] & w' & -> & Ho & Hi & Hm). simpl.
  destruct err as [e|]; eexists _, w'; (split; [reflexivity|]); (split; [done|]); (split; [done|]);
    [done|]. intros _. destruct (Hm eq_refl) as [Hin <-]. by exists m.
Qed.

End lemmas.

Lemma decode_request_encode i : decode_request (encode_request i) = (valid_string i, None).
Proof. reflexivity. Qed.

(** What the receiver reads of a request is what the sender's text denotes. *)
Lemma request_text float_text time_text float_literal i :
  Unmarshal float_literal (Marshal float_text time_text (JObj [("order_id", JStr i)])) = Some (encode_request i).
Proof. by rewrite Unmarshal_Marshal_valid. Qed.

(** A reply as it is read. *)
Definition valid_detail (d : OrderDetail) : OrderDetail :=
  mkDetail (valid_string (od_OrderID d)) (valid_string (od_CustomerName d)) (od_TotalAmount d)
           (valid_string (od_Status d)).

Lemma encode_reply_shape d j : encode_reply d = Some j → decode_reply j = (valid_detail d, None).
Proof.
  destruct d as [i n t s]. unfold encode_reply. simpl.
  destruct t; simpl; intros [= <-]; reflexivity.
Qed.

(** The reply for a stored order. *)
Definition row_detail (m : OrderModel) : OrderDetail :=
  mkDetail (om_ID m) (om_CustomerName m) (om_TotalAmount m) (om_Status m).

(** Requests at most a hundred, failures at most the requests. *)
Fixpoint trip_check_row (r f : nat) : bool :=
  bool_decide (loyalty_ReadyToTrip (mkCounts (Z.of_nat r) (Z.of_nat f)) =
               bool_decide (3 ≤ r ∧ 3 * r ≤ 5 * f)) &&
  match f with O => true | S f' => trip_check_row r f' end.

Fixpoint trip_check (r : nat) : bool :=
  trip_check_row r r && match r with O => true | S r' => trip_check r' end.

Lemma trip_checked : trip_check 100 = true.
Proof. vm_cast_no_check (eq_refl true). Qed.

Lemma trip_check_row_spec r f n :
  trip_check_row r n = true → f ≤ n →
  loyalty_ReadyToTrip (mkCounts (Z.of_nat r) (Z.of_nat f)) = bool_decide (3 ≤ r ∧ 3 * r ≤ 5 * f).
Proof.
  induction n as [|n IH]; simpl; intros [Hd Hn]%andb_true_iff Hf.
  - replace f with 0 by lia. by apply bool_decide_eq_true in Hd.
  - destruct (decide (f = S n)) as [->|]; [by apply bool_decide_eq_true in Hd|].
    apply IH; [done|lia].
Qed.

Lemma trip_check_spec r f n :
  trip_check n = true → r ≤ n → f ≤ r →
  loyalty_ReadyToTrip (mkCounts (Z.of_nat r) (Z.of_nat f)) = bool_decide (3 ≤ r ∧ 3 * r ≤ 5 * f).
Proof.
  induction n as [|n IH]; cbn [trip_check]; intros [Hd Hn]%andb_true_iff Hr Hf.
  - replace r with 0 in * by lia. by apply (trip_check_row_spec 0 f 0).
  - destruct (decide (r = S n)) as [->|]; [by apply (trip_check_row_spec _ _ (S n))|].
    apply IH; [done|lia..].
Qed.

(** ** A concrete database

    Tables in memory; the script of faults says which of the next inserts fail. *)

Record odb : Type := mkOdb { o_orders : list OrderModel; o_items : list OrderItemModel; o_faults : list bool }.

Definition InsertError : error := Foreign "sql" "connection reset by peer".

(** An identifier longer than every used one. *)
Definition next_id (l : list OrderModel) : string :=
  str (replicate (S (max_list (length <$> (chars <$> (om_ID <$> l))))) (Ascii.ascii_of_nat 48)).

Definition fault (w : odb) : bool * list bool :=
  match o_faults w with b :: l => (b, l) | [] => (false, []) end.

#[export] Instance odb_gorm : OrderGorm odb := {
  gorm_CreateItem i w := let '(b, l) := fault w in
    if b then (Returns (Some InsertError), mkOdb (o_orders w) (o_items w) l)
    else (Returns None, mkOdb (o_orders w) (o_items w ++ [i]) l);
  gorm_CreateOrder p w := let '(b, l) := fault w in
    if b then (Returns (p, Some InsertError), mkOdb (o_orders w) (o_items w) l)
    else let p' := mkOrderModel (next_id (o_orders w)) (om_CustomerName p) (om_TotalAmount p)
                                (om_Status p) (om_Address p) 1 1 in
         (Returns (p', None), mkOdb (o_orders w ++ [p']) (o_items w) l);
  gorm_FirstOrder i w :=
    match filter (λ m, om_ID m = i) (o_orders w) with
    | m :: _ => (Returns (m, None), w)
    | [] => (Returns (mkOrderModel "" "" f64_zero "" "" 0 0, Some ErrRecordNotFound), w)
    end;
}.

Lemma next_id_fresh l : next_id l ∉ (om_ID <$> l).
Proof.
  unfold next_id. set (n := max_list _). intros Hin.
  assert (length (chars (str (replicate (S n) (Ascii.ascii_of_nat 48)))) ≤ n) as Hle.
  { apply max_list_elem_of_le. apply list_elem_of_fmap_2, list_elem_of_fmap_2, Hin. }
  rewrite chars_str, length_replicate in Hle. lia.
Qed.

#[export] Instance odb_laws : OrderGormLaws odb.
Proof.
  refine {| db_orders := o_orders; db_items := o_items |}.
  - intros i w. simpl. destruct (fault w) as [[|] l]; do 2 eexists; (split; [reflexivity|]); done.
  - intros p w. simpl. destruct (fault w) as [[|] l]; do 3 eexists; (split; [reflexivity|]);
      (split; [done|]); simpl; [done|]. split_and!; try done. apply next_id_fresh.
  - intros i w. simpl. destruct (filter _ (o_orders w)) as [|m ms] eqn:E; do 2 eexists;
      (split; [reflexivity|]); (split; [done|]); (split; [done|]); [done|]. intros _. simpl.
    assert (m ∈ filter (λ m, om_ID m = i) (o_orders w)) as [? ?]%list_elem_of_filter; [|done].
    rewrite E. left.
Defined.

(** The callback looks the order up and responds with it. *)
Lemma order_detail_handler_run {W} `{OrderGorm W} orderID m (err : goerror) (w w1 : W) :
  gorm_FirstOrder (valid_string orderID) w = (Returns (m, err), w1) →
  order_detail_handler (Some (encode_request orderID)) w =
    (Returns match err with None => Some (encode_reply (row_detail m)) | Some _ => None end, w1).
Proof.
  intros Hf. unfold order_detail_handler. rewrite decode_request_encode, M_bind_eq.
  unfold FindByID. rewrite M_bind_eq, Hf. by destruct err.
Qed.

(** A network that delivers, and a breaker that counts what it let through. *)
#[export] Instance odb_nats : NatsRequest odb.
Proof.
  refine {| nats_Request subj data := λ w,
    match order_detail_handler data w with
    | (Returns (Some reply), w') => (Returns (reply, None), w')
    | (_, w') => (Returns (None, Some (Foreign "nats" "nats: timeout")), w')
    end |}.
  intros data w. simpl. destruct (order_detail_handler data w) as [resp w'] eqn:E.
  assert (∃ x, resp = Returns x) as [x ->].
  { revert E. unfold order_detail_handler. destruct data as [j|]; [|intros [= <- <-]; eauto].
    destruct (decode_request j) as [i [e|]]; [intros [= <- <-]; eauto|]. rewrite M_bind_eq.
    destruct (FindByID_spec i w) as ([res [e|]] & w2 & -> & _); simpl; intros [= <- <-]; eauto. }
  destruct x as [reply|]; do 2 eexists; (split; [reflexivity|]); right; eexists; (split; [done|]); done.
Defined.

#[export] Instance counting_breaker W : Breaker nat W.
Proof.
  refine {| cb_Execute f := λ '(b, w), let '(r, w') := f w in (r, (S b, w')) |}.
  intros f b w. exists (S b). right. destruct (f w). reflexivity.
Defined.

(** ** Properties *)


(** C36: a detail request of the loyalty domain, over a network and a
    breaker that may each fail, returns and changes no table.  It answers an error,
    or the id, customer, total and status of the stored order that the database
    finds for the id, each string as JSON carries it, which for UTF-8 is the string
    itself.  And when the database finds the order with a finite total, the network
    delivers the listener's response and the breaker lets the request through, it
    does answer that order. *)
Theorem order_detail_acl {B W} `{OrderGormLaws W} `{!NatsRequest W} `{!Breaker B W} orderID (b : B) (w : W) :
  let request := Some (encode_request orderID) in
  ∃ r b' w', GetOrderDetail nats_Request orderID (b, w) = (Returns r, (b', w')) ∧
    db_orders w' = db_orders w ∧ db_items w' = db_items w ∧
    (r.2 = None → ∃ m w1, gorm_FirstOrder (valid_string orderID) w = (Returns (m, None), w1) ∧
       m ∈ db_orders w ∧ om_ID m = valid_string orderID ∧ r.1 = valid_detail (row_detail m) ∧
       (Forall (λ s, valid_utf8 0 (chars s) = true) [om_ID m; om_CustomerName m; om_Status m] →
          r.1 = row_detail m)) ∧
    (∀ m w1, gorm_FirstOrder (valid_string orderID) w = (Returns (m, None), w1) →
       is_Some (encode_float (om_TotalAmount m)) →
       (∀ reply w2, order_detail_handler request w = (Returns (Some reply), w2) →
          nats_Request subjectGetOrderDetail request w = (Returns (reply, None), w2)) →
       (∃ b1, cb_Execute (nats_Request subjectGetOrderDetail request) (b, w) =
          (let '(x, w2) := nats_Request subjectGetOrderDetail request w in (x, (b1, w2)))) →
       r = (valid_detail (row_detail m), None)).
Proof.
  intros request. unfold GetOrderDetail. rewrite M_bind_eq. fold request.
  set (f := nats_Request subjectGetOrderDetail request).
  destruct (nats_Request_law request w) as ([reply err] & w1 & Hreq & Hh). fold f in Hreq.
  destruct (FirstOrder_law (valid_string orderID) w) as ([m ferr] & w2 & Hfirst & Ho & Hi & Hm).
  pose proof (order_detail_handler_run orderID m ferr w w2 Hfirst) as Hrun. fold request in Hrun.
  assert (db_orders w1 = db_orders w ∧ db_items w1 = db_items w) as [Ho1 Hi1].
  { destruct Hh as [[-> _]|(resp & Hrun' & _)]; [done|]. rewrite Hrun in Hrun'. by injection Hrun' as _ <-. }
  destruct (cb_law f b w) as [b' [[e He]|He]].
  { rewrite He. cbn. do 3 eexists. split; [reflexivity|]. split; [done|]. split; [done|]. split; [done|].
    intros m' w' Hf' Hfin Hdel (b1 & Hcb). exfalso. rewrite Hfirst in Hf'. injection Hf' as -> -> ->.
    rewrite (Hdel _ _ Hrun) in Hcb. fold f in Hcb. congruence. }
  rewrite He, Hreq. destruct err as [e|].
  { cbn. do 3 eexists. split; [reflexivity|]. split; [done|]. split; [done|]. split; [done|].
    intros m' w' Hf' Hfin Hdel _. exfalso. rewrite Hfirst in Hf'. injection Hf' as -> -> ->.
    specialize (Hdel _ _ Hrun). fold f in Hdel. congruence. }
  destruct Hh as [[_ Hne]|(resp & Hrun' & Hr)]; [by destruct Hne|].
  rewrite Hrun in Hrun'. injection Hrun' as <- <-. specialize (Hr eq_refl). cbn [fst] in Hr.
  destruct ferr as [e|]; [done|]. injection Hr as <-.
  destruct (Hm eq_refl) as [Hin Hid]. cbn [fst snd] in *.
  destruct (encode_reply (row_detail m)) as [j|] eqn:Ej; cbn [fst snd].
  - rewrite (encode_reply_shape _ _ Ej). do 3 eexists.
    split; [reflexivity|]. split; [done|]. split; [done|]. split.
    + intros _. exists m, w2. split_and!; try done. rewrite !Forall_cons. intros (Hv1 & Hv2 & Hv3 & _).
      unfold valid_detail, row_detail. cbn [od_OrderID od_CustomerName od_TotalAmount od_Status].
      by rewrite !valid_string_id.
    + intros m' w' Hf'. rewrite Hfirst in Hf'. injection Hf' as -> ->. done.
  - do 3 eexists. split; [reflexivity|]. split; [done|]. split; [done|]. split; [done|].
    intros m' w' Hf' [x Hx]. exfalso. rewrite Hfirst in Hf'. injection Hf' as -> ->.
    unfold encode_reply in Ej.
    cbn [od_TotalAmount row_detail] in Ej. rewrite Hx in Ej. discriminate Ej.
Qed.

(** the two circuit breakers have the same trip condition for every
    pair of counts, and up to a hundred requests the float comparison trips exactly
    when there were at least three requests and three fifths of them failed. *)
Theorem breakers_trip_at_three_fifths :
  (∀ c, customer_ReadyToTrip c = loyalty_ReadyToTrip c) ∧
  ∀ requests failures : nat, requests ≤ 100 → failures ≤ requests →
    loyalty_ReadyToTrip (mkCounts (Z.of_nat requests) (Z.of_nat failures)) =
      bool_decide (3 ≤ requests ∧ 3 * requests ≤ 5 * failures).
Proof.
  split.
  - intros c. unfold customer_ReadyToTrip, loyalty_ReadyToTrip.
    repeat case_bool_decide; (lia || done).
  - intros r f Hr Hf. by apply (trip_check_spec r f 100 trip_checked).
Qed.

(** A number of rounds through the breaker. *)
Lemma customer_rounds {B W} `{!Breaker B W} (request : string → payload → M W (payload * goerror))
    (sent : W → nat) data (l : list nat) :
  (∀ w, ∃ r w', request "customer.get.detail" data w = (Returns r, w') ∧ sent w' = S (sent w)) →
  ∀ (b : B) (w : W),
  ∃ b' w', for_each (λ _, _ ← cb_Execute (request "customer.get.detail" data); mret tt) l (b, w) =
             (Returns tt, (b', w')) ∧ sent w' ≤ sent w + length l ∧
    ((∀ b w, (cb_Execute (request "customer.get.detail" data) (b, w)).2.2 =
             (request "customer.get.detail" data w).2) → sent w' = sent w + length l).
Proof.
  intros Hreq. induction l as [|i l IH]; intros b w; simpl.
  { exists b, w. split; [done|]. split; [lia|]. intros; lia. }
  rewrite M_bind_eq, M_bind_eq. destruct (Hreq w) as (r & w1 & Hr & Hs).
  destruct (cb_law (request "customer.get.detail" data) b w) as [b1 [[e He]|He]].
  - rewrite He, M_ret_eq. destruct (IH b1 w) as (b' & w' & -> & Hle & Hall). exists b', w'.
    split; [done|]. split; [lia|]. intros Hacc. exfalso. specialize (Hacc b w).
    rewrite He, Hr in Hacc. simpl in Hacc. subst w1. lia.
  - rewrite He, Hr, M_ret_eq. destruct (IH b1 w1) as (b' & w' & -> & Hle & Hall). exists b', w'.
    split; [done|]. split; [lia|]. intros Hacc. rewrite (Hall Hacc). lia.
Qed.

(** the customer request always ends, with fifty rounds through
    the breaker and no result: a network that answers every request gets fifty of
    them when the breaker accepts them all, and never more than fifty. *)
Theorem GetDetailCustomer_fifty {B W} `{!Breaker B W} (request : string → payload → M W (payload * goerror))
    (sent : W → nat) data (b : B) (w : W) :
  (∀ w, ∃ r w', request "customer.get.detail" data w = (Returns r, w') ∧ sent w' = S (sent w)) →
  ∃ b' w', GetDetailCustomer request data (b, w) = (Returns tt, (b', w')) ∧ sent w' ≤ sent w + 50 ∧
    ((∀ b w, (cb_Execute (request "customer.get.detail" data) (b, w)).2.2 =
             (request "customer.get.detail" data w).2) → sent w' = sent w + 50).
Proof.
  intros Hreq. exact (customer_rounds request sent data (seq 0 50) Hreq b w).
Qed.

(** ** Witnesses *)

Definition answering : string → payload → M nat (payload * goerror) := λ _ _ n, (Returns (None, None), S n).

Lemma GetDetailCustomer_fifty_witness :
  ∃ b' w', GetDetailCustomer answering None (0, 0) = (Returns tt, (b', w')) ∧ w' = 50.
Proof.
  destruct (GetDetailCustomer_fifty answering id None 0 0) as (b' & w' & Hrun & _ & Hall).
  - intros w. exists (None, None), (S w). by split.
  - exists b', w'. split; [exact Hrun|]. apply Hall. intros b w. reflexivity.
Defined.

(** A database where the insert of the order fails: two items stay behind. *)
Definition two_items : CreateOrderRequest :=
  mkOrderReq "Bo" (f64_of_Z 30) "Rome" [mkItemReq "p1" "pen" 1 (f64_of_Z 10); mkItemReq "p2" "ink" 2 (f64_of_Z 10)].

Lemma orphan_items_example :
  let run := CreateOrder (mkOrderService (Some SaveOrder) None None) two_items (mkOdb [] [] [false; false; true]) in
  match run.1 with Returns (_, Some e) => Error e = "ErrOrderFailedToCreate" | _ => False end ∧
  o_orders run.2 = [] ∧ length (o_items run.2) = 2.
Proof. vm_compute. done. Qed.


Definition stored_order : OrderModel := mkOrderModel "o1" "Bo" (f64_of_Z 30) "PENDING" "Rome" 1 1.

Lemma order_detail_acl_witness :
  ∃ r b' w', GetOrderDetail nats_Request "o1" (0, mkOdb [stored_order] [] []) = (Returns r, (b', w')) ∧
    r = (mkDetail "o1" "Bo" (f64_of_Z 30) "PENDING", None).
Proof.
  destruct (order_detail_acl "o1" 0 (mkOdb [stored_order] [] [])) as (r & b' & w' & Hrun & _ & _ & _ & Hlive).
  exists r, b', w'. split; [exact Hrun|].
  apply (Hlive stored_order (mkOdb [stored_order] [] [])).
  - vm_compute. reflexivity.
  - vm_compute. eauto.
  - intros reply w2 Hh. cbn [nats_Request odb_nats]. rewrite Hh. reflexivity.
  - exists 1. reflexivity.
Defined.
