(* ===== verification/OrderValidation.v ===== *)
(** * use_cases/orders/dto: the validation of an order

    ozzo-validation is a parameter, as in Config.v; [OzzoFloat] adds the two rules on
    floats: [Required], and [Min] with an integer threshold.  Its documentation says
    that an empty value passes [Min] and that the value and the threshold must be of
    the same type; what [Min] answers for a float that is not empty, when the
    threshold is an integer, is left open. *)

From S2P Require Import Prelude GoStr GoFloat Config Orders.
From Stdlib Require Import SpecFloat.

(** Both zeros are empty. *)
Definition f64_empty (f : float64) : bool := match f with S754_zero _ => true | _ => false end.

Class OzzoFloat : Type := {
  ozzo_RequiredFloat : float64 → goerror;
  ozzo_MinInt : Z → float64 → goerror;
  RequiredFloat_law : ∀ f, ozzo_RequiredFloat f = None ↔ f64_empty f = false;
  MinInt_empty : ∀ n f, f64_empty f = true → ozzo_MinInt n f = None;
}.

Section validate.
Context `{Ozzo} `{OzzoFloat}.

Definition OrderItemRequest_Validate (o : OrderItemRequest) : goerror :=
  ozzo_ValidateStruct [
    field [ozzo_RequiredFloat (oi_Price o)];
    field [ozzo_Required (OStr (oi_ProductId o))];
    field [ozzo_Required (OStr (oi_ProductName o))]].

(** A field of items is validated item by item. *)
Definition CreateOrderRequest_Validate (payload : CreateOrderRequest) : goerror :=
  ozzo_ValidateStruct [
    field [ozzo_Required (OStr (co_CustomerName payload))];
    field [];
    field [ozzo_MinInt 0 (co_TotalAmount payload)];
    ozzo_Field [] (ozzo_ValidateStruct (OrderItemRequest_Validate <$> co_Items payload))].

Lemma field_one e : field [e] = None ↔ e = None.
Proof. unfold field. rewrite Field_law, Forall_singleton. tauto. Qed.

Lemma item_validate o :
  OrderItemRequest_Validate o = None ↔
  f64_empty (oi_Price o) = false ∧ oi_ProductId o ≠ "" ∧ oi_ProductName o ≠ "".
Proof.
  unfold OrderItemRequest_Validate. rewrite ValidateStruct_law, !Forall_cons, !field_one, RequiredFloat_law.
  rewrite !Required_law, !required_str. split; [tauto|]. intros (? & ? & ?). by repeat constructor.
Qed.

End validate.

(** An instance of the rules. *)
#[export] Instance ozzo_float_demo : OzzoFloat.
Proof.
  refine {| ozzo_RequiredFloat f := if f64_empty f then Some (Fmt "cannot be blank" []) else None;
            ozzo_MinInt n f := if f64_empty f then None else Some (Fmt "cannot convert float64 to int64" []) |}.
  - intros f. by destruct (f64_empty f).
  - intros n f Hf. by rewrite Hf.
Defined.

(** An order is valid exactly when the customer's name is set, its total passes [Min]
    with the integer zero and every item has a non-zero price, a product id and a
    product name; a total of zero passes. *)
Lemma CreateOrderRequest_Validate_spec `{Ozzo} `{OzzoFloat} (payload : CreateOrderRequest) :
  (CreateOrderRequest_Validate payload = None ↔
   co_CustomerName payload ≠ "" ∧ ozzo_MinInt 0 (co_TotalAmount payload) = None ∧
   Forall (λ o, f64_empty (oi_Price o) = false ∧ oi_ProductId o ≠ "" ∧ oi_ProductName o ≠ "") (co_Items payload)) ∧
  (f64_empty (co_TotalAmount payload) = true → ozzo_MinInt 0 (co_TotalAmount payload) = None).
Proof.
  split; [|apply MinInt_empty].
  unfold CreateOrderRequest_Validate. rewrite ValidateStruct_law, !Forall_cons, !field_one.
  rewrite Required_law, required_str, Field_law, ValidateStruct_law, Forall_fmap.
  assert (Forall ((λ e, e = None) ∘ OrderItemRequest_Validate) (co_Items payload) ↔
    Forall (λ o, f64_empty (oi_Price o) = false ∧ oi_ProductId o ≠ "" ∧ oi_ProductName o ≠ "") (co_Items payload)) as ->.
  { apply Forall_iff. intros o. apply item_validate. }
  pose proof field_empty as Hf. split; [tauto|]. intros (? & ? & ?). by repeat constructor.
Qed.

(** An order of one coffee, given away. *)
Definition coffee (total : float64) : CreateOrderRequest :=
  mkOrderReq "Ada" total "1 Main St" [mkItemReq "p1" "coffee" 1 (S754_finite false 9 (-1))].

Lemma CreateOrderRequest_Validate_spec_witness : CreateOrderRequest_Validate (coffee f64_zero) = None.
Proof.
  destruct (CreateOrderRequest_Validate_spec (coffee f64_zero)) as [Hv Hz].
  apply Hv. split; [done|]. split; [by apply Hz|].
  constructor; [|constructor]. split; [reflexivity|]. split; discriminate.
Defined.
