(* ===== verification/Logs.v ===== *)
(** * tools/logs/log_handler.go: the batching slog handler

    A [LogHandler] renders a record into a map and a byte payload, appends the
    resulting log to a slice and writes the slice when a batch is full.
    [WithAttrs] and [WithGroup] copy the handler: the copy shares the backing array
    of the slice of pending logs, so the arrays live in a store and a handler holds
    a slice header.  Handlers are used one after the other: the mutex is taken and
    released inside each operation.  Attribute values are resolved ones, with the
    text [fmt] prints for them.  The payload is a list of chunks, where [Zeros] is
    the block of 1024 NUL bytes that [make([]byte, 1024)] starts a buffer with. *)

From S2P Require Import Prelude GoStr Tools.
Import StackOps.

Inductive attr : Type := mkAttr (key : string) (val : attr_val)
with attr_val : Type :=
| VNil
| VInt (z : Z)
| VUint (z : Z)
| VStr (s : string)
| VErr (text : string)
| VAny (text : string)
| VGroup (attrs : list attr).

(** What the data map holds: a value or a map. *)
Inductive datum : Type :=
| DNil
| DInt (z : Z)
| DUint (z : Z)
| DStr (s : string)
| DAny (text : string)
| DMap (m : gmap string datum).

Inductive chunk : Type := Zeros | Txt (s : string).

Definition data_map : Type := gmap string datum.

Definition attr_empty (a : attr) : bool :=
  match a with mkAttr key VNil => bool_decide (key = "") | _ => false end.

(** ** appendAttr *)

Fixpoint appendAttr (data : data_map) (a : attr) {struct a} : data_map * list chunk :=
  if attr_empty a then (data, [])
  else
    match a with
    | mkAttr key v =>
        match v with
        | VGroup attrs =>
            match attrs with
            | [] => (data, [])
            | _ =>
                let '(groupData, buf) :=
                  (fix loop (l : list attr) (gd : data_map) (buf : list chunk) :=
                     match l with
                     | [] => (gd, buf)
                     | x :: l' => let '(gd', b) := appendAttr gd x in
                                  loop l' gd' (buf ++ Txt (key +:+ ".") :: b)
                     end) attrs ∅ [Zeros] in
                (if bool_decide (groupData = ∅) then data else <[key := DMap groupData]> data, buf)
            end
        | VInt z => (<[key := DInt z]> data, [Zeros; Txt (key +:+ "=" +:+ Itoa z +:+ " ")])
        | VUint z => (<[key := DUint z]> data, [Zeros; Txt (key +:+ "=" +:+ Itoa z)])
        | VStr s => (<[key := DStr s]> data, [Zeros; Txt (key +:+ "=" +:+ s +:+ " ")])
        | VErr t => (<[key := DStr t]> data, [Zeros; Txt (key +:+ "=" +:+ t +:+ " ")])
        | VAny t => (<[key := DAny t]> data, [Zeros; Txt (key +:+ "=" +:+ t +:+ " ")])
        | VNil => (<[key := DNil]> data, [Zeros; Txt (key +:+ "=%!s(<nil>) ")])
        end
    end.

(** Append several attributes in order. *)
Fixpoint append_all (data : data_map) (buf : list chunk) (l : list attr) : data_map * list chunk :=
  match l with
  | [] => (data, buf)
  | a :: l' => let '(data', b) := appendAttr data a in append_all data' (buf ++ b) l'
  end.

(** ** The handler *)

Record groupOrAttr : Type := mkGoa { goa_group : string; goa_attrs : list attr }.

Record Log : Type := mkLog {
  lg_Time : Z;
  lg_Message : string;
  lg_Level : Z;
  lg_Data : data_map;
  lg_Source : string;
  lg_Payload : list chunk;
}.

(** [rec_source] is the file and line of the call, when the record has a PC. *)
Record record : Type := mkRecord {
  rec_Time : Z;
  rec_Message : string;
  rec_Level : Z;
  rec_attrs : list attr;
  rec_source : option (string * string);
}.

Record LogOptions : Type := mkLogOptions {
  lo_AddSource : bool;
  lo_Filterrable : option (list chunk → Log → bool);
  lo_MinLevel : Z;
  lo_BatchSize : Z;
}.

(** A slice header: the array, the length, the capacity. *)
Record slice : Type := mkSlice { sl_arr : nat; sl_len : nat; sl_cap : nat }.

Record LogHandler : Type := mkHandler {
  h_buf : list chunk;
  h_logs : slice;
  h_groups : list groupOrAttr;
}.

(** The store: arrays, handlers (by pointer), and what [WriteFunc] was called with. *)
Record lstate : Type := mkLstate {
  ls_arrays : gmap nat (list Log);
  ls_handlers : gmap nat LogHandler;
  ls_written : list (list Log);
}.

Definition LevelInfo : Z := 0%Z.

(** [minLevel] is nil or a level, [writeFunc] whether one is set. *)
Definition NewBaseLogHandler (opt : LogOptions) (minLevel : option Z) (writeFunc : bool) :
    outcome (LogOptions * LogHandler) :=
  if negb writeFunc then Panics "WriteFunc must be set"
  else
    let level := default LevelInfo minLevel in
    let batch := if bool_decide (lo_BatchSize opt = 0)%Z then 100%Z else lo_BatchSize opt in
    Returns (mkLogOptions (lo_AddSource opt) (lo_Filterrable opt) level batch,
             mkHandler [Zeros] (mkSlice 0 0 0) []).

Definition Enabled (opt : LogOptions) (level : Z) : bool := bool_decide (lo_MinLevel opt ≤ level)%Z.

(** [make([]groupOrAttr, len+1)], copy, append: an empty entry stays before the
    new one. *)
Definition withGroupAttrs (l : LogHandler) (param : groupOrAttr) : LogHandler :=
  mkHandler (h_buf l) (h_logs l) (h_groups l ++ [mkGoa "" []; param]).

(** The pointer the derived handler is reached by: [None] is the receiver. *)
Definition WithAttrs (l : LogHandler) (attrs : list attr) : option LogHandler :=
  match attrs with [] => None | _ => Some (withGroupAttrs l (mkGoa "" attrs)) end.

Definition WithGroup (l : LogHandler) (name : string) : option LogHandler :=
  if bool_decide (name = "") then None else Some (withGroupAttrs l (mkGoa name [])).

(** *** Rendering *)

(** Drop the groups at the end of the list (given last first). *)
Fixpoint drop_groups (rgoas : list groupOrAttr) : list groupOrAttr :=
  match rgoas with
  | g :: rest => if bool_decide (goa_group g = "") then rgoas else drop_groups rest
  | [] => []
  end.

(** [stack.PopByLength(stack.Len())] *)
Definition pop_all : M (Stack attr) (list attr) := n ← Len; PopByLength n.

(** The loop over the groups from the last to the first. *)
Fixpoint group_loop (rgoas : list groupOrAttr) (data : data_map) (buf : list chunk) :
    M (Stack attr) (data_map * list chunk) :=
  match rgoas with
  | [] => mret (data, buf)
  | g :: rest =>
      if bool_decide (goa_group g ≠ "") then
        attrs ← pop_all;
        let '(key, buf') := append_all ∅ (buf ++ [Txt (goa_group g +:+ ".")]) attrs in
        group_loop rest (<[goa_group g := DMap key]> data) buf'
      else
        _ ← for_each Push (goa_attrs g);
        group_loop rest data buf
  end.

Definition render_groups (rgoas : list groupOrAttr) (buf : list chunk) :
    M (Stack attr) (data_map * list chunk) :=
  r ← group_loop rgoas ∅ buf;
  attrs ← pop_all;
  mret (append_all r.1 r.2 attrs).

(** The data, the buffer and the source of a record. *)
Definition render (opt : LogOptions) (l : LogHandler) (r : record) :
    outcome (data_map * list chunk * string) :=
  let rgoas := reverse (h_groups l) in
  let rgoas := match rec_attrs r with [] => drop_groups rgoas | _ => rgoas end in
  match render_groups rgoas (h_buf l) Stack_New with
  | (Returns (data, buf), _) =>
      let '(data, source) :=
        match rec_source r with
        | Some (full, base) =>
            if lo_AddSource opt then ((appendAttr data (mkAttr "source" (VStr full))).1, base)
            else (data, "")
        | None => (data, "")
        end in
      let '(data, buf) := append_all data buf (rec_attrs r) in
      Returns (data, buf, source)
  | (Panics e, _) => Panics e
  | (Blocks, _) => Blocks
  end.

(** *** Slices of logs *)

Section store.
(** How [append] grows a full slice, and what each call of [WriteFunc] returns. *)
Variable grow : nat → nat.
Variable write_err : nat → goerror.

Definition set_handler (h : nat) (l : LogHandler) (s : lstate) : lstate :=
  mkLstate (ls_arrays s) (<[h := l]> (ls_handlers s)) (ls_written s).

Definition slice_read (s : lstate) (sl : slice) : list Log :=
  take (sl_len sl) (default [] (ls_arrays s !! sl_arr sl)).

Definition no_log : Log := mkLog 0 "" 0 ∅ "" [].

(** [append(sl, x)]: in place while there is room, in a new array otherwise. *)
Definition slice_append (s : lstate) (sl : slice) (x : Log) : slice * lstate :=
  if bool_decide (sl_len sl < sl_cap sl) then
    (mkSlice (sl_arr sl) (S (sl_len sl)) (sl_cap sl),
     mkLstate (alter (λ a, <[sl_len sl := x]> a) (sl_arr sl) (ls_arrays s)) (ls_handlers s)
              (ls_written s))
  else
    let p := fresh (dom (ls_arrays s)) in
    let cap := grow (sl_cap sl) in
    (mkSlice p (S (sl_len sl)) cap,
     mkLstate (<[p := slice_read s sl ++ x :: replicate (cap - S (sl_len sl)) no_log]> (ls_arrays s))
              (ls_handlers s) (ls_written s)).

(** [WriteAll] of the handler at [h]. *)
Definition WriteAll (h : nat) : M lstate goerror := λ s,
  match ls_handlers s !! h with
  | None => (Panics "invalid memory address or nil pointer dereference", s)
  | Some l =>
      if bool_decide (sl_len (h_logs l) = 0) then (Returns None, s)
      else
        let logs := slice_read s (h_logs l) in
        let l' := mkHandler (h_buf l) (mkSlice (sl_arr (h_logs l)) 0 (sl_cap (h_logs l))) (h_groups l) in
        (Returns (write_err (length (ls_written s))),
         mkLstate (ls_arrays s) (<[h := l']> (ls_handlers s)) (ls_written s ++ [logs]))
  end.

(** [Handle] of the handler at [h].  A filtered record returns early and leaves
    the buffer with what was rendered. *)
Definition LogHandler_Handle (opt : LogOptions) (h : nat) (r : record) : M lstate goerror := λ s,
  match ls_handlers s !! h with
  | None => (Panics "invalid memory address or nil pointer dereference", s)
  | Some l =>
      match render opt l r with
      | Panics e => (Panics e, s)
      | Blocks => (Blocks, s)
      | Returns (data, buf, source) =>
          let log := mkLog (rec_Time r) (rec_Message r) (rec_Level r) data source buf in
          let kept := match lo_Filterrable opt with Some f => f buf log | None => true end in
          if negb kept then (Returns None, set_handler h (mkHandler buf (h_logs l) (h_groups l)) s)
          else
            let '(sl, s') := slice_append s (h_logs l) log in
            let s' := set_handler h (mkHandler [] sl (h_groups l)) s' in
            if bool_decide (lo_BatchSize opt ≤ Z.of_nat (sl_len sl))%Z
            then WriteAll h s' else (Returns None, s')
      end
  end.

(** Derive a handler from the one at [h], at a new pointer. *)
Definition derive (d : LogHandler → option LogHandler) (h : nat) : M lstate nat := λ s,
  match ls_handlers s !! h with
  | None => (Panics "invalid memory address or nil pointer dereference", s)
  | Some l => match d l with
              | None => (Returns h, s)
              | Some l' => let h' := fresh (dom (ls_handlers s)) in (Returns h', set_handler h' l' s)
              end
  end.

(** Records handled one after the other; the errors are the logger's to drop. *)
Fixpoint handle_all (opt : LogOptions) (h : nat) (rs : list record) : M lstate (list goerror) :=
  match rs with
  | [] => mret []
  | r :: rs' => e ← LogHandler_Handle opt h r; es ← handle_all opt h rs'; mret (e :: es)
  end.

End store.

(** ** tools/logs/slogwriter.go

    What is logged for a write, if anything, and the count returned. *)
Definition SlogWriter_Write (p : string) : option string * Z :=
  (if bool_decide (0 < String.length p) then Some (TrimSpace p) else None, Z.of_nat (String.length p)).

(** ** Lemmas *)

Lemma pop_all_eq l : pop_all (mkStack l false) = (Returns (reverse l), mkStack [] false).
Proof.
  unfold pop_all, PopByLength. rewrite M_bind_eq. unfold Len. go. rewrite Nat2Z.id.
  apply (PopByLength_loop_spec [] l []).
Qed.

Lemma append_all_buf data buf l :
  append_all data buf l = ((append_all data [] l).1, buf ++ (append_all data [] l).2).
Proof.
  revert data buf. induction l as [|a l IH]; intros data buf; simpl; [by rewrite app_nil_r|].
  destruct (appendAttr data a) as [d b]. rewrite (IH d (buf ++ b)), (IH d b). simpl.
  by rewrite <- app_assoc.
Qed.

Lemma group_loop_eq rgoas data buf l :
  ∃ d b l', (∀ buf, group_loop rgoas data buf (mkStack l false) = (Returns (d, buf ++ b), mkStack l' false)) ∧
    group_loop rgoas data buf (mkStack l false) = (Returns (d, buf ++ b), mkStack l' false).
Proof.
  enough (∃ d b l', ∀ buf, group_loop rgoas data buf (mkStack l false) =
            (Returns (d, buf ++ b), mkStack l' false)) as (d & b & l' & Hb).
  { exists d, b, l'. split; [done|]. apply Hb. }
  clear buf. revert data l. induction rgoas as [|g rest IH]; intros data l; simpl.
  { exists data, [], l. intros buf. by rewrite app_nil_r. }
  case_bool_decide as Hg.
  - destruct (append_all ∅ [] (reverse l)) as [key kb] eqn:Ek.
    destruct (IH (<[goa_group g := DMap key]> data) []) as (d & b & l' & Hb).
    exists d, ([Txt (goa_group g +:+ ".")] ++ kb ++ b), l'. intros buf.
    rewrite M_bind_eq, pop_all_eq, append_all_buf, Ek. simpl. rewrite Hb. by rewrite <- !app_assoc.
  - destruct (IH data (l ++ goa_attrs g)) as (d & b & l' & Hb). exists d, b, l'. intros buf.
    by rewrite M_bind_eq, push_all, Hb.
Qed.

(** Rendering returns, and appends to what the buffer held. *)
Lemma render_eq opt l r :
  ∃ data b source, ∀ buf, render opt (mkHandler buf (h_logs l) (h_groups l)) r =
    Returns (data, buf ++ b, source).
Proof.
  unfold render. cbn [h_groups h_buf].
  set (rgoas := match rec_attrs r with [] => _ | _ => _ end).
  destruct (group_loop_eq rgoas ∅ [] []) as (d & b & l' & Hb & _).
  set (a1 := append_all d [] (reverse l')).
  set (d2 := match rec_source r with
             | Some (full, base) => if lo_AddSource opt
                 then ((appendAttr a1.1 (mkAttr "source" (VStr full))).1, base) else (a1.1, "")
             | None => (a1.1, "") end).
  exists (append_all d2.1 [] (rec_attrs r)).1, (b ++ a1.2 ++ (append_all d2.1 [] (rec_attrs r)).2), d2.2.
  intros buf. unfold render_groups. rewrite M_bind_eq.
  change (Stack_New : Stack attr) with (mkStack ([] : list attr) false). rewrite Hb. cbn [fst snd].
  rewrite M_bind_eq, pop_all_eq, M_ret_eq, append_all_buf. fold a1. cbn [fst snd]. fold d2.
  destruct d2 as [data2 src]. rewrite append_all_buf. cbn [fst snd]. by rewrite <- !app_assoc.
Qed.

Lemma render_returns opt l r : ∃ data b source, render opt l r = Returns (data, h_buf l ++ b, source).
Proof.
  destruct (render_eq opt l r) as (d & b & src & Hr). exists d, b, src. destruct l. apply Hr.
Qed.

(** A slice whose array is there. *)
Definition slice_ok (s : lstate) (sl : slice) : Prop :=
  sl_len sl ≤ sl_cap sl ∧
  (sl_cap sl = 0 ∨ ∃ a, ls_arrays s !! sl_arr sl = Some a ∧ length a = sl_cap sl).

Section store_lemmas.
Context (grow : nat → nat) (Hgrow : ∀ n, n < grow n).
Context (write_err : nat → goerror).

Lemma take_S_insert {A} (a : list A) n x : n < length a → take (S n) (<[n := x]> a) = take n a ++ [x].
Proof.
  intros Hn. rewrite (take_S_r _ _ x) by (by apply list_lookup_insert_eq).
  by rewrite take_insert_ge by lia.
Qed.

Lemma slice_append_ok s sl x sl' s' :
  slice_ok s sl → slice_append grow s sl x = (sl', s') →
  slice_ok s' sl' ∧ slice_read s' sl' = slice_read s sl ++ [x] ∧ sl_len sl' = S (sl_len sl) ∧
  ls_handlers s' = ls_handlers s ∧ ls_written s' = ls_written s.
Proof.
  intros [Hle Ha]. unfold slice_append. case_bool_decide as Hroom; intros [= <- <-].
  - destruct Ha as [H0|(a & Ha & Hl)]; [lia|]. unfold slice_ok, slice_read. simpl.
    rewrite lookup_alter_eq, Ha. simpl. split_and!; try done.
    + right. eexists. split; [done|]. by rewrite length_insert.
    + apply take_S_insert. lia.
  - assert (length (slice_read s sl) = sl_len sl) as Hlen.
    { unfold slice_read. rewrite length_take. destruct Ha as [H0|(a & -> & Hl)]; simpl; lia. }
    specialize (Hgrow (sl_cap sl)). unfold slice_ok. simpl. split_and!; try done.
    + lia.
    + right. eexists. rewrite lookup_insert_eq. split; [done|].
      rewrite length_app. simpl. rewrite length_replicate. lia.
    + unfold slice_read at 1. simpl. rewrite lookup_insert_eq. simpl.
      rewrite take_app_ge by lia. rewrite Hlen. by replace (S (sl_len sl) - sl_len sl) with 1 by lia.
Qed.

End store_lemmas.

(** The pending logs of a handler. *)
Definition pending (s : lstate) (h : nat) : list Log :=
  match ls_handlers s !! h with Some l => slice_read s (h_logs l) | None => [] end.

Definition handler_ok (s : lstate) (h : nat) : Prop :=
  ∃ l, ls_handlers s !! h = Some l ∧ slice_ok s (h_logs l).

(** The log that a record becomes. *)
Definition log_of (r : record) (lg : Log) : Prop :=
  lg_Message lg = rec_Message r ∧ lg_Time lg = rec_Time r ∧ lg_Level lg = rec_Level r.

Lemma slice_read_length s sl : slice_ok s sl → length (slice_read s sl) = sl_len sl.
Proof.
  intros [Hle Ha]. unfold slice_read. rewrite length_take.
  destruct Ha as [H0|(a & -> & Hl)]; simpl; lia.
Qed.

Lemma pending_eq s h l : ls_handlers s !! h = Some l → pending s h = slice_read s (h_logs l).
Proof. intros Hl. unfold pending. by rewrite Hl. Qed.

(** A filter that keeps the record. *)
Definition keeps (opt : LogOptions) (r : record) : Prop :=
  ∀ buf lg, log_of r lg → match lo_Filterrable opt with Some f => f buf lg | None => true end = true.

Section pipeline.
Context (grow : nat → nat) (Hgrow : ∀ n, n < grow n) (write_err : nat → goerror).
Context (opt : LogOptions).

Lemma Handle_kept h r s l :
  keeps opt r → ls_handlers s !! h = Some l → slice_ok s (h_logs l) →
  ∃ e s' lg, LogHandler_Handle grow write_err opt h r s = (Returns e, s') ∧ handler_ok s' h ∧ log_of r lg ∧
    (∃ data src, render opt l r = Returns (data, lg_Payload lg, src)) ∧
    ((Z.of_nat (S (length (pending s h))) < lo_BatchSize opt)%Z ∧
       pending s' h = pending s h ++ [lg] ∧ ls_written s' = ls_written s ∨
     (lo_BatchSize opt ≤ Z.of_nat (S (length (pending s h))))%Z ∧
       pending s' h = [] ∧ ls_written s' = ls_written s ++ [pending s h ++ [lg]]).
Proof.
  intros Hkeep Hl Hok. unfold LogHandler_Handle. rewrite Hl.
  destruct (render_returns opt l r) as (data & b & src & Hren). rewrite Hren.
  set (lg := mkLog _ _ _ _ _ _). assert (log_of r lg) as Hlg by done.
  rewrite (Hkeep _ lg Hlg). simpl negb. cbv iota. destruct (slice_append grow s (h_logs l) lg) as [sl s1] eqn:E.
  destruct (slice_append_ok grow Hgrow _ _ _ _ _ Hok E) as (Hok1 & Hread & Hlen & Hh & Hw).
  set (l1 := mkHandler [] sl (h_groups l)). rewrite (pending_eq _ _ _ Hl), (slice_read_length _ _ Hok).
  assert (slice_ok (set_handler h l1 s1) sl) as Hok2 by exact Hok1.
  case_bool_decide as Hb; rewrite Hlen in Hb.
  - unfold WriteAll. cbn [set_handler ls_handlers]. rewrite lookup_insert_eq.
    cbn [l1 h_logs]. rewrite bool_decide_false by lia. eexists _, _, lg. split; [reflexivity|].
    split; [|split; [done|split; [by eexists _, _|right; split; [done|]]]].
    + eexists. cbn. rewrite lookup_insert_eq. split; [done|]. cbn. destruct Hok1 as [_ Ha].
      split; [simpl; lia|]. exact Ha.
    + unfold pending. cbn. rewrite lookup_insert_eq. split; [done|].
      rewrite Hw. unfold slice_read in Hread |- *. cbn in Hread |- *. by rewrite Hread.
  - eexists _, _, lg. split; [reflexivity|]. split; [|split; [done|split; [by eexists _, _|left; split; [lia|]]]].
    + exists l1. cbn. rewrite lookup_insert_eq. done.
    + rewrite (pending_eq _ h l1) by (cbn; by rewrite lookup_insert_eq). split; [exact Hread|done].
Qed.

Lemma handle_all_spec h rs s :
  Forall (keeps opt) rs → handler_ok s h → (Z.of_nat (length (pending s h)) < Z.max 1 (lo_BatchSize opt))%Z →
  ∃ es s' logs batches, handle_all grow write_err opt h rs s = (Returns es, s') ∧
    Forall2 log_of rs logs ∧ ls_written s' = ls_written s ++ batches ∧
    pending s h ++ logs = concat batches ++ pending s' h ∧
    Forall (λ b, Z.of_nat (length b) = Z.max 1 (lo_BatchSize opt)) batches ∧
    (Z.of_nat (length (pending s' h)) < Z.max 1 (lo_BatchSize opt))%Z.
Proof.
  intros Hf. revert s. induction Hf as [|r rs Hkeep _ IH]; intros s Hok Hp; cbn [handle_all].
  { eexists _, s, [], []. split; [reflexivity|]. rewrite !app_nil_r. by repeat split. }
  destruct Hok as (l & Hl & Hsl).
  destruct (Handle_kept h r s l Hkeep Hl Hsl) as (e & s1 & lg & Hrun & Hok1 & Hlg & _ & Hcases).
  rewrite M_bind_eq, Hrun.
  destruct (IH s1 Hok1) as (es & s' & logs & batches & Hrun' & Hall & Hw & Hc & Hb & Hp').
  { destruct Hcases as [(Hlt & -> & _)|(_ & -> & _)]; [|simpl; lia].
    rewrite length_app. simpl. lia. }
  rewrite M_bind_eq, Hrun', M_ret_eq.
  destruct Hcases as [(Hlt & Hpend & Hw1)|(Hge & Hpend & Hw1)]; rewrite Hpend in Hc; rewrite Hw1 in Hw.
  - eexists _, s', (lg :: logs), batches. split; [reflexivity|]. split; [by constructor|].
    split; [done|]. split; [|done]. rewrite <- Hc, <- app_assoc. done.
  - eexists _, s', (lg :: logs), ((pending s h ++ [lg]) :: batches). split; [reflexivity|].
    split; [by constructor|]. split; [by rewrite Hw, <- app_assoc|].
    split; [|split; [|done]].
    + simpl in Hc |- *. rewrite Hc. by rewrite <- !app_assoc.
    + constructor; [|done]. rewrite length_app. simpl. lia.
Qed.

End pipeline.

(** A new handler at pointer 0. *)
Definition new_logs : lstate := mkLstate ∅ {[ 0 := mkHandler [Zeros] (mkSlice 0 0 0) [] ]} [].

Lemma new_logs_ok : handler_ok new_logs 0.
Proof. eexists. split; [reflexivity|]. split; simpl; [lia|by left]. Qed.

(** Doubling, as [append] does for short slices of pointers. *)
Definition go_grow (n : nat) : nat := match n with O => 1 | _ => 2 * n end.

Lemma go_grow_law n : n < go_grow n.
Proof. destruct n; simpl; lia. Qed.

Definition plain_options (batch : Z) : LogOptions := mkLogOptions false None LevelInfo batch.
Definition note (msg : string) (attrs : list attr) : record := mkRecord 0 msg 0 attrs None.

(** ** Properties *)

(** used alone and without a filter, a handler hands every record
    to [WriteFunc] exactly once and in order, also when writes fail: whatever is
    handled, the written batches followed by the pending logs are the logs of the
    records, every batch has exactly the batch size (one, when it is negative), and
    fewer than a batch are pending. *)
Theorem log_pipeline grow write_err opt h rs s :
  (∀ n, n < grow n) → lo_Filterrable opt = None → handler_ok s h →
  (Z.of_nat (length (pending s h)) < Z.max 1 (lo_BatchSize opt))%Z →
  ∃ es s' logs batches, handle_all grow write_err opt h rs s = (Returns es, s') ∧
    Forall2 log_of rs logs ∧ ls_written s' = ls_written s ++ batches ∧
    pending s h ++ logs = concat batches ++ pending s' h ∧
    Forall (λ b, Z.of_nat (length b) = Z.max 1 (lo_BatchSize opt)) batches ∧
    (Z.of_nat (length (pending s' h)) < Z.max 1 (lo_BatchSize opt))%Z.
Proof.
  intros Hg Hf Hok Hp. apply handle_all_spec; try done.
  apply Forall_true. intros r buf lg _. by rewrite Hf.
Qed.

Lemma log_pipeline_witness :
  ∃ es s' logs batches, handle_all go_grow (λ _, None) (plain_options 2) 0
      [note "a" []; note "b" []; note "c" []] new_logs = (Returns es, s') ∧
    logs = concat batches ++ pending s' 0 ∧ Forall (λ b, Z.of_nat (length b) = 2%Z) batches.
Proof.
  destruct (log_pipeline go_grow (λ _, None) (plain_options 2) 0 [note "a" []; note "b" []; note "c" []] new_logs)
    as (es & s' & logs & batches & Hrun & _ & _ & Hc & Hb & _).
  - apply go_grow_law.
  - done.
  - apply new_logs_ok.
  - vm_compute. done.
  - exists es, s', logs, batches. split; [exact Hrun|]. split; [exact Hc|exact Hb].
Defined.

(** A record that fits in place and completes no batch. *)
Lemma Handle_in_place grow write_err opt h r s l :
  lo_Filterrable opt = None → ls_handlers s !! h = Some l → sl_len (h_logs l) < sl_cap (h_logs l) →
  (Z.of_nat (S (sl_len (h_logs l))) < lo_BatchSize opt)%Z →
  ∃ lg, log_of r lg ∧ LogHandler_Handle grow write_err opt h r s =
    (Returns None,
     mkLstate (alter (λ a, <[sl_len (h_logs l) := lg]> a) (sl_arr (h_logs l)) (ls_arrays s))
       (<[h := mkHandler [] (mkSlice (sl_arr (h_logs l)) (S (sl_len (h_logs l))) (sl_cap (h_logs l)))
                         (h_groups l)]> (ls_handlers s)) (ls_written s)).
Proof.
  intros Hf Hl Hroom Hb. unfold LogHandler_Handle. rewrite Hl.
  destruct (render_returns opt l r) as (data & b & src & ->). rewrite Hf. simpl negb. cbv iota.
  set (lg := mkLog _ _ _ _ _ _). exists lg. split; [done|].
  unfold slice_append. rewrite bool_decide_true by done. cbn [sl_len].
  rewrite bool_decide_false by lia. reflexivity.
Qed.

Lemma WriteAll_eq write_err h s l :
  ls_handlers s !! h = Some l → sl_len (h_logs l) ≠ 0 →
  WriteAll write_err h s =
    (Returns (write_err (length (ls_written s))),
     mkLstate (ls_arrays s)
       (<[h := mkHandler (h_buf l) (mkSlice (sl_arr (h_logs l)) 0 (sl_cap (h_logs l))) (h_groups l)]>
          (ls_handlers s)) (ls_written s ++ [slice_read s (h_logs l)])).
Proof. intros Hl Hn. unfold WriteAll. by rewrite Hl, bool_decide_false. Qed.

(** a handler derived with [WithAttrs] while its parent's slice
    has room shares the backing array.  A record handled by the derived handler and
    then one handled by the parent land in the same cell: when both are flushed,
    the derived handler's record is written nowhere, the parent's record is written
    twice, and so are the logs that were pending before. *)
Theorem derived_handler_overwrites grow write_err opt h l attrs rb rc s :
  lo_Filterrable opt = None → ls_handlers s !! h = Some l → slice_ok s (h_logs l) →
  sl_len (h_logs l) < sl_cap (h_logs l) → (Z.of_nat (S (sl_len (h_logs l))) < lo_BatchSize opt)%Z →
  attrs ≠ [] →
  ∃ h' s1 s2 s3 e4 s4 e5 s5 lc,
    derive (λ l, WithAttrs l attrs) h s = (Returns h', s1) ∧
    LogHandler_Handle grow write_err opt h' rb s1 = (Returns None, s2) ∧
    LogHandler_Handle grow write_err opt h rc s2 = (Returns None, s3) ∧
    WriteAll write_err h' s3 = (Returns e4, s4) ∧ WriteAll write_err h s4 = (Returns e5, s5) ∧
    log_of rc lc ∧
    ls_written s5 = ls_written s ++ [pending s h ++ [lc]; pending s h ++ [lc]].
Proof.
  intros Hf Hl [Hle Ha] Hroom Hb Hattrs. destruct Ha as [H0|(a & Ha & Hlen)]; [lia|].
  set (h' := fresh (dom (ls_handlers s))).
  assert (h' ∉ dom (ls_handlers s)) as Hfresh by apply is_fresh.
  assert (h ≠ h') as Hne. { intros ->. apply Hfresh. by apply elem_of_dom_2 in Hl. }
  set (l' := withGroupAttrs l (mkGoa "" attrs)). set (s1 := set_handler h' l' s).
  destruct (Handle_in_place grow write_err opt h' rb s1 l') as (lb & _ & H2); [done| |done|done|].
  { cbn. by rewrite lookup_insert_eq. }
  set (s2 := mkLstate _ _ _) in H2.
  destruct (Handle_in_place grow write_err opt h rc s2 l) as (lc & Hlc & H3); [done| |done|done|].
  { cbn. by rewrite !lookup_insert_ne by done. }
  set (s3 := mkLstate _ _ _) in H3.
  pose proof (WriteAll_eq write_err h' s3 (mkHandler [] (mkSlice (sl_arr (h_logs l)) (S (sl_len (h_logs l)))
    (sl_cap (h_logs l))) (h_groups l'))) as H4.
  specialize (H4 ltac:(cbn; by rewrite lookup_insert_ne, lookup_insert_eq by done) ltac:(done)).
  set (s4 := mkLstate _ _ _) in H4.
  pose proof (WriteAll_eq write_err h s4 (mkHandler [] (mkSlice (sl_arr (h_logs l)) (S (sl_len (h_logs l)))
    (sl_cap (h_logs l))) (h_groups l))) as H5.
  specialize (H5 ltac:(cbn; by rewrite lookup_insert_ne, lookup_insert_eq by done) ltac:(done)).
  assert (∀ st, ls_arrays st = ls_arrays s3 → slice_read st (mkSlice (sl_arr (h_logs l)) (S (sl_len (h_logs l)))
      (sl_cap (h_logs l))) = pending s h ++ [lc]) as Hread.
  { intros st Hst. rewrite (pending_eq _ _ _ Hl). unfold slice_read. rewrite Hst, Ha. cbn.
    rewrite lookup_alter_eq, lookup_alter_eq, Ha. cbn.
    rewrite list_insert_insert_eq. apply take_S_insert. lia. }
  eexists h', s1, s2, s3, _, s4, _, _, lc. split_and!; [|done|done|exact H4|exact H5|done|].
  - unfold derive. rewrite Hl. by destruct attrs.
  - cbn [ls_written s4 s3 s2 s1 set_handler]. cbn [h_logs]. rewrite !Hread by done.
    by rewrite <- app_assoc.
Qed.

(** Three records with batches of three leave a parent with room for four. *)
Definition flushed : lstate :=
  (handle_all go_grow (λ _, None) (plain_options 3) 0 [note "a" []; note "b" []; note "c" []] new_logs).2.

Lemma derived_handler_overwrites_witness :
  ∃ h' s1 s2 s3 e4 s4 e5 s5 lc,
    derive (λ l, WithAttrs l [mkAttr "k" (VInt 1)]) 0 flushed = (Returns h', s1) ∧
    LogHandler_Handle go_grow (λ _, None) (plain_options 3) h' (note "lost" []) s1 = (Returns None, s2) ∧
    LogHandler_Handle go_grow (λ _, None) (plain_options 3) 0 (note "twice" []) s2 = (Returns None, s3) ∧
    WriteAll (λ _, None) h' s3 = (Returns e4, s4) ∧ WriteAll (λ _, None) 0 s4 = (Returns e5, s5) ∧
    log_of (note "twice" []) lc ∧
    ls_written s5 = ls_written flushed ++ [pending flushed 0 ++ [lc]; pending flushed 0 ++ [lc]].
Proof.
  apply (derived_handler_overwrites go_grow (λ _, None) (plain_options 3) 0
           (mkHandler [] (mkSlice 2 0 4) [])).
  - done.
  - vm_compute. reflexivity.
  - split; [simpl; lia|]. right. eexists. split; [vm_compute; reflexivity|done].
  - simpl. lia.
  - done.
  - done.
Defined.

(** a record that the filter rejects is not logged, but its text
    stays in the buffer: the payload of the next kept record starts with it. *)
Theorem filtered_record_leaks grow write_err opt keep h l r1 r2 s :
  (∀ n, n < grow n) → lo_Filterrable opt = Some (λ _ lg, keep (lg_Message lg)) →
  ls_handlers s !! h = Some l → slice_ok s (h_logs l) →
  keep (rec_Message r1) = false → keep (rec_Message r2) = true →
  ∃ data1 src1 b1 data2 src2 b2 s1 e s2 lg,
    render opt l r1 = Returns (data1, h_buf l ++ b1, src1) ∧
    render opt l r2 = Returns (data2, h_buf l ++ b2, src2) ∧
    LogHandler_Handle grow write_err opt h r1 s = (Returns None, s1) ∧
    LogHandler_Handle grow write_err opt h r2 s1 = (Returns e, s2) ∧
    log_of r2 lg ∧ lg_Payload lg = h_buf l ++ b1 ++ b2 ∧
    (pending s2 h = pending s h ++ [lg] ∨ ls_written s2 = ls_written s ++ [pending s h ++ [lg]]).
Proof.
  intros Hg Hf Hl Hok Hk1 Hk2.
  destruct (render_eq opt l r1) as (d1 & b1 & src1 & Hr1), (render_eq opt l r2) as (d2 & b2 & src2 & Hr2).
  pose proof (Hr1 (h_buf l)) as H1. pose proof (Hr2 (h_buf l)) as H2.
  set (l1 := mkHandler (h_buf l ++ b1) (h_logs l) (h_groups l)). set (s1 := set_handler h l1 s).
  assert (mkHandler (h_buf l) (h_logs l) (h_groups l) = l) as El by (by destruct l). rewrite El in H1, H2.
  assert (LogHandler_Handle grow write_err opt h r1 s = (Returns None, s1)) as Hrun1.
  { unfold LogHandler_Handle. rewrite Hl, H1, Hf. cbn [lg_Message]. by rewrite Hk1. }
  assert (keeps opt r2) as Hkeep. { intros buf lg (Hm & _). by rewrite Hf, Hm. }
  destruct (Handle_kept grow Hg write_err opt h r2 s1 l1 Hkeep) as (e & s2 & lg & Hrun2 & _ & Hlg & Hp & Hcases).
  { cbn. by rewrite lookup_insert_eq. }
  { exact Hok. }
  assert (pending s1 h = pending s h) as Hpend.
  { rewrite (pending_eq s1 h l1), (pending_eq s h l) by (done || (cbn; by rewrite lookup_insert_eq)). done. }
  destruct Hp as (d & src & Hp). unfold l1 in Hp. rewrite Hr2 in Hp. injection Hp as _ Hpay _.
  exists d1, src1, b1, d2, src2, b2, s1, e, s2, lg. split_and!; try done.
  - by rewrite <- Hpay, <- app_assoc.
  - rewrite Hpend in Hcases. destruct Hcases as [(_ & Hx & _)|(_ & _ & Hx)]; [by left|by right].
Qed.

Definition no_health (msg : string) : bool := negb (bool_decide (msg = "health")).
Definition filtering : LogOptions := mkLogOptions false (Some (λ _ lg, no_health (lg_Message lg))) LevelInfo 2.

Lemma filtered_record_leaks_witness :
  ∃ s1 e s2 lg b1 b2,
    LogHandler_Handle go_grow (λ _, None) filtering 0 (note "health" [mkAttr "secret" (VStr "x")]) new_logs =
      (Returns None, s1) ∧
    LogHandler_Handle go_grow (λ _, None) filtering 0 (note "paid" []) s1 = (Returns e, s2) ∧
    lg_Payload lg = [Zeros] ++ b1 ++ b2 ∧ pending s2 0 = [lg].
Proof.
  destruct (filtered_record_leaks go_grow (λ _, None) filtering no_health 0 (mkHandler [Zeros] (mkSlice 0 0 0) [])
              (note "health" [mkAttr "secret" (VStr "x")]) (note "paid" []) new_logs)
    as (d1 & sr1 & b1 & d2 & sr2 & b2 & s1 & e & s2 & lg & _ & _ & H1 & H2 & _ & Hp & Hc).
  - apply go_grow_law.
  - reflexivity.
  - reflexivity.
  - split; simpl; [lia|by left].
  - reflexivity.
  - reflexivity.
  - exists s1, e, s2, lg, b1, b2. split; [exact H1|]. split; [exact H2|]. split; [exact Hp|].
    destruct Hc as [Hc|Hc]; [exact Hc|]. exfalso. vm_compute in H1. injection H1 as <-.
    vm_compute in H2. injection H2 as _ <-. vm_compute in Hc. discriminate.
Defined.

(** a group opened with [WithGroup] does not qualify the attributes
    of the record: they stay at the top level, beside an empty map under the
    group's name. *)
Theorem group_not_applied opt l name key v r :
  h_groups l = [] → name ≠ "" → rec_attrs r = [mkAttr key (VStr v)] → rec_source r = None →
  ∃ l' buf, WithGroup l name = Some l' ∧
    render opt l' r = Returns (<[key := DStr v]> {[ name := DMap ∅ ]}, buf, "").
Proof.
  intros Hgs Hn Hr Hs. unfold WithGroup. rewrite bool_decide_false by done.
  eexists _, _. split; [reflexivity|]. unfold render. rewrite Hr, Hs. cbn [h_groups withGroupAttrs].
  rewrite Hgs. unfold render_groups. rewrite M_bind_eq. cbn [app reverse rev_append].
  unfold reverse. cbn [rev_append group_loop goa_group goa_attrs].
  rewrite bool_decide_true by done. rewrite M_bind_eq.
  change (Stack_New : Stack attr) with (mkStack ([] : list attr) false). rewrite pop_all_eq.
  cbn. reflexivity.
Qed.

Lemma group_not_applied_witness :
  ∃ l' buf, WithGroup (mkHandler [] (mkSlice 0 0 0) []) "req" = Some l' ∧
    render (plain_options 1) l' (note "m" [mkAttr "id" (VStr "7")]) =
      Returns (<[ "id" := DStr "7" ]> {[ "req" := DMap ∅ ]}, buf, "").
Proof. by apply (group_not_applied (plain_options 1) (mkHandler [] (mkSlice 0 0 0) [])). Defined.
