(* ===== verification/AppLog.v ===== *)
(** * The application's logger

    internal/base_app.go builds a batching handler whose filter prints every record
    (tools/logs/log_writer.go) and keeps it, and whose [WriteFunc] does nothing;
    drivers/watermill/logger.go (and its copy in drivers/watermill_fx) adapts the
    logger for the router.

    A fan-out over one handler hands it every record it is enabled for, so the
    logger's handler is the [LogHandler].  What the filter prints is kept as a list
    of lines; the text of a time is a parameter. *)

From S2P Require Import Prelude GoStr Config Tools Logs.
Import StackOps.

(** ** slog's levels *)

Definition LevelDebug : Z := (-4)%Z.
Definition LevelWarn : Z := 4%Z.
Definition LevelError : Z := 8%Z.

(** [Level.String] *)
Definition Level_String (l : Z) : string :=
  let str (base : string) (val : Z) :=
    if bool_decide (val = 0)%Z then base
    else base +:+ (if bool_decide (0 < val)%Z then "+" else "") +:+ Itoa val in
  if bool_decide (l < LevelInfo)%Z then str "DEBUG" (l - LevelDebug)%Z
  else if bool_decide (l < LevelWarn)%Z then str "INFO" (l - LevelInfo)%Z
  else if bool_decide (l < LevelError)%Z then str "WARN" (l - LevelWarn)%Z
  else str "ERROR" (l - LevelError)%Z.

(** ** tools/logs/log_writer.go *)

Inductive colour : Type := BgGreen | FgHiBlack | FgBlue | FgRed | FgYellow | FgGreen.

#[global] Instance colour_eq_dec : EqDecision colour.
Proof. solve_decision. Defined.

Definition level_colour (l : Z) : colour :=
  if bool_decide (l = LevelDebug) then FgHiBlack
  else if bool_decide (l = LevelInfo) then FgBlue
  else if bool_decide (l = LevelError) then FgRed
  else if bool_decide (l = LevelWarn) then FgYellow
  else BgGreen.

(** A printed line: coloured and plain pieces, with the payload between plain ones. *)
Inductive piece : Type := Coloured (c : colour) (s : string) | Plain (s : string) | Payload (p : list chunk).

Definition PrintLog (fmt_time : Z → string) (log : Log) (payload : list chunk) : list piece :=
  [Coloured FgGreen (fmt_time (lg_Time log)); Plain " ";
   Coloured (level_colour (lg_Level log)) (Level_String (lg_Level log));
   Plain (" [" +:+ lg_Source log +:+ "] msg='" +:+ lg_Message log +:+ "' || ");
   Payload payload; Plain ("  " +:+ String newline "")].

(** ** internal/base_app.go: initLogger *)

Definition initLogger (cfg : option Config) : outcome (LogOptions * LogHandler) :=
  let minLevel := match cfg with
                  | Some cfg => if bool_decide (ac_Mode (cf_App cfg) = "production") then LevelInfo else LevelDebug
                  | None => LevelDebug
                  end in
  NewBaseLogHandler (mkLogOptions true (Some (λ _ _, true)) LevelInfo 0) (Some minLevel) true.

Section logger.
Context (grow : nat → nat) (fmt_time : Z → string).

(** The handlers and what has been printed. *)
Record sink : Type := mkSink { sk_logs : lstate; sk_printed : list (list piece) }.

(** The handler with the filter's effect: the filter is called once, with the buffer
    and the log that were built.  [WriteFunc] returns nil. *)
Definition app_Handle (opt : LogOptions) (h : nat) (r : record) : M sink goerror := λ s,
  let printed := match ls_handlers (sk_logs s) !! h with
                 | None => []
                 | Some l =>
                     match render opt l r with
                     | Returns (data, buf, source) =>
                         [PrintLog fmt_time (mkLog (rec_Time r) (rec_Message r) (rec_Level r) data source buf) buf]
                     | _ => []
                     end
                 end in
  let '(e, ls) := LogHandler_Handle grow (λ _, None) opt h r (sk_logs s) in
  (e, mkSink ls (sk_printed s ++ printed)).

(** [Logger.Log]: records below the handler's level are dropped; the handler's error
    is ignored. *)
Definition Logger_Log (opt : LogOptions) (h : nat) (r : record) : M sink () :=
  if Enabled opt (rec_Level r) then _ ← app_Handle opt h r; mret tt else mret tt.

Definition log_calls (opt : LogOptions) (h : nat) (rs : list record) : M sink () :=
  for_each (Logger_Log opt h) rs.

(** ** drivers/watermill/logger.go

    [fields] are the fields in the order in which the map is ranged over, [now] and
    [source] the time and the call site of the record. *)

Definition logFieldsToArgs (fields : list (string * attr_val)) : list attr :=
  (λ '(k, v), mkAttr k v) <$> fields.

Context (opt : LogOptions) (h : nat) (now : Z) (source : option (string * string)).

Definition watermill_log (level : Z) (msg : string) (args : list attr) : M sink () :=
  Logger_Log opt h (mkRecord now msg level args source).

Definition watermill_Error (msg : string) (err : goerror) (fields : list (string * attr_val)) : M sink () :=
  let args := logFieldsToArgs fields in
  let args := match err with Some e => args ++ [mkAttr "error" (VStr (Error e))] | None => args end in
  watermill_log LevelError ("[watermill] " +:+ msg) args.

Definition watermill_Info (msg : string) (fields : list (string * attr_val)) : M sink () :=
  watermill_log LevelInfo ("[watermill] " +:+ msg) (logFieldsToArgs fields).

Definition watermill_Debug (msg : string) (fields : list (string * attr_val)) : M sink () :=
  watermill_log LevelDebug ("[watermill] " +:+ msg) (logFieldsToArgs fields).

Definition watermill_Trace (msg : string) (fields : list (string * attr_val)) : M sink () :=
  watermill_log LevelDebug ("[watermill:trace] " +:+ msg) (logFieldsToArgs fields).

(** [With]: the pointer of the derived handler; slog returns the same logger when
    there are no arguments. *)
Definition watermill_With (fields : list (string * attr_val)) : M sink nat := λ s,
  let '(r, ls) := derive (λ l, WithAttrs l (logFieldsToArgs fields)) h (sk_logs s) in
  (r, mkSink ls (sk_printed s)).

End logger.

(** ** What the logger prints

    The line of a record: where it was called, and the payload of its attributes
    after what the buffer held. *)

Definition attrs_payload (attrs : list attr) : list chunk := (append_all ∅ [] attrs).2.

Definition record_line (fmt_time : Z → string) (before : list chunk) (r : record) : list piece :=
  [Coloured FgGreen (fmt_time (rec_Time r)); Plain " ";
   Coloured (level_colour (rec_Level r)) (Level_String (rec_Level r));
   Plain (" [" +:+ default "" (snd <$> rec_source r) +:+ "] msg='" +:+ rec_Message r +:+ "' || ");
   Payload (before ++ attrs_payload (rec_attrs r)); Plain ("  " +:+ String newline "")].

Definition record_lines (fmt_time : Z → string) (before : list chunk) (rs : list record) : list (list piece) :=
  match rs with
  | [] => []
  | r :: rs' => record_line fmt_time before r :: (record_line fmt_time [] <$> rs')
  end.

Definition app_level (cfg : option Config) : Z :=
  match cfg with
  | Some cfg => if bool_decide (ac_Mode (cf_App cfg) = "production") then LevelInfo else LevelDebug
  | None => LevelDebug
  end.

Definition app_options (cfg : option Config) : LogOptions :=
  mkLogOptions true (Some (λ _ _, true)) (app_level cfg) 100.

(** The text of an attribute does not depend on the map it is put in. *)
Lemma appendAttr_text d d' a : (appendAttr d a).2 = (appendAttr d' a).2.
Proof.
  destruct a as [key v]. destruct v as [|z|z|x|x|x|attrs]; simpl; try done.
  - by case_bool_decide.
  - destruct attrs as [|a l]; [done|].
    by match goal with |- context [let '(_, _) := ?x in _] => destruct x as [gd buf] end.
Qed.

Lemma append_all_text d d' l : (append_all d [] l).2 = (append_all d' [] l).2.
Proof.
  revert d d'. induction l as [|a l IH]; intros d d'; [done|]. simpl.
  pose proof (appendAttr_text d d' a) as Ha.
  destruct (appendAttr d a) as [d1 b1], (appendAttr d' a) as [d1' b1']. simpl in Ha. subst b1'.
  rewrite (append_all_buf d1), (append_all_buf d1'). simpl. by rewrite (IH d1 d1').
Qed.

(** Rendering with a handler that has no groups. *)
Lemma render_plain opt l r :
  h_groups l = [] → lo_AddSource opt = true →
  ∃ data, render opt l r = Returns (data, h_buf l ++ attrs_payload (rec_attrs r), default "" (snd <$> rec_source r)).
Proof.
  intros Hg Ha. unfold render. rewrite Hg, Ha. change (reverse []) with (@nil groupOrAttr).
  assert (match rec_attrs r with [] => drop_groups [] | _ => [] end = []) as -> by (by destruct (rec_attrs r)).
  unfold render_groups. cbn [group_loop]. rewrite M_bind_eq, M_ret_eq, M_bind_eq.
  change (Stack_New : Stack attr) with (mkStack ([] : list attr) false).
  rewrite pop_all_eq, M_ret_eq. cbn [reverse rev_append append_all fst snd].
  destruct (rec_source r) as [[full base]|]; rewrite append_all_buf; unfold attrs_payload;
    eexists; do 2 f_equal; f_equal; f_equal; apply append_all_text.
Qed.

Section printing.
Context (grow : nat → nat) (Hgrow : ∀ n, n < grow n) (fmt_time : Z → string) (cfg : option Config).
Local Abbreviation opt := (app_options cfg).

Lemma app_keeps r : keeps opt r.
Proof. intros buf lg _. done. Qed.

(** A handled record empties the buffer and keeps the groups. *)
Lemma Handle_resets werr h r s l :
  ls_handlers s !! h = Some l →
  ∃ e s' l', LogHandler_Handle grow werr opt h r s = (Returns e, s') ∧
    ls_handlers s' !! h = Some l' ∧ h_buf l' = [] ∧ h_groups l' = h_groups l.
Proof.
  intros Hl. unfold LogHandler_Handle. rewrite Hl.
  destruct (render_returns opt l r) as (data & b & src & ->). cbn [lo_Filterrable negb].
  destruct (slice_append _ _ _ _) as [sl s1] eqn:E. case_bool_decide.
  - unfold WriteAll. cbn [set_handler ls_handlers]. rewrite lookup_insert_eq. cbn [h_logs].
    case_bool_decide; eexists _, _, _; (split; [reflexivity|]); cbn; rewrite lookup_insert_eq; done.
  - eexists _, _, _. split; [reflexivity|]. cbn. by rewrite lookup_insert_eq.
Qed.

Lemma log_calls_enabled h rs s l :
  Forall (λ r, (lo_MinLevel opt ≤ rec_Level r)%Z) rs → ls_handlers (sk_logs s) !! h = Some l → h_groups l = [] →
  log_calls grow fmt_time opt h rs s =
    (Returns tt, mkSink (handle_all grow (λ _, None) opt h rs (sk_logs s)).2
                   (sk_printed s ++ record_lines fmt_time (h_buf l) rs)).
Proof.
  intros Hen. revert s l. induction Hen as [|r rs Hr _ IH]; intros s l Hl Hg.
  { cbn. rewrite app_nil_r. by destruct s. }
  unfold log_calls. cbn [for_each]. rewrite M_bind_eq. unfold Logger_Log at 1, Enabled.
  rewrite bool_decide_true by done. rewrite M_bind_eq. unfold app_Handle at 1. rewrite Hl.
  destruct (render_plain opt l r Hg eq_refl) as (data & ->).
  destruct (Handle_resets (λ _, None) h r (sk_logs s) l Hl) as (e & s1 & l1 & Hrun & Hl1 & Hb1 & Hg1).
  rewrite Hrun, M_ret_eq. fold (log_calls grow fmt_time opt h rs).
  rewrite (IH _ l1) by (done || by rewrite Hg1). cbn [sk_logs sk_printed handle_all].
  rewrite M_bind_eq, Hrun, M_bind_eq. rewrite Hb1. f_equal. f_equal.
  - by destruct (handle_all grow (λ _, None) opt h rs s1) as [[es|m|] s2].
  - rewrite <- app_assoc. cbn. f_equal. f_equal. by destruct rs.
Qed.

Lemma log_calls_filter h rs s :
  log_calls grow fmt_time opt h rs s =
  log_calls grow fmt_time opt h (filter (λ r, (lo_MinLevel opt ≤ rec_Level r)%Z) rs) s.
Proof.
  unfold log_calls. revert s. induction rs as [|r rs IH]; intros s; [done|]. cbn [for_each]. rewrite filter_cons.
  case_decide as Hr.
  - cbn [for_each]. rewrite !M_bind_eq. destruct (Logger_Log grow fmt_time opt h r s) as [[[]|m|] s1]; done.
  - assert (Logger_Log grow fmt_time opt h r s = (Returns tt, s)) as Hskip.
    { unfold Logger_Log, Enabled. by rewrite bool_decide_false. }
    by rewrite M_bind_eq, Hskip.
Qed.

End printing.

(** ** Properties *)

(** C37: the application's logger prints exactly one line for every record at or
    above its level (Info in production, Debug otherwise, also before a configuration
    is loaded), in order, with the record's time, level, source, message and
    attributes, and none for the others.  The very first payload starts with the 1024
    NUL bytes of the initial buffer.  It hands every full hundred to a function that
    drops it, and never holds a hundred records. *)
Theorem app_logger_spec grow fmt_time cfg rs :
  (∀ n, n < grow n) →
  let shown := filter (λ r, (app_level cfg ≤ rec_Level r)%Z) rs in
  ∃ opt l s', initLogger cfg = Returns (opt, l) ∧
    log_calls grow fmt_time opt 0 rs (mkSink (mkLstate ∅ {[0 := l]} []) []) = (Returns tt, s') ∧
    sk_printed s' = record_lines fmt_time [Zeros] shown ∧
    ∃ logs, Forall2 log_of shown logs ∧ logs = concat (ls_written (sk_logs s')) ++ pending (sk_logs s') 0 ∧
      Forall (λ b, length b = 100) (ls_written (sk_logs s')) ∧ length (pending (sk_logs s') 0) < 100.
Proof.
  intros Hgrow shown. exists (app_options cfg), (mkHandler [Zeros] (mkSlice 0 0 0) []).
  destruct (handle_all_spec grow Hgrow (λ _, None) (app_options cfg) 0 shown new_logs)
    as (es & s' & logs & batches & Hrun & Hall & Hw & Hc & Hb & Hp).
  { apply Forall_true. intros r. apply app_keeps. }
  { apply new_logs_ok. }
  { done. }
  eexists. split; [by destruct cfg|]. rewrite log_calls_filter.
  change (filter _ rs) with shown.
  rewrite (log_calls_enabled _ _ _ _ _ _ (mkHandler [Zeros] (mkSlice 0 0 0) []));
    [|by apply Forall_forall; intros r [Hr _]%list_elem_of_filter|done|done].
  split; [reflexivity|]. cbn [sk_printed sk_logs]. fold new_logs. rewrite Hrun. cbn [snd].
  split; [done|]. exists logs. rewrite Hw. split; [done|]. split; [exact Hc|]. split; [|simpl in Hp; lia].
  eapply Forall_impl; [exact Hb|]. intros b Hlen. simpl in Hlen. lia.
Qed.

Lemma app_logger_spec_witness :
  ∃ opt l s', initLogger (Some demo_config) = Returns (opt, l) ∧
    log_calls go_grow (λ _, "") opt 0 [note "a" []; note "b" []] (mkSink (mkLstate ∅ {[0 := l]} []) []) =
      (Returns tt, s') ∧
    sk_printed s' = [record_line (λ _, "") [Zeros] (note "a" []); record_line (λ _, "") [] (note "b" [])].
Proof.
  destruct (app_logger_spec go_grow (λ _, "") (Some demo_config) [note "a" []; note "b" []] go_grow_law)
    as (opt & l & s' & Hi & Hr & Hp & _).
  exists opt, l, s'. split; [exact Hi|]. split; [exact Hr|]. rewrite Hp. vm_compute. reflexivity.
Defined.
