(* ===== verification/Otel.v ===== *)
(** * drivers/monitoring: telemetry set-up and trace parents

    [setupOTelSDK] builds up to three providers and returns a closure that shuts
    them down; the closure and the set-up share the variable [shutdownFuncs], which
    is therefore part of the driver's state.  The OpenTelemetry SDK is a parameter:
    the outcome of making an exporter and a resource, and the [Shutdown] of a
    provider, a computation on the world [W].  Log lines are not modelled. *)

From S2P Require Import Prelude GoStr Config BaseApp.

(** ** The three builders *)

Record providerBuilder (E : Type) : Type := mkBuilder {
  pb_name : string;
  pb_version : string;
  pb_instanceId : string;
  pb_exporter : option E;
}.

Arguments mkBuilder {E} _ _ _ _.
Arguments pb_name {E} _.
Arguments pb_version {E} _.
Arguments pb_instanceId {E} _.
Arguments pb_exporter {E} _.

Section otel.
Context {E W : Type}.

Definition cleanup : Type := M W goerror.

(** What the SDK does: the resource of a service, and a provider's [Shutdown]
    for an exporter. *)
Variable resource_New : string → string → string → goerror.
Variable Shutdown_of : option E → cleanup.

Definition NewProviderBuilder (name version instanceId : string) : providerBuilder E :=
  mkBuilder name version instanceId None.

Definition SetExporter (b : providerBuilder E) (exp : E) : providerBuilder E :=
  mkBuilder (pb_name b) (pb_version b) (pb_instanceId b) (Some exp).

(** [traceProviderBuilder.Build] *)
Definition Build_trace (b : providerBuilder E) : cleanup + error :=
  match resource_New (pb_name b) (pb_version b) (pb_instanceId b) with
  | Some err => inr err
  | None => inl (Shutdown_of (pb_exporter b))
  end.

(** [loggerProviderBuilder.Build] *)
Definition Build_logger (b : providerBuilder E) : cleanup + error :=
  match resource_New (pb_name b) (pb_version b) (pb_instanceId b) with
  | Some err => inr err
  | None => inl (Shutdown_of (pb_exporter b))
  end.

(** [meterProviderBuilder.Build] *)
Definition Build_meter (b : providerBuilder E) : cleanup + error :=
  match pb_exporter b with
  | None => inr (Fmt "exporter is not set" [])
  | Some _ =>
      match resource_New (pb_name b) (pb_version b) (pb_instanceId b) with
      | Some err => inr err
      | None => inl (Shutdown_of (pb_exporter b))
      end
  end.

(** [NewOTLP] of each signal, for the configured endpoint. *)
Variable trace_NewOTLP metric_NewOTLP log_NewOTLP : string → E + error.

Definition builder_for (cfg : Config) (exp : E) : providerBuilder E :=
  SetExporter (NewProviderBuilder (ac_Name (cf_App cfg)) (Itoa (ac_Version (cf_App cfg)))
                                  (ac_Mode (cf_App cfg))) exp.

Definition newTraceProvider (cfg : Config) : cleanup + error :=
  match trace_NewOTLP (mo_OtelEndpoint (cf_Monitoring cfg)) with
  | inr err => inr err
  | inl exp => Build_trace (builder_for cfg exp)
  end.

Definition newMeterProvider (cfg : Config) : cleanup + error :=
  match metric_NewOTLP (mo_OtelEndpoint (cf_Monitoring cfg)) with
  | inr err => inr err
  | inl exp => Build_meter (builder_for cfg exp)
  end.

Definition newLoggerProvider (cfg : Config) : cleanup + error :=
  match log_NewOTLP (mo_OtelEndpoint (cf_Monitoring cfg)) with
  | inr err => inr err
  | inl exp => Build_logger (builder_for cfg exp)
  end.

(** ** otel.go

    The driver: the captured [shutdownFuncs], and whether [o.shutdown] is set. *)
Record Otel : Type := mkOtel { ot_funcs : list cleanup; ot_shutdown : bool }.

Definition NewOtel : Otel := mkOtel [] false.

(** [for _, fn := range shutdownFuncs { err = errors.Join(err, fn(ctx)) }] *)
Fixpoint run_cleanups (fns : list cleanup) (err : goerror) : M W goerror :=
  match fns with
  | [] => mret err
  | fn :: fns' => e ← fn; run_cleanups fns' (errors_Join [err; e])
  end.

Definition push_func (fn : cleanup) : M (Otel * W) () :=
  modify (λ x, (mkOtel (ot_funcs x.1 ++ [fn]) (ot_shutdown x.1), x.2)).

(** The closure [shutdown]. *)
Definition otel_shutdown : M (Otel * W) goerror :=
  fns ← gets (λ x, ot_funcs x.1);
  err ← on_snd (run_cleanups fns None);
  _ ← modify (λ x, (mkOtel [] (ot_shutdown x.1), x.2));
  mret err.

(** [handleErr]: the new value of the named result [err]. *)
Definition handleErr (inErr : error) : M (Otel * W) goerror :=
  e ← otel_shutdown; mret (errors_Join [Some inErr; e]).

(** The part that sets up one optional provider; its error is a new variable of
    the block, and is what the block returns. *)
Definition optional_provider (enabled : bool) (make : cleanup + error) : M (Otel * W) goerror :=
  if enabled then
    match make with
    | inr err => _ ← handleErr err; mret (Some err)
    | inl fn => _ ← push_func fn; mret None
    end
  else mret None.

(** The body of [setupOTelSDK] once the three constructors are given.  The result
    is whether a shutdown function is returned, and the error. *)
Definition setup_from (trace : cleanup + error) (enableTelemetry : bool) (meter : cleanup + error)
    (enableCollectLog : bool) (logger : cleanup + error) : M (Otel * W) (bool * goerror) :=
  match trace with
  | inr err => e ← handleErr err; mret (true, e)
  | inl fn =>
      _ ← push_func fn;
      e ← optional_provider enableTelemetry meter;
      match e with
      | Some err => mret (false, Some err)
      | None =>
          e ← optional_provider enableCollectLog logger;
          match e with
          | Some err => mret (false, Some err)
          | None => mret (true, None)
          end
      end
  end.

Definition setupOTelSDK (cfg : Config) : M (Otel * W) (bool * goerror) :=
  setup_from (newTraceProvider cfg) (mo_EnableTelemetry (cf_Monitoring cfg)) (newMeterProvider cfg)
             (mo_EnableCollectLog (cf_Monitoring cfg)) (newLoggerProvider cfg).

Definition Otel_Init (cfg : Config) : M (Otel * W) goerror :=
  r ← setupOTelSDK cfg;
  match r.2 with
  | Some err => mret (Some err)
  | None => _ ← modify (λ x, (mkOtel (ot_funcs x.1) r.1, x.2)); mret None
  end.

Definition Otel_Close : M (Otel * W) goerror :=
  set ← gets (λ x, ot_shutdown x.1);
  if (set : bool) then otel_shutdown else panic "invalid memory address or nil pointer dereference".

(** ** Specification: the providers that are made, in order, up to the first error *)

Fixpoint made (makes : list (bool * (cleanup + error))) : list cleanup * goerror :=
  match makes with
  | [] => ([], None)
  | (false, _) :: makes' => made makes'
  | (true, inr e) :: _ => ([], Some e)
  | (true, inl fn) :: makes' => let '(fns, e) := made makes' in (fn :: fns, e)
  end.

Definition providers (cfg : Config) : list cleanup * goerror :=
  made [(true, newTraceProvider cfg);
        (mo_EnableTelemetry (cf_Monitoring cfg), newMeterProvider cfg);
        (mo_EnableCollectLog (cf_Monitoring cfg), newLoggerProvider cfg)].

(** Run every clean-up in order, whatever each returns. *)
Fixpoint run_each (fns : list cleanup) : M W () :=
  match fns with [] => mret tt | fn :: fns' => _ ← fn; run_each fns' end.

(** ** Lemmas *)

Definition total (fns : list cleanup) : Prop := Forall (λ fn, ∀ w, ∃ e w', fn w = (Returns e, w')) fns.

Lemma run_cleanups_each fns err w :
  total fns → ∃ e, run_cleanups fns err w = (Returns e, (run_each fns w).2) ∧
    (run_each fns w).1 = Returns tt.
Proof.
  intros Hall. revert err w. induction Hall as [|fn fns Hfn _ IH]; intros err w; simpl; [eauto|].
  destruct (Hfn w) as (e & w' & Hrun). rewrite !M_bind_eq, Hrun. apply IH.
Qed.

Lemma otel_shutdown_run fns set w :
  total fns → ∃ e, otel_shutdown (mkOtel fns set, w) = (Returns e, (mkOtel [] set, (run_each fns w).2)).
Proof.
  intros Hall. destruct (run_cleanups_each fns None w Hall) as (e & He & _). exists e.
  unfold otel_shutdown. go. unfold on_snd. simpl. by rewrite He.
Qed.

Lemma handleErr_run err fns set w :
  total fns → ∃ e, handleErr err (mkOtel fns set, w) =
    (Returns (errors_Join [Some err; e]), (mkOtel [] set, (run_each fns w).2)).
Proof.
  intros Hall. destruct (otel_shutdown_run fns set w Hall) as (e & He). exists e.
  unfold handleErr. by rewrite M_bind_eq, He, M_ret_eq.
Qed.

Lemma optional_provider_run en mk fns w :
  total fns →
  match en, mk with
  | true, inr err => optional_provider en mk (mkOtel fns false, w) =
                       (Returns (Some err), (mkOtel [] false, (run_each fns w).2))
  | true, inl fn => optional_provider en mk (mkOtel fns false, w) =
                      (Returns None, (mkOtel (fns ++ [fn]) false, w))
  | false, _ => optional_provider en mk (mkOtel fns false, w) = (Returns None, (mkOtel fns false, w))
  end.
Proof.
  intros Hall. destruct en; [|done]. unfold optional_provider. destruct mk as [fn|err]; [done|].
  rewrite M_bind_eq. destruct (handleErr_run err fns false w Hall) as (e & ->). done.
Qed.

Definition make_ok (mk : cleanup + error) : Prop :=
  match mk with inl fn => total [fn] | inr _ => True end.

(** What the set-up leaves, for every combination of outcomes. *)
Lemma setup_from_spec t en1 m en2 l w :
  make_ok t → make_ok m → make_ok l →
  let r := made [(true, t); (en1, m); (en2, l)] in
  match r.2 with
  | Some e => setup_from t en1 m en2 l (NewOtel, w) =
      (Returns (bool_decide (length r.1 = 0), Some (if bool_decide (length r.1 = 0) then Joined [e] else e)),
       (mkOtel [] false, (run_each r.1 w).2))
  | None => setup_from t en1 m en2 l (NewOtel, w) = (Returns (true, None), (mkOtel r.1 false, w)) ∧
      total r.1
  end.
Proof.
  assert (∀ a b, total a → total b → total (a ++ b)) as Happ by (intros; by apply Forall_app_2).
  intros Ht Hm Hl. unfold setup_from, NewOtel. destruct t as [f1|e1]; [|done].
  rewrite M_bind_eq. unfold push_func at 1, modify at 1. cbn [fst snd ot_funcs ot_shutdown app].
  rewrite M_bind_eq. pose proof (optional_provider_run en1 m [f1] w Ht) as H1.
  destruct en1, m as [f2|e2]; rewrite H1; clear H1; simpl in Hm; try done;
    rewrite M_bind_eq; cbn [app].
  1: pose proof (optional_provider_run en2 l [f1; f2] w (Happ [f1] [f2] Ht Hm)) as H2.
  2-3: pose proof (optional_provider_run en2 l [f1] w Ht) as H2.
  all: destruct en2, l as [f3|e3]; rewrite H2; clear H2; simpl in Hl; try done; split; try done.
  all: first [exact (Happ _ _ (Happ [f1] [f2] Ht Hm) Hl) | exact (Happ [f1] [f2] Ht Hm)
             | exact (Happ [f1] [f3] Ht Hl)].
Qed.

End otel.

Section outcomes.
Context {E W : Type} (resource_New : string → string → string → goerror).
Context (Shutdown_of : option E → M W goerror) (Hsd : ∀ exp w, ∃ e w', Shutdown_of exp w = (Returns e, w')).

Lemma Shutdown_total exp : total [Shutdown_of exp].
Proof using Hsd. constructor; [apply Hsd|done]. Qed.

Lemma newTraceProvider_ok otlp cfg : make_ok (newTraceProvider resource_New Shutdown_of otlp cfg).
Proof using Hsd.
  unfold newTraceProvider, Build_trace. destruct (otlp _); [|done].
  destruct (resource_New _ _ _); [done|]. apply Shutdown_total.
Qed.

Lemma newMeterProvider_ok otlp cfg : make_ok (newMeterProvider resource_New Shutdown_of otlp cfg).
Proof using Hsd.
  unfold newMeterProvider, Build_meter. destruct (otlp _); [|done]. simpl.
  destruct (resource_New _ _ _); [done|]. apply Shutdown_total.
Qed.

Lemma newLoggerProvider_ok otlp cfg : make_ok (newLoggerProvider resource_New Shutdown_of otlp cfg).
Proof using Hsd.
  unfold newLoggerProvider, Build_logger. destruct (otlp _); [|done].
  destruct (resource_New _ _ _); [done|]. apply Shutdown_total.
Qed.

End outcomes.

(** ** Properties of the set-up *)

(** C38: when every provider's [Shutdown] returns, the driver leaves
    none behind.  If the providers can all be made, [Init] succeeds, the first
    [Close] runs each clean-up once in the order of creation and a second one runs
    nothing.  If one cannot, [Init] fails, each provider made before it was shut
    down once in order, and the error returned is the one of that provider: the
    errors of the clean-ups are not part of it. *)
Theorem otel_lifecycle {E W} resource_New (Shutdown_of : option E → M W goerror)
    trace_NewOTLP metric_NewOTLP log_NewOTLP (cfg : Config) (w : W) :
  (∀ exp w, ∃ e w', Shutdown_of exp w = (Returns e, w')) →
  let init := Otel_Init resource_New Shutdown_of trace_NewOTLP metric_NewOTLP log_NewOTLP cfg in
  let made := providers resource_New Shutdown_of trace_NewOTLP metric_NewOTLP log_NewOTLP cfg in
  match made.2 with
  | Some e => init (NewOtel, w) =
      (Returns (Some (if bool_decide (length made.1 = 0) then Joined [e] else e)),
       (mkOtel [] false, (run_each made.1 w).2))
  | None => init (NewOtel, w) = (Returns None, (mkOtel made.1 true, w)) ∧
      ∀ w1, ∃ e, Otel_Close (mkOtel made.1 true, w1) =
                   (Returns e, (mkOtel [] true, (run_each made.1 w1).2)) ∧
        ∀ w2 : W, Otel_Close (mkOtel [] true, w2) = (Returns None, (mkOtel [] true, w2))
  end.
Proof.
  intros Hsd. cbv zeta.
  pose proof (setup_from_spec _ (mo_EnableTelemetry (cf_Monitoring cfg)) _
    (mo_EnableCollectLog (cf_Monitoring cfg)) _ w
    (newTraceProvider_ok resource_New Shutdown_of Hsd trace_NewOTLP cfg)
    (newMeterProvider_ok resource_New Shutdown_of Hsd metric_NewOTLP cfg)
    (newLoggerProvider_ok resource_New Shutdown_of Hsd log_NewOTLP cfg)) as Hs.
  unfold Otel_Init, setupOTelSDK. rewrite M_bind_eq. cbv zeta in Hs. fold (providers resource_New Shutdown_of
    trace_NewOTLP metric_NewOTLP log_NewOTLP cfg) in Hs.
  destruct (providers _ _ _ _ _ cfg) as [fns [e|]]; cbn [fst snd] in *.
  - by rewrite Hs.
  - destruct Hs as [-> Ht]. split; [done|]. intros w1.
    destruct (otel_shutdown_run fns true w1 Ht) as (e & He). exists e. split; [|done].
    unfold Otel_Close. rewrite M_bind_eq. exact He.
Qed.


Definition otel_config : Config :=
  mkConfig (mkAppConfig "shop" "dev" 1) (cf_Database demo_config) (mkMonitoring "collector:4317" true true)
           [] (cf_Api demo_config).

Definition log_shutdown (exp : option nat) : M (list nat) goerror := λ w,
  (Returns (Some (Fmt "flush failed" [])), w ++ [default 0 exp]).

(** The logger's exporter fails: the tracer and the meter are shut down, and the
    failures of their flushes are not reported. *)
Lemma otel_lifecycle_witness :
  Otel_Init (λ _ _ _, None) log_shutdown (λ _, inl 1) (λ _, inl 2) (λ _, inr (Fmt "refused" []))
    otel_config (NewOtel, []) = (Returns (Some (Fmt "refused" [])), (mkOtel [] false, [1; 2])).
Proof.
  apply (otel_lifecycle (λ _ _ _, None) log_shutdown (λ _, inl 1) (λ _, inl 2)
           (λ _, inr (Fmt "refused" [])) otel_config []).
  intros exp w. do 2 eexists. reflexivity.
Defined.

(** ** span.go and trace_context_request.go *)

Record SpanContext : Type := mkSpanContext {
  sc_TraceID : string;
  sc_SpanID : string;
  sc_TraceFlags : Z;
  sc_Remote : bool;
}.

Definition dash : Ascii.ascii := Ascii.ascii_of_nat 45.

Record TraceContextRequest : Type := mkTraceRequest {
  tc_traceName : string;
  tc_spanName : string;
  tc_otelCtx : option SpanContext;
  tc_traceparent : string;
}.

(** The context of a caller may carry a span context already. *)
Definition NewTraceContext (ctx : option SpanContext) : TraceContextRequest := mkTraceRequest "" "" ctx "".

Definition WithTraceName (t : TraceContextRequest) (n : string) : TraceContextRequest :=
  mkTraceRequest n (tc_spanName t) (tc_otelCtx t) (tc_traceparent t).
Definition WithSpanName (t : TraceContextRequest) (n : string) : TraceContextRequest :=
  mkTraceRequest (tc_traceName t) n (tc_otelCtx t) (tc_traceparent t).
Definition WithTraceparent (t : TraceContextRequest) (p : string) : TraceContextRequest :=
  mkTraceRequest (tc_traceName t) (tc_spanName t) (tc_otelCtx t) p.

Section traceparent.
Context (TraceIDFromHex SpanIDFromHex : string → string + error).

Definition ConstructNewSpanContext (TraceID SpanID : string) : SpanContext + error :=
  match TraceIDFromHex TraceID with
  | inr err => inr err
  | inl traceID =>
      match SpanIDFromHex SpanID with
      | inr err => inr err
      | inl spanID => inl (mkSpanContext traceID spanID 1 false)
      end
  end.

Definition ConstructNewSpanContextFromTraceparent (traceparent : string) : SpanContext + error :=
  match str <$> split_on dash (chars traceparent) with
  | [_; p1; p2; p3] =>
      match TraceIDFromHex p1 with
      | inr err => inr (Wrap "invalid trace ID: %w" [] err)
      | inl traceID =>
          match SpanIDFromHex p2 with
          | inr err => inr (Wrap "invalid span ID: %w" [] err)
          | inl spanID =>
              inl (mkSpanContext traceID spanID (if bool_decide (p3 = "01") then 1 else 0) true)
          end
      end
  | _ => inr (Fmt "invalid traceparent format" [])
  end.

(** The span that is started (the names and the parent it finds in its context), and
    the request, whose context the parsed parent replaces. *)
Definition TraceContext_Build (t : TraceContextRequest) :
    (string * string * option SpanContext) * TraceContextRequest :=
  let start t := ((tc_traceName t, tc_spanName t, tc_otelCtx t), t) in
  if bool_decide (tc_traceparent t = "") then start t
  else match ConstructNewSpanContextFromTraceparent (tc_traceparent t) with
       | inr _ => start t
       | inl sc => start (mkTraceRequest (tc_traceName t) (tc_spanName t) (Some sc) (tc_traceparent t))
       end.

Lemma split_on_free sep l : sep ∉ l → split_on sep l = [l].
Proof.
  induction l as [|c l IH]; intros Hn; simpl; [done|].
  rewrite not_elem_of_cons in Hn. destruct Hn as [Hc Hl].
  by rewrite bool_decide_false, IH by done.
Qed.

Lemma split_on_app sep l1 l2 : sep ∉ l1 → split_on sep (l1 ++ sep :: l2) = l1 :: split_on sep l2.
Proof.
  induction l1 as [|c l IH]; intros Hn; simpl; [by rewrite bool_decide_true|].
  rewrite not_elem_of_cons in Hn. destruct Hn as [Hc Hl].
  by rewrite bool_decide_false, IH by done.
Qed.

(** The first part of a split text ends at the first separator. *)
Lemma split_on_inv sep l p ps :
  split_on sep l = p :: ps →
  sep ∉ p ∧ ((ps = [] ∧ l = p) ∨ ∃ l', l = p ++ sep :: l' ∧ ps = split_on sep l').
Proof using Type.
  clear TraceIDFromHex SpanIDFromHex. revert p ps. induction l as [|c l IH]; intros p ps; simpl.
  { intros [= <- <-]. split; [apply not_elem_of_nil|by left]. }
  case_bool_decide as Hc.
  { intros [= <- <-]. split; [apply not_elem_of_nil|]. right. exists l. by rewrite Hc. }
  destruct (split_on sep l) as [|q qs] eqn:E; intros [= <- <-].
  - destruct l as [|c' l]; simpl in E; [done|]. case_bool_decide; [done|]. by destruct (split_on sep l).
  - destruct (IH q qs eq_refl) as [Hq Hl]. split; [by apply not_elem_of_cons|].
    destruct Hl as [[-> ->]|(l' & -> & ->)]; [by left|]. right. by exists l'.
Qed.

(** The four fields of a header, none of which has a dash. *)
Definition traceparent_of (fields : list string) (header : string) : Prop :=
  Forall (λ s, dash ∉ chars s) fields ∧
  ∃ v t s f, fields = [v; t; s; f] ∧ header = v +:+ "-" +:+ t +:+ "-" +:+ s +:+ "-" +:+ f.

Lemma split_traceparent header v t s f :
  str <$> split_on dash (chars header) = [v; t; s; f] ↔ traceparent_of [v; t; s; f] header.
Proof using Type.
  clear TraceIDFromHex SpanIDFromHex. split.
  - intros Hs. destruct (split_on dash (chars header)) as [|a [|b [|c [|d [|]]]]] eqn:E; try done.
    cbn in Hs. injection Hs as <- <- <- <-.
    destruct (split_on_inv _ _ _ _ E) as [Ha [[? _]|(l1 & H1 & E1)]]; [done|]. symmetry in E1.
    destruct (split_on_inv _ _ _ _ E1) as [Hb [[? _]|(l2 & H2 & E2)]]; [done|]. symmetry in E2.
    destruct (split_on_inv _ _ _ _ E2) as [Hc [[? _]|(l3 & H3 & E3)]]; [done|]. symmetry in E3.
    destruct (split_on_inv _ _ _ _ E3) as [Hd [[_ H4]|(l4 & _ & E4)]];
      [|by destruct l4 as [|x l4]; simpl in E4; [|case_bool_decide; [|destruct (split_on dash l4)]]].
    split; [repeat constructor; by rewrite chars_str|].
    do 4 eexists. split; [reflexivity|]. rewrite <- (str_chars header), H1, H2, H3, H4.
    rewrite <- (str_chars (str a +:+ _)). rewrite !chars_app, !chars_str. done.
  - intros (Hall & v' & t' & s' & f' & [= <- <- <- <-] & ->).
    rewrite !Forall_cons in Hall. destruct Hall as (H1 & H2 & H3 & H4 & _).
    rewrite !chars_app. change (chars "-") with [dash]. cbn [app].
    rewrite !split_on_app, split_on_free by done. cbn [fmap list_fmap]. by rewrite !str_chars.
Qed.

(** C35: the parser of trace parents and the span it leads to.  A header gives a
    span context exactly when it consists of four fields without dashes, the second
    and the third of which the SDK reads as a trace and a span identifier; the
    context has these identifiers, is remote, and is sampled exactly when the
    fourth field is [01], and the first field is not looked at.  A span is always
    started: under that context, which the request then keeps, or, when the header
    is missing or refused, under the caller's context with the request unchanged. *)
Theorem traceparent_spec header t :
  (∀ sc, ConstructNewSpanContextFromTraceparent header = inl sc ↔
     ∃ version tid sid flags traceID spanID,
       traceparent_of [version; tid; sid; flags] header ∧
       TraceIDFromHex tid = inl traceID ∧ SpanIDFromHex sid = inl spanID ∧
       sc = mkSpanContext traceID spanID (if bool_decide (flags = "01") then 1 else 0) true) ∧
  TraceContext_Build (WithTraceparent t header) =
    let parent := match ConstructNewSpanContextFromTraceparent header with
                  | inl sc => Some sc
                  | inr _ => tc_otelCtx t
                  end in
    ((tc_traceName t, tc_spanName t, parent), mkTraceRequest (tc_traceName t) (tc_spanName t) parent header).
Proof.
  split.
  - intros sc. unfold ConstructNewSpanContextFromTraceparent.
    assert (∀ v a b f, str <$> split_on dash (chars header) = [v; a; b; f] ↔
              traceparent_of [v; a; b; f] header) as Hsplit by apply split_traceparent.
    split.
    + destruct (str <$> split_on dash (chars header)) as [|v [|a [|b [|f [|]]]]]; try done.
      destruct (TraceIDFromHex a) as [x|] eqn:Ea; [|done].
      destruct (SpanIDFromHex b) as [y|] eqn:Eb; [|done]. intros [= <-].
      exists v, a, b, f, x, y. split; [by apply Hsplit|done].
    + intros (v & a & b & f & x & y & ->%Hsplit & -> & -> & ->). done.
  - unfold TraceContext_Build, WithTraceparent. cbn. case_bool_decide as He; [by rewrite He|].
    by destruct (ConstructNewSpanContextFromTraceparent header).
Qed.

End traceparent.

Lemma traceparent_spec_witness :
  ConstructNewSpanContextFromTraceparent inl inl "00-4bf92f-00f067-01" =
    inl (mkSpanContext "4bf92f" "00f067" 1 true).
Proof.
  apply (traceparent_spec inl inl "00-4bf92f-00f067-01" (NewTraceContext None)).
  exists "00", "4bf92f", "00f067", "01", "4bf92f", "00f067".
  split; [|done]. split; [decide_by_eval|]. by exists "00", "4bf92f", "00f067", "01".
Defined.
