(* ===== verification/Nats.v ===== *)
(** * infrastructure/messaging/nats and drivers/messaging/nats

    The NATS connection, the driver that owns it, and the JetStream listeners of
    the orders domain.  The client library is a parameter: what [Connect],
    [IsConnected], [jetstream.New] and [Drain] answer, and the calls that go through
    a JetStream context.  A connection is a handle; [ns_open] are the handles that
    were opened and not closed. *)

From S2P Require Import Prelude Drivers.

(** ** nats_impl.go *)

Record natsInfra : Type := mkInfra { nf_core : option nat; nf_jetstream : bool }.

Definition NewNatsInfrastructureImpl : natsInfra := mkInfra None false.

Record netstate : Type := mkNet { ns_next : nat; ns_open : list nat }.

(** What the library answers during [Init] and [Close]. *)
Record nats_answers : Type := mkAnswers {
  an_connect : goerror;
  an_connected : bool;
  an_jetstream : goerror;
  an_drain : goerror;
  (** CreateOrUpdateConsumer *)
  an_consumer : goerror;
  (** the gorm handle of the application, and Subscribe *)
  an_db : bool;
  an_subscribe : goerror;
}.

Definition nil_deref : string := "invalid memory address or nil pointer dereference".

Section infra.
Context (an : nats_answers).

Definition NatsInfra_Init : M (natsInfra * netstate) goerror := λ '(n, s),
  match an_connect an with
  | Some err => (Returns (Some err), (n, s))
  | None =>
      let nc := ns_next s in
      let s := mkNet (S nc) (nc :: ns_open s) in
      if an_connected an then
        match an_jetstream an with
        | Some err => (Returns (Some err), (n, s))
        | None => (Returns None, (mkInfra (Some nc) true, s))
        end
      else (Returns None, (mkInfra (Some nc) (nf_jetstream n), s))
  end.

Definition NatsInfra_Close : M (natsInfra * netstate) goerror := λ '(n, s),
  match nf_core n with
  | None => (Returns None, (n, s))
  | Some nc =>
      if nf_jetstream n then
        match an_drain an with
        | Some err => (Returns (Some err), (n, s))
        | None => (Returns None, (n, mkNet (ns_next s) (filter (λ c, c ≠ nc) (ns_open s))))
        end
      else (Returns None, (n, s))
  end.

(** The methods that go to [n.jetstream]: CreateConsumer, DeleteConsumer,
    OrderedConsumer, Publish and its variants, CreateOrUpdate of a consumer, a
    key-value bucket, an object store or a stream. *)
Definition via_jetstream {A} (answer : A) : M (natsInfra * netstate) A := λ '(n, s),
  if nf_jetstream n then (Returns answer, (n, s)) else (Panics nil_deref, (n, s)).

(** ** listener/order_listener.go

    The consumer is nil when its creation failed; the error is only logged. *)
Definition SubscribeEphemeral : M (natsInfra * netstate) goerror :=
  err ← via_jetstream (an_consumer an);
  match err with
  | Some _ => panic nil_deref
  | None => mret None
  end.

(** The durable consumer that acknowledges; nobody subscribes it. *)
Definition SubscribeEventSourcing : M (natsInfra * netstate) goerror :=
  err ← via_jetstream (an_consumer an);
  match err with
  | Some _ => panic nil_deref
  | None => mret None
  end.

(** publisher/order_publisher.go: the configured stream is used for the consumer,
    whose error is dropped, and is not kept. *)
Definition NewOrderPublisher (stream : string) : M (natsInfra * netstate) string :=
  _ ← via_jetstream (an_consumer an);
  mret "".

(** What it publishes, as subject and payload; the outcome is dropped. *)
Definition OrderPublisher_PublishOrder (ack : goerror) : M (natsInfra * netstate) (string * string) :=
  _ ← via_jetstream ack;
  mret ("orders.20202.failed", "Content").

(** ** drivers/messaging/nats *)

(** [registerListener]: the order consumer, then the responder of the detail
    request when the application has a database; both errors are only logged. *)
Definition registerListener : M (natsInfra * netstate) bool :=
  _ ← SubscribeEphemeral;
  mret (if an_db an then match an_subscribe an with None => true | Some _ => false end else false).

(** The driver: [n.infra] is nil until [Init] has connected. *)
Record natsDriver : Type := mkNatsDriver { nd_infra : option natsInfra; nd_net : netstate }.

Definition NatsMessaging_Init (runListener : bool) : M natsDriver goerror := λ d,
  let '(r, (infra, s)) := NatsInfra_Init (NewNatsInfrastructureImpl, nd_net d) in
  match r with
  | Returns (Some err) => (Returns (Some err), mkNatsDriver (nd_infra d) s)
  | Returns None =>
      if runListener then
        let '(r, (infra, s)) := registerListener (infra, s) in
        (match r with Returns _ => Returns None | Panics e => Panics e | Blocks => Blocks end,
         mkNatsDriver (Some infra) s)
      else (Returns None, mkNatsDriver (Some infra) s)
  | Panics e => (Panics e, mkNatsDriver (nd_infra d) s)
  | Blocks => (Blocks, mkNatsDriver (nd_infra d) s)
  end.

Definition NatsMessaging_Close : M natsDriver goerror := λ d,
  match nd_infra d with
  | None => (Panics nil_deref, d)
  | Some infra => let '(r, (infra, s)) := NatsInfra_Close (infra, nd_net d) in
                  (r, mkNatsDriver (Some infra) s)
  end.

Definition NATS_DRIVER : string := "NATS_DRIVER".

Definition NatsMessaging (runListener : bool) : IDriver natsDriver :=
  mkIDriver NATS_DRIVER (NatsMessaging_Init runListener)
    (λ d, match nd_infra d with
          | Some _ => Some (mkDyn "*nats_infra.NatsInfrastructureImpl" (Some 0))
          | None => None
          end)
    NatsMessaging_Close.

End infra.

(** ** The callbacks of the order consumers *)

(** A JetStream message: its metadata (the consumer sequence) or an error, and
    whether the payload decodes. *)
Record js_msg : Type := mkJsMsg { jm_meta : Z + error; jm_decodes : bool }.

(** Returns whether the message is acknowledged. *)
Definition ephemeral_callback (m : js_msg) : outcome bool :=
  match jm_meta m with
  | inr _ => Panics nil_deref
  | inl _ => Returns false
  end.

Definition event_sourcing_callback (m : js_msg) : outcome bool :=
  match jm_meta m with
  | inr _ => Panics nil_deref
  | inl _ => Returns true
  end.

(** ** Properties *)

(** [Init], then [Close] if [Init] succeeded: the driver's whole life. *)
Definition nats_life (an : nats_answers) (d : natsDriver) : outcome goerror * natsDriver :=
  match NatsMessaging_Init an false d with
  | (Returns None, d') => NatsMessaging_Close an d'
  | x => x
  end.

(** a driver that is started without the listeners and then closed
    always returns, and leaves a connection open exactly when one was opened and
    it was not up yet during [Init], or JetStream could not be set up on it, or
    draining failed; in the first case no error is reported at all. *)
Theorem nats_life_leaks an net :
  Forall (λ c, c < ns_next net) (ns_open net) →
  ∃ e d, nats_life an (mkNatsDriver None net) = (Returns e, d) ∧
    (ns_next net ∈ ns_open (nd_net d) ↔
       an_connect an = None ∧
       (an_connected an = false ∨ an_jetstream an ≠ None ∨ an_drain an ≠ None)) ∧
    (an_connect an = None → an_connected an = false → e = None).
Proof.
  intros Hlt. assert (ns_next net ∉ ns_open net) as Hn.
  { intros Hin. rewrite Forall_forall in Hlt. specialize (Hlt _ Hin). lia. }
  destruct net as [nx op]. cbn in Hn.
  assert (nx ∉ filter (λ c, c ≠ nx) (nx :: op)) as Hf by (rewrite list_elem_of_filter; naive_solver).
  destruct an as [[ce|] [|] [je|] [de|] ac ad asub]; unfold nats_life; cbn;
    (eexists _, _; split; [reflexivity|]); cbn -[filter]; (split; [|done]).
  all: try (split; [intros Hin; exfalso; naive_solver|intros [? ?]; naive_solver]).
  all: split; [intros _; split; [done|]|intros _; left].
  all: try (by left); try (right; by left); right; by right.
Qed.

Definition slow_server : nats_answers := mkAnswers None false None None None false None.

Lemma nats_life_leaks_witness :
  ∃ e d, nats_life slow_server (mkNatsDriver None (mkNet 0 [])) = (Returns e, d) ∧
    0 ∈ ns_open (nd_net d) ∧ e = None.
Proof.
  destruct (nats_life_leaks slow_server (mkNet 0 [])) as (e & d & Hrun & [_ Hleak] & He).
  - constructor.
  - exists e, d. split; [exact Hrun|]. split; [|by apply He]. apply Hleak. split; [done|by left].
Defined.

(** with the listeners, a driver whose connection succeeded
    panics in [Init], instead of returning an error, exactly when JetStream is not
    available or the consumer cannot be created. *)
Theorem nats_listener_panics an d :
  an_connect an = None → (an_connected an = true → an_jetstream an = None) →
  ((∃ msg, (NatsMessaging_Init an true d).1 = Panics msg) ↔
     an_connected an = false ∨ an_consumer an ≠ None) ∧
  ((NatsMessaging_Init an true d).1 = Returns None ↔
     an_connected an = true ∧ an_consumer an = None).
Proof.
  destruct an as [[ce|] [|] [je|] de [ae|] ad asub]; cbn; intros Hc Hj; try done;
    try (by specialize (Hj eq_refl)); split; split; try naive_solver; intros [? H];
    try done; try (by right); by left.
Qed.

Lemma nats_listener_panics_witness :
  ∃ msg, (NatsMessaging_Init slow_server true (mkNatsDriver None (mkNet 0 []))).1 = Panics msg.
Proof. apply (nats_listener_panics slow_server); [done|done|by left]. Defined.

(** the event-sourcing consumer acknowledges every message whose
    metadata it can read, also one whose payload does not decode, so such a message
    is never redelivered; a message without readable metadata panics both
    consumers. *)
Theorem poison_message_acknowledged m :
  (event_sourcing_callback m = Returns true ↔ ∃ seq, jm_meta m = inl seq) ∧
  (∀ seq, event_sourcing_callback (mkJsMsg (inl seq) false) = Returns true) ∧
  ((∃ msg, event_sourcing_callback m = Panics msg) ↔ ∃ msg, ephemeral_callback m = Panics msg).
Proof.
  destruct m as [[seq|e] dec]; unfold event_sourcing_callback, ephemeral_callback; simpl;
    (split; [|split; [done|]]); split; try naive_solver; by intros [? ?].
Qed.
