(* ===== verification/Process.v ===== *)
(** * pkg/async, drivers/daemon, drivers/worker and cmd: processes

    A child process with the goroutine that waits for it, the daemon driver that
    starts HAProxy with the worker's descriptor, the worker driver, and the cobra
    commands that boot the application and start drivers.  Operating-system calls
    are arguments: what they answer. *)

From S2P Require Import Prelude GoStr Hooks Drivers Config Persistence BaseApp WorkerCore.

(** ** pkg/async/async_cmd.go *)

(** The goroutine of [AsyncRun]: not started, in [Wait], sending on [Terminated],
    ended. *)
Inductive waiter : Type := NoWaiter | InWait | Sending | Ended.

#[global] Instance waiter_eq_dec : EqDecision waiter.
Proof. solve_decision. Defined.

(** [os.ProcessState]: its text and its exit code, which is -1 for a process that was
    ended by a signal, and for a nil state. *)
Record ProcessState : Type := mkPState { ps_String : string; ps_code : Z }.

Definition ExitCode (st : option ProcessState) : Z := match st with Some p => ps_code p | None => -1 end.

Record Cmd : Type := mkCmd {
  cm_Process : option Z;
  cm_ProcessState : option ProcessState;
  cm_Error : goerror;
  cm_waiter : waiter;
}.

Definition Command : Cmd := mkCmd None None None NoWaiter.

(** [start] is the error of [Start], [process] the pid it left. *)
Definition AsyncRun (start : goerror) (process : option Z) (a : Cmd) : goerror * Cmd :=
  match start with
  | Some err => (Some err, mkCmd (cm_Process a) (cm_ProcessState a) (Some err) (cm_waiter a))
  | None =>
      let bad := match process with None => true | Some pid => bool_decide (pid < 1)%Z end in
      if bad then
        let err := Fmt "unable to create process" [] in
        (Some err, mkCmd process (cm_ProcessState a) (Some err) (cm_waiter a))
      else (None, mkCmd process (cm_ProcessState a) (cm_Error a) InWait)
  end.

Definition Cmd_Status (a : Cmd) : string :=
  match cm_Process a with
  | None => "not started"
  | Some _ =>
      match cm_ProcessState a with
      | Some st => ps_String st
      | None => match cm_Error a with
                | Some err => Error err
                | None => "running"
                end
      end
  end.

(** ** drivers/daemon/daemon.go *)

Record DaemonAdapter : Type := mkDaemon { da_cmd : option Cmd; da_worker : option Worker }.

Definition NewDaemonAdapter : DaemonAdapter := mkDaemon None None.

Definition runHaproxy (lookup : string + error) (start : goerror) (process : option Z) :
    M DaemonAdapter goerror := λ d,
  match lookup with
  | inr err => (Returns (Some err), d)
  | inl _ =>
      match AsyncRun start process Command with
      | (Some err, _) => (Returns (Some err), d)
      | (None, cmd) => (Returns None, mkDaemon (Some cmd) (da_worker d))
      end
  end.

(** [worker] is what [driverv2.Get] finds for the worker's adapter name. *)
Definition DaemonAdapter_Init (worker : Worker + error) (lookup : string + error) (start : goerror)
    (process : option Z) : M DaemonAdapter goerror :=
  match worker with
  | inr err => mret (Some err)
  | inl w =>
      match w_ExtraFile w with
      | None => mret None
      | Some _ =>
          modify (λ d, mkDaemon (da_cmd d) (Some w)) ≫= λ _,
          err ← runHaproxy lookup start process;
          match err with Some _ => mret None | None => mret None end
      end
  end.

(** [cancel] is what killing the process answers. *)
Definition DaemonAdapter_Close (cancel : goerror) : M DaemonAdapter goerror := λ d,
  match da_cmd d with
  | None => (Panics "invalid memory address or nil pointer dereference", d)
  | Some _ => (Returns cancel, d)
  end.

(** The goroutine that watches the process: is the application stopped? *)
Definition daemon_terminated (exitCode : Z) : bool := bool_decide (exitCode ≠ 0)%Z.

(** That goroutine: not started, receiving from [Terminated], past the receive,
    returned. *)
Inductive watcher : Type := NoWatcher | Receiving | Handling | Handled.

(** A child process, its command with the goroutine that waits for it, the goroutine
    that watches it, and whether that one stopped the application. *)
Record child : Type := mkChild { ch_cmd : Cmd; ch_watcher : watcher; ch_stopped : bool }.

Definition child0 : child := mkChild Command NoWatcher false.

(** The life of a child.  [watched] tells whether its starter starts the watching
    goroutine, as [runHaproxy] does when [AsyncRun] succeeded.  [Wait] returns with a
    process state, with an error or with both; the channel [Terminated] is not
    buffered, so the waiting goroutine's send and the watcher's receive happen
    together. *)
Inductive child_step (watched : bool) : child → child → Prop :=
| child_run start process :
    child_step watched child0 (mkChild (AsyncRun start process Command).2 NoWatcher false)
| child_watch a s :
    watched = true → cm_waiter a ≠ NoWaiter →
    child_step watched (mkChild a NoWatcher s) (mkChild a Receiving s)
| child_wait pid state err e0 w s :
    state ≠ None ∨ err ≠ None →
    child_step watched (mkChild (mkCmd (Some pid) None e0 InWait) w s)
                       (mkChild (mkCmd (Some pid) state err Sending) w s)
| child_terminated a s :
    cm_waiter a = Sending →
    child_step watched (mkChild a Receiving s)
                       (mkChild (mkCmd (cm_Process a) (cm_ProcessState a) (cm_Error a) Ended) Handling s)
| child_handle a s :
    child_step watched (mkChild a Handling s)
                       (mkChild a Handled (s || daemon_terminated (ExitCode (cm_ProcessState a)))).

(** ** drivers/worker/worker.go *)

Record WorkerAdapter : Type := mkWAdapter {
  wa_workercore : option Worker;
  wa_conn : option nat;
  wa_open : list nat;
}.

(** [dial] is the connection or the error, [r] what the master sends on it, and
    [write_err] the outcome of the pid report. *)
Definition WorkerAdapter_Init (pid : Z) (dial : nat + error) (r : recv) (write_err : goerror) :
    M WorkerAdapter goerror := λ a,
  match dial with
  | inr err => (Returns (Some err), a)
  | inl conn =>
      let opened := mkWAdapter (wa_workercore a) (wa_conn a) (conn :: wa_open a) in
      let worker := Build (SetPID pid (SetListener (Some conn) NewWorkerBuilder)) in
      match AcceptHandshake write_err r (mkWstate worker []) with
      | (Returns (Some err), _) => (Returns (Some err), opened)
      | (Returns None, s) => (Returns None, mkWAdapter (Some (ws_worker s)) (Some conn) (conn :: wa_open a))
      | (Panics e, _) => (Panics e, opened)
      | (Blocks, _) => (Blocks, opened)
      end
  end.

Definition WorkerAdapter_Close (close_err : goerror) : M WorkerAdapter goerror := λ a,
  match wa_conn a with
  | None => (Returns None, a)
  | Some c => (Returns close_err, mkWAdapter (wa_workercore a) (wa_conn a) (filter (λ x, x ≠ c) (wa_open a)))
  end.

(** ** cmd *)

Section commands.
Context {W : Type}.

(** [app.Driver().RunDriver(d)] *)
Definition run_driver (d : IDriver (appcore W)) : M (BaseApp W) goerror :=
  m ← DriverV2;
  (λ b, let '(r, (m', c)) := Manager_RunDriver (Some d) (m, ba_core b) in
        (r, mkBaseApp (ba_mu b) c (ba_before b) (ba_stop b) (ba_after b) (ba_driver b) (Some m')))
    : M (BaseApp W) goerror.

(** Start drivers in order, up to the first error. *)
Definition start_drivers (ds : list (IDriver (appcore W))) : M (BaseApp W) goerror :=
  for_until_err run_driver ds.

(** [app.OnAfterApplicationBootstrapped().ExecuteWithExclude(...)] *)
Definition boot_excluding (ks : list string) (configPath : string) (excluded : list string) :
    M (BaseApp W) goerror :=
  h ← OnAfterApplicationBootstrapped;
  on_core (ExecuteWithExclude h ks (after_event configPath) excluded).

(** mastercmd.go and workercmd.go, up to the wait for the context *)
Definition master_command (ks : list string) (configPath : string) (master echo : IDriver (appcore W)) :
    M (BaseApp W) goerror :=
  _ ← boot_excluding ks configPath ["b_bootstrap"];
  start_drivers [master; echo].

Definition worker_command (ks : list string) (configPath : string) (worker : IDriver (appcore W)) :
    M (BaseApp W) goerror :=
  _ ← boot_excluding ks configPath ["b_bootstrap"];
  start_drivers [worker].

(** [app.OnAfterApplicationBootstrapped().Execute(...)] *)
Definition boot_all (ks : list string) (configPath : string) : M (BaseApp W) goerror :=
  h ← OnAfterApplicationBootstrapped;
  on_core (Hook_Execute h ks (after_event configPath)).

(** http.go: the error of the driver is dropped. *)
Definition http_command (ks : list string) (configPath : string) (echo : IDriver (appcore W)) :
    M (BaseApp W) goerror :=
  _ ← boot_all ks configPath;
  _ ← run_driver echo;
  mret None.

Inductive ended : Type := RunE (err : goerror) | OsExit (code : Z).

(** message_broker.go *)
Definition message_broker_command (ks : list string) (configPath : string)
    (otel nats : IDriver (appcore W)) : M (BaseApp W) ended :=
  _ ← boot_all ks configPath;
  cfg ← on_core (gets a_config);
  match cfg with
  | None => panic "invalid memory address or nil pointer dereference"
  | Some cfg =>
      err ← (if mo_EnableTelemetry (cf_Monitoring cfg) then run_driver otel else mret None);
      match (err : goerror) with
      | Some _ => mret (OsExit 1)
      | None => _ ← run_driver nats; mret (RunE None)
      end
  end.

(** commands.go: the commands the binary offers. *)
Definition NewCommands : list string := ["master"; "worker"].

End commands.

(** ** Lemmas *)

(** What is left of a child's life. *)
Definition cmd_measure (a : Cmd) : nat :=
  match cm_waiter a with
  | NoWaiter => match cm_Error a with None => 3 | Some _ => 0 end
  | InWait => 2
  | Sending => 1
  | Ended => 0
  end.

Definition child_measure (c : child) : nat :=
  cmd_measure (ch_cmd c) + match ch_watcher c with NoWatcher => 2 | Receiving | Handling => 1 | Handled => 0 end.

Lemma AsyncRun_measure start process : cmd_measure (AsyncRun start process Command).2 < 3.
Proof.
  unfold AsyncRun, cmd_measure. destruct start; simpl; [lia|].
  destruct process; simpl; [|lia]. case_bool_decide; simpl; lia.
Qed.

Lemma child_step_measure watched c c' : child_step watched c c' → child_measure c' < child_measure c.
Proof.
  intros [start process|a s _ _|pid state err e0 w s _|a s Ha|a s]; unfold child_measure; cbn.
  - pose proof (AsyncRun_measure start process). lia.
  - lia.
  - unfold cmd_measure. cbn. lia.
  - unfold cmd_measure. cbn. rewrite Ha. lia.
  - lia.
Qed.

(** The invariant of a command's life, and of a child's. *)
Definition cmd_ok (a : Cmd) : Prop :=
  match cm_waiter a with
  | NoWaiter => a = Command ∨ cm_Error a ≠ None ∧ cm_ProcessState a = None
  | InWait => (∃ pid, cm_Process a = Some pid ∧ (1 ≤ pid)%Z) ∧ cm_ProcessState a = None ∧ cm_Error a = None
  | _ => is_Some (cm_Process a) ∧ (cm_ProcessState a ≠ None ∨ cm_Error a ≠ None)
  end.

Definition child_ok (watched : bool) (c : child) : Prop :=
  let a := ch_cmd c in
  cmd_ok a ∧
  match ch_watcher c with
  | NoWatcher => cm_waiter a ≠ Ended ∧ ch_stopped c = false
  | Receiving => watched = true ∧ (cm_waiter a = InWait ∨ cm_waiter a = Sending) ∧ ch_stopped c = false
  | Handling => watched = true ∧ cm_waiter a = Ended ∧ ch_stopped c = false
  | Handled => watched = true ∧ cm_waiter a = Ended ∧
               ch_stopped c = daemon_terminated (ExitCode (cm_ProcessState a))
  end.

Lemma child_step_ok watched c c' : child_ok watched c → child_step watched c c' → child_ok watched c'.
Proof.
  intros Hok Hstep. destruct Hstep as [start process|a s Hw Ha|pid state err e0 w s Hs|a s Ha|a s];
    unfold child_ok, cmd_ok in *; cbn [ch_cmd ch_watcher ch_stopped] in *.
  - unfold AsyncRun. destruct start as [e|]; cbn; [by split; [right|]|].
    destruct process as [pid|]; cbn; [|by split; [right|]].
    case_bool_decide; cbn; [by split; [right|]|]. split; [|done]. split; [|done]. exists pid. split; [done|lia].
  - destruct Hok as (Hc & He & ->). split; [done|]. split; [done|]. split; [|done].
    destruct (cm_waiter a); auto; done.
  - cbn in *. destruct Hok as (Hc & Hk). split; [split; [by eexists|done]|].
    destruct w; naive_solver.
  - cbn. destruct Hok as (Hc & Hw & _ & ->). rewrite Ha in Hc. done.
  - destruct Hok as (Hc & Hw & He & ->). done.
Qed.

Lemma child_run_ok watched n c c' :
  child_ok watched c → nsteps (child_step watched) n c c' → child_ok watched c' ∧ n + child_measure c' ≤ child_measure c.
Proof.
  intros Hok Hn. induction Hn as [c|n c c1 c2 Hs _ IH]; [split; [done|lia]|].
  destruct (IH (child_step_ok _ _ _ Hok Hs)) as [? ?]. apply child_step_measure in Hs. split; [done|lia].
Qed.

Lemma child0_ok watched : child_ok watched child0.
Proof. split; [by left|]. done. Qed.

(** ** Properties *)




(** in every state a command reaches, its status text is [running]
    exactly while the goroutine waits for the process (unless the process state or
    an error is itself so named); before it is run it is [not started], and after a
    failed start or the end of the process it is the error's text or the process
    state. *)
Theorem cmd_status_reachable watched n c (a := ch_cmd c) :
  nsteps (child_step watched) n child0 c →
  (cm_waiter a = InWait → Cmd_Status a = "running") ∧
  (a = Command → Cmd_Status a = "not started") ∧
  (cm_waiter a = NoWaiter → a ≠ Command → ∃ e, cm_Error a = Some e ∧
     (Cmd_Status a = Error e ∨ cm_Process a = None ∧ Cmd_Status a = "not started")) ∧
  (cm_waiter a = Sending ∨ cm_waiter a = Ended →
     ps_String <$> cm_ProcessState a = Some (Cmd_Status a) ∨
     ∃ e, cm_Error a = Some e ∧ Cmd_Status a = Error e).
Proof.
  intros Hn. apply (child_run_ok watched) in Hn as [[Hr _] _]; [|apply child0_ok].
  subst a. destruct c as [[p st er wt] wa sp]. unfold cmd_ok, Cmd_Status in *. simpl in *.
  split_and!.
  - intros ->. destruct Hr as ((pid & -> & _) & -> & ->). done.
  - by intros [= -> -> -> ->].
  - intros -> Hne. destruct Hr as [[= -> -> ->]|[He ->]]; [done|].
    destruct er as [e|]; [|done]. exists e. split; [done|]. destruct p; [by left|by right].
  - intros Hw. assert (is_Some p ∧ (st ≠ None ∨ er ≠ None)) as [[pid ->] Hs].
    { destruct Hw as [-> | ->]; exact Hr. }
    destruct st as [st|]; [by left|]. right. destruct er as [e|]; [eauto|]. by destruct Hs.
Qed.

Lemma cmd_status_reachable_witness : Cmd_Status (mkCmd (Some 7%Z) None None InWait) = "running".
Proof.
  apply (cmd_status_reachable true 1 (mkChild (mkCmd (Some 7%Z) None None InWait) NoWatcher false)); [|done].
  apply (nsteps_l _ _ _ (mkChild (mkCmd (Some 7%Z) None None InWait) NoWatcher false));
    [exact (child_run true None (Some 7%Z))|constructor].
Defined.

(** [Init] of the daemon swallows every failure to start HAProxy,
    so the driver is registered; closing it then dereferences nil.  [Close] returns
    exactly when a process was started. *)
Theorem daemon_close_needs_process worker lookup start process cancel :
  let '(r, d) := DaemonAdapter_Init (inl worker) lookup start process NewDaemonAdapter in
  r = Returns None ∧
  ((∃ e, DaemonAdapter_Close cancel d = (Returns e, d)) ↔
     w_ExtraFile worker ≠ None ∧ (∃ path, lookup = inl path) ∧ start = None ∧
     ∃ pid, process = Some pid ∧ (1 ≤ pid)%Z) ∧
  ((∃ msg, DaemonAdapter_Close cancel d = (Panics msg, d)) ↔ da_cmd d = None).
Proof.
  unfold DaemonAdapter_Init, DaemonAdapter_Close.
  destruct (w_ExtraFile worker) as [f|]; [|simpl; naive_solver].
  go. unfold runHaproxy. destruct lookup as [path|e]; [|simpl; naive_solver].
  unfold AsyncRun. destruct start as [e|]; [simpl; naive_solver|].
  destruct process as [pid|]; [|simpl; naive_solver]. case_bool_decide; simpl.
  - split; [done|]. split; [|naive_solver]. split; [naive_solver|].
    intros (_ & _ & _ & p & [= <-] & Hp). lia.
  - split; [done|]. split; [|naive_solver]. split; [|by eexists]. intros _.
    split_and!; eauto. exists pid. split; [done|lia].
Qed.

(** the worker driver starts exactly when the master was dialled, a
    descriptor arrived and the pid could be reported, and then its worker holds the
    descriptor and closing the driver closes the connection.  When the handshake
    fails, the connection that was dialled stays open, and closing the driver does
    not close it. *)
Theorem worker_driver_init pid dial r write_err close_err :
  let '(res, a) := WorkerAdapter_Init pid dial r write_err (mkWAdapter None None []) in
  ∃ err, res = Returns err ∧
    (err = None ↔ (∃ conn, dial = inl conn) ∧ (receiveFD r).2 = None ∧ write_err = None) ∧
    (err = None → ∃ w, wa_workercore a = Some w ∧ w_pid w = pid ∧ w_ExtraFile w = Some (receiveFD r).1.1 ∧
       wa_open (WorkerAdapter_Close close_err a).2 = []) ∧
    (∀ conn, dial = inl conn → err ≠ None →
       wa_open a = [conn] ∧ WorkerAdapter_Close close_err a = (Returns None, a)).
Proof.
  unfold WorkerAdapter_Init. destruct dial as [conn|e].
  2: { exists (Some e). split_and!; naive_solver. }
  unfold AcceptHandshake. destruct (receiveFD r) as [[fd data] [e|]]; cbn.
  { eexists. split; [reflexivity|]. split; [naive_solver|]. split; [done|]. by intros ? [= ->]. }
  unfold w_Write. cbn. destruct write_err as [e|]; cbn.
  - eexists. split; [reflexivity|]. split; [naive_solver|]. split; [done|]. by intros ? [= ->].
  - exists None. split; [done|]. split; [split; [eauto|done]|]. split; [|done].
    intros _. eexists. split; [reflexivity|]. split; [reflexivity|]. split; [reflexivity|].
    unfold WorkerAdapter_Close. cbn. by rewrite decide_False by naive_solver.
Qed.

(** An application that has gone through [Bootstrap]. *)
Definition booted {W} (load : string → outcome Config) (init : Config → M W (DataManager W)) (w : W) :
    BaseApp W := (Bootstrap (λ _, []) load init (NewBaseApp w)).2.

(** The hook [Bootstrap] leaves behind. *)
Definition boot_hook {W} (load : string → outcome Config) (init : Config → M W (DataManager W)) :
    Hook (appcore W) AfterBootstrapped :=
  mkHook (<["b_bootstrap" := b_bootstrap load init]> (<["a_load_cfg" := a_load_cfg load]> ∅)).

(** Booting without the data sources, in any order of the hook's map. *)
Lemma boot_excluding_ready {W} load (init : Config → M W (DataManager W)) (b : BaseApp W) ks path
    (k : goerror → M (BaseApp W) goerror) :
  ks ≡ₚ ["a_load_cfg"; "b_bootstrap"] → ba_mu b = true → ba_after b = Some (boot_hook load init) →
  (e ← boot_excluding ks path ["b_bootstrap"]; k e) b =
  match load path with
  | Returns cfg => k None (set_core (set_config cfg (ba_core b)) b)
  | Panics msg => (Panics msg, b)
  | Blocks => (Blocks, b)
  end.
Proof.
  intros Hks Hmu Haft. assert (orderedLoop ks = ["a_load_cfg"; "b_bootstrap"]) as Hord.
  { symmetry in Hks. apply Permutation_length_2_inv in Hks as [-> | ->]; vm_compute; done. }
  destruct b as [mu c bf st af dr v2]. cbn in Hmu, Haft. subst mu af.
  unfold boot_excluding. set (b := mkBaseApp _ _ _ _ _ _ _). rewrite M_bind_eq, M_bind_eq.
  change (OnAfterApplicationBootstrapped b) with (Returns (boot_hook load init), b).
  unfold on_core, ExecuteWithExclude, boot_hook. rewrite Hord. cbn.
  rewrite bool_decide_false by
    (rewrite !map_size_insert_None by (by simplify_map_eq); rewrite map_size_empty; lia).
  rewrite decide_True, decide_False by set_solver. cbn.
  unfold ExecuteOnly, IsKeyAlreadySet. cbn.
  rewrite !lookup_insert_ne, !lookup_insert_eq by done. cbn.
  rewrite bool_decide_false by done. cbv [mbind M_bind mret M_ret].
  rewrite lookup_insert_ne, lookup_insert_eq by done. cbn.
  by destruct (load path).
Qed.

(** on a bootstrapped application the master and the worker command
    load the configuration and nothing else before they start their drivers: the
    data sources are not opened, whatever the order of the hook's map.  When the
    configuration cannot be loaded no driver is started. *)
Theorem commands_skip_datasource {W} load (init : Config → M W (DataManager W)) (w : W) ks path master echo worker :
  ks ≡ₚ ["a_load_cfg"; "b_bootstrap"] →
  match load path with
  | Returns cfg =>
      let app := set_core (set_config cfg (ba_core (booted load init w))) (booted load init w) in
      a_config (ba_core app) = Some cfg ∧ a_data (ba_core app) = None ∧ a_world (ba_core app) = w ∧
      master_command ks path master echo (booted load init w) = start_drivers [master; echo] app ∧
      worker_command ks path worker (booted load init w) = start_drivers [worker] app
  | Panics msg =>
      master_command ks path master echo (booted load init w) = (Panics msg, booted load init w) ∧
      worker_command ks path worker (booted load init w) = (Panics msg, booted load init w)
  | Blocks =>
      (master_command ks path master echo (booted load init w)).1 = Blocks ∧
      (worker_command ks path worker (booted load init w)).1 = Blocks
  end.
Proof.
  intros Hks. unfold master_command, worker_command.
  rewrite !(boot_excluding_ready load init) by done.
  by destruct (load path).
Qed.

Lemma commands_skip_datasource_witness :
  ["b_bootstrap"; "a_load_cfg"] ≡ₚ ["a_load_cfg"; "b_bootstrap"] ∧
  ∀ driver, worker_command ["b_bootstrap"; "a_load_cfg"] "missing.yaml" driver
      (booted (λ _, Panics "no such file") (λ _, panic "not reached") tt) =
    (Panics "no such file", booted (λ _, Panics "no such file") (λ _, panic "not reached") tt).
Proof.
  assert (["b_bootstrap"; "a_load_cfg"] ≡ₚ ["a_load_cfg"; "b_bootstrap"]) as Hks by constructor.
  split; [exact Hks|]. intros driver.
  exact (proj2 (commands_skip_datasource (λ _, Panics "no such file") (λ _, panic "not reached") tt
    ["b_bootstrap"; "a_load_cfg"] "missing.yaml" driver driver driver Hks)).
Defined.
