(* ===== verification/Gateway.v ===== *)
(** * The gateway of the master and its lifecycle

    use_cases/bus/ipc_server.go: the listeners, the loop that accepts workers and
    the hand-over of the listening descriptor; use_cases/mastercore/master.go
    ([Run], [Stop]) and drivers/master/master.go ([Init], [Close]).

    Descriptors are kept in a table as the kernel does: a number is taken by the
    lowest free one and may be taken again after it is closed.  [ipc] is the state
    of the gateway with that table, and [ipc_step] interleaves the goroutine that
    serves, the loop that accepts workers, the goroutines it starts, the
    cancellation of the application, the master's [Close] and the garbage
    collector, whose finalizer closes the file that [getFD] returned and nobody
    keeps. *)

From S2P Require Import Prelude GoStr GoJson LoyaltyDomain LoyaltyApp Operation WorkerPool WorkerCore Master Drivers.

(** ** Descriptors *)

(** What a descriptor refers to: the TCP listening socket, the unix listener, the
    connection of a worker, anything else. *)
Inductive fileobj : Type := OTcp | OUnix | OConn (peer : nat) | OOther.

#[global] Instance fileobj_eq_dec : EqDecision fileobj.
Proof. solve_decision. Defined.

Abbreviation fdtable := (gmap nat fileobj).

(** The lowest number that is not taken. *)
Definition lowest_free (t : fdtable) : nat :=
  default 0 (head (filter (λ n, t !! n = None) (seq 0 (S (size t))))).

(** ** IPCServerGateway *)

(** Where the goroutine of handleWorker is: not started, at its select, in
    processWorker, returned. *)
Inductive loop_pc : Type := NotStarted | AtSelect | InAccept | LoopEnded.

#[global] Instance loop_pc_eq_dec : EqDecision loop_pc.
Proof. solve_decision. Defined.

(** [ip_l_closed]: the listener knows that it was closed.  [ip_dup] is the
    descriptor of the file getFD returned, while its finalizer has not run.
    [ip_spawned] are the accepted connections whose goroutine has not run,
    [ip_sent] what was handed to which worker. *)
Record ipc : Type := mkIpc {
  ip_l : option nat;
  ip_l_closed : bool;
  ip_fd : Z;
  ip_unixListener : option nat;
  ip_dup : option nat;
  ip_fds : fdtable;
  ip_cancelled : bool;
  ip_pc : loop_pc;
  ip_spawned : list (nat * nat);
  ip_sent : list (nat * fileobj);
}.

Definition NewIPCServerGateway (t : fdtable) : ipc :=
  mkIpc None false 0 None None t false NotStarted [] [].

Definition set_fds (t : fdtable) (c : ipc) : ipc :=
  mkIpc (ip_l c) (ip_l_closed c) (ip_fd c) (ip_unixListener c) (ip_dup c) t (ip_cancelled c) (ip_pc c)
    (ip_spawned c) (ip_sent c).
Definition set_pc (pc : loop_pc) (c : ipc) : ipc :=
  mkIpc (ip_l c) (ip_l_closed c) (ip_fd c) (ip_unixListener c) (ip_dup c) (ip_fds c) (ip_cancelled c) pc
    (ip_spawned c) (ip_sent c).
Definition set_cancelled (c : ipc) : ipc :=
  mkIpc (ip_l c) (ip_l_closed c) (ip_fd c) (ip_unixListener c) (ip_dup c) (ip_fds c) true (ip_pc c)
    (ip_spawned c) (ip_sent c).
Definition set_spawned (sp : list (nat * nat)) (c : ipc) : ipc :=
  mkIpc (ip_l c) (ip_l_closed c) (ip_fd c) (ip_unixListener c) (ip_dup c) (ip_fds c) (ip_cancelled c) (ip_pc c)
    sp (ip_sent c).
Definition add_sent (x : nat * fileobj) (c : ipc) : ipc :=
  mkIpc (ip_l c) (ip_l_closed c) (ip_fd c) (ip_unixListener c) (ip_dup c) (ip_fds c) (ip_cancelled c) (ip_pc c)
    (ip_spawned c) (ip_sent c ++ [x]).

Definition fd_open (o : fileobj) : M ipc nat := λ c,
  let n := lowest_free (ip_fds c) in (Returns n, set_fds (<[n := o]> (ip_fds c)) c).

Definition fd_close (n : nat) : M ipc () := modify (λ c, set_fds (delete n (ip_fds c)) c).

(** A call that fails, or opens a descriptor. *)
Definition open_unless (err : goerror) (o : fileobj) : M ipc (option nat) :=
  match err with
  | Some _ => mret None
  | None => n ← fd_open o; mret (Some n)
  end.

(** [File] of the listener, asserted to be a TCP listener: a duplicate of the listener's descriptor. The
    assertion panics on a nil listener; an error of [File] is only logged. *)
Definition ipc_getFD (l : option nat) (file : goerror) : M ipc (option nat) :=
  match l with
  | None => panic "interface conversion: interface is nil, not *net.TCPListener"
  | Some _ => open_unless file OTcp
  end.

(** [Fd] of a nil file is -1. *)
Definition Fd (f : option nat) : Z := match f with Some n => Z.of_nat n | None => -1 end.

Definition set_l (l : option nat) (c : ipc) : ipc :=
  mkIpc l (ip_l_closed c) (ip_fd c) (ip_unixListener c) (ip_dup c) (ip_fds c) (ip_cancelled c) (ip_pc c)
    (ip_spawned c) (ip_sent c).
Definition set_listeners (f : option nat) (u : nat) (c : ipc) : ipc :=
  mkIpc (ip_l c) (ip_l_closed c) (Fd f) (Some u) f (ip_fds c) (ip_cancelled c) (ip_pc c) (ip_spawned c) (ip_sent c).

(** [tcp], [unix] and [file] are the outcomes of the two listens and of [File].
    A failed TCP listen is only logged; a failed unix listen stops the
    application and returns before the TCP listener is kept. *)
Definition ListenAndServe (tcp unix file : goerror) : M ipc () :=
  l ← open_unless tcp OTcp;
  match unix with
  | Some _ => modify set_cancelled
  | None =>
      u ← fd_open OUnix;
      modify (set_l l) ≫= λ _,
      f ← ipc_getFD l file;
      modify (set_listeners f u) ≫= λ _,
      modify (set_pc AtSelect)
  end.

(** [Close]: the error of closing twice is only logged. *)
Definition Gateway_Close : M ipc () := λ c,
  match ip_l c with
  | None => (Returns tt, c)
  | Some n =>
      if ip_l_closed c then (Returns tt, c)
      else (Returns tt, mkIpc (Some n) true (ip_fd c) (ip_unixListener c) (ip_dup c) (delete n (ip_fds c))
                          (ip_cancelled c) (ip_pc c) (ip_spawned c) (ip_sent c))
  end.

(** What the descriptor number [fd] refers to now. *)
Definition rights (t : fdtable) (fd : Z) : option fileobj :=
  if bool_decide (0 ≤ fd)%Z then t !! Z.to_nat fd else None.

(** [WriteMsgUnix] sends what [c.fd] refers to at that moment; the kernel refuses
    a number that is not open. *)
Definition writeProceedConnection (peer : nat) (write_err : goerror) : M ipc goerror := λ c,
  match rights (ip_fds c) (ip_fd c), write_err with
  | None, _ => (Returns (Some (Fmt "gagal kirim msg unix: %v" ["bad file descriptor"])), c)
  | Some _, Some e => (Returns (Some (Fmt "gagal kirim msg unix: %v" [Error e])), c)
  | Some o, None => (Returns None, add_sent (peer, o) c)
  end.

(** The select of handleWorker. *)
Definition handleWorker_select : M ipc () := λ c,
  (Returns tt, set_pc (if ip_cancelled c then LoopEnded else InAccept) c).

(** A round of processWorker in which a worker connects: the goroutine is started
    and processWorker returns.  A round with an error is repeated. *)
Definition processWorker (accept : nat + error) : M ipc () :=
  match accept with
  | inr _ => mret tt
  | inl peer =>
      n ← fd_open (OConn peer);
      modify (λ c, set_spawned (ip_spawned c ++ [(n, peer)]) c) ≫= λ _,
      modify (set_pc AtSelect)
  end.

(** The goroutine of an accepted connection, up to the handshake. *)
Definition proceed_goroutine (n peer : nat) (write_err : goerror) : M ipc () :=
  modify (λ c, set_spawned (filter (λ x, x.1 ≠ n) (ip_spawned c)) c) ≫= λ _,
  err ← writeProceedConnection peer write_err;
  match (err : goerror) with
  | Some _ => fd_close n
  | None => mret tt
  end.

(** The finalizer of the file that getFD returned. *)
Definition collect : M ipc () := λ c,
  match ip_dup c with
  | None => (Returns tt, c)
  | Some n => (Returns tt, mkIpc (ip_l c) (ip_l_closed c) (ip_fd c) (ip_unixListener c) None
                             (delete n (ip_fds c)) (ip_cancelled c) (ip_pc c) (ip_spawned c) (ip_sent c))
  end.

Inductive label : Type :=
| LServe (tcp unix file : goerror)
| LSelect
| LRound (accept : nat + error)
| LProceed (n peer : nat) (write_err : goerror)
| LCancel
| LClose
| LCollect.

(** One step of the gateway. *)
Inductive ipc_step : ipc → label → ipc → Prop :=
| ipc_serve tcp unix file c c' :
    ip_pc c = NotStarted → ip_l c = None → ListenAndServe tcp unix file c = (Returns tt, c') →
    ipc_step c (LServe tcp unix file) c'
| ipc_select c c' :
    ip_pc c = AtSelect → handleWorker_select c = (Returns tt, c') → ipc_step c LSelect c'
| ipc_round accept c c' :
    ip_pc c = InAccept → processWorker accept c = (Returns tt, c') → ipc_step c (LRound accept) c'
| ipc_proceed n peer write_err c c' :
    (n, peer) ∈ ip_spawned c → proceed_goroutine n peer write_err c = (Returns tt, c') →
    ipc_step c (LProceed n peer write_err) c'
| ipc_cancel c : ipc_step c LCancel (set_cancelled c)
| ipc_close c c' : Gateway_Close c = (Returns tt, c') → ipc_step c LClose c'
| ipc_collect c c' : collect c = (Returns tt, c') → ipc_step c LCollect c'.

Inductive ipc_trace : ipc → list label → ipc → Prop :=
| trace_nil c : ipc_trace c [] c
| trace_cons c l c' ls c'' : ipc_step c l c' → ipc_trace c' ls c'' → ipc_trace c (l :: ls) c''.

(** The workers accepted along a trace. *)
Definition accepted (ls : list label) : list nat :=
  omap (λ l, match l with LRound (inl p) => Some p | _ => None end) ls.

(** The workers whose goroutine has run, those of them to whom the write of the
    descriptor succeeds, and whether the gateway came to serve with a descriptor to
    hand out. *)
Definition proceeded (ls : list label) : list nat :=
  omap (λ l, match l with LProceed _ p _ => Some p | _ => None end) ls.

Definition writable (ls : list label) : list nat :=
  omap (λ l, match l with LProceed _ p None => Some p | _ => None end) ls.

Definition serves (l : label) : bool := match l with LServe None None None => true | _ => false end.

(** ** Lemmas *)

Lemma lowest_free_free t : t !! lowest_free t = None.
Proof.
  unfold lowest_free. destruct (filter _ _) as [|n l] eqn:E; simpl.
  - exfalso. assert ((list_to_set (seq 0 (S (size t))) : gset nat) ⊆ dom t) as Hsub.
    { intros n Hn%elem_of_list_to_set. apply elem_of_dom. destruct (t !! n) eqn:Hn'; [done|].
      exfalso. assert (n ∈ filter (λ n, t !! n = None) (seq 0 (S (size t)))) as Hin
        by (by apply list_elem_of_filter).
      rewrite E in Hin. by apply not_elem_of_nil in Hin. }
    apply subseteq_size in Hsub. rewrite size_dom, size_list_to_set, length_seq in Hsub; [lia|].
    apply NoDup_seq.
  - assert (n ∈ filter (λ n, t !! n = None) (seq 0 (S (size t)))) as Hin by (rewrite E; left).
    by apply list_elem_of_filter in Hin as [? _].
Qed.

(** A table without holes: exactly the first [n] numbers are taken. *)
Definition dense (t : fdtable) (n : nat) : Prop := ∀ i, is_Some (t !! i) ↔ i < n.

Lemma dense_insert t n o : dense t n → dense (<[n := o]> t) (S n).
Proof.
  unfold dense. intros Hd i. destruct (decide (i = n)) as [->|Hne].
  - rewrite lookup_insert_eq. split; [lia|eauto].
  - rewrite lookup_insert_ne by done. rewrite (Hd i). lia.
Qed.

(** A table without holes grows at its end. *)
Lemma lowest_free_dense t n : dense t n → lowest_free t = n.
Proof.
  unfold dense. intros Hd. assert (dom t = (list_to_set (seq 0 n) : gset nat)) as Hdom.
  { apply set_eq. intros i. rewrite elem_of_dom, Hd, elem_of_list_to_set, elem_of_seq. lia. }
  assert (size t = n) as Hsz.
  { rewrite <- size_dom, Hdom, size_list_to_set, length_seq; [done|]. apply NoDup_seq. }
  unfold lowest_free. rewrite Hsz, seq_S, filter_app. simpl.
  destruct (filter _ (seq 0 n)) as [|i l] eqn:E.
  - rewrite app_nil_l, filter_cons_True; [done|]. apply eq_None_not_Some. rewrite Hd. lia.
  - assert (i ∈ filter (λ n, t !! n = None) (seq 0 n)) as Hi by (rewrite E; left).
    apply list_elem_of_filter in Hi as [Hn Hi%elem_of_seq].
    assert (is_Some (t !! i)) as [? ?] by (apply Hd; lia). congruence.
Qed.

(** The descriptors the gateway relies on refer to what it thinks. *)
Definition ipc_ok (c : ipc) : Prop :=
  (ip_pc c = NotStarted → ip_spawned c = [] ∧ ip_dup c = None) ∧
  (∀ n, ip_l c = Some n → ip_l_closed c = false → ip_fds c !! n = Some OTcp ∧ ip_dup c ≠ Some n) ∧
  (∀ n, ip_dup c = Some n → ip_fds c !! n = Some OTcp) ∧
  (ip_pc c ≠ NotStarted → ip_fd c = Fd (ip_dup c)) ∧
  (∀ n p, (n, p) ∈ ip_spawned c → ip_fds c !! n = Some (OConn p)) ∧
  (∀ x, x ∈ ip_sent c → x.2 = OTcp).

Lemma fd_open_frame t o m x : t !! m = Some x → <[lowest_free t := o]> t !! m = Some x.
Proof. intros Hm. rewrite lookup_insert_ne; [done|]. intros <-. by rewrite lowest_free_free in Hm. Qed.

Lemma rights_nat t n : rights t (Z.of_nat n) = t !! n.
Proof. unfold rights. by rewrite bool_decide_true, Nat2Z.id by lia. Qed.

Lemma proceed_goroutine_eq n peer c o :
  rights (ip_fds c) (ip_fd c) = Some o →
  proceed_goroutine n peer None c =
    (Returns tt, add_sent (peer, o) (set_spawned (filter (λ x, x.1 ≠ n) (ip_spawned c)) c)).
Proof.
  intros Hr. unfold proceed_goroutine. rewrite M_bind_eq. cbn [modify]. rewrite M_bind_eq.
  unfold writeProceedConnection. cbn [ip_fds ip_fd set_spawned]. by rewrite Hr.
Qed.

(** How ListenAndServe ends. *)
Lemma ListenAndServe_spec tcp unix file c :
  let n := lowest_free (ip_fds c) in
  let t := match tcp with Some _ => ip_fds c | None => <[n := OTcp]> (ip_fds c) end in
  let u := lowest_free t in
  let t' := <[u := OUnix]> t in
  match unix, tcp with
  | Some _, _ => ListenAndServe tcp unix file c = (Returns tt, set_cancelled (set_fds t c))
  | None, Some _ => ∃ c', ListenAndServe tcp unix file c =
      (Panics "interface conversion: interface is nil, not *net.TCPListener", c')
  | None, None => ListenAndServe tcp unix file c =
      (Returns tt, mkIpc (Some n) (ip_l_closed c) (Fd (match file with Some _ => None | None => Some (lowest_free t') end))
         (Some u) (match file with Some _ => None | None => Some (lowest_free t') end)
         (match file with Some _ => t' | None => <[lowest_free t' := OTcp]> t' end)
         (ip_cancelled c) AtSelect (ip_spawned c) (ip_sent c))
  end.
Proof. destruct tcp, unix, file; simpl; try reflexivity; by eexists. Qed.

Lemma serve_ok tcp unix file c c' :
  ip_pc c = NotStarted → ip_l c = None → ListenAndServe tcp unix file c = (Returns tt, c') →
  ipc_ok c → ipc_ok c'.
Proof.
  intros Hpc Hln Hr (H0 & H1 & H2 & H3 & H4 & H5). destruct (H0 Hpc) as [Hsp Hdup].
  pose proof (ListenAndServe_spec tcp unix file c) as Hspec. cbv zeta in Hspec.
  assert (∀ n p (t : fdtable), (n, p) ∈ ip_spawned c → t !! n = Some (OConn p)) as Hnil.
  { intros n p t. rewrite Hsp. by intros ?%not_elem_of_nil. }
  destruct unix as [e|]; [|destruct tcp as [e|]].
  - rewrite Hspec in Hr. injection Hr as <-. split_and!; simpl; try done.
    all: rewrite ?Hdup, ?Hln; eauto with congruence.
  - destruct Hspec as (? & Hspec). congruence.
  - rewrite Hspec in Hr. injection Hr as <-. split_and!; simpl; eauto; try done.
    + intros n [= <-] _. destruct file as [e|]; (split; [|intros [= Hd]]).
      * by apply fd_open_frame, lookup_insert_eq.
      * by do 2 apply fd_open_frame; apply lookup_insert_eq.
      * eapply eq_None_ne_Some_1; [apply lowest_free_free|]. rewrite Hd. by apply fd_open_frame, lookup_insert_eq.
    + intros n. destruct file as [e|]; [done|]. intros [= <-]. apply lookup_insert_eq.
Qed.

Lemma proceed_ok n peer write_err c c' :
  (n, peer) ∈ ip_spawned c → proceed_goroutine n peer write_err c = (Returns tt, c') →
  ipc_ok c → ipc_ok c'.
Proof.
  intros Hin Hr (H0 & H1 & H2 & H3 & H4 & H5).
  assert (ip_pc c ≠ NotStarted) as Hst.
  { intros Hpc. destruct (H0 Hpc) as [Hsp _]. rewrite Hsp in Hin. by apply not_elem_of_nil in Hin. }
  pose proof (H4 _ _ Hin) as Hn.
  unfold proceed_goroutine in Hr. rewrite M_bind_eq in Hr. simpl in Hr. rewrite M_bind_eq in Hr.
  unfold writeProceedConnection in Hr. simpl in Hr.
  assert (ipc_ok (set_fds (delete n (ip_fds c)) (set_spawned (filter (λ x, x.1 ≠ n) (ip_spawned c)) c))) as Hclosed.
  { split_and!; simpl; try done.
    - intros m Hm Hc. destruct (H1 m Hm Hc) as [? ?]. split; [|done]. rewrite lookup_delete_ne; [done|congruence].
    - intros m Hm. rewrite lookup_delete_ne; [by apply H2|]. intros <-. rewrite (H2 _ Hm) in Hn. done.
    - intros m p [Hne Hp]%list_elem_of_filter. simpl in Hne. rewrite lookup_delete_ne by done. by apply H4. }
  destruct (rights (ip_fds c) (ip_fd c)) as [o|] eqn:Er; [destruct write_err as [e|]|];
    [by injection Hr as <-| |by injection Hr as <-].
  injection Hr as <-. split_and!; simpl; try done.
  - intros m p [_ Hp]%list_elem_of_filter. by apply H4.
  - intros x [Hx| ->%list_elem_of_singleton]%elem_of_app; [by apply H5|]. simpl.
    rewrite (H3 Hst) in Er. destruct (ip_dup c) as [m|] eqn:Ed; simpl in Er; [|done].
    rewrite rights_nat, (H2 m eq_refl) in Er. congruence.
Qed.

(** Every step but the finalizer keeps the descriptors in place. *)
Lemma ipc_step_ok c l c' : l ≠ LCollect → ipc_ok c → ipc_step c l c' → ipc_ok c'.
Proof.
  intros Hl Hok Hs. pose proof Hok as (H0 & H1 & H2 & H3 & H4 & H5).
  destruct Hs as [tcp unix file c c' Hpc Hln Hr|c c' Hpc Hr|acc c c' Hpc Hr|n peer we c c' Hin Hr|c|c c' Hr|c c' Hr]; [..|done].
  - by eapply serve_ok.
  - unfold handleWorker_select in Hr. injection Hr as <-. split_and!; simpl; try done.
    + by destruct (ip_cancelled c).
    + intros _. apply H3. by rewrite Hpc.
  - destruct acc as [peer|e]; [|by injection Hr as <-]. unfold processWorker in Hr.
    rewrite M_bind_eq in Hr. simpl in Hr. rewrite M_bind_eq in Hr. injection Hr as <-.
    split_and!; simpl; try done.
    + intros n Hn Hc. destruct (H1 n Hn Hc) as [? ?]. split; [|done]. by apply fd_open_frame.
    + intros n Hn. by apply fd_open_frame, H2.
    + intros _. apply H3. by rewrite Hpc.
    + intros n p [Hin| [= -> ->]%list_elem_of_singleton]%elem_of_app; [|apply lookup_insert_eq].
      by apply fd_open_frame, H4.
  - by eapply proceed_ok.
  - done.
  - unfold Gateway_Close in Hr. destruct (ip_l c) as [m|] eqn:El; [|by injection Hr as <-].
    destruct (ip_l_closed c) eqn:Ec; [by injection Hr as <-|]. injection Hr as <-.
    destruct (H1 m eq_refl eq_refl) as [Hm Hd]. split_and!; simpl; try done.
    + intros n Hn. rewrite lookup_delete_ne; [by apply H2|]. intros <-. by apply Hd.
    + intros n p Hp. rewrite lookup_delete_ne; [by apply H4|]. intros <-. rewrite (H4 _ _ Hp) in Hm. done.
Qed.

Lemma ipc_trace_ok c ls c' : LCollect ∉ ls → ipc_ok c → ipc_trace c ls c' → ipc_ok c'.
Proof.
  intros Hls Hok Ht. induction Ht as [c|c l c1 ls c2 Hs _ IH]; [done|].
  apply IH; [set_solver|]. eapply ipc_step_ok; [|done|done]. set_solver.
Qed.

Lemma NewIPCServerGateway_ok t : ipc_ok (NewIPCServerGateway t).
Proof. split_and!; simpl; try done; by intros ? ? ?%not_elem_of_nil || (by intros ? ?%not_elem_of_nil). Qed.

(** A goroutine per accepted connection, each on a descriptor of its own. *)
Definition spawned_once (c : ipc) : Prop := NoDup (ip_spawned c).*1.

Lemma spawned_remove c n p :
  spawned_once c → (n, p) ∈ ip_spawned c →
  (ip_spawned c).*2 ≡ₚ p :: (filter (λ x, x.1 ≠ n) (ip_spawned c)).*2.
Proof.
  unfold spawned_once. generalize (ip_spawned c). intros l Hnd Hin.
  apply list_elem_of_split in Hin as (l1 & l2 & ->).
  rewrite fmap_app, fmap_cons in Hnd. apply NoDup_app in Hnd as (_ & H1 & [H2 _]%NoDup_cons).
  assert (∀ l, n ∉ l.*1 → filter (λ x : nat * nat, x.1 ≠ n) l = l) as Hid.
  { intros l. induction l as [|[m q] l IH]; [done|]. rewrite fmap_cons.
    intros [Hne Hn]%not_elem_of_cons. rewrite filter_cons_True by (cbn in *; congruence). by rewrite IH. }
  rewrite filter_app, filter_cons_False by (cbn; tauto).
  rewrite !Hid; [|done|intros Hn; apply (H1 n Hn); by left].
  rewrite !fmap_app, fmap_cons. cbn. symmetry. apply Permutation_middle.
Qed.

(** What each step does to the goroutines, to what was handed out and to the
    descriptor that is handed out. *)
Lemma ipc_step_sent c l c' :
  l ≠ LCollect → ipc_ok c → spawned_once c → ipc_step c l c' →
  spawned_once c' ∧
  accepted [l] ++ (ip_spawned c).*2 ≡ₚ proceeded [l] ++ (ip_spawned c').*2 ∧
  ip_sent c' = ip_sent c ++ (if bool_decide (is_Some (ip_dup c)) then (λ p, (p, OTcp)) <$> writable [l] else []) ∧
  (ip_pc c' = NotStarted → ip_pc c = NotStarted) ∧
  bool_decide (is_Some (ip_dup c')) = bool_decide (is_Some (ip_dup c)) || serves l ∧
  (serves l = true → ip_pc c = NotStarted).
Proof.
  intros Hl Hok Hnd Hs. pose proof Hok as (H0 & H1 & H2 & H3 & H4 & H5).
  destruct Hs as [tcp unix file c c' Hpc Hln Hr|c c' Hpc Hr|acc c c' Hpc Hr|n peer we c c' Hin Hr|c|c c' Hr|c c' Hr];
    [..|done]; unfold spawned_once in *.
  - destruct (H0 Hpc) as [Hsp Hdup]. pose proof (ListenAndServe_spec tcp unix file c) as Hspec. cbv zeta in Hspec.
    destruct unix as [e|]; [|destruct tcp as [e|]]; [| destruct Hspec; congruence |];
      rewrite Hspec in Hr; injection Hr as <-; cbn; rewrite Hsp, Hdup; cbn; rewrite app_nil_r.
    + destruct tcp; split_and!; (constructor || done).
    + destruct file; split_and!; (constructor || done).
  - unfold handleWorker_select in Hr. injection Hr as <-. cbn. case_bool_decide; rewrite app_nil_r;
      split_and!; try done; by destruct (ip_cancelled c).
  - destruct acc as [peer|e]; [|injection Hr as <-; cbn; case_bool_decide; by rewrite app_nil_r].
    unfold processWorker in Hr. rewrite M_bind_eq in Hr. simpl in Hr. rewrite M_bind_eq in Hr. injection Hr as <-.
    cbn. case_bool_decide; rewrite app_nil_r; split_and!; try done.
    1,3: rewrite fmap_app; apply NoDup_app; split; [done|]; split; [|apply NoDup_singleton];
      intros m ([m' q] & Hm' & Hm)%list_elem_of_fmap Hs%list_elem_of_singleton; cbn in *; subst;
      specialize (H4 _ _ Hm); by rewrite lowest_free_free in H4.
    1,2: rewrite fmap_app; cbn; by rewrite Permutation_app_comm.
  - assert (ip_pc c ≠ NotStarted) as Hst.
    { intros Hpc. destruct (H0 Hpc) as [Hsp _]. rewrite Hsp in Hin. by apply not_elem_of_nil in Hin. }
    pose proof (spawned_remove c n peer Hnd Hin) as Hperm.
    unfold proceed_goroutine in Hr. rewrite M_bind_eq in Hr. simpl in Hr. rewrite M_bind_eq in Hr.
    unfold writeProceedConnection in Hr. cbn [ip_fds ip_fd set_spawned] in Hr. rewrite (H3 Hst) in Hr.
    assert (NoDup (filter (λ x, x.1 ≠ n) (ip_spawned c)).*1) as Hnd'.
    { apply (sublist_NoDup _ _ Hnd). apply fmap_sublist, sublist_filter. }
    destruct (ip_dup c) as [m|] eqn:Ed; cbn [Fd] in Hr.
    + rewrite rights_nat, (H2 m eq_refl) in Hr. destruct we as [e|]; injection Hr as <-; cbn; rewrite Ed;
        rewrite ?app_nil_r; by split_and!.
    + cbn in Hr. injection Hr as <-. cbn. rewrite Ed, app_nil_r. by split_and!.
  - cbn. case_bool_decide; rewrite app_nil_r; done.
  - unfold Gateway_Close in Hr. destruct (ip_l c) as [m|] eqn:El;
      [destruct (ip_l_closed c) eqn:Ec|]; injection Hr as <-; cbn; case_bool_decide; by rewrite app_nil_r.
Qed.

Lemma started_no_serve c ls c' :
  LCollect ∉ ls → ipc_ok c → spawned_once c → ipc_trace c ls c' → ip_pc c ≠ NotStarted → existsb serves ls = false.
Proof.
  intros Hls Hok Hnd Ht. induction Ht as [c|c l c1 ls c2 Hs _ IH]; intros Hpc; [done|].
  apply not_elem_of_cons in Hls as [Hl Hls].
  destruct (ipc_step_sent c l c1) as (Hnd1 & _ & _ & Hpc1 & _ & Hsv); [done..|].
  cbn. rewrite IH; [|done| |done|auto]; [|by eapply ipc_step_ok].
  destruct (serves l); [|done]. by destruct (Hpc (Hsv eq_refl)).
Qed.

Lemma ipc_trace_sent c ls c' :
  LCollect ∉ ls → ipc_ok c → spawned_once c → ipc_trace c ls c' →
  accepted ls ++ (ip_spawned c).*2 ≡ₚ proceeded ls ++ (ip_spawned c').*2 ∧
  ip_sent c' = ip_sent c ++ (if bool_decide (is_Some (ip_dup c)) || existsb serves ls
                             then (λ p, (p, OTcp)) <$> writable ls else []).
Proof.
  intros Hls Hok Hnd Ht. induction Ht as [c|c l c1 ls c2 Hs Ht IH].
  { split; [done|]. by destruct (_ || _); rewrite app_nil_r. }
  apply not_elem_of_cons in Hls as [Hl Hls].
  assert (ipc_ok c1) as Hok1 by by eapply ipc_step_ok.
  destruct (ipc_step_sent c l c1) as (Hnd1 & Hp & Hsent & Hpc & Hdup & Hsv); [done..|].
  destruct (IH Hls Hok1 Hnd1) as [IHp IHs]. split.
  - change (accepted (l :: ls)) with (accepted ([l] ++ ls)). change (proceeded (l :: ls)) with (proceeded ([l] ++ ls)).
    unfold accepted, proceeded in *. rewrite !omap_app.
    rewrite <- (app_assoc (omap _ [l])), (Permutation_app_comm (omap _ ls)), app_assoc, Hp.
    rewrite <- !app_assoc. apply Permutation_app_head. rewrite <- IHp. apply Permutation_app_comm.
  - rewrite IHs, Hsent, Hdup, <- app_assoc. f_equal. cbn [existsb]. rewrite orb_assoc.
    change (writable (l :: ls)) with (writable ([l] ++ ls)). unfold writable in *. rewrite omap_app, fmap_app.
    destruct (bool_decide (is_Some (ip_dup c))) eqn:Ed; cbn [orb]; [done|].
    destruct (serves l) eqn:Esv.
    + by destruct l as [[] [] []| | | | | |].
    + cbn [orb]. destruct (existsb serves ls) eqn:Els; [|done].
      destruct l as [| | |n p [e|]| | |]; try done. exfalso.
      inversion Hs as [| | |? ? ? ? ? Hin| | |]; subst.
      assert (ip_pc c ≠ NotStarted) as Hst.
      { intros Hpc'. destruct Hok as (H0 & _). destruct (H0 Hpc') as [Hsp _]. rewrite Hsp in Hin.
        by apply not_elem_of_nil in Hin. }
      rewrite (started_no_serve c1 ls c2) in Els; [done..|]. auto.
Qed.

(** ** mastercore/master.go and drivers/master/master.go

    [Run] starts the loops of Master.v, the goroutine that serves and the health
    check; only then is the server kept.  [ms_started] tells whether [Init] kept
    the master. *)

Record MasterAdapter : Type := mkMasterAdapter {
  ms_gateway : gateway;
  ms_server : option ipc;
  ms_started : bool;
}.

Definition NewMasterAdapter (a : ambient) : MasterAdapter := mkMasterAdapter (NewMasterCore a) None false.

Definition Master_Run (t : fdtable) : M MasterAdapter goerror := λ m,
  (Returns None, mkMasterAdapter (ms_gateway m) (Some (NewIPCServerGateway t)) (ms_started m)).

Definition MasterAdapter_Init (a : ambient) (t : fdtable) : M MasterAdapter goerror :=
  modify (λ m, mkMasterAdapter (NewMasterCore a) None (ms_started m)) ≫= λ _,
  _ ← Master_Run t;
  modify (λ m, mkMasterAdapter (ms_gateway m) (ms_server m) true) ≫= λ _,
  mret None.

(** [m.server.Close()] *)
Definition Master_Stop : M MasterAdapter () := λ m,
  match ms_server m with
  | None => (Panics "invalid memory address or nil pointer dereference", m)
  | Some c => let '(r, c') := Gateway_Close c in (r, mkMasterAdapter (ms_gateway m) (Some c') (ms_started m))
  end.

(** [ks] is the order in which the registry is ranged over. *)
Definition MasterAdapter_Close (ks : list Z) : M MasterAdapter goerror := λ m,
  if ms_started m then
    match gw_pool (CloseAllConnections ks) (ms_gateway m) with
    | (Returns _, g) => (_ ← Master_Stop; mret None) (mkMasterAdapter g (ms_server m) true)
    | (Panics e, g) => (Panics e, mkMasterAdapter g (ms_server m) true)
    | (Blocks, g) => (Blocks, mkMasterAdapter g (ms_server m) true)
    end
  else (Panics "invalid memory address or nil pointer dereference", m).

Definition MasterAdapterName : string := "MasterAdapter".

(** ** Properties *)

(** C29: as long as the garbage collector has not finalized the file that
    getFD returned, in every interleaving of the accept loop, the goroutines it
    starts, cancellation and the master's Close: every accepted worker has exactly
    one goroutine, which has run or is still to run; and, when ListenAndServe
    succeeded with its file, the workers that have been handed something are exactly
    those whose goroutine has run without an error of the write, in that order, and
    each was handed the TCP listening socket.  Without that file nobody is handed
    anything. *)
Theorem gateway_hands_out_listener t ls c :
  ipc_trace (NewIPCServerGateway t) ls c → LCollect ∉ ls →
  accepted ls ≡ₚ proceeded ls ++ (ip_spawned c).*2 ∧
  ip_sent c = if existsb serves ls then (λ peer, (peer, OTcp)) <$> writable ls else [].
Proof.
  intros Ht Hls. assert (spawned_once (NewIPCServerGateway t)) as Hnd by constructor.
  destruct (ipc_trace_sent _ _ _ Hls (NewIPCServerGateway_ok t) Hnd Ht) as [Hp Hs].
  cbn in Hp, Hs. by rewrite app_nil_r in Hp.
Qed.

(** A table with the three standard streams. *)
Definition std_fds : fdtable := {[ 0 := OOther; 1 := OOther; 2 := OOther ]}.

Definition handed_over (ls : list (M ipc ())) : ipc :=
  foldl (λ c m, (m c).2) (NewIPCServerGateway std_fds) ls.

Definition two_workers : list (M ipc ()) :=
  [ListenAndServe None None None; handleWorker_select; processWorker (inl 9); handleWorker_select;
   processWorker (inl 8); Gateway_Close; proceed_goroutine 7 8 None; proceed_goroutine 6 9 None].

Lemma gateway_hands_out_listener_witness :
  ip_sent (handed_over two_workers) = [(8, OTcp); (9, OTcp)] ∧ ip_spawned (handed_over two_workers) = [].
Proof.
  destruct (gateway_hands_out_listener std_fds
           [LServe None None None; LSelect; LRound (inl 9); LSelect; LRound (inl 8); LClose;
            LProceed 7 8 None; LProceed 6 9 None]
           (handed_over two_workers)) as [_ Hs].
  - eapply trace_cons; [apply ipc_serve; vm_compute; reflexivity|].
    eapply trace_cons; [apply ipc_select; vm_compute; reflexivity|].
    eapply trace_cons; [apply ipc_round; vm_compute; reflexivity|].
    eapply trace_cons; [apply ipc_select; vm_compute; reflexivity|].
    eapply trace_cons; [apply ipc_round; vm_compute; reflexivity|].
    eapply trace_cons; [apply ipc_close; vm_compute; reflexivity|].
    eapply trace_cons; [apply ipc_proceed; [vm_compute; right; left|vm_compute; reflexivity]|].
    eapply trace_cons; [apply ipc_proceed; [vm_compute; left|vm_compute; reflexivity]|].
    apply trace_nil.
  - repeat (apply not_elem_of_cons; split; [done|]). apply not_elem_of_nil.
  - split; [exact Hs|vm_compute; reflexivity].
Defined.

(** C30: once the finalizer of that file has run, its number is free
    and the next worker's connection takes it, so the worker is handed its own
    connection in place of the listening socket. *)
Theorem finalized_descriptor_is_reused t n peer :
  dense t n →
  let c := ((_ ← ListenAndServe None None None; _ ← collect; _ ← handleWorker_select;
             _ ← processWorker (inl peer); proceed_goroutine (n + 2) peer None) : M ipc ())
             (NewIPCServerGateway t) in
  c.1 = Returns tt ∧ ip_fd c.2 = Z.of_nat (n + 2) ∧ ip_sent c.2 = [(peer, OConn peer)].
Proof.
  intros Hd. assert (∀ m, n + 2 = m → lowest_free (<[S n := OUnix]> (<[n := OTcp]> t)) = m) as H2.
  { intros m <-. rewrite (lowest_free_dense _ (S (S n))); [lia|]. by do 2 apply dense_insert. }
  set (c0 := NewIPCServerGateway t). pose proof (ListenAndServe_spec None None None c0) as Hs.
  cbv zeta in Hs. simpl in Hs. rewrite (lowest_free_dense t n Hd) in Hs.
  rewrite (lowest_free_dense _ (S n) (dense_insert _ _ _ Hd)), (H2 _ eq_refl) in Hs.
  cbv zeta. rewrite M_bind_eq, Hs. clear Hs. rewrite M_bind_eq. unfold collect at 1. simpl.
  rewrite !M_bind_eq. simpl. rewrite !M_bind_eq. simpl.
  assert (delete (n + 2) (<[n + 2 := OTcp]> (<[S n := OUnix]> (<[n := OTcp]> t))) =
          <[S n := OUnix]> (<[n := OTcp]> t)) as ->.
  { rewrite delete_insert_eq. apply delete_id. apply eq_None_not_Some.
    intros Hi%(dense_insert _ _ _ (dense_insert _ _ OTcp Hd)). lia. }
  rewrite (H2 _ eq_refl), (proceed_goroutine_eq _ _ _ (OConn peer)); [done|].
  cbn [ip_fds ip_fd set_spawned set_pc set_fds]. by rewrite rights_nat, lookup_insert_eq.
Qed.

Lemma std_dense : dense std_fds 3.
Proof.
  intros i. unfold std_fds. do 3 (destruct i as [|i]; [vm_compute; split; [lia|eauto]|]).
  rewrite !lookup_insert_ne, lookup_singleton_ne by lia. split; [by intros [? ?]|lia].
Qed.

Lemma finalized_descriptor_is_reused_witness :
  ip_sent (((_ ← ListenAndServe None None None; _ ← collect; _ ← handleWorker_select;
            _ ← processWorker (inl 9); proceed_goroutine 5 9 None) : M ipc ())
            (NewIPCServerGateway std_fds)).2 = [(9, OConn 9)].
Proof. exact (proj2 (proj2 (finalized_descriptor_is_reused std_fds 3 9 std_dense))). Defined.

(** Once cancelled, a step neither enters processWorker nor leaves it, but for the
    round that accepts a worker. *)
Lemma cancelled_step c l c' :
  ipc_step c l c' → ip_cancelled c = true →
  ip_cancelled c' = true ∧
  (accepted [l] = [] ∧ (ip_pc c' = InAccept ↔ ip_pc c = InAccept) ∨
   ip_pc c = InAccept ∧ length (accepted [l]) = 1 ∧ ip_pc c' = AtSelect).
Proof.
  intros Hs Hc.
  destruct Hs as [tcp unix file c c' Hpc Hln Hr|c c' Hpc Hr|acc c c' Hpc Hr|n peer we c c' Hin Hr|c|c c' Hr|c c' Hr].
  - pose proof (ListenAndServe_spec tcp unix file c) as Hspec. cbv zeta in Hspec.
    destruct unix as [e|]; [|destruct tcp as [e|]]; [|by destruct Hspec; congruence|];
      rewrite Hspec in Hr; injection Hr as <-; simpl; rewrite ?Hpc; naive_solver.
  - unfold handleWorker_select in Hr. injection Hr as <-. simpl. rewrite Hc, Hpc. naive_solver.
  - destruct acc as [peer|e]; injection Hr as <-; simpl; naive_solver.
  - unfold proceed_goroutine in Hr. rewrite M_bind_eq in Hr. simpl in Hr. rewrite M_bind_eq in Hr.
    unfold writeProceedConnection in Hr. simpl in Hr.
    destruct (rights _ _), we; injection Hr as <-; simpl; naive_solver.
  - simpl. naive_solver.
  - unfold Gateway_Close in Hr. destruct (ip_l c), (ip_l_closed c); injection Hr as <-; simpl; naive_solver.
  - unfold collect in Hr. destruct (ip_dup c); injection Hr as <-; simpl; naive_solver.
Qed.

Lemma accepted_cons l ls : accepted (l :: ls) = accepted [l] ++ accepted ls.
Proof. destruct l as [| |[]| | | |]; reflexivity. Qed.

Lemma cancelled_trace c ls c' :
  ipc_trace c ls c' → ip_cancelled c = true →
  (ip_pc c = InAccept → length (accepted ls) ≤ 1 ∧ (ip_pc c' = InAccept ↔ accepted ls = [])) ∧
  (ip_pc c ≠ InAccept → accepted ls = [] ∧ ip_pc c' ≠ InAccept).
Proof.
  intros Ht. induction Ht as [c|c l c1 ls c2 Hs Ht IH]; intros Hc; [simpl; naive_solver lia|].
  rewrite accepted_cons, length_app.
  destruct (cancelled_step _ _ _ Hs Hc) as [Hc1 [[-> Hpc]|(Hpc & Hlen & Hpc1)]]; destruct (IH Hc1) as [Ha Hb].
  - rewrite <- Hpc. exact (conj Ha Hb).
  - destruct (Hb ltac:(by rewrite Hpc1)) as [-> Hne]. rewrite app_nil_r. split; [|done]. intros _.
    split; [rewrite Hlen; simpl; lia|]. split; [done|]. intros Hnil. by rewrite Hnil in Hlen.
Qed.

(** C31: a cancelled application does not end the loop that accepts
    workers while it waits for one: the loop goes on until exactly one more worker
    has connected, whatever errors the listener reports, and never accepts a second.
    A loop that is not in processWorker accepts nobody any more. *)
Theorem shutdown_accepts_one_more c ls c' :
  ipc_trace c ls c' → ip_cancelled c = true →
  if bool_decide (ip_pc c = InAccept)
  then length (accepted ls) ≤ 1 ∧ (ip_pc c' = LoopEnded → length (accepted ls) = 1)
  else accepted ls = [].
Proof.
  intros Ht Hc. destruct (cancelled_trace _ _ _ Ht Hc) as [Ha Hb]. case_bool_decide as Hpc.
  - destruct (Ha Hpc) as [Hlen Hiff]. split; [done|]. intros Hend.
    destruct (accepted ls) as [|x [|y l]]; simpl in *; [|done|lia].
    assert (ip_pc c' = InAccept) by (by apply Hiff). congruence.
  - by apply Hb.
Qed.

(** A gateway that waits for a worker when the application is stopped. *)
Definition stopped_waiting : ipc :=
  set_cancelled (handed_over [ListenAndServe None None None; handleWorker_select]).

Definition lost : error := Foreign "net" "accept: i/o timeout".

Lemma shutdown_accepts_one_more_witness :
  ip_cancelled stopped_waiting = true ∧ ip_pc stopped_waiting = InAccept ∧
  length (accepted [LRound (inr lost); LRound (inl 4); LSelect]) ≤ 1.
Proof.
  split; [reflexivity|]. split; [reflexivity|].
  refine (proj1 (shutdown_accepts_one_more stopped_waiting [LRound (inr lost); LRound (inl 4); LSelect]
    (((_ ← processWorker (inl 4); handleWorker_select) : M ipc ()) stopped_waiting).2 _ eq_refl)).
  eapply trace_cons; [apply ipc_round; vm_compute; reflexivity|].
  eapply trace_cons; [apply ipc_round; vm_compute; reflexivity|].
  eapply trace_cons; [apply ipc_select; vm_compute; reflexivity|].
  apply trace_nil.
Defined.

(** after ListenAndServe has returned, whatever the listens
    answered, Close leaves the TCP listening socket open unless it could not be
    listened on or its duplicate could not be made, and always leaves the unix
    listener open.  A Close that comes before ListenAndServe closes nothing. *)
Theorem gateway_close_leaks tcp unix file t :
  (∀ n, t !! n ≠ Some OTcp ∧ t !! n ≠ Some OUnix) →
  let c := NewIPCServerGateway t in
  (∀ c1, ListenAndServe tcp unix file c = (Returns tt, c1) →
     ∃ c2, Gateway_Close c1 = (Returns tt, c2) ∧
     ((∃ n, ip_fds c2 !! n = Some OTcp) ↔ tcp = None ∧ (unix ≠ None ∨ file = None)) ∧
     ((∃ n, ip_fds c2 !! n = Some OUnix) ↔ unix = None)) ∧
  Gateway_Close c = (Returns tt, c).
Proof.
  intros Ht c. split; [|reflexivity]. intros c1 Hs.
  pose proof (ListenAndServe_spec tcp unix file c) as Hspec. cbv zeta in Hspec.
  set (n := lowest_free (ip_fds c)) in *. assert (t !! n = None) as Hn by apply lowest_free_free.
  destruct unix as [e|]; [|destruct tcp as [e|]; [by destruct Hspec; congruence|]];
    rewrite Hspec in Hs; injection Hs as <-.
  - eexists. split; [reflexivity|]. cbn [ip_fds set_cancelled set_fds]. split.
    + destruct tcp as [e'|]; [|split; [eauto|intros _; exists n; apply lookup_insert_eq]].
      split; [intros [m Hm]; by destruct (Ht m)|naive_solver].
    + split; [|done]. intros [m Hm]. destruct tcp as [e'|]; [by destruct (Ht m)|].
      apply lookup_insert_Some in Hm as [[_ ?]|[_ Hm]]; [done|]. by destruct (Ht m).
  - set (u := lowest_free (<[n:=OTcp]> _)) in *.
    assert (<[n:=OTcp]> t !! u = None) as [_ Hu]%lookup_insert_None by apply lowest_free_free.
    set (d := lowest_free (<[u:=OUnix]> _)) in *.
    assert (<[u:=OUnix]> (<[n:=OTcp]> t) !! d = None) as [[_ Hdn]%lookup_insert_None Hdu]%lookup_insert_None
      by apply lowest_free_free.
    eexists. split; [reflexivity|]. cbn [ip_fds]. split; destruct file as [e|].
    + split; [|naive_solver]. intros [m Hm]. rewrite lookup_delete_Some, !lookup_insert_Some in Hm.
      destruct (Ht m). naive_solver.
    + split; [auto|]. intros _. exists d. by rewrite lookup_delete_ne, lookup_insert_eq.
    + split; [done|]. intros _. exists u. by rewrite lookup_delete_ne, lookup_insert_eq.
    + split; [done|]. intros _. exists u. by rewrite lookup_delete_ne, lookup_insert_ne, lookup_insert_eq.
Qed.

Lemma gateway_close_leaks_witness :
  ∃ c2, Gateway_Close (handed_over [ListenAndServe None None None]) = (Returns tt, c2) ∧
    (∃ n, ip_fds c2 !! n = Some OTcp).
Proof.
  destruct (gateway_close_leaks None None None std_fds) as [H _].
  - intros n. unfold std_fds. split; intros H; rewrite !lookup_insert_Some, lookup_singleton_Some in H; naive_solver.
  - destruct (H _ eq_refl) as (c2 & Hc & Hl & _). exists c2. split; [exact Hc|]. apply Hl. split; [done|]. by right.
Defined.

(** closing the master driver, in any range order of the registry,
    disconnects every registered worker and starts the shutdown goroutine of each
    that has a connection, closes the TCP listener of a gateway that serves, and
    returns no error; a gateway whose ListenAndServe has not run yet is left alone,
    so that it opens its listeners afterwards; and closing a driver that was never
    initialised dereferences nil. *)
Theorem master_close_spec a t ks m :
  gw_ok (ms_gateway m) → range_order (p_conns (g_pool (ms_gateway m))) ks →
  (ms_started m = false → (MasterAdapter_Close ks m).1 = Panics "invalid memory address or nil pointer dereference") ∧
  (∀ c, ms_started m = true → ms_server m = Some c →
     ∃ m' c', MasterAdapter_Close ks m = (Returns None, m') ∧ ms_server m' = Some c' ∧
       let s := g_pool (ms_gateway m) in let s' := g_pool (ms_gateway m') in
       (∀ pid p w, p_conns s !! pid = Some p → p_heap s !! p = Some w → p_heap s' !! p = Some (closed w)) ∧
       p_spawned s' = p_spawned s ++ (ks ≫= spawns s) ∧
       (ip_l c = None → c' = c) ∧
       (∀ n, ip_l c = Some n → ip_l_closed c = false → ip_fds c' = delete n (ip_fds c))) ∧
  ms_server (MasterAdapter_Init a t m).2 = Some (NewIPCServerGateway t) ∧
  ms_started (MasterAdapter_Init a t m).2 = true.
Proof.
  intros Hok Hks. split; [|split; [|done]].
  - intros Hst. unfold MasterAdapter_Close. by rewrite Hst.
  - intros c Hst Hsrv. unfold MasterAdapter_Close. rewrite Hst. unfold gw_pool.
    destruct (close_all_loop ks (g_pool (ms_gateway m)) (range_order_NoDup _ _ Hks) (proj1 (gw_ok_pool _ Hok)))
      as (s' & -> & C & N & S & P).
    rewrite M_bind_eq. unfold Master_Stop. cbn [ms_server]. rewrite Hsrv.
    assert (∃ c', Gateway_Close c = (Returns tt, c') ∧ (ip_l c = None → c' = c) ∧
      (∀ n, ip_l c = Some n → ip_l_closed c = false → ip_fds c' = delete n (ip_fds c))) as (c' & -> & Hc).
    { unfold Gateway_Close. destruct (ip_l c), (ip_l_closed c); eexists; (split; [reflexivity|]); naive_solver. }
    do 2 eexists. split; [reflexivity|]. split; [reflexivity|]. cbn [g_pool ms_gateway]. split_and!; [|done|apply Hc..].
    intros pid p w Hp Hw. rewrite (P _ _ _ Hp Hw), bool_decide_true; [done|]. eapply range_order_elem; eauto.
Qed.

Lemma master_close_spec_witness :
  (MasterAdapter_Close [] (NewMasterAdapter (mkAmbient 0 0))).1 =
    Panics "invalid memory address or nil pointer dereference".
Proof.
  apply (master_close_spec (mkAmbient 0 0) ∅ [] (NewMasterAdapter (mkAmbient 0 0))); [|vm_compute; done|done].
  apply NewMasterCore_ok.
Defined.
