(* ===== verification/Control.v ===== *)
(** * Control connections and the older master

    The lines of a connection (Go's [bufio.Scanner] as the sources use it), the
    control connections of use_cases/bus/ipc_server.go with the loop that consumes
    them (use_cases/mastercore/master.go), the instruction listener of
    drivers/master/master.go, and the older way in which that driver starts the
    master ([InitOld], [ListenWorker]). *)

From S2P Require Import Prelude GoStr GoJson LoyaltyDomain LoyaltyApp Operation WorkerPool WorkerCore.
From S2P Require Import Master Drivers Gateway.

(** ** bufio.Scanner

    [Scan] returns the lines of the stream without their end, a carriage return
    before the newline included, and last a non-empty rest.  It stops when the buffer
    of 64 KiB holds no newline.  [term] is how the stream ends: nil for the end of
    the file, or the error of the read. *)

Definition MaxScanTokenSize : Z := 65536%Z.
Definition ErrTooLong : error := Sentinel "bufio.ErrTooLong" "bufio.Scanner: token too long".
Definition carriage_return : Ascii.ascii := Ascii.ascii_of_nat 13.

(** The token is kept in reverse. *)
Definition dropCR (rtoken : list Ascii.ascii) : list Ascii.ascii :=
  match rtoken with
  | c :: rest => if bool_decide (c = carriage_return) then rest else rtoken
  | [] => []
  end.

Definition token (rtoken : list Ascii.ascii) : string := str (reverse (dropCR rtoken)).

Fixpoint scan_from (rtoken : list Ascii.ascii) (n : Z) (stream : list Ascii.ascii) (term : goerror) :
    list string * goerror :=
  if bool_decide (MaxScanTokenSize ≤ n)%Z then ([], Some ErrTooLong)
  else
    match stream with
    | [] => (match rtoken with [] => [] | _ => [token rtoken] end, term)
    | c :: stream' =>
        if bool_decide (c = newline) then
          let '(lines, err) := scan_from [] 0 stream' term in (token rtoken :: lines, err)
        else scan_from (c :: rtoken) (n + 1)%Z stream' term
    end.

Definition Scanner_lines (stream : list Ascii.ascii) (term : goerror) : list string * goerror :=
  scan_from [] 0 stream term.

(** ** Control connections

    A goroutine per connection sends an event per line on a channel of capacity one
    and closes the connection when the lines are over; the loop of the master
    receives the events and ends at the first that fails. *)

Record control (W : Type) : Type := mkControl {
  ct_lines : list string;
  ct_closed : bool;
  ct_chan : list OpCommand;
  ct_loop : bool;
  ct_executed : list OpCommand;
  ct_world : W;
}.
Arguments mkControl {W} _ _ _ _ _ _.
Arguments ct_lines {W} _.
Arguments ct_closed {W} _.
Arguments ct_chan {W} _.
Arguments ct_loop {W} _.
Arguments ct_executed {W} _.
Arguments ct_world {W} _.

Section control.
Context {W : Type} (r : MasterRegistry W) (core : SystemCore W).

(** handleConnectionController with an accepted connection. *)
Definition handleConnectionController (stream : list Ascii.ascii) (term : goerror) (w : W) : control W :=
  mkControl (Scanner_lines stream term).1 false [] true [] w.

Inductive control_step : control W → control W → Prop :=
| control_send line lines chan loop done w :
    length chan < chan_cap →
    control_step (mkControl (line :: lines) false chan loop done w)
                 (mkControl lines false (chan ++ [controller_event line]) loop done w)
| control_close chan loop done w :
    control_step (mkControl [] false chan loop done w) (mkControl [] true chan loop done w)
| control_exec lines closed e chan done w x w' :
    MasterRegistry_Execute r core e w = (Returns x, w') →
    control_step (mkControl lines closed (e :: chan) true done w)
                 (mkControl lines closed chan (bool_decide (x.2 = None)) (done ++ [e]) w').

(** The fields of the master that its setters write; the loop over the events calls
    the operations, an interface that is nil before [SetOperations]. *)
Record MasterCore : Type := mkMasterCore {
  mc_FD : Z;
  mc_oob : option cmsg;
  mc_control : option (MasterRegistry W);
}.

Definition SetOperations (control : MasterRegistry W) (m : MasterCore) : MasterCore :=
  mkMasterCore (mc_FD m) (mc_oob m) (Some control).

Definition getSCMRights (m : MasterCore) : MasterCore := mkMasterCore (mc_FD m) (Some (CRights [mc_FD m])) (mc_control m).

Definition Master_control_event (m : MasterCore) (e : OpCommand) : M W (string * goerror) :=
  match mc_control m with
  | None => panic "invalid memory address or nil pointer dereference"
  | Some c => MasterRegistry_Execute c core e
  end.

End control.

(** *** handleController

    The outcomes of [Accept]: the connections that get a goroutine, up to the first
    error, whatever it is.  serveMainListener of the driver is written the same. *)
Fixpoint accept_until_error (accepts : list (nat + error)) : list nat :=
  match accepts with
  | [] | inr _ :: _ => []
  | inl conn :: accepts' => conn :: accept_until_error accepts'
  end.

Definition handleController : list (nat + error) → list nat := accept_until_error.
Definition serveMainListener : list (nat + error) → list nat := accept_until_error.

(** ** The older master

    [le_file] is the number of the duplicated listener, kept open by the master,
    [le_conns] the registry, [le_workers] the workers of spawnNewWorker. *)

Record legacy : Type := mkLegacy {
  le_fds : fdtable;
  le_file : option nat;
  le_sent : list (nat * fileobj);
  le_closed : list nat;
  le_workers : list Worker;
  le_conns : gmap Z nat;
}.

Definition Master_writeProceedConnection (peer : nat) (write_err : goerror) : M legacy goerror := λ m,
  match rights (le_fds m) (Fd (le_file m)), write_err with
  | None, _ => (Returns (Some (Fmt "gagal kirim msg unix: %v" ["bad file descriptor"])), m)
  | Some _, Some e => (Returns (Some (Fmt "gagal kirim msg unix: %v" [Error e])), m)
  | Some o, None =>
      (Returns None, mkLegacy (le_fds m) (le_file m) (le_sent m ++ [(peer, o)]) (le_closed m) (le_workers m)
                       (le_conns m))
  end.

(** [Start] always succeeds; the call that would register the worker is commented
    out. *)
Definition spawnNewWorker (w : Worker) : M legacy () := λ m,
  let '(r, s) := Worker_Start (mkWstate w []) in
  match r with
  | Returns None =>
      (Returns tt, mkLegacy (le_fds m) (le_file m) (le_sent m) (le_closed m) (le_workers m ++ [ws_worker s])
                     (le_conns m))
  | Returns (Some _) => (Returns tt, m)
  | Panics e => (Panics e, m)
  | Blocks => (Blocks, m)
  end.

(** The goroutine of a connection. *)
Definition legacy_handshake (stream : list Ascii.ascii) (peer : nat) : M legacy () :=
  match Master_handleHandshake stream peer with
  | Some w => spawnNewWorker w
  | None => modify (λ m, mkLegacy (le_fds m) (le_file m) (le_sent m) (le_closed m ++ [peer]) (le_workers m)
                           (le_conns m))
  end.

(** A round of processWorker: the deadline cannot be set, nothing connects, or a
    worker connects, with the outcome of the write and what it then sends. *)
Inductive accept_round : Type :=
| DeadlineErr (e : error)
| AcceptErr (e : error)
| Accepts (peer : nat) (write_err : goerror) (stream : list Ascii.ascii).

(** The error of the write is dropped.  With no round left the loop waits. *)
Fixpoint Master_processWorker (rounds : list accept_round) : M legacy () :=
  match rounds with
  | [] => block
  | DeadlineErr _ :: rounds' | AcceptErr _ :: rounds' => Master_processWorker rounds'
  | Accepts peer write_err stream :: _ =>
      modify (λ m, mkLegacy (<[lowest_free (le_fds m) := OConn peer]> (le_fds m)) (le_file m) (le_sent m)
                     (le_closed m) (le_workers m) (le_conns m)) ≫= λ _,
      _ ← Master_writeProceedConnection peer write_err;
      legacy_handshake stream peer
  end.

(** [None] is a select that finds the context done. *)
Fixpoint ListenWorker (selects : list (option (list accept_round))) : M legacy () :=
  match selects with
  | [] => block
  | None :: _ => mret tt
  | Some rounds :: selects' => Master_processWorker rounds ≫= λ _, ListenWorker selects'
  end.

(** drivers/master/master.go, [InitOld], up to its goroutines: [tcp] and [file] are
    the outcomes of the listen, which is only logged, and of [File]. *)
Definition MasterAdapter_getFD (l : option nat) (file : goerror) (t : fdtable) : outcome (option nat * fdtable) :=
  match l, file with
  | None, _ => Panics "interface conversion: interface is nil, not *net.TCPListener"
  | Some _, Some _ => Returns (None, t)
  | Some _, None => Returns (Some (lowest_free t), <[lowest_free t := OTcp]> t)
  end.

Definition InitOld (tcp file : goerror) (t : fdtable) : outcome legacy :=
  let '(l, t) := match tcp with
                 | Some _ => (None, t)
                 | None => (Some (lowest_free t), <[lowest_free t := OTcp]> t)
                 end in
  match MasterAdapter_getFD l file t with
  | Returns (f, t') => Returns (mkLegacy t' f [] [] [] ∅)
  | Panics e => Panics e
  | Blocks => Blocks
  end.

(** ** use_cases/workercore/debugfd.go

    What a worker prints about the descriptor it was given: [stat] is the mode, or
    the error of fstat, and [name] the socket's address, or the error of
    getsockname. *)

Definition S_IFMT : Z := 0xf000%Z.
Definition S_IFSOCK : Z := 0xc000%Z.
Definition S_IFREG : Z := 0x8000%Z.
Definition S_IFIFO : Z := 0x1000%Z.

Inductive sockaddr : Type := Inet4 (a b c d port : Z) | Inet6 (port : Z) | OtherAddr.

Inductive fd_kind : Type :=
| FdInvalid
| FdSocket (bind : string)
| FdFile
| FdPipe
| FdUnknown.

Definition InspectFD (stat : Z + error) (name : sockaddr + error) : fd_kind :=
  match stat with
  | inr _ => FdInvalid
  | inl mode =>
      let kind := Z.land mode S_IFMT in
      if bool_decide (kind = S_IFSOCK) then
        FdSocket (match name with
                  | inl (Inet4 a b c d port) =>
                      sprintf "%d.%d.%d.%d:%d" [Itoa a; Itoa b; Itoa c; Itoa d; Itoa port]
                  | inl (Inet6 port) => sprintf "[IPv6]:%d" [Itoa port]
                  | inl OtherAddr => "(Unix/Other)"
                  | inr e => Error e
                  end)
      else if bool_decide (kind = S_IFREG) then FdFile
      else if bool_decide (kind = S_IFIFO) then FdPipe
      else FdUnknown
  end.

(** ** Lemmas on the scanner *)

Definition print_lines (ls : list string) : list Ascii.ascii := concat ((λ l, chars l ++ [newline]) <$> ls).

(** A line that is read back as it was written. *)
Definition scannable (l : string) : Prop :=
  Forall (λ c, c ≠ newline) (chars l) ∧ last (chars l) ≠ Some carriage_return ∧
  (Z.of_nat (length (chars l)) < MaxScanTokenSize)%Z.

#[global] Instance scannable_dec l : Decision (scannable l).
Proof. unfold scannable. apply _. Defined.

Lemma scan_from_line rt n l rest term :
  Forall (λ c, c ≠ newline) l → (n + Z.of_nat (length l) < MaxScanTokenSize)%Z →
  scan_from rt n (l ++ newline :: rest) term =
    (token (reverse l ++ rt) :: (Scanner_lines rest term).1, (Scanner_lines rest term).2).
Proof.
  intros Hl. revert rt n. induction Hl as [|c l Hc _ IH]; intros rt n Hn; simpl length in Hn; cbn [app scan_from];
    rewrite bool_decide_false by lia.
  - rewrite bool_decide_true by done. unfold Scanner_lines. by destruct (scan_from [] 0 rest term).
  - rewrite bool_decide_false by done. rewrite IH by lia. by rewrite reverse_cons, <- app_assoc.
Qed.

Lemma scan_from_long rt n l rest term :
  Forall (λ c, c ≠ newline) l → (0 ≤ n)%Z → (MaxScanTokenSize ≤ n + Z.of_nat (length l))%Z →
  scan_from rt n (l ++ rest) term = ([], Some ErrTooLong).
Proof.
  intros Hl. revert rt n. induction Hl as [|c l Hc _ IH]; intros rt n H0 Hn; simpl length in Hn; cbn [app].
  - assert (bool_decide (MaxScanTokenSize ≤ n)%Z = true) as Hb by (apply bool_decide_eq_true; lia).
    destruct rest; cbn [scan_from]; by rewrite Hb.
  - cbn [scan_from]. case_bool_decide; [done|]. rewrite bool_decide_false by done. apply IH; lia.
Qed.

Lemma token_plain l : last l ≠ Some carriage_return → token (reverse l ++ []) = str l.
Proof.
  intros Hcr. unfold token, dropCR. rewrite app_nil_r.
  destruct (reverse l) as [|c rest] eqn:E; [by apply (f_equal reverse) in E; rewrite reverse_involutive in E; subst|].
  assert (last l = Some c) as Hlast. { rewrite <- (reverse_involutive l), E, reverse_cons. apply last_snoc. }
  rewrite bool_decide_false by congruence. by rewrite <- E, reverse_involutive.
Qed.

Lemma Scanner_lines_app ls rest term :
  Forall scannable ls →
  Scanner_lines (print_lines ls ++ rest) term =
    (ls ++ (Scanner_lines rest term).1, (Scanner_lines rest term).2).
Proof.
  intros Hls. induction Hls as [|l ls (Hn & Hcr & Hlen) _ IH]; [exact (surjective_pairing (Scanner_lines rest term))|].
  unfold print_lines in *. cbn [fmap list_fmap concat]. rewrite <- !app_assoc. unfold Scanner_lines at 1. cbn [app].
  rewrite scan_from_line, IH by (done || lia). by rewrite token_plain, str_chars.
Qed.

(** ** Lemmas on control sessions *)

#[global] Instance controller_event_inj : Inj (=) (=) controller_event.
Proof. intros l1 l2 Heq. by injection Heq. Qed.

Section session.
Context {W : Type} (core : SystemCore W).
Local Abbreviation step := (control_step RegisterCommand core).
Local Abbreviation known := (λ e, op_Name e = "NOOP").

Definition control_measure (c : control W) : nat :=
  2 * length (ct_lines c) + length (ct_chan c) + (if ct_closed c then 0 else 1).

Lemma control_step_measure r c c' : control_step r core c c' → control_measure c' < control_measure c.
Proof.
  destruct 1; unfold control_measure; cbn [ct_lines ct_chan ct_closed]; rewrite ?length_app; simpl; lia.
Qed.

Lemma control_steps_bound r n c c' :
  nsteps (control_step r core) n c c' → n + control_measure c' ≤ control_measure c.
Proof. induction 1 as [c|n c1 c2 c3 Hs _ IH]; [done|]. apply control_step_measure in Hs. lia. Qed.

(** The program's registry runs NOOP and refuses the rest. *)
Lemma Execute_program e (w : W) :
  ∃ x, MasterRegistry_Execute RegisterCommand core e w = (Returns x, w) ∧ (x.2 = None ↔ known e).
Proof.
  unfold MasterRegistry_Execute. rewrite RegisterCommand_lookup. case_bool_decide as Hn.
  - rewrite M_bind_eq, !M_ret_eq. by eexists.
  - eexists. split; [reflexivity|]. done.
Qed.

Definition control_inv (ls : list string) (c : control W) : Prop :=
  ct_executed c ++ ct_chan c ++ (controller_event <$> ct_lines c) = controller_event <$> ls ∧
  length (ct_chan c) ≤ chan_cap ∧ (ct_closed c = true → ct_lines c = []) ∧
  if ct_loop c then Forall known (ct_executed c)
  else ∃ pre e, ct_executed c = pre ++ [e] ∧ Forall known pre ∧ ¬ known e.

Lemma control_inv_step ls c c' : control_inv ls c → step c c' → control_inv ls c'.
Proof.
  intros (Heq & Hlen & Hcl & Hrun) Hs.
  destruct Hs as [line lines chan loop done w Hroom|chan loop done w|lines closed e chan done w x w' Hx];
    unfold control_inv in *; cbn [ct_executed ct_chan ct_lines ct_closed ct_loop] in *.
  - split_and!; try done; [by rewrite <- Heq, <- app_assoc|]. rewrite length_app. unfold chan_cap in *. simpl. lia.
  - done.
  - split_and!; try done; [by rewrite <- Heq, <- app_assoc|simpl in Hlen; lia|].
    destruct (Execute_program e w) as (x' & Hx' & Hkn). rewrite Hx in Hx'. injection Hx' as <- <-.
    case_bool_decide as Hk; [|by exists done, e; tauto].
    apply Forall_app. split; [done|]. constructor; [tauto|constructor].
Qed.

Lemma control_inv_steps ls c c' : control_inv ls c → rtc step c c' → control_inv ls c'.
Proof. intros Hi Hr. induction Hr; eauto using control_inv_step. Qed.

(** A session at rest. *)
Lemma control_rest c :
  length (ct_chan c) ≤ chan_cap → (ct_closed c = true → ct_lines c = []) → (∀ c', ¬ step c c') →
  (ct_loop c = true → ct_chan c = []) ∧
  (ct_lines c = [] ∧ ct_closed c = true ∨ ct_lines c ≠ [] ∧ ct_closed c = false ∧ length (ct_chan c) = chan_cap).
Proof.
  intros Hlen Hcl Hrest. destruct c as [lines closed chan loop done w].
  cbn [ct_executed ct_chan ct_lines ct_closed ct_loop] in *. split.
  - intros ->. destruct chan as [|e chan]; [done|].
    destruct (Execute_program e w) as (x & Hx & _). exfalso. eapply Hrest. by econstructor.
  - destruct lines as [|line lines].
    + left. split; [done|]. destruct closed; [done|]. exfalso. eapply Hrest. constructor.
    + right. split; [done|]. destruct closed; [by specialize (Hcl eq_refl)|]. split; [done|].
      destruct (decide (length chan < chan_cap)) as [Hroom|]; [|lia]. exfalso. eapply Hrest. by constructor.
Qed.

Lemma control_final ls c :
  control_inv ls c → (∀ c', ¬ step c c') →
  match list_find (λ l, l ≠ "NOOP") ls with
  | None => ct_closed c = true ∧ ct_executed c = controller_event <$> ls
  | Some (i, _) =>
      ct_loop c = false ∧ ct_executed c = controller_event <$> take (S i) ls ∧
      ct_lines c = drop (S (S i)) ls ∧ ct_closed c = bool_decide (length ls ≤ S (S i))
  end.
Proof.
  intros (Heq & Hlen & Hcl & Hrun) Hrest. destruct (control_rest c Hlen Hcl Hrest) as [Hch Hend].
  symmetry in Heq. apply fmap_app_inv in Heq as (l1 & l2 & He1 & Heq & ->).
  symmetry in Heq. apply fmap_app_inv in Heq as (l3 & l4 & He3 & He4 & ->).
  destruct (ct_loop c).
  - rewrite He1 in Hrun. rewrite Hch in Hend, He3 by done.
    destruct Hend as [[Hl Hc]|(_ & _ & Hx)]; [|done]. rewrite Hl in He4.
    symmetry in He3, He4. apply fmap_nil_inv in He3 as ->. apply fmap_nil_inv in He4 as ->. rewrite !app_nil_r.
    rewrite (proj2 (list_find_None _ _)); [done|]. apply Forall_fmap in Hrun.
    eapply Forall_impl; [exact Hrun|]. intros l Hl' Hne. by apply Hne.
  - destruct Hrun as (pre & e & Hex & Hpre & Hun). rewrite He1 in Hex.
    apply fmap_app_inv in Hex as (k1 & k2 & -> & Hk2 & ->).
    destruct k2 as [|l [|]]; [done| |done]. injection Hk2 as ->.
    rewrite <- !app_assoc. cbn [app].
    assert (list_find (λ l, l ≠ "NOOP") (k1 ++ l :: l3 ++ l4) = Some (length k1, l)) as ->.
    { apply list_find_Some. rewrite list_lookup_middle by done. split; [done|]. split; [exact Hun|].
      intros j y Hj Hlt. rewrite lookup_app_l in Hj by done. apply Forall_fmap in Hpre.
      rewrite Forall_lookup in Hpre. apply Hpre in Hj. cbn in Hj. tauto. }
    assert (drop (S (S (length k1))) (k1 ++ l :: l3 ++ l4) = drop 1 (l3 ++ l4)) as ->.
    { rewrite drop_app_ge by lia. by replace (S (S (length k1)) - length k1) with 2 by lia. }
    assert (take (S (length k1)) (k1 ++ l :: l3 ++ l4) = k1 ++ [l]) as ->.
    { rewrite take_app_ge by lia. by replace (S (length k1) - length k1) with 1 by lia. }
    apply (inj (fmap controller_event)) in He4. rewrite He4 in Hend |- *.
    assert (length l3 = length (ct_chan c)) as Hl3 by (by rewrite He3, length_fmap).
    split; [done|]. split; [done|]. rewrite length_app. simpl length. rewrite length_app.
    unfold chan_cap in *. destruct Hend as [[-> ->]|(Hne & -> & Hfull)].
    + rewrite bool_decide_true by (simpl; lia). split; [|done]. rewrite app_nil_r.
      destruct l3 as [|a [|]]; simpl in Hl3; (done || lia).
    + destruct l4 as [|b l4]; [done|]. rewrite bool_decide_false by (simpl; lia). split; [|done].
      destruct l3 as [|a [|]]; simpl in Hl3; (done || lia).
Qed.

End session.

(** ** Lemmas on the older master *)

(** The state keeps the duplicated listener open, hands out nothing else, and the
    registry is as it was. *)
Definition legacy_ok (conns : gmap Z nat) (m : legacy) : Prop :=
  (∀ n, le_file m = Some n → le_fds m !! n = Some OTcp) ∧
  (∀ peer o, (peer, o) ∈ le_sent m → o = OTcp) ∧
  Forall (λ w, w_status w = WStarting ∧ is_Some (w_l w)) (le_workers m) ∧
  le_conns m = conns.

Lemma writeProceed_ok conns peer werr m :
  legacy_ok conns m →
  ∃ e m', Master_writeProceedConnection peer werr m = (Returns e, m') ∧ legacy_ok conns m'.
Proof.
  intros Hok. unfold Master_writeProceedConnection.
  destruct (le_file m) as [n|] eqn:Ef.
  - pose proof Hok as (Hfile & Hsent & Hw & Hc). cbn [Fd]. rewrite rights_nat, (Hfile n Ef).
    destruct werr as [e|]; eexists _, _; (split; [reflexivity|]); [done|]. split_and!; cbn; try done.
    + rewrite <- Ef. exact Hfile.
    + intros p o [?|[= -> ->]%list_elem_of_singleton]%elem_of_app; eauto.
  - eexists _, _. by split; [reflexivity|].
Qed.

Lemma legacy_handshake_ok conns stream peer m :
  legacy_ok conns m → ∃ m', legacy_handshake stream peer m = (Returns tt, m') ∧ legacy_ok conns m'.
Proof.
  intros (Hfile & Hsent & Hw & Hc). unfold legacy_handshake, Master_handleHandshake.
  destruct (handshake_pid stream) as [|t|pid]; eexists; (split; [reflexivity|]); split_and!; cbn; try done.
  apply Forall_app. split; [done|]. by repeat constructor.
Qed.

Lemma accepted_round_ok conns peer werr stream rounds m :
  legacy_ok conns m →
  ∃ m', Master_processWorker (Accepts peer werr stream :: rounds) m = (Returns tt, m') ∧ legacy_ok conns m'.
Proof.
  intros Hok. cbn [Master_processWorker]. rewrite M_bind_eq. unfold modify at 1. rewrite M_bind_eq.
  set (m1 := mkLegacy _ _ _ _ _ _). assert (legacy_ok conns m1) as Hok1.
  { destruct Hok as (Hfile & Hsent & Hw & Hc). split_and!; cbn; try done.
    intros n Hn. by apply fd_open_frame, Hfile. }
  destruct (writeProceed_ok conns peer werr m1 Hok1) as (e & m2 & -> & Hok2).
  by apply legacy_handshake_ok.
Qed.

Lemma processWorker_ok conns rounds m :
  legacy_ok conns m → legacy_ok conns (Master_processWorker rounds m).2 ∧
    ∀ e, (Master_processWorker rounds m).1 ≠ Panics e.
Proof.
  intros Hok. induction rounds as [|[e|e|peer werr stream] rounds IH]; [done..|].
  by destruct (accepted_round_ok conns peer werr stream rounds m Hok) as (m' & -> & Hok').
Qed.

Lemma ListenWorker_ok conns selects m :
  legacy_ok conns m → legacy_ok conns (ListenWorker selects m).2 ∧ ∀ e, (ListenWorker selects m).1 ≠ Panics e.
Proof.
  revert m. induction selects as [|[rounds|] selects IH]; intros m Hok; cbn [ListenWorker]; try done.
  destruct (processWorker_ok conns rounds m Hok) as [Hok1 Hnp]. rewrite M_bind_eq.
  destruct (Master_processWorker rounds m) as [[[]|e|] m1]; [by apply IH|by destruct (Hnp e)|done].
Qed.

Lemma InitOld_ok tcp file t m : InitOld tcp file t = Returns m → legacy_ok ∅ m.
Proof.
  unfold InitOld, MasterAdapter_getFD. destruct tcp as [e|]; [done|].
  destruct file as [e|]; intros [= <-]; split_and!; cbn; try done.
  - by intros peer o ?%not_elem_of_nil.
  - intros n [= <-]. by rewrite lookup_insert_eq.
  - by intros peer o ?%not_elem_of_nil.
Qed.

(** ** Properties *)

(** lines without a newline, not ending in a carriage return and shorter than
    64 KiB that are written one after the other are read back as they are, whatever
    follows; the first piece of 64 KiB without a newline ends the reading with an
    error, with the lines before it delivered. *)
Theorem scanner_roundtrip ls rest term :
  Forall scannable ls →
  Scanner_lines (print_lines ls) term = (ls, term) ∧
  Scanner_lines (print_lines ls ++ rest) term = (ls ++ (Scanner_lines rest term).1, (Scanner_lines rest term).2) ∧
  ∀ l rest', Forall (λ c, c ≠ newline) l → (MaxScanTokenSize ≤ Z.of_nat (length l))%Z → rest = l ++ rest' →
    Scanner_lines (print_lines ls ++ rest) term = (ls, Some ErrTooLong).
Proof.
  intros Hls. split; [|split].
  - rewrite <- (app_nil_r (print_lines ls)), Scanner_lines_app by done. by rewrite app_nil_r.
  - by apply Scanner_lines_app.
  - intros l rest' Hl Hlen ->. rewrite Scanner_lines_app by done. unfold Scanner_lines.
    rewrite scan_from_long by (done || lia). by rewrite app_nil_r.
Qed.

Lemma scanner_roundtrip_witness :
  Scanner_lines (print_lines ["NOOP"; ""; "status"] ++ chars "exit") None = (["NOOP"; ""; "status"; "exit"], None).
Proof.
  destruct (scanner_roundtrip ["NOOP"; ""; "status"] (chars "exit") None) as (_ & H & _).
  - decide_by_eval.
  - rewrite H. vm_compute. reflexivity.
Defined.

(** C22: a control connection comes to rest after at most two steps per line and
    one more.  When every line is NOOP, all are executed and the connection is
    closed.  Otherwise the loop of the master ends with the first other line: one
    more line is taken from the connection and never looked at, and if there are
    further ones the connection's goroutine waits forever and the connection stays
    open. *)
Theorem control_session {W} (core : SystemCore W) stream term (w : W) n c :
  nsteps (control_step RegisterCommand core) n (handleConnectionController stream term w) c →
  let lines := (Scanner_lines stream term).1 in
  n ≤ 2 * length lines + 1 ∧
  ((∀ c', ¬ control_step RegisterCommand core c c') →
   match list_find (λ l, l ≠ "NOOP") lines with
   | None => ct_closed c = true ∧ ct_executed c = controller_event <$> lines
   | Some (i, _) =>
       ct_loop c = false ∧ ct_executed c = controller_event <$> take (S i) lines ∧
       ct_lines c = drop (S (S i)) lines ∧ ct_closed c = bool_decide (length lines ≤ S (S i))
   end).
Proof.
  intros Hn lines. split.
  - apply control_steps_bound in Hn. unfold control_measure at 2 in Hn. cbn in Hn. fold lines in Hn. lia.
  - intros Hrest. apply (control_final core); [|done].
    eapply control_inv_steps; [|by eapply rtc_nsteps; exists n]. split_and!; cbn; try done. unfold chan_cap. lia.
Qed.

(** Three lines, of which the first is unknown: the third is never read. *)
Definition stuck_session : control () :=
  mkControl ["NOOP"] false [controller_event "NOOP"] false [controller_event "status"] tt.

Lemma control_session_witness :
  ct_loop stuck_session = false ∧ ct_lines stuck_session = ["NOOP"] ∧ ct_closed stuck_session = false.
Proof.
  destruct (control_session null_core (chars "status" ++ [newline] ++ chars "NOOP" ++ [newline] ++ chars "NOOP") None tt
    3 stuck_session) as (_ & Hend).
  - eapply nsteps_l; [apply control_send; unfold chan_cap; simpl; lia|].
    eapply nsteps_l; [apply control_exec; vm_compute; reflexivity|].
    apply nsteps_once, control_send. unfold chan_cap. simpl. lia.
  - destruct Hend as (Hl & _ & Hrest & Hc).
    + intros c' Hs. inversion Hs as [? ? ? ? ? ? Hroom| |]; subst. unfold chan_cap in Hroom. simpl in Hroom. lia.
    + split; [exact Hl|]. split; [exact Hrest|exact Hc].
Defined.

(** the older master, started with its listener, hands out only the
    listening socket and never panics, whatever connects; but no run of it registers
    a worker: the registry stays empty and every worker that shook hands stays in
    the state Starting.  Without the listener its start panics. *)
Theorem legacy_registers_nobody tcp file t selects :
  match InitOld tcp file t with
  | Returns m =>
      tcp = None ∧
      let '(r, m') := ListenWorker selects m in
      (∀ e, r ≠ Panics e) ∧ le_conns m' = ∅ ∧
      (∀ peer o, (peer, o) ∈ le_sent m' → o = OTcp) ∧
      Forall (λ w, w_status w = WStarting) (le_workers m')
  | Panics _ => tcp ≠ None
  | Blocks => False
  end.
Proof.
  destruct (InitOld tcp file t) as [m|e|] eqn:Ei.
  - split; [by destruct tcp|]. pose proof (InitOld_ok _ _ _ _ Ei) as Hok.
    destruct (ListenWorker_ok ∅ selects m Hok) as [(_ & Hs & Hw & Hc) Hnp].
    destruct (ListenWorker selects m) as [r m']. split; [done|]. split; [done|]. split; [done|].
    eapply Forall_impl; [exact Hw|]. by intros w [? _].
  - unfold InitOld, MasterAdapter_getFD in Ei. destruct tcp; [done|]. by destruct file.
  - unfold InitOld, MasterAdapter_getFD in Ei. destruct tcp; [done|]. by destruct file.
Qed.
