(* ===== verification/Main.v ===== *)
(** * The program from start to end

    bootstrap/main.go and service.go: an application is created, its context is
    taken before anything can stop it, the signal handler is installed, the
    application is bootstrapped, one command runs, and the service is shut down.
    Also cmd/migration.go with [Migration] of internal/base_app.go. *)

From S2P Require Import Prelude GoStr Hooks Drivers Config Persistence BaseApp Process.

Section program.
Context {W : Type}.

(** What every command of commands.go does before it waits: load the configuration
    without the data sources and start its drivers. *)
Definition run_command (ks : list string) (path : string) (ds : list (IDriver (appcore W))) :
    M (BaseApp W) goerror :=
  _ ← boot_excluding ks path ["b_bootstrap"];
  start_drivers ds.

(** When the process is signalled: never, before the command starts its drivers, or
    while it waits.  The goroutine of ShutdownSignal calls [Stop] then. *)
Inductive signal : Type := NoSignal | SignalEarly | SignalWaiting.

#[global] Instance signal_eq_dec : EqDecision signal.
Proof. solve_decision. Defined.

Definition ShutdownSignal (at_point now : signal) : M (BaseApp W) () :=
  if bool_decide (at_point = now) then BaseApp_Stop else mret tt.

(** The end of a command: the receive on the context's channel returns once the
    context is cancelled. *)
Definition wait_done (sig : signal) : M (BaseApp W) () :=
  ShutdownSignal sig SignalWaiting ≫= λ _,
  done ← BaseApp_Context;
  if (done : bool) then mret tt else block.

Definition command_RunE (body : M (BaseApp W) goerror) (sig : signal) : M (BaseApp W) goerror :=
  err ← body;
  match err with
  | Some e => mret (Some e)
  | None => wait_done sig ≫= λ _, mret None
  end.

(** [Service.Start] up to the registration of the commands. *)
Definition Service_Start (order : Hook (appcore W) BeforeBootstrapped → list string)
    (load : string → outcome Config) (init : Config → M W (DataManager W)) : M (BaseApp W) () :=
  _ ← Bootstrap order load init; mret tt.

(** The select after the command. *)
Definition farewell (err : goerror) : M (BaseApp W) () :=
  done ← BaseApp_Context;
  on_core (Logger_log (if (done : bool) then "Application killed by user (Interrupt)"
                       else match err with
                            | Some _ => "Application finished with error"
                            | None => "Application finished successfully"
                            end)).

(** [runE] is the command's function, told when the signal comes. *)
Definition main (order : Hook (appcore W) BeforeBootstrapped → list string)
    (load : string → outcome Config) (init : Config → M W (DataManager W))
    (runE : signal → M (BaseApp W) goerror) (sig : signal)
    (ks1 : list string) (order2 : Hook (appcore W) CloseEvent → list string) : M (BaseApp W) () :=
  _ ← BaseApp_Context;
  _ ← Service_Start order load init;
  ShutdownSignal sig SignalEarly ≫= λ _,
  err ← runE sig;
  _ ← farewell err;
  Service_Shutdown ks1 order2.

(** ** cmd/migration.go *)

(** golang-migrate. *)
Class Migrate : Type := {
  mg_Up : M W goerror;
  mg_Down : M W goerror;
  mg_Steps : Z → M W goerror;
}.

(** [log.Fatal] ends the process with status 1 and without deferred calls. *)
Inductive exits : Type := Fatal | Continue.

(** [opened] is the first error of the three constructors, if any. *)
Definition BaseApp_Migration (opened : goerror) : M (BaseApp W) exits :=
  data ← on_core (gets a_data);
  match data with
  | None => panic "invalid memory address or nil pointer dereference"
  | Some d =>
      conn ← on_core (on_world (v1_Get d "sql" "default"));
      match type_assert conn "*sql.DB" with
      | None => panic "interface conversion: interface {} is not *sql.DB"
      | Some _ => mret (match opened with Some _ => Fatal | None => Continue end)
      end
  end.

Context `{Migrate}.

(** What follows the construction of the migration. *)
Definition migrate_args (args : list string) : M (BaseApp W) () :=
  match args with
  | [] => panic "index out of range [0] with length 0"
  | cmd :: rest =>
      if bool_decide (cmd = "up") then
        match rest with
        | [] => _ ← on_core (on_world mg_Up); mret tt
        | n :: _ =>
            if bool_decide (n = "") then mret tt
            else match Atoi n with
                 | (_, Some _) => mret tt
                 | (steps, None) => _ ← on_core (on_world (mg_Steps steps)); mret tt
                 end
        end
      else if bool_decide (cmd = "down") then _ ← on_core (on_world mg_Down); mret tt
      else mret tt
  end.

(** The command, with the status the process exits with: the deferred function
    exits with 0 whether the body returns or panics. *)
Definition migration_command (ks : list string) (path : string) (opened : goerror) (args : list string) :
    M (BaseApp W) Z :=
  _ ← boot_all ks path;
  (λ b, match BaseApp_Migration opened b with
       | (Returns Fatal, b') => (Returns 1%Z, b')
       | (Returns Continue, b') =>
           match migrate_args args b' with
           | (Blocks, b'') => (Blocks, b'')
           | (_, b'') => (Returns 0%Z, b'')
           end
       | (Panics _, b') => (Returns 0%Z, b')
       | (Blocks, b') => (Blocks, b')
       end) : M (BaseApp W) Z.

End program.
Arguments Migrate W : clear implicits.

(** ** Drivers under observation

    A driver that records its calls in the world and whose [Init] and [Close]
    answer what they are told. *)
Inductive drv_event : Type := DInit (name : string) | DClose (name : string).

Record probe : Type := mkProbe { pb_name : string; pb_init : goerror; pb_close : goerror }.

Definition record_event (e : drv_event) : M (appcore (list drv_event)) () :=
  on_world (modify (λ w, w ++ [e])).

Definition probe_driver (p : probe) : IDriver (appcore (list drv_event)) :=
  mkIDriver (pb_name p) (record_event (DInit (pb_name p)) ≫= λ _, mret (pb_init p)) (λ _, None)
    (record_event (DClose (pb_name p)) ≫= λ _, mret (pb_close p)).

(** The drivers started before the first that fails, and that failure. *)
Fixpoint started (ps : list probe) : list probe * goerror :=
  match ps with
  | [] => ([], None)
  | p :: ps' => match pb_init p with
                | Some e => ([], Some (Wrap "failed to initialize driver %q: %w" [pb_name p] e))
                | None => let '(l, e) := started ps' in (p :: l, e)
                end
  end.

(** The drivers whose [Init] is called. *)
Definition attempted (ps : list probe) : list probe := take (S (length (started ps).1)) ps.

(** ** Lemmas *)

Abbreviation papp := (BaseApp (list drv_event)).

Definition add_world (l : list drv_event) (c : appcore (list drv_event)) : appcore (list drv_event) :=
  mkCore (a_config c) (a_data c) (a_log c) (a_ctx c) (a_world c ++ l).

Definition set_manager (m : Manager (appcore (list drv_event))) (b : papp) : papp :=
  mkBaseApp (ba_mu b) (ba_core b) (ba_before b) (ba_stop b) (ba_after b) (ba_driver b) (Some m).

Definition manager_of (b : papp) : Manager (appcore (list drv_event)) := default NewManagerV2 (ba_driverv2 b).

Lemma DriverV2_eq (b : papp) : ba_mu b = true → DriverV2 b = (Returns (manager_of b), set_manager (manager_of b) b).
Proof.
  intros Hmu. destruct b as [mu c bf st af dr [m|]]; cbn in Hmu; subst; reflexivity.
Qed.

Lemma run_driver_probe p (b : papp) :
  ba_mu b = true →
  ∃ b', run_driver (probe_driver p) b = (Returns (started [p]).2, b') ∧
    v2_drivers (manager_of b') = v2_drivers (manager_of b) ++ (probe_driver <$> (started [p]).1) ∧
    ba_core b' = add_world [DInit (pb_name p)] (ba_core b) ∧
    ba_mu b' = ba_mu b ∧ ba_stop b' = ba_stop b.
Proof.
  intros Hmu. unfold run_driver. rewrite M_bind_eq, DriverV2_eq by done. unfold Manager_RunDriver.
  cbn [ba_core set_manager started]. rewrite M_bind_eq. unfold on_snd. cbn [drv_Init probe_driver].
  rewrite M_bind_eq. destruct p as [n [e|] cl]; cbn.
  - eexists. split; [reflexivity|]. by rewrite app_nil_r.
  - eexists. split; [reflexivity|]. done.
Qed.

(** Starting the drivers: every call is made up to the first failure. *)
Lemma start_drivers_probes ps (b : papp) :
  ba_mu b = true →
  ∃ b', start_drivers (probe_driver <$> ps) b = (Returns (started ps).2, b') ∧
    v2_drivers (manager_of b') = v2_drivers (manager_of b) ++ (probe_driver <$> (started ps).1) ∧
    ba_core b' = add_world ((λ p, DInit (pb_name p)) <$> attempted ps) (ba_core b) ∧
    ba_mu b' = ba_mu b ∧ ba_stop b' = ba_stop b.
Proof.
  revert b. induction ps as [|p ps IH]; intros b Hmu.
  { exists b. split; [reflexivity|]. cbn. rewrite app_nil_r. split; [done|]. split; [|done].
    unfold add_world. rewrite app_nil_r. by destruct (ba_core b). }
  unfold start_drivers. rewrite fmap_cons. cbn [for_until_err]. rewrite M_bind_eq.
  destruct (run_driver_probe p b Hmu) as (b1 & -> & Hm1 & Hc1 & Hmu1 & Hst1).
  unfold attempted. cbn [started] in *. destruct (pb_init p) as [e|].
  - exists b1. by rewrite Hc1.
  - cbn [snd]. destruct (IH b1) as (b2 & Hrun & Hm2 & Hc2 & Hmu2 & Hst2); [congruence|].
    unfold start_drivers in Hrun. rewrite Hrun. exists b2. unfold attempted in Hc2.
    destruct (started ps) as [l e]. cbn [fst snd length take fmap list_fmap] in *.
    rewrite Hm2, Hm1, Hc2, Hc1, Hmu2, Hst2. split; [done|]. split; [by rewrite <- app_assoc|].
    split; [|done]. unfold add_world. cbn. by rewrite <- app_assoc.
Qed.

(** The lines that failing closes log. *)
Definition close_errors (ps : list probe) : list string :=
  omap (λ p, match pb_close p with Some _ => Some "Error closing driver" | None => None end) ps.

Lemma close_loop_probes ps errs (m : Manager (appcore (list drv_event))) c :
  ∃ es, close_loop (λ _ _, Logger_log "Error closing driver") (probe_driver <$> ps) errs (m, c) =
    (Returns es, (m, add_logs (close_errors ps) (add_world ((λ p, DClose (pb_name p)) <$> ps) c))).
Proof.
  revert errs c. induction ps as [|p ps IH]; intros errs c.
  { exists errs. cbn. unfold add_logs, add_world. cbn. rewrite !app_nil_r. by destruct c. }
  rewrite fmap_cons. cbn [close_loop]. rewrite M_bind_eq. unfold on_snd at 1. cbn [drv_Close probe_driver].
  rewrite M_bind_eq. unfold close_errors. destruct p as [n i [e|]]; cbn [fmap list_fmap omap list_omap pb_close pb_name].
  - cbn -[close_loop]. rewrite M_bind_eq. cbn -[close_loop].
    destruct (IH (errs ++ [Some (Wrap "driver %q: %w" [n] e)])
      (add_logs ["Error closing driver"] (add_world [DClose n] c))) as (es & Hrun).
    exists es. unfold add_logs, add_world in Hrun |- *. cbn -[close_loop] in Hrun |- *.
    rewrite Hrun, <- !app_assoc. done.
  - cbn -[close_loop]. destruct (IH errs (add_world [DClose n] c)) as (es & Hrun).
    exists es. unfold add_logs, add_world in Hrun |- *. cbn -[close_loop] in Hrun |- *.
    rewrite Hrun, <- !app_assoc. done.
Qed.

Lemma close_drivers_probes ps (b : papp) :
  ba_mu b = true → v2_drivers (manager_of b) = probe_driver <$> ps →
  ∃ e b', close_drivers b = (Returns e, b') ∧ ba_driverv2 b' = Some (mkManager []) ∧
    ba_core b' = add_logs (close_errors ps) (add_world ((λ p, DClose (pb_name p)) <$> ps) (ba_core b)) ∧
    ba_mu b' = ba_mu b ∧ ba_stop b' = ba_stop b.
Proof.
  intros Hmu Hm. unfold close_drivers. rewrite M_bind_eq, DriverV2_eq by done. unfold Manager_CloseAllDriver.
  rewrite M_bind_eq. unfold gets at 1. cbn [fst ba_core set_manager]. rewrite Hm, M_bind_eq.
  destruct (close_loop_probes ps [] (manager_of b) (ba_core b)) as (es & ->).
  do 2 eexists. split; [reflexivity|]. done.
Qed.

(** ** Properties *)

Lemma Context_eq {W} (b : BaseApp W) x :
  ba_mu b = true → a_ctx (ba_core b) = Some x → BaseApp_Context b = (Returns x, b).
Proof.
  intros Hmu Hc. unfold BaseApp_Context, lock. rewrite M_bind_eq, Hmu, M_bind_eq. unfold gets. cbn [id]. by rewrite Hc.
Qed.

Lemma Hook_New_lookup {St P} k : handlers (Hook_New (St := St) (Param := P)) !! k = None.
Proof. apply lookup_empty. Qed.

Lemma stop_Execute_none {W} (b : BaseApp W) ks :
  ba_mu b = true → ba_stop b = None →
  stop_Execute ks b = (Returns (Some ErrHandlerNotRegistered), set_stop Hook_New b).
Proof. intros Hmu Hs. destruct b as [mu c bf st af dr v2]. cbn in Hmu, Hs. by subst. Qed.

(** The last part of the program, on an application without stop handlers. *)
Lemma finish_probes ps (b : papp) err x ks1 order2 :
  ba_mu b = true → ba_stop b = None → a_data (ba_core b) = None → a_ctx (ba_core b) = Some x →
  v2_drivers (manager_of b) = probe_driver <$> ps → (∀ h', range_order (handlers h') (order2 h')) →
  ∃ b' tl, (_ ← farewell err; Service_Shutdown ks1 order2) b = (Returns tt, b') ∧
    a_world (ba_core b') = a_world (ba_core b) ++ ((λ p, DClose (pb_name p)) <$> ps) ∧
    ba_driverv2 b' = Some (mkManager []) ∧ a_ctx (ba_core b') = Some x ∧
    a_log (ba_core b') = a_log (ba_core b) ++
      (if x then "Application killed by user (Interrupt)"
       else match err with Some _ => "Application finished with error"
                         | None => "Application finished successfully" end) :: close_errors ps ++ tl ∧
    tl ≡ₚ ["skip closing driver"; "Application Stopped, ciao !"].
Proof.
  intros Hmu Hs Hd Hc Hm Hord. rewrite M_bind_eq. unfold farewell. rewrite M_bind_eq, (Context_eq b x) by done.
  unfold on_core at 1, Logger_log at 1, modify at 1. set (line := if x then _ else _). set (b1 := set_core _ b).
  unfold Service_Shutdown. rewrite M_bind_eq, stop_Execute_none, M_bind_eq by done.
  destruct (close_drivers_probes ps (set_stop Hook_New b1)) as (e & b2 & -> & Hm2 & Hc2 & Hmu2 & Hs2); [done..|].
  destruct (BaseApp_Shutdown_logging b2 Hook_New order2) as (b' & ks & Hrun & Hnd & Hel & Hl & Hw & Hx & Hdr).
  - by rewrite Hmu2.
  - by rewrite Hs2.
  - by rewrite Hc2.
  - intros k f Hf. by rewrite Hook_New_lookup in Hf.
  - done.
  - rewrite M_bind_eq, Hrun. exists b', (final_line <$> ks). rewrite Hw, Hx, Hdr, Hl, Hc2, Hm2. cbn.
    rewrite <- app_assoc, <- app_assoc. split_and!; [done..|].
    change (["skip closing driver"; "Application Stopped, ciao !"]) with
      (final_line <$> ["close_connection_db"; "print_log"]).
    apply fmap_Permutation, NoDup_Permutation; [done|by apply (bool_decide_unpack _); vm_compute|].
    intros k. rewrite Hel, Hook_New_lookup.
    split; [intros [[? ?]|[->| ->]]; [done|right; left|left]|set_solver].
Qed.

(** The wait returns exactly when the context is or becomes cancelled. *)
Lemma wait_done_eq {W} (b : BaseApp W) sig x :
  ba_mu b = true → a_ctx (ba_core b) = Some x →
  let b' := if bool_decide (sig = SignalWaiting) then set_core (set_ctx true (ba_core b)) b else b in
  wait_done sig b = if x || bool_decide (sig = SignalWaiting) then (Returns tt, b') else (Blocks, b').
Proof.
  intros Hmu Hc. unfold wait_done, ShutdownSignal. rewrite M_bind_eq. case_bool_decide; cbv zeta.
  - unfold BaseApp_Stop, modify. rewrite Hc, M_bind_eq, (Context_eq _ true) by done. by rewrite orb_true_r.
  - rewrite M_ret_eq, M_bind_eq, (Context_eq _ x) by done. by destruct x.
Qed.

(** The application when its command begins. *)
Definition ready_app (load : string → outcome Config) (init : Config → M (list drv_event) (DataManager (list drv_event)))
    (sig : signal) : papp :=
  mkBaseApp true (mkCore None None [] (Some (bool_decide (sig = SignalEarly))) []) (Some Hook_New) None
    (Some (boot_hook load init)) None None.

Lemma start_eq {A} order load init sig (k : M papp A) :
  (_ ← BaseApp_Context; _ ← Service_Start order load init; ShutdownSignal sig SignalEarly ≫= λ _, k)
    (NewBaseApp []) = k (ready_app load init sig).
Proof. by destruct sig. Qed.

(** C32: the program with any drivers, configuration and range orders.  Unless no
    signal comes and all drivers start, it returns; the drivers are initialised in
    order up to the first that fails, exactly the initialised ones are closed, each
    once and in the order of their start, and the stop handlers run at the end.
    With no signal and all drivers started it waits for ever. *)
Theorem main_closes_what_it_started order load init ks path cfg ps sig ks1 order2 :
  ks ≡ₚ ["a_load_cfg"; "b_bootstrap"] → load path = Returns cfg →
  (∀ h', range_order (handlers h') (order2 h')) →
  let ran := main order load init (command_RunE (run_command ks path (probe_driver <$> ps))) sig ks1 order2 (NewBaseApp []) in
  let e := (started ps).2 in
  if bool_decide (sig = NoSignal ∧ e = None) then ran.1 = Blocks
  else ∃ b tl, ran = (Returns tt, b) ∧
    a_world (ba_core b) = ((λ p, DInit (pb_name p)) <$> attempted ps) ++
                          ((λ p, DClose (pb_name p)) <$> (started ps).1) ∧
    ba_driverv2 b = Some (mkManager []) ∧
    a_log (ba_core b) =
      (if bool_decide (sig = SignalEarly ∨ e = None)
       then "Application killed by user (Interrupt)" else "Application finished with error") ::
      close_errors (started ps).1 ++ tl ∧
    tl ≡ₚ ["skip closing driver"; "Application Stopped, ciao !"].
Proof.
  intros Hks Hload Hord ran e. subst ran e. unfold main. rewrite start_eq, M_bind_eq.
  unfold command_RunE. rewrite M_bind_eq. unfold run_command.
  rewrite (boot_excluding_ready load init), Hload by done. set (b0 := set_core _ _).
  destruct (start_drivers_probes ps b0) as (b1 & -> & Hm & Hc & Hmu & Hs); [done|].
  assert (a_ctx (ba_core b1) = Some (bool_decide (sig = SignalEarly))) as Hx by (by rewrite Hc).
  destruct (started ps) as [l [e|]] eqn:El; cbn [fst snd] in *.
  - rewrite bool_decide_false by (by intros [? ?]).
    destruct (finish_probes l b1 (Some e) (bool_decide (sig = SignalEarly)) ks1 order2)
      as (b & tl & Hf & Hw & Hd & _ & Hlog & Hp);
      [by rewrite Hmu|by rewrite Hs|by rewrite Hc|exact Hx|exact Hm|done|].
    exists b, tl. rewrite M_ret_eq, Hf, Hw, Hlog, Hc. split_and!; try done. cbn. f_equal.
    rewrite (bool_decide_ext (sig = SignalEarly ∨ Some e = None) (sig = SignalEarly)) by naive_solver.
    by case_bool_decide.
  - rewrite M_bind_eq, (wait_done_eq b1 sig (bool_decide (sig = SignalEarly))) by (done || by rewrite Hmu).
    set (b2 := if bool_decide (sig = SignalWaiting) then _ else b1).
    destruct (decide (sig = NoSignal)) as [->|Hsig].
    { rewrite bool_decide_true by done. done. }
    rewrite bool_decide_false by tauto.
    assert (bool_decide (sig = SignalEarly) || bool_decide (sig = SignalWaiting) = true) as -> by (by destruct sig).
    assert (ba_mu b2 = true ∧ ba_stop b2 = None ∧ a_data (ba_core b2) = None ∧ a_ctx (ba_core b2) = Some true ∧
      manager_of b2 = manager_of b1 ∧ a_world (ba_core b2) = a_world (ba_core b1) ∧
      a_log (ba_core b2) = []) as (H1 & H2 & H3 & H4 & H5 & H6 & H7).
    { unfold b2. destruct (decide (sig = SignalWaiting)) as [Hb|Hb];
        [rewrite !(bool_decide_true (sig = SignalWaiting)) by done|rewrite !(bool_decide_false (sig = SignalWaiting)) by done];
        cbn; rewrite ?Hx, ?Hmu, ?Hs, ?Hc; split_and!; try done. by destruct sig. }
    destruct (finish_probes l b2 None true ks1 order2 H1 H2 H3 H4) as (b & tl & Hf & Hw & Hd & _ & Hlog & Hp);
      [by rewrite H5|done|].
    exists b, tl. rewrite M_ret_eq, Hf, Hw, Hlog, H6, H7, Hc. rewrite bool_decide_true by tauto. done.
Qed.

Lemma main_closes_what_it_started_witness :
  ∃ b tl, main (λ _, []) (λ _, Returns demo_config) (λ _, panic "not reached")
      (command_RunE (run_command ["b_bootstrap"; "a_load_cfg"] "config.yaml"
         (probe_driver <$> [mkProbe "MasterAdapter" None None;
                            mkProbe "ECHO_ADAPTER" (Some ErrHandlerNotRegistered) None])))
      NoSignal [] visit (NewBaseApp []) = (Returns tt, b) ∧
    a_world (ba_core b) = [DInit "MasterAdapter"; DInit "ECHO_ADAPTER"; DClose "MasterAdapter"] ∧
    a_log (ba_core b) = "Application finished with error" :: tl.
Proof.
  destruct (main_closes_what_it_started (λ _, []) (λ _, Returns demo_config) (λ _, panic "not reached")
    ["b_bootstrap"; "a_load_cfg"] "config.yaml" demo_config
    [mkProbe "MasterAdapter" None None; mkProbe "ECHO_ADAPTER" (Some ErrHandlerNotRegistered) None]
    NoSignal [] visit) as (b & tl & Hr & Hw & _ & Hl & _).
  - constructor.
  - reflexivity.
  - intros h'. apply range_order_canonical.
  - exists b, tl. split; [exact Hr|]. split; [exact Hw|exact Hl].
Defined.

(** *** Commands that open the data sources *)

(** A data manager under observation. *)
Definition probe_data : DataManager (list drv_event) :=
  mkDataManager {["sql" := mkDataAdapter (λ _, mret tt) (λ _, mret None)
                             (λ _, modify (λ w, w ++ [DClose "sql"]))]}.

Definition probe_init (cfg : Config) : M (list drv_event) (DataManager (list drv_event)) :=
  modify (λ w, w ++ [DInit "sql"]) ≫= λ _, mret probe_data.

Definition boot_log : list string := ["Bootstrapping Application..."; "Application Bootstrapped"].

(** Both handlers of the hook, in either order, leave the same application. *)
Lemma boot_all_ready load (b : papp) ks path cfg :
  ks ≡ₚ ["a_load_cfg"; "b_bootstrap"] → ba_mu b = true → ba_after b = Some (boot_hook load probe_init) →
  load path = Returns cfg →
  boot_all ks path b = (Returns None, set_core (mkCore (Some cfg) (Some probe_data) (a_log (ba_core b) ++ boot_log)
                          (a_ctx (ba_core b)) (a_world (ba_core b) ++ [DInit "sql"])) b).
Proof.
  intros Hks Hmu Haft Hload.
  assert (handlers (boot_hook load probe_init) !! "a_load_cfg" = Some (a_load_cfg load)) as Ha.
  { unfold boot_hook. cbn [handlers]. by rewrite lookup_insert_ne, lookup_insert_eq. }
  assert (handlers (boot_hook load probe_init) !! "b_bootstrap" = Some (b_bootstrap load probe_init)) as Hb.
  { unfold boot_hook. cbn [handlers]. by rewrite lookup_insert_eq. }
  assert (OnAfterApplicationBootstrapped b = (Returns (boot_hook load probe_init), b)) as Hon.
  { unfold OnAfterApplicationBootstrapped, lock. rewrite M_bind_eq, Hmu, M_bind_eq. unfold gets. cbn [id]. by rewrite Haft. }
  unfold boot_all. rewrite M_bind_eq, Hon. unfold on_core, Hook_Execute.
  rewrite bool_decide_false by
    (unfold boot_hook; cbn [handlers]; rewrite !map_size_insert_None by (by simplify_map_eq); rewrite map_size_empty; lia).
  assert (∀ c, b_bootstrap load probe_init (after_event path) c = (Returns None,
    mkCore (Some cfg) (Some probe_data) (a_log c ++ boot_log) (a_ctx c) (a_world c ++ [DInit "sql"]))) as Hboot.
  { intros c. unfold b_bootstrap. by rewrite Hload. }
  assert (∀ c : appcore (list drv_event), a_load_cfg load (after_event path) c = (Returns None, set_config cfg c)) as Hld.
  { intros c. unfold a_load_cfg. by rewrite Hload. }
  symmetry in Hks. apply Permutation_length_2_inv in Hks as [-> | ->]; cbn [for_until_err].
  - by rewrite M_bind_eq, (ExecuteOnly_Some _ _ _ _ _ Ha), Hld, M_bind_eq, (ExecuteOnly_Some _ _ _ _ _ Hb), Hboot.
  - by rewrite M_bind_eq, (ExecuteOnly_Some _ _ _ _ _ Hb), Hboot, M_bind_eq, (ExecuteOnly_Some _ _ _ _ _ Ha), Hld.
Qed.

(** The last hooks on an application whose data manager is under observation. *)
Lemma BaseApp_Shutdown_probe (b : papp) (order2 : Hook (appcore (list drv_event)) CloseEvent → list string) :
  ba_mu b = true → ba_stop b = Some Hook_New → a_data (ba_core b) = Some probe_data →
  (∀ h', range_order (handlers h') (order2 h')) →
  ∃ b', BaseApp_Shutdown order2 b = (Returns None, b') ∧ ba_driverv2 b' = ba_driverv2 b ∧
    ba_core b' = add_logs ["Application Stopped, ciao !"] (add_world [DClose "sql"] (ba_core b)).
Proof.
  intros Hmu Hs Hd Hord. unfold BaseApp_Shutdown.
  rewrite M_bind_eq, (stop_Add_fresh b Hook_New) by (done || apply Hook_New_lookup).
  set (h1 := mkHook _). rewrite M_bind_eq, (stop_Add_fresh (set_stop h1 b) h1); try done.
  set (h2 := mkHook _). set (b2 := set_stop h2 _).
  rewrite M_bind_eq, (stop_hook_eq b2 h2), M_bind_eq by done. unfold stop_Execute.
  rewrite M_bind_eq, (stop_hook_eq b2 h2) by done. unfold on_core, Hook_Execute.
  assert (handlers h2 !! "close_connection_db" = Some close_connection_db) as Hc.
  { unfold h2, h1. cbn [handlers]. by rewrite lookup_insert_ne, lookup_insert_eq. }
  assert (handlers h2 !! "print_log" = Some print_log) as Hp.
  { unfold h2. cbn [handlers]. by rewrite lookup_insert_eq. }
  assert (["close_connection_db"; "print_log"] ≡ₚ order2 h2) as Hperm.
  { apply NoDup_Permutation; [by apply (bool_decide_unpack _); vm_compute|by eapply range_order_NoDup|].
    intros k. rewrite (range_order_elem _ _ _ (Hord h2)), elem_of_cons, list_elem_of_singleton. split.
    - intros [-> | ->]; eauto.
    - unfold h2, h1. cbn [handlers]. rewrite !lookup_insert_is_Some.
      intros [<-|[_ [<-|[_ [? H]]]]]; [by right|by left|]. by rewrite Hook_New_lookup in H. }
  assert (∀ c, a_data c = Some probe_data →
    close_connection_db close_event c = (Returns None, add_world [DClose "sql"] c)) as Hcl.
  { intros c Hdc. unfold close_connection_db. rewrite M_bind_eq. unfold gets. by rewrite Hdc. }
  rewrite bool_decide_false by (rewrite <- (range_order_length _ _ (Hord h2)), <- Hperm; simpl; lia).
  apply Permutation_length_2_inv in Hperm as [-> | ->]; cbn [for_until_err].
  - rewrite M_bind_eq, (ExecuteOnly_Some _ _ _ _ _ Hc), Hcl, M_bind_eq, (ExecuteOnly_Some _ _ _ _ _ Hp) by done.
    by eexists.
  - rewrite M_bind_eq, (ExecuteOnly_Some _ _ _ _ _ Hp). unfold print_log, Logger_log at 1, modify at 1.
    rewrite M_bind_eq. cbn [fst snd]. rewrite M_ret_eq, M_bind_eq, (ExecuteOnly_Some _ _ _ _ _ Hc), Hcl by done.
    by eexists.
Qed.

Lemma finish_with_data ps (b : papp) err x ks1 order2 :
  ba_mu b = true → ba_stop b = None → a_data (ba_core b) = Some probe_data → a_ctx (ba_core b) = Some x →
  v2_drivers (manager_of b) = probe_driver <$> ps → (∀ h', range_order (handlers h') (order2 h')) →
  ∃ b', (_ ← farewell err; Service_Shutdown ks1 order2) b = (Returns tt, b') ∧
    a_world (ba_core b') = a_world (ba_core b) ++ ((λ p, DClose (pb_name p)) <$> ps) ++ [DClose "sql"] ∧
    ba_driverv2 b' = Some (mkManager []) ∧
    a_log (ba_core b') = a_log (ba_core b) ++
      (if x then "Application killed by user (Interrupt)"
       else match err with Some _ => "Application finished with error"
                         | None => "Application finished successfully" end) ::
      close_errors ps ++ ["Application Stopped, ciao !"].
Proof.
  intros Hmu Hs Hd Hc Hm Hord. rewrite M_bind_eq. unfold farewell. rewrite M_bind_eq, (Context_eq b x) by done.
  unfold on_core at 1, Logger_log at 1, modify at 1. set (line := if x then _ else _). set (b1 := set_core _ b).
  unfold Service_Shutdown. rewrite M_bind_eq, stop_Execute_none, M_bind_eq by done.
  destruct (close_drivers_probes ps (set_stop Hook_New b1)) as (e & b2 & -> & Hm2 & Hc2 & Hmu2 & Hs2); [done..|].
  destruct (BaseApp_Shutdown_probe b2 order2) as (b' & Hrun & Hdr & Hc');
    [by rewrite Hmu2|done|by rewrite Hc2|done|].
  rewrite M_bind_eq, Hrun. exists b'. rewrite Hdr, Hm2, Hc', Hc2. cbn. by rewrite <- !app_assoc.
Qed.

(** the http command does not wait for its context, so the program with
    it ends at once, whatever the signals: the data sources are opened, the server
    is started, and both are closed again.  Only a server that cannot be initialised
    is not closed; its error is dropped and the program reports success. *)
Theorem http_program_stops_at_once order load ks path cfg p sig ks1 order2 :
  ks ≡ₚ ["a_load_cfg"; "b_bootstrap"] → load path = Returns cfg →
  (∀ h', range_order (handlers h') (order2 h')) →
  ∃ b, main order load probe_init (λ _, http_command ks path (probe_driver p)) sig ks1 order2 (NewBaseApp []) =
         (Returns tt, b) ∧
    a_world (ba_core b) = [DInit "sql"; DInit (pb_name p)] ++
      (match pb_init p with None => [DClose (pb_name p)] | Some _ => [] end) ++ [DClose "sql"] ∧
    a_log (ba_core b) = boot_log ++
      (if bool_decide (sig = SignalEarly) then "Application killed by user (Interrupt)"
       else "Application finished successfully") ::
      close_errors (started [p]).1 ++ ["Application Stopped, ciao !"].
Proof.
  intros Hks Hload Hord. unfold main. rewrite start_eq, M_bind_eq. unfold http_command.
  rewrite M_bind_eq, (boot_all_ready load _ ks path cfg) by done. set (b0 := set_core _ _).
  rewrite M_bind_eq. destruct (run_driver_probe p b0) as (b1 & -> & Hm & Hc & Hmu & Hs); [done|].
  rewrite M_ret_eq.
  destruct (finish_with_data (started [p]).1 b1 None (bool_decide (sig = SignalEarly)) ks1 order2)
    as (b & Hf & Hw & _ & Hl); [by rewrite Hmu|by rewrite Hs|by rewrite Hc|by rewrite Hc|exact Hm|done|].
  exists b. rewrite Hf, Hw, Hl, Hc. split; [done|]. cbn. by destruct (pb_init p).
Qed.

Lemma http_program_stops_at_once_witness :
  ∃ b, main (λ _, []) (λ _, Returns demo_config) probe_init
         (λ _, http_command ["b_bootstrap"; "a_load_cfg"] "" (probe_driver (mkProbe "ECHO_ADAPTER" None None)))
         NoSignal [] visit (NewBaseApp []) = (Returns tt, b) ∧
    a_world (ba_core b) = [DInit "sql"; DInit "ECHO_ADAPTER"; DClose "ECHO_ADAPTER"; DClose "sql"].
Proof.
  destruct (http_program_stops_at_once (λ _, []) (λ _, Returns demo_config) ["b_bootstrap"; "a_load_cfg"] ""
    demo_config (mkProbe "ECHO_ADAPTER" None None) NoSignal [] visit) as (b & Hr & Hw & _).
  - constructor.
  - reflexivity.
  - intros h'. apply range_order_canonical.
  - exists b. split; [exact Hr|exact Hw].
Defined.

Lemma commands_run_command {W} ks path (master echo worker : IDriver (appcore W)) :
  master_command ks path master echo = run_command ks path [master; echo] ∧
  worker_command ks path worker = run_command ks path [worker].
Proof. done. Qed.

(** The migration's operations return or panic. *)
Definition migrate_ends {W} `{Migrate W} : Prop :=
  ∀ w : W, (mg_Up w).1 ≠ Blocks ∧ (mg_Down w).1 ≠ Blocks ∧ ∀ n, (mg_Steps n w).1 ≠ Blocks.

Lemma on_world_ends {W} (op : M W goerror) (b : BaseApp W) :
  (op (a_world (ba_core b))).1 ≠ Blocks → ((_ ← on_core (on_world op); mret tt) b).1 ≠ Blocks.
Proof.
  intros Hop. rewrite M_bind_eq. unfold on_core, on_world.
  by destruct (op (a_world (ba_core b))) as [[e|msg|] w'].
Qed.

Lemma migrate_args_ends {W} `{Migrate W} args (b : BaseApp W) :
  migrate_ends → (migrate_args args b).1 ≠ Blocks.
Proof.
  intros He. destruct (He (a_world (ba_core b))) as (Hu & Hd & Hn). destruct args as [|cmd rest]; [done|].
  cbn [migrate_args]. case_bool_decide; [|case_bool_decide; [by apply on_world_ends|done]].
  destruct rest as [|n rest]; [by apply on_world_ends|]. case_bool_decide; [done|].
  destruct (Atoi n) as [steps [e|]]; [done|by apply on_world_ends].
Qed.

(** once the hooks have run and the migration is constructed, the
    command exits with status 0 whatever it was asked for and however the migration
    fails, and also when there is no data source or no argument, where the body
    panics. *)
Theorem migration_exits_zero {W} `{Migrate W} ks path args (b b1 : BaseApp W) e :
  migrate_ends → boot_all ks path b = (Returns e, b1) →
  (∀ d, a_data (ba_core b1) = Some d → (v1_Get d "sql" "default" (a_world (ba_core b1))).1 ≠ Blocks) →
  (migration_command ks path None args b).1 = Returns 0%Z.
Proof.
  intros He Hboot Hget. unfold migration_command. rewrite M_bind_eq, Hboot.
  unfold BaseApp_Migration. rewrite M_bind_eq. unfold on_core at 1, gets. cbn [fst snd].
  destruct (a_data (ba_core b1)) as [d|] eqn:Ed; [|done]. specialize (Hget d eq_refl).
  rewrite M_bind_eq. unfold on_core at 1, on_world at 1. cbn [ba_core set_core].
  destruct (v1_Get d "sql" "default" (a_world (ba_core b1))) as [[conn|msg|] w] eqn:Eg; [|done..].
  destruct (type_assert conn "*sql.DB"); [|done]. rewrite M_ret_eq.
  set (b2 := set_core _ _). pose proof (migrate_args_ends args b2 He) as Hend.
  by destruct (migrate_args args b2) as [[|msg'|] b3].
Qed.

(** A migration that fails. *)
#[local] Instance failing_migrate : Migrate () :=
  {| mg_Up := mret (Some (Foreign "migrate" "Dirty database version 3. Fix and force version."));
     mg_Down := panic "no change"; mg_Steps _ := mret None |}.

Definition one_db : DataManager () :=
  mkDataManager {["sql" := mkDataAdapter (λ _, mret tt) (λ _, mret (Some (mkDyn "*sql.DB" (Some 1)))) (λ _, mret tt)]}.

Definition migration_app : BaseApp () := booted (λ _, Returns demo_config) (λ _, mret one_db) tt.

Lemma migration_exits_zero_witness :
  (migration_command ["a_load_cfg"; "b_bootstrap"] "" None ["up"] migration_app).1 = Returns 0%Z.
Proof.
  eapply (migration_exits_zero ["a_load_cfg"; "b_bootstrap"] "" ["up"] migration_app).
  - intros w. done.
  - vm_compute. reflexivity.
  - intros d [= <-]. vm_compute. discriminate.
Defined.
