(* ===== verification/Models.v ===== *)
(** * gorm/models/base_model.go: deletion times and identifiers

    [CustomDeletedAt] wraps a nullable time.  A time is its distance to the Unix
    epoch in nanoseconds; the JSON form keeps whole milliseconds.  Before a row is
    created its identifier is drawn from the clock; the ULID package is a parameter. *)

From S2P Require Import Prelude GoStr.

Record CustomDeletedAt : Type := mkDeletedAt { dl_Time : Z; dl_Valid : bool }.

(** [t.UnixMilli()] rounds down, and wraps as int64 does. *)
Definition UnixMilli (t : Z) : Z := wrap64 (t / 1000000)%Z.

(** [time.UnixMilli(ms)] *)
Definition from_UnixMilli (ms : Z) : Z := (ms * 1000000)%Z.

Definition DeletedAt_MarshalJSON (d : CustomDeletedAt) : string * goerror :=
  if dl_Valid d then (Itoa (UnixMilli (dl_Time d)), None) else ("null", None).

(** [strconv.ParseInt(s, 10, 64)] accepts what [Atoi] does on a 64-bit platform. *)
Definition DeletedAt_UnmarshalJSON (b : string) (d : CustomDeletedAt) : CustomDeletedAt * goerror :=
  if bool_decide (b = "null") then (mkDeletedAt (dl_Time d) false, None)
  else match Atoi b with
       | (ts, None) => (mkDeletedAt (from_UnixMilli ts) true, None)
       | (_, Some _) => (d, Some (Foreign "strconv.NumError" "parsing"))
       end.

Record BaseModel : Type := mkBase {
  bm_ID : string;
  bm_CreatedAt : Z;
  bm_Created : Z;
  bm_Updated : Z;
  bm_DeletedAt : CustomDeletedAt;
}.

(** [ulid_New ms seed] is [ulid.New] with a generator seeded by [seed], from which
    everything it yields follows; the two arguments are the readings of the clock. *)
Definition BeforeCreate (ulid_New : Z → Z → string + error) (now1 now2 : Z) (b : BaseModel) : BaseModel * goerror :=
  let seed := wrap64 now1 in
  let ms := (now2 / 1000000)%Z in
  match ulid_New ms seed with
  | inr e => (b, Some e)
  | inl id => (mkBase id (bm_CreatedAt b) (bm_Created b) (bm_Updated b) (bm_DeletedAt b), None)
  end.

Lemma Itoa_not_null z : Itoa z ≠ "null".
Proof.
  intros Hn. pose proof (Itoa_chars_shape z) as Hall. rewrite Hn in Hall.
  apply Forall_cons_1 in Hall as [[Hc|(d & Hc & Hd)] _]; [done|]. apply (f_equal code) in Hc. rewrite code_digit in Hc by done. change (code _) with 110%Z in Hc at 1. lia.
Qed.

(** Marshalling and unmarshalling a deletion time, into any previous
    value: validity is kept, and a valid time becomes the start of its millisecond,
    at most one millisecond earlier; an invalid one leaves the previous time in place.
    Marshalling the result again gives the same text. *)
Theorem deleted_at_roundtrip d d0 :
  is_int (dl_Time d / 1000000) →
  ∃ d', DeletedAt_UnmarshalJSON (DeletedAt_MarshalJSON d).1 d0 = (d', None) ∧
    dl_Valid d' = dl_Valid d ∧
    (dl_Valid d = true → dl_Time d - 1000000 < dl_Time d' ≤ dl_Time d)%Z ∧
    (dl_Valid d = false → dl_Time d' = dl_Time d0) ∧
    DeletedAt_MarshalJSON d' = DeletedAt_MarshalJSON d.
Proof.
  intros Hint. unfold DeletedAt_MarshalJSON, DeletedAt_UnmarshalJSON, UnixMilli, from_UnixMilli.
  destruct (dl_Valid d); cbn [fst].
  - rewrite bool_decide_false by apply Itoa_not_null. rewrite wrap64_id, Atoi_Itoa by done.
    eexists. split; [reflexivity|]. cbn [dl_Valid dl_Time]. split; [done|].
    rewrite Z.div_mul, wrap64_id by (done || lia).
    split; [intros _|done]. pose proof (Z.div_mod (dl_Time d) 1000000). pose proof (Z.mod_pos_bound (dl_Time d) 1000000). lia.
  - rewrite bool_decide_true by done. by eexists.
Qed.

Lemma deleted_at_roundtrip_witness :
  ∃ d', DeletedAt_UnmarshalJSON (DeletedAt_MarshalJSON (mkDeletedAt 1700000000123456789 true)).1 (mkDeletedAt 0 false) = (d', None) ∧
    dl_Valid d' = true.
Proof.
  destruct (deleted_at_roundtrip (mkDeletedAt 1700000000123456789 true) (mkDeletedAt 0 false)) as (d' & Hr & Hv & _).
  - split; vm_compute; discriminate.
  - exists d'. split; [exact Hr|exact Hv].
Defined.

(** The hook of a row changes only its identifier, and that only when it succeeds; an
    identifier that was set is overwritten.  Two rows created at the same reading of
    the clock, the second one up to a millisecond, fail together or get the same
    identifier, whatever they hold. *)
Theorem BeforeCreate_spec ulid_New now1 now2 now2' b1 b2 :
  let r1 := BeforeCreate ulid_New now1 now2 b1 in
  let r2 := BeforeCreate ulid_New now1 now2' b2 in
  (r1.2 ≠ None → r1.1 = b1) ∧
  (bm_CreatedAt r1.1, bm_Created r1.1, bm_Updated r1.1, bm_DeletedAt r1.1) =
    (bm_CreatedAt b1, bm_Created b1, bm_Updated b1, bm_DeletedAt b1) ∧
  (now2 / 1000000 = now2' / 1000000 → r1.2 = r2.2 ∧ (r1.2 = None → bm_ID r1.1 = bm_ID r2.1))%Z.
Proof.
  unfold BeforeCreate. split_and!; [by destruct (ulid_New _ _)..|].
  intros ->. by destruct (ulid_New _ _).
Qed.
