(* ===== verification/Wiring.v ===== *)
(** * How the drivers are put together

    drivers/watermill (the driver that owns the router and the buses),
    drivers/watermill_fx and drivers/http/fx.go (the same parts as constructors of a
    dependency-injection container), drivers/datamanager_fx, drivers/http/echo.go
    (the server's driver), use_cases/loyalty/registrar.go, and the commands
    cmd/all.go, cmd/seeder.go and cmd/version.go.

    Watermill's router and echo's server are parameters: what their constructor,
    [Run], [Start] and [Close] answer. *)

From S2P Require Import Prelude GoStr GoFloat Hooks Drivers Config Persistence BaseApp.
From S2P Require Import LoyaltyDomain GoJson Cqrs LoyaltyApp Http Process.

Definition nil_pointer : string := "invalid memory address or nil pointer dereference".

(** ** drivers/datamanager_fx *)

Section connections.
Context {W : Type}.

(** [app.Data().Get("sql", alias)] with a type assertion; [msg] is the panic of a
    failed assertion. *)
Definition typed_connection (data : option (DataManager W)) (alias T msg : string) : M W dyn :=
  match data with
  | None => panic nil_pointer
  | Some d =>
      conn ← v1_Get d "sql" alias;
      match type_assert conn T with
      | Some db => mret db
      | None => panic msg
      end
  end.

(** [NewDataManager] only reads a field, so a manager that was never set is nil. *)
Definition fx_NewDataManager (c : appcore W) : option (DataManager W) := a_data c.

Definition ProvideGorm (alias : string) (data : option (DataManager W)) : M W dyn :=
  typed_connection data alias "*gorm.DB"
    (sprintf "datamanagerfx: connection alias %q is not a *gorm.DB" [alias]).

Definition ProvideSQL (alias : string) (data : option (DataManager W)) : M W dyn :=
  typed_connection data alias "*sql.DB"
    (sprintf "datamanagerfx: connection alias %q is not a *sql.DB" [alias]).

End connections.

(** ** The router and the buses *)

Inductive router_life : Type := RouterMade | RouterRunning | RouterClosed.

#[global] Instance router_life_eq_dec : EqDecision router_life.
Proof. solve_decision. Defined.

Section watermill.
Context {W : Type} `{Ambient} `{HasAmbient W} `{LoyaltyPorts W}.
Context (oob : float64 → Z) (gc : Publisher W).

Local Abbreviation buses := (busesState (W := W)).

Definition new_buses : buses := mkBuses newCommandBus newQueryBus (newEventBus gc).

(** *** drivers/watermill/watermill.go *)

Record WatermillDriver : Type := mkWatermill {
  wd_router : option router_life;
  wd_buses : option buses;
}.

Definition NewWatermillDriver : WatermillDriver := mkWatermill None None.

Definition on_app {A} (m : M W A) : M (WatermillDriver * appcore W) A := on_snd (on_world m).

(** The assertion on the connection panics. *)
Definition registerHandlers (b : buses) : M (WatermillDriver * appcore W) buses :=
  data ← gets (λ x, a_data x.2);
  _ ← on_app (typed_connection data "gorm" "*gorm.DB" "interface conversion: interface {} is not *gorm.DB");
  mret (registerLoyalty oob b).

(** [made] is the outcome of message.NewRouter.  The router runs in a goroutine. *)
Definition WatermillDriver_Init (made : goerror) : M (WatermillDriver * appcore W) goerror :=
  match made with
  | Some e => mret (Some e)
  | None =>
      modify (λ x, (mkWatermill (Some RouterMade) (Some new_buses), x.2)) ≫= λ _,
      b ← registerHandlers new_buses;
      modify (λ x, (mkWatermill (Some RouterRunning) (Some b), x.2)) ≫= λ _,
      on_snd (Logger_log "> Watermill event bus started") ≫= λ _,
      mret None
  end.

Definition WatermillDriver_Close (close_err : goerror) : M (WatermillDriver * appcore W) goerror := λ '(d, c),
  match wd_router d with
  | None => (Returns None, (d, c))
  | Some _ => (Returns close_err, (mkWatermill (Some RouterClosed) (wd_buses d), c))
  end.

(** *** drivers/watermill_fx/watermill.go

    A registrar wires handlers into the buses; a hook of the lifecycle names what it
    does when the container starts and stops. *)

Definition HandlerRegistrar : Type := buses → buses.

Inductive fx_hook : Type := RunRouter | StartEcho.

(** [New]: the buses for the container and the hook it appends. *)
Definition fx_New (made : goerror) (registrars : list HandlerRegistrar) (hooks : list fx_hook) :
    (buses + error) * list fx_hook :=
  match made with
  | Some e => (inr e, hooks)
  | None => (inl (fold_left (λ b r, r b) registrars new_buses), hooks ++ [RunRouter])
  end.

(** The registrars that the module provides. *)
Definition fx_registrars : list HandlerRegistrar := [Registrar_Register oob].

(** *** use_cases/loyalty/registrar.go: the optional NATS client

    The driver's instance is asserted to be the NATS infrastructure; the client it
    would serve is built and dropped. *)
Definition wire_order_detail (m : Manager (appcore W)) : M (appcore W) bool := λ c,
  let wired := match Manager_Instance m "NATS_DRIVER" c with
               | None => false
               | Some x => bool_decide (dyn_type x = "*nats_infra.NatsInfrastructureImpl")
               end in
  (Logger_log (if wired then "> Loyalty ACL wired: orders.get.detail via NATS"
               else "Loyalty ACL unavailable: NATS driver not running — GetOrderDetail calls will fail") ≫= λ _,
   mret wired) c.

End watermill.

Arguments WatermillDriver W : clear implicits.
Arguments HandlerRegistrar W : clear implicits.

(** ** drivers/http/echo.go *)

Section echo.
Context {W : Type}.

(** A route is a method, a path and its handler; [InitRoutes] in init.go.  The static
    directory answers every path under its prefix. *)
Definition route : Type := string * string * string.

Definition InitRoutes : list route :=
  let prefix := "/api" in
  [("GET", "/excel", "STATIC"); ("GET", prefix +:+ "/health", "health"); ("GET", prefix +:+ "/workers", "workers")].

(** Asking for the mode panics before a configuration is loaded. *)
Definition NewEcho : M (appcore W) (list route) :=
  dev ← IsDev;
  mret ((if (dev : bool) then [("GET", "/swagger/*", "SWAGGER")] else []) ++ InitRoutes).

(** [NewEchoFX] adds what the provided controllers register under the prefix, and a
    hook. *)
Definition NewEchoFX (Routes : list (string → list route)) (hooks : list fx_hook) :
    M (appcore W) (list route * list fx_hook) :=
  base ← NewEcho;
  mret (base ++ concat ((λ register, register "/api") <$> Routes), hooks ++ [StartEcho]).

(** The controllers of fx.go's module. *)
Definition echo_controllers : list (string → list route) := [LoyaltyController_Register].

Definition BaseApp_Config : M (appcore W) Config :=
  cfg ← gets a_config;
  match cfg with
  | None => panic nil_pointer
  | Some cfg => mret cfg
  end.

(** The goroutine of [Init]: the status the process exits with, if it does.  [Start]
    returns only with an error. *)
Definition echo_goroutine (start : error) : option Z :=
  match start with
  | Sentinel var _ => if bool_decide (var = "http.ErrServerClosed") then None else Some 1%Z
  | _ => Some 1%Z
  end.

(** The line is coloured on a terminal; the escapes are left out. *)
Definition EchoWebAdapter_Init : M (appcore W) goerror :=
  cfg ← BaseApp_Config;
  Logger_log (sprintf "> REST API Server started at: http://localhost:%d" [Itoa (ap_Port (cf_Api cfg))]) ≫= λ _,
  mret None.

Definition EchoWebAdapter_Close (close_err : goerror) : M (appcore W) goerror :=
  Logger_log "echo web adapter closed" ≫= λ _, mret close_err.

(** ** cmd/all.go, cmd/seeder.go and cmd/version.go *)

(** [fx_run] is the run of the container, which returns when it was stopped. *)
Definition all_command (ks : list string) (configPath : string) (otel nats : IDriver (appcore W))
    (fx_run : M (BaseApp W) ()) : M (BaseApp W) ended :=
  _ ← boot_all ks configPath;
  cfg ← on_core BaseApp_Config;
  err ← (if mo_EnableTelemetry (cf_Monitoring cfg) then run_driver otel
         else on_core (Logger_log "Telemetry is disabled") ≫= λ _, mret None);
  match (err : goerror) with
  | Some _ => mret (OsExit 1)
  | None =>
      err ← run_driver nats;
      (match (err : goerror) with
       | Some _ => on_core (Logger_log "Cannot run driver NATS")
       | None => mret tt
       end) ≫= λ _,
      fx_run ≫= λ _, mret (RunE None)
  end.

(** seeders.go: the list of seeders is empty. *)
Record SeederAction : Type := mkSeeder { se_Name : string; se_Initialize : M W goerror }.

Definition InitSeeder (seeders : list SeederAction) : M (appcore W) () :=
  for_each (λ s, err ← on_world (se_Initialize s);
                 Logger_log (match (err : goerror) with
                             | Some e => Error e
                             | None => "Success seeding data"
                             end)) seeders.

Definition seeder_command : M (appcore W) () := InitSeeder [].

(** The deferred exit ends the process with status 0, also after a panic. *)
Definition version_command : M (appcore W) Z := λ c,
  match (cfg ← BaseApp_Config;
         Logger_log (sprintf "Version template %d" [Itoa (ac_Version (cf_App cfg))])) c with
  | (Blocks, c') => (Blocks, c')
  | (_, c') => (Returns 0%Z, c')
  end.

End echo.
Arguments SeederAction W : clear implicits.

(** ** Lemmas *)

Section lemmas.
Context {W : Type} `{Ambient} `{HasAmbient W} `{LoyaltyPorts W}.
Context (oob : float64 → Z) (gc : Publisher W).

(** The buses after the loyalty domain has been wired into fresh ones. *)
Lemma wired_buses :
  let b := registerLoyalty oob (new_buses gc) in
  dom (bus_handlers (b_command b)) = {["loyalty.credit_loyalty"]} ∧
  dom (bus_handlers (b_query b)) = {["loyalty.get_balance"]} ∧
  (λ rh, (rh_name rh, rh_topic rh, rh_sub rh)) <$> router (b_event b) =
    [("event_handler.orders.order.completed.1", OrderCompleted, SubGoChannel)] ∧
  sqlPublisher (b_event b) = None ∧ gcPublisher (b_event b) = gc.
Proof.
  cbv zeta. split_and!.
  - apply dom_singleton_L.
  - apply dom_singleton_L.
  - vm_compute. reflexivity.
  - reflexivity.
  - reflexivity.
Qed.

(** A bus without the SQL backend sends every topic through the go-channel. *)
Lemma select_publisher_memory (b : eventBus W) topic :
  sqlPublisher b = None → select_publisher b topic = gcPublisher b.
Proof. intros Hs. unfold select_publisher. rewrite Hs. by destruct (criticalTopics topic). Qed.

(** The connection the driver asks for. *)
Definition gorm_connection (c : appcore W) : outcome dyn * W :=
  typed_connection (a_data c) "gorm" "*gorm.DB" "interface conversion: interface {} is not *gorm.DB" (a_world c).

Lemma registerHandlers_eq b d (c : appcore W) :
  registerHandlers oob b (d, c) =
    let '(r, w) := gorm_connection c in
    let x := (d, mkCore (a_config c) (a_data c) (a_log c) (a_ctx c) w) in
    match r with
    | Returns _ => (Returns (registerLoyalty oob b), x)
    | Panics e => (Panics e, x)
    | Blocks => (Blocks, x)
    end.
Proof.
  unfold registerHandlers, gorm_connection. rewrite M_bind_eq. unfold gets at 1. cbn [fst snd].
  rewrite M_bind_eq. unfold on_app, on_snd, on_world.
  cbn [fst snd]. by destruct (typed_connection _ _ _ _ (a_world c)) as [[x|e|] w].
Qed.

End lemmas.

(** ** Properties *)

(** C11: Initialising the Watermill driver.  It fails without a router and
    panics, with the router made but never run, when there is no data manager or its
    gorm connection is of another type.  Otherwise the router runs; the buses hold
    exactly the loyalty command and query and one subscription to completed orders,
    and are the buses the FX module builds from its registrars; and every event,
    critical or not, is published and subscribed in memory, because nothing sets the
    SQL backend. *)
Theorem watermill_init_spec {W} `{Ambient} `{HasAmbient W} `{LoyaltyPorts W} (oob : float64 → Z)
    (gc : Publisher W) made (c : appcore W) :
  let '(r, (d, c')) := WatermillDriver_Init oob gc made (NewWatermillDriver, c) in
  match made, (gorm_connection c).1 with
  | Some e, _ => r = Returns (Some e) ∧ d = NewWatermillDriver ∧ c' = c
  | None, Returns _ =>
      ∃ b, r = Returns None ∧ d = mkWatermill (Some RouterRunning) (Some b) ∧
        (fx_New gc None (fx_registrars oob) []).1 = inl b ∧
        dom (bus_handlers (b_command b)) = {["loyalty.credit_loyalty"]} ∧
        dom (bus_handlers (b_query b)) = {["loyalty.get_balance"]} ∧
        (λ rh, (rh_name rh, rh_topic rh, rh_sub rh)) <$> router (b_event b) =
          [("event_handler.orders.order.completed.1", OrderCompleted, SubGoChannel)] ∧
        ∀ topic, select_publisher (b_event b) topic = gc
  | None, Panics e => r = Panics e ∧ wd_router d = Some RouterMade ∧ wd_buses d = Some (new_buses gc)
  | None, Blocks => r = Blocks
  end.
Proof.
  unfold WatermillDriver_Init. destruct made as [e|]; [done|].
  rewrite M_bind_eq. unfold modify at 1. cbn [snd]. rewrite M_bind_eq, registerHandlers_eq.
  destruct (gorm_connection c) as [[x|e|] w]; cbn [fst]; [|done..].
  rewrite M_bind_eq. unfold modify at 1. rewrite M_bind_eq. unfold on_snd, Logger_log, modify. cbn [snd fst].
  destruct (wired_buses oob gc) as (Hc & Hq & Hr & Hs & Hg).
  eexists. split; [reflexivity|]. split; [reflexivity|]. split; [reflexivity|]. split; [exact Hc|].
  split; [exact Hq|]. split; [exact Hr|]. intros topic. by rewrite select_publisher_memory.
Qed.
