(* ===== verification/Datasource.v ===== *)
(** * The application's data sources

    internal/base_app.go ([initDatasource], [Sql]) with the data manager and the SQL
    adapters it puts together (Persistence.v), and what the rest of the program gets
    when it asks for a connection by its alias (Wiring.v).

    The world of the data manager is the maps of the [SqlAdapters] with the state of
    the adapters.  The callback that reports an error only logs, which is not part of
    that world. *)

From S2P Require Import Prelude GoStr Config Persistence BaseApp Wiring.

Section datasource.
Context {S : Type} (adapters : list (SqlAdapter S)).
(** The order in which [Disconnect] ranges over the aliases. *)
Context (order : gmap string (SqlAdapter S) → list string).
Local Abbreviation world := (sqlMaps S * S)%type.

(** A [*SqlAdapters] as a data adapter. *)
Definition sql_data_adapter (cfg : Config) : DataAdapter world :=
  mkDataAdapter (λ _, SqlAdapters_Connect adapters cfg (λ _, mret tt))
    SqlAdapters_Get
    (λ _, m ← gets fst; SqlAdapters_Disconnect (order (sm_alias m)) (λ _, mret tt)).

Definition initDatasource (cfg : Config) : M world (DataManager world) :=
  let a := DataManager_New in
  modify (λ w, (NewSqlAdapters, w.2)) ≫= λ _,
  let a := AddAdapter a "sql" (sql_data_adapter cfg) in
  v1_Connect a "sql" (λ _, mret tt) ≫= λ _,
  mret a.

End datasource.

(** [Sql]: the assertion panics. *)
Definition BaseApp_Sql {W} (connName : string) : M (appcore W) dyn :=
  data ← gets a_data;
  on_world (typed_connection data connName "*sql.DB" "interface conversion: interface {} is not *sql.DB").

(** ** What the aliases stand for *)

(** The databases of a configuration in the order in which they are connected. *)
Definition sources (cfg : Config) : list Database := cf_Database cfg :: cf_ExternalDatabases cfg.

(** The last one with an alias is the one that counts; with its place in the list. *)
Definition last_db (alias : string) (dbs : list Database) : option (nat * Database) :=
  last (filter (λ x, db_Alias x.2 = alias) (imap pair dbs)).

Definition is_gorm (driver : string) : bool :=
  bool_decide (driver ∈ [postgresgormdriver; sqlitegormdriver]).

Definition conn_of (driver : string) (h : nat) : any := if is_gorm driver then gorm_DB h else sql_DB h.

(** The driver and the data source name a database of the configuration is opened
    with: the gorm adapters open the raw connection they wrap. *)
Definition opened_as (db : Database) : string * string :=
  if bool_decide (db_Adapter db ∈ [postgres_driver; postgresgormdriver]) then (postgres_driver, postgres_dsn db)
  else if bool_decide (db_Adapter db = mysql_driver) then (mysql_driver, mysql_dsn db)
  else (sqlite_driver, sqlite_dsn db).

Section lemmas.
Context `{DbEnv}.

(** What connecting a database through an adapter of the program answers: a
    connection on a handle of its own that was opened for this database, or an error. *)
Definition connects (db : Database) (m : M dbstate (any * goerror)) : Prop :=
  ∀ s, ∃ x e s', m s = (Returns (x, e), s') ∧
    match (e : goerror) with
    | None => x = conn_of (db_Adapter db) (ds_next s) ∧
              ds_opened s' = ds_opened s ++ [opened_as db] ∧ ds_closed s' = ds_closed s
    | Some _ => ds_opened s `prefix_of` ds_opened s'
    end.

(** What opening a raw connection answers. *)
Definition opens (driver dsn : string) (m : M dbstate (nat + error)) : Prop :=
  ∀ s, ∃ r s', m s = (Returns r, s') ∧ ds_opened s `prefix_of` ds_opened s' ∧
    match r with
    | inl h => h = ds_next s ∧ ds_opened s' = ds_opened s ++ [(driver, dsn)] ∧ ds_closed s' = ds_closed s
    | inr _ => True
    end.

Lemma postgres_opens c : opens postgres_driver (postgres_dsn c) (postgres_open c).
Proof.
  intros s. unfold postgres_open. destruct (open_err _ _) as [e|]; [by eexists _, _|].
  rewrite M_bind_eq. unfold open_handle.
  destruct (ping_err _ _) as [e|]; eexists _, _; (split; [reflexivity|]); split; try done; by apply prefix_app_r.
Qed.

Lemma sqlite_opens c : opens sqlite_driver (sqlite_dsn c) (sqlite_open c).
Proof.
  intros s. unfold sqlite_open. case_bool_decide; [by eexists _, _|]. destruct (open_err _ _) as [e|]; [by eexists _, _|].
  rewrite M_bind_eq. unfold open_handle. rewrite M_bind_eq. set (s1 := mkDbstate _ _ _ _).
  destruct (sqlite_setup_spec (sqlite_dsn c) (ds_next s) sqlite_steps s1) as (err & ->).
  destruct err; eexists _, _; (split; [reflexivity|]); split; try done; by apply prefix_app_r.
Qed.

Lemma registered_connects a db :
  a ∈ RegisteredSQLAdapters → sq_DriverName a = db_Adapter db → connects db (sq_Connect a db).
Proof.
  unfold RegisteredSQLAdapters. rewrite !elem_of_cons.
  intros [-> | [-> | [-> | [-> | [-> | []%not_elem_of_nil]]]]] Hd s;
    cbn [sq_Connect sq_DriverName] in *; unfold opened_as; rewrite <- Hd.
  - unfold Postgres_Connect. rewrite M_bind_eq.
    destruct (postgres_opens db s) as ([h|e] & s' & -> & Hp & Hr); [|by eexists _, _, _].
    destruct Hr as (-> & Ho & Hc). eexists _, _, _. split; [reflexivity|]. done.
  - unfold MySQL_Connect. destruct (open_err _ _) as [e|]; [eexists _, _, _; split; [reflexivity|cbn; reflexivity]|].
    rewrite M_bind_eq. unfold open_handle. destruct (ping_err _ _) as [e|]; eexists _, _, _;
      (split; [reflexivity|]); [by apply prefix_app_r|done].
  - unfold PostgresGorm_Connect. rewrite M_bind_eq.
    destruct (postgres_opens db s) as ([h|e] & s' & -> & Hp & Hr); [|by eexists _, _, _].
    destruct Hr as (-> & Ho & Hc). rewrite M_bind_eq. unfold set_db, modify.
    destruct (gorm_open_err _) as [e|]; [by eexists _, _, _|]. destruct (gorm_use_err _) as [e|]; [by eexists _, _, _|].
    eexists _, _, _. split; [reflexivity|]. done.
  - unfold SQLite_Connect. rewrite M_bind_eq.
    destruct (sqlite_opens db s) as ([h|e] & s' & -> & Hp & Hr); [|by eexists _, _, _].
    destruct Hr as (-> & Ho & Hc). eexists _, _, _. split; [reflexivity|]. done.
  - unfold SQLiteGorm_Connect. rewrite M_bind_eq.
    destruct (sqlite_opens db s) as ([h|e] & s' & -> & Hp & Hr); [|by eexists _, _, _].
    destruct Hr as (-> & Ho & Hc). rewrite M_bind_eq. unfold set_db, modify.
    destruct (gorm_open_err _) as [e|]; [by eexists _, _, _|]. destruct (gorm_use_err _) as [e|]; [by eexists _, _, _|].
    eexists _, _, _. split; [reflexivity|]. done.
Qed.

(** The reasons for which a database cannot be connected. *)
Definition fails (db : Database) : Prop :=
  match getAdapterByDriver RegisteredSQLAdapters (db_Adapter db) with
  | None => True
  | Some a => ∃ s x e s', sq_Connect a db s = (Returns (x, Some e), s')
  end.

(** A SQLite database without a path and a name passes the validation of the
    configuration, and can never be connected. *)
Lemma sqlite_without_path db :
  db_Adapter db = sqlite_driver ∨ db_Adapter db = sqlitegormdriver →
  db_Path db = "" → db_DatabaseName db = "" → db_Alias db ≠ "" → database_ok db ∧ fails db.
Proof.
  intros Ha Hp Hn Hal. split; [split; [done|]; destruct Ha; auto|].
  assert (∀ s, ∃ e, sqlite_open db s = (Returns (inr e), s)) as Ho.
  { intros s. unfold sqlite_open, sqlite_dsn. rewrite Hp, Hn. by eexists. }
  unfold fails, getAdapterByDriver. destruct (Ho db0) as [e He].
  destruct Ha as [-> | ->]; cbn [first_adapter RegisteredSQLAdapters sq_DriverName];
    rewrite ?bool_decide_false, bool_decide_true by done; cbn [sq_Connect]; exists db0;
    unfold SQLite_Connect, SQLiteGorm_Connect; rewrite M_bind_eq, He; by eexists _, _, _.
Qed.

Lemma first_adapter_Some {S} (l : list (SqlAdapter S)) driver a :
  first_adapter l driver = Some a → a ∈ l ∧ sq_DriverName a = driver.
Proof.
  induction l as [|b l IH]; cbn [first_adapter]; [done|]. case_bool_decide as Hb.
  - intros [= <-]. split; [by left|done].
  - intros Ha. destruct (IH Ha). split; [by right|done].
Qed.

Lemma initConnection_cases db (m : sqlMaps dbstate) s :
  ∃ s' r, initConnection RegisteredSQLAdapters db (λ _, mret tt) (m, s) = (r, (m, s')) ∧
    match r with
    | Returns x => x = conn_of (db_Adapter db) (ds_next s) ∧
                   ds_opened s' = ds_opened s ++ [opened_as db] ∧ ds_closed s' = ds_closed s
    | Panics msg => msg = "" ∧ fails db ∧ ds_opened s `prefix_of` ds_opened s'
    | Blocks => False
    end.
Proof.
  unfold initConnection, fails.
  destruct (getAdapterByDriver RegisteredSQLAdapters (db_Adapter db)) as [a|] eqn:Ea; [|by eexists _, _].
  apply first_adapter_Some in Ea as [Ha Hd]. rewrite M_bind_eq. unfold on_snd at 1. cbn [snd fst].
  destruct (registered_connects a db Ha Hd s) as (x & e & s' & Hrun & Hx). rewrite Hrun.
  destruct e as [e|]; eexists _, _; (split; [reflexivity|]); [|done].
  split; [done|]. split; [by exists s, x, e, s'|done].
Qed.

Lemma connect_one_cases db (m : sqlMaps dbstate) s :
  ∃ s', (∃ m', connect_one RegisteredSQLAdapters (λ _, mret tt) db (m, s) = (Returns tt, (m', s')) ∧
           sm_result m' = <[db_Alias db := conn_of (db_Adapter db) (ds_next s)]> (sm_result m) ∧
           ds_opened s' = ds_opened s ++ [opened_as db] ∧ ds_closed s' = ds_closed s) ∨
        (connect_one RegisteredSQLAdapters (λ _, mret tt) db (m, s) = (Panics "", (m, s')) ∧ fails db ∧
           ds_opened s `prefix_of` ds_opened s').
Proof.
  unfold connect_one. destruct (initConnection_cases db m s) as (s' & r & Hrun & Hr). exists s'.
  rewrite !M_bind_eq, Hrun. destruct r as [x|msg|]; [left|right|done].
  - destruct Hr as (-> & Ho & Hc). eexists _. split; [reflexivity|done].
  - by destruct Hr as (-> & Hf & Ho).
Qed.

(** The maps hold, for every alias, the connection of its last database: the
    databases were opened in order, from handle [n] on. *)
Definition resolves (n : nat) (m : sqlMaps dbstate) (dbs : list Database) : Prop :=
  ∀ alias, sm_result m !! alias =
    (λ x, conn_of (db_Adapter x.2) (n + x.1)) <$> last_db alias dbs.

Lemma resolves_snoc n m m' dbs db :
  resolves n m dbs →
  sm_result m' = <[db_Alias db := conn_of (db_Adapter db) (n + length dbs)]> (sm_result m) →
  resolves n m' (dbs ++ [db]).
Proof.
  intros Hr Hm alias. unfold last_db. rewrite imap_app, filter_app, Hm. cbn [imap].
  rewrite filter_cons, filter_nil. cbn [snd]. case_decide as Ha.
  - rewrite last_snoc, Ha, lookup_insert_eq. cbn. by rewrite Nat.add_0_r.
  - rewrite app_nil_r, lookup_insert_ne by done. apply Hr.
Qed.

Lemma connect_all dbs pre n (m : sqlMaps dbstate) s :
  resolves n m pre → ds_next s = n + length pre →
  ∃ m' s', (for_each (connect_one RegisteredSQLAdapters (λ _, mret tt)) dbs (m, s) = (Returns tt, (m', s')) ∧
              resolves n m' (pre ++ dbs) ∧ ds_opened s' = ds_opened s ++ (opened_as <$> dbs) ∧
              ds_closed s' = ds_closed s) ∨
           (for_each (connect_one RegisteredSQLAdapters (λ _, mret tt)) dbs (m, s) = (Panics "", (m', s')) ∧
              ∃ pre' db post, dbs = pre' ++ db :: post ∧ fails db ∧ resolves n m' (pre ++ pre') ∧
                (ds_opened s ++ (opened_as <$> pre')) `prefix_of` ds_opened s').
Proof.
  revert pre m s. induction dbs as [|db dbs IH]; intros pre m s Hr Hn; cbn [for_each].
  { exists m, s. left. by rewrite !app_nil_r. }
  rewrite M_bind_eq.
  destruct (connect_one_cases db m s) as (s1 & [(m1 & -> & Hm1 & Ho1 & Hc1)|(-> & Hf & Ho1)]).
  - rewrite Hn in Hm1.
    destruct (IH (pre ++ [db]) m1 s1 (resolves_snoc _ _ _ _ _ Hr Hm1))
      as (m' & s' & [(Hrun & Hres & Ho & Hc)|(Hrun & p & d & q & Hd & Hf & Hres & Ho)]).
    { unfold ds_next in *. rewrite Ho1, !length_app. cbn. lia. }
    + exists m', s'. left. rewrite <- app_assoc in Hres. rewrite Ho, Hc, Ho1, Hc1, <- app_assoc. done.
    + exists m', s'. right. split; [done|]. exists (db :: p), d, q. subst dbs.
      rewrite <- app_assoc in Hres. rewrite Ho1, <- app_assoc in Ho. done.
  - exists m, s1. right. split; [done|]. exists [], db, dbs. cbn. by rewrite !app_nil_r.
Qed.

End lemmas.

(** ** Properties *)

(** C12: opening the data sources of a configuration either gives a
    data manager, having opened exactly one handle per database, in the order of the
    configuration and with that database's driver and data source name, and closed
    none: every alias then stands for the handle of the last database with it, as a
    gorm or as an SQL connection after its driver, and every other name for nil.  Or
    it panics at a database that has no adapter or cannot be connected, with the
    handles and the connections of the databases before it in place.  The assertions
    of the drivers and of the FX providers on a connection succeed exactly when the
    driver is of the asked kind. *)
Theorem datasource_spec `{DbEnv} order cfg (w : sqlMaps dbstate * dbstate) :
  let n := length (ds_opened w.2) in
  match initDatasource RegisteredSQLAdapters order cfg w with
  | (Returns d, w') =>
      ds_opened w'.2 = ds_opened w.2 ++ (opened_as <$> sources cfg) ∧ ds_closed w'.2 = ds_closed w.2 ∧
      ∀ alias,
        match last_db alias (sources cfg) with
        | None => v1_Get d "sql" alias w' = (Returns None, w')
        | Some (i, db) =>
            v1_Get d "sql" alias w' = (Returns (conn_of (db_Adapter db) (n + i)), w') ∧
            (ProvideGorm alias (Some d) w').1 =
              (if is_gorm (db_Adapter db) then Returns (mkDyn "*gorm.DB" (Some (n + i)))
               else Panics (sprintf "datamanagerfx: connection alias %q is not a *gorm.DB" [alias])) ∧
            (ProvideSQL alias (Some d) w').1 =
              (if is_gorm (db_Adapter db)
               then Panics (sprintf "datamanagerfx: connection alias %q is not a *sql.DB" [alias])
               else Returns (mkDyn "*sql.DB" (Some (n + i))))
        end
  | (Panics _, w') =>
      ∃ pre db post, sources cfg = pre ++ db :: post ∧ fails db ∧ resolves n w'.1 pre ∧
        (ds_opened w.2 ++ (opened_as <$> pre)) `prefix_of` ds_opened w'.2
  | (Blocks, _) => False
  end.
Proof.
  intros n. unfold initDatasource. rewrite M_bind_eq. unfold modify. cbn [snd]. rewrite M_bind_eq.
  set (d := AddAdapter _ _ _).
  assert (dm_adapter d !! "sql" = Some (sql_data_adapter RegisteredSQLAdapters order cfg)) as Hd.
  { unfold d, AddAdapter. cbn [dm_adapter]. by rewrite lookup_insert_eq. }
  unfold v1_Connect. rewrite Hd. cbn [da_Connect sql_data_adapter].
  change (SqlAdapters_Connect RegisteredSQLAdapters cfg (λ _, mret tt))
    with (for_each (connect_one RegisteredSQLAdapters (λ _, mret tt)) (sources cfg)).
  destruct (connect_all (sources cfg) [] n NewSqlAdapters w.2)
    as (m & s & [(-> & Hres & Ho & Hc)|(-> & p & db & q & Hs & Hf & Hres & Ho)]).
  - by intros alias.
  - unfold n, ds_next. cbn. lia.
  - split; [done|]. split; [done|]. intros alias. specialize (Hres alias). cbn [app] in Hres.
    assert (v1_Get d "sql" alias (m, s) = (Returns (default (None : any) (sm_result m !! alias)), (m, s))) as Hget.
    { unfold v1_Get. rewrite Hd. done. }
    rewrite Hres in Hget. destruct (last_db alias (sources cfg)) as [[i db]|]; [|done].
    cbn [default fmap option_fmap option_map fst snd] in Hget. split; [exact Hget|].
    unfold ProvideGorm, ProvideSQL, typed_connection. rewrite !M_bind_eq, Hget. unfold conn_of.
    by destruct (is_gorm (db_Adapter db)).
  - by exists p, db, q.
Qed.

Lemma datasource_spec_witness :
  ∃ d w', initDatasource RegisteredSQLAdapters (λ _, []) two_postgres (NewSqlAdapters, db0) = (Returns d, w') ∧
    v1_Get d "sql" "default" w' = (Returns (sql_DB 0), w') ∧
    v1_Get d "sql" "reports" w' = (Returns (sql_DB 1), w') ∧
    v1_Get d "sql" "other" w' = (Returns None, w') ∧
    ds_opened w'.2 !! 1 = Some (postgres_driver, postgres_dsn (pg "reports")).
Proof.
  pose proof (datasource_spec (λ _, []) two_postgres (NewSqlAdapters, db0)) as Hs. cbv zeta in Hs.
  destruct (initDatasource RegisteredSQLAdapters (λ _, []) two_postgres (NewSqlAdapters, db0))
    as [[d|e|] w'] eqn:E.
  - destruct Hs as (Ho & _ & Hall). exists d, w'. split; [reflexivity|].
    split; [exact (proj1 (Hall "default"))|]. split; [exact (proj1 (Hall "reports"))|].
    split; [exact (Hall "other")|]. rewrite Ho. reflexivity.
  - exfalso. apply (f_equal (λ x, match x.1 with Returns _ => true | _ => false end)) in E.
    vm_compute in E. discriminate.
  - contradiction.
Defined.
