(* ===== verification/Wire.v ===== *)
(** * Messages as bytes on a connection

    From the master's [WorkerClient.Send] (use_cases/workerclient/worker.go), which
    writes a message as one line of JSON text, to the worker's [ReceiveMessage]
    (use_cases/workercore/worker.go), which scans the bytes of its connection into
    lines and unmarshals each.  The theorems compose the text of encoding/json, the
    scanner, the worker clients and the loop of the worker. *)

From S2P Require Import Prelude GoStr GoFloat GoJson LoyaltyDomain LoyaltyApp Operation WorkerPool WorkerCore.
From S2P Require Import Control JsonText.

(** ** Lemmas on texts *)

Lemma b64_ascii l : Forall (λ b, b < 256) l → Forall (λ c, (code c < 128)%Z) (b64_encode l).
Proof.
  assert (∀ i, (code (b64_char i) < 128)%Z) as Hc.
  { intros i. unfold b64_char. assert (Forall (λ c, (code c < 128)%Z) b64_alphabet) as Ha by decide_by_eval.
    rewrite Forall_forall in Ha. destruct (nth_in_or_default i b64_alphabet (Ascii.ascii_of_nat 61)) as [Hin|Hd]; [|by rewrite Hd].
    apply Ha. by apply list_elem_of_In. }
  remember (length l) as k eqn:Hk. revert l Hk. induction (lt_wf k) as [k _ IH]. intros l -> Hl.
  destruct l as [|a [|b [|c l]]]; cbn [b64_encode]; repeat (constructor; [apply Hc || done|]); try by constructor.
  apply (IH (length l)); [simpl; lia|done|]. by apply Forall_cons_1, proj2, Forall_cons_1, proj2, Forall_cons_1, proj2 in Hl.
Qed.

Lemma printable_line l : printable l → Forall (λ c, c ≠ newline) l.
Proof. intros Hl. eapply Forall_impl; [exact Hl|]. by intros c Hc ->. Qed.

Section wire.
Context (float_text : float64 → bytes) (time_text : Z → bytes) (float_literal : bytes → option float64).

(** ** The bytes that are written *)

(** The argument of [w.l.Write]: the marshalled message and a newline. *)
Definition send_line (j : json) : bytes := Marshal float_text time_text j ++ [newline].

Definition Send_bytes (msg : MessagePayload) : bytes := send_line (encode_message msg).

(** The number of bytes [Write] reports. *)
Definition line_bytes (j : json) : Z := Z.of_nat (length (send_line j)).

(** What went out on a connection. *)
Definition conn_stream (x : wire) : bytes := concat (send_line <$> wr_lines x).

(** ** The bytes that are read *)

(** [done n] is what [ctx.Done()] tells before the n-th line. *)
Fixpoint line_rounds (done : nat → bool) (lines : list string) (n : nat) : list round :=
  if done n then [CtxDone]
  else match lines with
       | [] => []
       | l :: lines' => Line (Unmarshal float_literal (chars l)) :: line_rounds done lines' (S n)
       end.

(** The loop over the bytes of the connection, [n] lines already read. *)
Definition Worker_ReceiveMessage (done : nat → bool) (n : nat) (stream : bytes) (term : goerror) : bool * nat :=
  ReceiveMessage (line_rounds done (Scanner_lines stream term).1 n) n.

(** ** Messages that fit a line *)

Definition message_utf8 (m : MessagePayload) : Prop :=
  Forall (λ s, valid_utf8 0 (chars s) = true)
    [mp_ID m; op_Name (mp_Payload m); op_Description (mp_Payload m); op_Usage (mp_Payload m)].

(** Its values fit the Go types, its strings are UTF-8 and its text fits the scanner. *)
Definition sendable (m : MessagePayload) : Prop :=
  message_ok m ∧ message_utf8 m ∧ (line_bytes (encode_message m) ≤ MaxScanTokenSize)%Z.

(** ** Lemmas *)

Lemma message_plain m : message_ok m → message_utf8 m → plain (encode_message m).
Proof.
  intros (Hp & Ht & Hty & Hb) Hu. unfold message_utf8 in Hu. rewrite !Forall_cons in Hu.
  destruct Hu as (H1 & H2 & H3 & H4 & _). cbn [encode_message encode_command plain foldr fst snd].
  split_and!; try done. destruct (op_Payload (mp_Payload m)) as [l|]; [|done]. cbn [encode_bytes plain] in *.
  rewrite String.list_ascii_of_string_of_list_ascii. by apply ascii_valid, b64_ascii.
Qed.

Local Abbreviation text := (Marshal float_text time_text).
Local Abbreviation receive := Worker_ReceiveMessage.

Lemma last_closed m : last (text (encode_message m)) = Some rbrace.
Proof. unfold encode_message. cbn [Marshal]. rewrite app_comm_cons. apply last_snoc. Qed.

Lemma message_scannable m : sendable m → scannable (str (text (encode_message m))).
Proof.
  intros (Hok & Hu & Hlen). unfold scannable. rewrite chars_str. split_and!.
  - by apply printable_line, printable_text, message_plain.
  - by rewrite last_closed.
  - unfold line_bytes, send_line in Hlen. rewrite length_app in Hlen. cbn [length] in Hlen. lia.
Qed.

(** The lines of the sent messages are the lines the scanner delivers. *)
Lemma scan_sent msgs rest term :
  Forall sendable msgs →
  (Scanner_lines (concat (Send_bytes <$> msgs) ++ rest) term).1 =
    ((λ m, str (text (encode_message m))) <$> msgs) ++ (Scanner_lines rest term).1.
Proof.
  intros Hall. assert (concat (Send_bytes <$> msgs) = print_lines ((λ m, str (text (encode_message m))) <$> msgs)) as ->.
  { unfold print_lines. rewrite <- list_fmap_compose. f_equal. apply list_fmap_ext. intros i m _. simpl.
    by rewrite chars_str. }
  rewrite Scanner_lines_app; [done|]. apply Forall_fmap. eapply Forall_impl; [exact Hall|]. apply message_scannable.
Qed.

Lemma unmarshal_sent m : sendable m → Unmarshal float_literal (chars (str (text (encode_message m)))) = Some (encode_message m).
Proof. intros (Hok & Hu & _). rewrite chars_str. by apply Unmarshal_Marshal, message_plain. Qed.

(** Messages other than SHUTDOWN are read one by one while the context is not done. *)
Lemma receive_prefix done n msgs rest term :
  Forall sendable msgs → Forall (λ m, ¬ is_shutdown m) msgs →
  (∀ i, n ≤ i < n + length msgs → done i = false) →
  receive done n (concat (Send_bytes <$> msgs) ++ rest) term = receive done (n + length msgs) rest term.
Proof.
  intros Hs Hn. unfold Worker_ReceiveMessage. rewrite scan_sent by done.
  revert n Hn. induction Hs as [|m msgs Hm _ IH]; intros n Hn Hd; [by rewrite Nat.add_0_r|].
  apply Forall_cons in Hn as [Hnm Hn]. cbn [fmap list_fmap app line_rounds length] in *.
  rewrite (Hd n) by lia. cbn [ReceiveMessage unmarshal_line]. rewrite unmarshal_sent by done.
  cbn [unmarshal_line]. rewrite decode_message_encode by apply Hm. rewrite bool_decide_false by done.
  rewrite IH by (done || (intros i Hi; apply Hd; lia)). by rewrite Nat.add_succ_r.
Qed.

Lemma receive_shutdown done n m rest term :
  sendable m → is_shutdown m → done n = false → receive done n (Send_bytes m ++ rest) term = (true, S n).
Proof.
  intros Hm Hsh Hd. pose proof (scan_sent [m] rest term) as Hscan. cbn [fmap list_fmap concat] in Hscan.
  rewrite app_nil_r in Hscan. unfold Worker_ReceiveMessage. rewrite Hscan by (by apply Forall_singleton).
  cbn [app line_rounds]. rewrite Hd, unmarshal_sent by done. cbn [ReceiveMessage unmarshal_line].
  rewrite decode_message_encode by apply Hm. by rewrite bool_decide_true.
Qed.

Lemma receive_done done n stream term : done n = true → receive done n stream term = (false, n).
Proof. intros Hd. unfold Worker_ReceiveMessage. destruct (Scanner_lines stream term).1; cbn [line_rounds]; by rewrite Hd. Qed.

(** The worker's scanner gives up on a longer line. *)
Lemma receive_oversized done n m rest term :
  plain (encode_message m) → (MaxScanTokenSize < line_bytes (encode_message m))%Z → done n = false →
  receive done n (Send_bytes m ++ rest) term = (true, n).
Proof.
  intros Hp Hlen Hd. unfold Worker_ReceiveMessage, Send_bytes, send_line, Scanner_lines. rewrite <- app_assoc.
  rewrite scan_from_long; [cbn [fst line_rounds]; by rewrite Hd|by apply printable_line, printable_text|done|].
  unfold line_bytes, send_line in Hlen. rewrite length_app in Hlen. cbn [length] in Hlen. lia.
Qed.

(** The commands the master sends fit. *)
Lemma command_sendable pid t ts :
  is_int pid → is_int t → is_int ts → sendable (mkMsg "123" pid (op_of_type t) ts).
Proof using Type.
  clear float_literal. intros Hp Ht Hts. split_and!; [done|by repeat constructor|].
  unfold line_bytes, send_line, encode_message, encode_command, op_of_type.
  cbn [Marshal fmap list_fmap join fst snd mp_ID mp_FromPID mp_Payload mp_Timestamp op_Name op_Description op_Usage
    op_Type op_Payload encode_bytes].
  pose proof (Itoa_length pid). pose proof (Itoa_length t). pose proof (Itoa_length ts).
  repeat (rewrite length_app || cbn [length]).
  repeat match goal with
         | |- context [length (quoted ?s)] => let v := eval vm_compute in (length (quoted s)) in
             change (length (quoted s)) with v
         | |- context [length (chars "null")] => change (length (chars "null")) with 4
         end.
  unfold MaxScanTokenSize. lia.
Qed.

End wire.

(** The lines of [Send] are the bytes on the connection. *)
Lemma conn_stream_messages ft tt x msgs :
  wr_lines x = encode_message <$> msgs → conn_stream ft tt x = concat (Send_bytes ft tt <$> msgs).
Proof. intros Hx. unfold conn_stream. rewrite Hx, <- list_fmap_compose. done. Qed.

(** ** Witness data *)

Definition no_float : float64 → bytes := λ _, [].
Definition no_time : Z → bytes := λ _, [].
Definition no_literal : bytes → option float64 := λ _, None.
Definition never : nat → bool := λ _, false.

Definition chat_msg : MessagePayload :=
  mkMsg "id-7" 4242 (mkOp (str (chars "say " ++ [dquote; newline; chr 0xc3; chr 0xa9])) "a<b" "" Chat_t (Some [255; 0; 10]))
    1700000000000.

Definition huge_msg : MessagePayload := mkMsg "" 1 (mkOp "chat" "" "" Chat_t (Some (replicate (192 * 256) 0))) 0.

(** ** Properties *)

(** C17: a message with values in range and strings in UTF-8, marshalled to text
    and read back by the worker's [json.Unmarshal], is the same message without an
    error; the text is one line of printable bytes that ends in a brace, so a newline
    inside a string never splits it. *)
Theorem message_text_roundtrip ft tt fl m :
  message_ok m → message_utf8 m →
  let text := Marshal ft tt (encode_message m) in
  unmarshal_line (Unmarshal fl text) = (m, None) ∧
  Send_bytes ft tt m = text ++ [newline] ∧ printable text ∧ last text = Some rbrace.
Proof.
  intros Hok Hu text. unfold text. pose proof (message_plain m Hok Hu) as Hp.
  rewrite Unmarshal_Marshal by done. split_and!.
  - by apply decode_message_encode.
  - done.
  - by apply printable_text.
  - apply last_closed.
Qed.

Lemma message_text_roundtrip_witness :
  unmarshal_line (Unmarshal no_literal (Marshal no_float no_time (encode_message chat_msg))) = (chat_msg, None).
Proof.
  refine (proj1 (message_text_roundtrip no_float no_time no_literal chat_msg _ _)).
  - unfold message_ok. split_and!; decide_by_eval.
  - repeat constructor.
Defined.

(** C19: on the bytes of any messages that were sent, followed by anything, the
    worker reads the messages one by one; it stops by [cancelFunc] right after the
    first SHUTDOWN, without it goes on with what follows, and it stops before the
    first line at which its context is done. *)
Theorem worker_reads_sent_messages ft tt fl done msgs rest term :
  Forall (sendable ft tt) msgs → Forall (λ m, ¬ is_shutdown m) msgs →
  (∀ i, i < length msgs → done i = false) →
  let stream := λ rest, concat (Send_bytes ft tt <$> msgs) ++ rest in
  let receive := λ rest, Worker_ReceiveMessage fl done 0 (stream rest) term in
  receive rest = Worker_ReceiveMessage fl done (length msgs) rest term ∧
  (done (length msgs) = true → receive rest = (false, length msgs)) ∧
  (done (length msgs) = false → receive [] = (true, length msgs)) ∧
  ∀ m, sendable ft tt m → is_shutdown m → done (length msgs) = false →
    receive (Send_bytes ft tt m ++ rest) = (true, S (length msgs)).
Proof.
  intros Hs Hn Hd stream receive.
  assert (∀ r, receive r = Worker_ReceiveMessage fl done (length msgs) r term) as Hr.
  { intros r. unfold receive, stream. rewrite receive_prefix; [done..|]. intros i Hi. apply Hd. lia. }
  split_and!; rewrite ?Hr; try done.
  - apply receive_done.
  - intros Hk. unfold Worker_ReceiveMessage.
    change (Scanner_lines [] term).1 with (@nil string). cbn [line_rounds]. by rewrite Hk.
  - intros m Hm Hsh Hk. rewrite Hr. by apply (receive_shutdown ft tt).
Qed.

Lemma worker_reads_sent_messages_witness :
  Worker_ReceiveMessage no_literal never 0
    (concat (Send_bytes no_float no_time <$> [ping_msg; chat_msg]) ++ Send_bytes no_float no_time stop_msg ++ chars "junk") None =
    (true, 3).
Proof.
  assert (sendable no_float no_time ping_msg ∧ sendable no_float no_time chat_msg ∧ sendable no_float no_time stop_msg)
    as (H1 & H2 & H3).
  { unfold sendable, message_ok, message_utf8. split_and!; try decide_by_eval; repeat constructor. }
  refine (proj2 (proj2 (proj2 (worker_reads_sent_messages no_float no_time no_literal never [ping_msg; chat_msg]
    (chars "junk") None _ _ _))) stop_msg H3 _ _).
  - by repeat constructor.
  - repeat constructor; by intros ?.
  - done.
  - done.
  - done.
Defined.

(** C23: a message whose line has more than 65536 bytes is sent without an
    error but is never read: after the messages before it the worker's scanner fails
    and the worker stops by [cancelFunc], although the master is alive. *)
Theorem oversized_message_stops_worker ft tt fl done msgs m rest term :
  Forall (sendable ft tt) msgs → Forall (λ m, ¬ is_shutdown m) msgs →
  (∀ i, i ≤ length msgs → done i = false) →
  message_ok m → message_utf8 m → (MaxScanTokenSize < line_bytes ft tt (encode_message m))%Z →
  Worker_ReceiveMessage fl done 0 (concat (Send_bytes ft tt <$> msgs) ++ Send_bytes ft tt m ++ rest) term =
    (true, length msgs).
Proof.
  intros Hs Hn Hd Hok Hu Hlen. rewrite receive_prefix; [|done..|].
  - apply receive_oversized; [by apply message_plain|done|]. apply Hd. lia.
  - intros i Hi. apply Hd. lia.
Qed.

Lemma oversized_message_stops_worker_witness :
  Worker_ReceiveMessage no_literal never 0
    (concat (Send_bytes no_float no_time <$> [ping_msg]) ++ Send_bytes no_float no_time huge_msg ++
     Send_bytes no_float no_time ping_msg) None = (true, 1).
Proof.
  apply oversized_message_stops_worker.
  - constructor; [|constructor]. unfold sendable, message_ok, message_utf8. split_and!; try decide_by_eval; repeat constructor.
  - repeat constructor; by intros ?.
  - done.
  - unfold message_ok. split_and!; decide_by_eval.
  - repeat constructor.
  - vm_compute. reflexivity.
Defined.

(** C20: a worker client whose connection carried messages other than
    SHUTDOWN, and whose next write succeeds, stops its worker: the shutdown goroutine
    puts one more line on the connection, and the worker that reads the bytes of the
    connection stops by [cancelFunc] exactly after that line, if its context is not
    done before. *)
Theorem shutdown_stops_worker `{Ambient} ft tt fl net_err p w c msgs s rest term :
  p_heap s !! p = Some w → wc_l w = Some c → net_err c (wr_writes (wire_of s c)) = None →
  wr_lines (wire_of s c) = encode_message <$> msgs →
  Forall (sendable ft tt) msgs → Forall (λ m, ¬ is_shutdown m) msgs → is_int (time_at (amb_tick (p_amb s))) →
  ∃ sg, shutdown_goroutine net_err (line_bytes ft tt) p s = (Returns (), sg) ∧
    (∃ line, conn_stream ft tt (wire_of sg c) = conn_stream ft tt (wire_of s c) ++ line) ∧
    ∀ done, (∀ i, i ≤ length msgs → done i = false) →
      Worker_ReceiveMessage fl done 0 (conn_stream ft tt (wire_of sg c) ++ rest) term = (true, S (length msgs)).
Proof.
  intros Hp Hc Hnet Hl Hs Hn Hclock.
  destruct (shutdown_goroutine_at net_err (line_bytes ft tt) p w c s Hp Hc Hnet) as (sg & Hrun & Hsg).
  set (stop := mkMsg _ _ _ _) in Hsg. rewrite Hl in Hsg.
  assert (conn_stream ft tt (wire_of sg c) = concat (Send_bytes ft tt <$> msgs) ++ Send_bytes ft tt stop) as Hst.
  { rewrite (conn_stream_messages ft tt _ (msgs ++ [stop])) by (by rewrite fmap_app).
    rewrite fmap_app, concat_app. simpl. by rewrite app_nil_r. }
  exists sg. split_and!; [done|..].
  - exists (Send_bytes ft tt stop). by rewrite Hst, (conn_stream_messages ft tt _ _ Hl).
  - intros done Hd. rewrite Hst, <- app_assoc. rewrite receive_prefix; [|done..|].
    + apply (receive_shutdown ft tt); [|done|apply Hd; lia]. apply (command_sendable ft tt (-1) Shutdown_t); [done|done|].
      unfold is_int, min_int, max_int in *.
      split; [apply Z.div_le_lower_bound|apply Z.div_le_upper_bound]; lia.
    + intros i Hi. apply Hd. lia.
Qed.

Lemma shutdown_stops_worker_witness :
  ∃ sg, shutdown_goroutine flaky_net (line_bytes no_float no_time) 10 three_workers = (Returns (), sg) ∧
    Worker_ReceiveMessage no_literal never 0 (conn_stream no_float no_time (wire_of sg 1) ++ []) None = (true, 1).
Proof.
  destruct (shutdown_stops_worker no_float no_time no_literal flaky_net 10 (mkClient Connected 101 (Some 1)) 1 []
    three_workers [] None eq_refl eq_refl eq_refl eq_refl (List.Forall_nil _) (List.Forall_nil _) ltac:(decide_by_eval))
    as (sg & Hrun & _ & Hstop).
  exists sg. split; [exact Hrun|]. apply Hstop. intros; reflexivity.
Defined.
