(* ===== verification/Quickstart.v ===== *)
(** * quickstart/unix-file-descriptor: the demonstration of the hand-over

    A master that listens on a port, hands its descriptor to every worker that
    connects to its unix socket, keeps the pids the workers report, and tells them to
    DIE when it is interrupted; and the worker on the other end.  Goroutines are steps;
    the clean-up loop of the master runs as one step after the signal, which leaves out
    its data race with the goroutines that write the same map. *)

From S2P Require Import Prelude GoStr WorkerCore Control JsonText.

(** ** worker/worker.go *)

Record listened : Type := mkListened {
  lm_report : string;
  lm_commands : list string;
  lm_cancelled : bool;
  lm_exits : bool;
}.

(** What the loop over the scanner does with the lines; DIE does not leave it. *)
Fixpoint listen_loop (lines : list string) (cancelled : bool) : list string * bool :=
  match lines with
  | [] => ([], cancelled)
  | l :: lines' =>
      let command := TrimSpace l in
      let '(commands, c) := listen_loop lines' (if bool_decide (command = "DIE") then true else cancelled) in
      (command :: commands, c)
  end.

(** On the bytes the master writes and how the connection ends. *)
Definition listenMaster (pid : Z) (stream : bytes) (term : goerror) : listened :=
  let '(lines, err) := Scanner_lines stream term in
  let '(commands, cancelled) := listen_loop lines false in
  mkListened (pid_report pid) commands cancelled (match err with Some _ => true | None => false end).

(** [&msgs[0]] and [fds[0]]: the errors before them are dropped. *)
Definition first_fd (r : recv) : option Z :=
  match r with
  | Recv _ (OobMsgs (CRights (fd :: _) :: _)) => Some fd
  | _ => None
  end.

Inductive worker_end : Type :=
| WkNoMaster
| WkPanic
| WkExit
| WkWaits
| WkBye (shutdown_err : goerror).

(** [listener] is whether [net.FileListener] accepts the descriptor (its error is
    dropped and a nil listener panics in [Serve]); [signal] whether the process was
    signalled; [exit_first] whether the listening goroutine gets to its [os.Exit]
    before the main goroutine gets to its own end. *)
Definition worker_main (pid : Z) (dial : goerror) (r : recv) (listener : Z → bool) (signal exit_first : bool)
    (stream : bytes) (term shutdown_err : goerror) : worker_end :=
  match dial with
  | Some _ => WkNoMaster
  | None =>
      let lm := listenMaster pid stream term in
      let own :=
        match first_fd r with
        | None => WkPanic
        | Some fd =>
            if listener fd then if signal || lm_cancelled lm then WkBye shutdown_err else WkWaits else WkPanic
        end in
      if lm_exits lm && (match own with WkWaits => true | _ => exit_first end) then WkExit else own
  end.

(** ** master.go *)

(** A connection of a worker: the lines it sends, how many were read, whether its
    goroutine still reads, whether it is closed here, and what was written to it. *)
Record qconn : Type := mkQconn {
  qc_lines : list string;
  qc_pos : nat;
  qc_reading : bool;
  qc_closed : bool;
  qc_out : list string;
}.

Record quick : Type := mkQuick { q_conns : gmap nat qconn; q_registry : gmap string nat }.

Definition quick_init : quick := mkQuick ∅ ∅.

Definition set_qconn (c : nat) (x : qconn) (s : quick) : quick := mkQuick (<[c := x]> (q_conns s)) (q_registry s).

(** One round of the accept loop with the new connection [c]. *)
Definition q_accept (c : nat) (lines : list string) (write_err : goerror) (s : quick) : quick :=
  match write_err with
  | Some _ => set_qconn c (mkQconn lines 0 false true []) s
  | None => set_qconn c (mkQconn lines 0 true false ["PROCEED"]) s
  end.

(** One round of the goroutine of [c]: a line is read. *)
Definition q_read (c : nat) (x : qconn) (line : string) (s : quick) : quick :=
  let pid := TrimSpace line in
  let s := set_qconn c (mkQconn (qc_lines x) (S (qc_pos x)) true (qc_closed x) (qc_out x)) s in
  if bool_decide (pid = "") then s else mkQuick (q_conns s) (<[pid := c]> (q_registry s)).

(** The goroutine ends and closes the connection; the registry keeps it. *)
Definition q_finish (c : nat) (x : qconn) (s : quick) : quick :=
  set_qconn c (mkQconn (qc_lines x) (qc_pos x) false true (qc_out x)) s.

Inductive quick_step : quick → quick → Prop :=
| QAccept s c lines write_err : q_conns s !! c = None → quick_step s (q_accept c lines write_err s)
| QRead s c x line :
    q_conns s !! c = Some x → qc_reading x = true → qc_lines x !! qc_pos x = Some line →
    quick_step s (q_read c x line s)
| QFinish s c x : q_conns s !! c = Some x → qc_reading x = true → quick_step s (q_finish c x s).

(** The loop after the signal, over the registry in the order [ks]: a write on a
    closed connection fails and its error is dropped. *)
Definition q_die (x : qconn) : qconn :=
  mkQconn (qc_lines x) (qc_pos x) (qc_reading x) true (if qc_closed x then qc_out x else qc_out x ++ ["DIE"]).

Fixpoint q_cleansing (ks : list string) (s : quick) : quick :=
  match ks with
  | [] => s
  | k :: ks' =>
      match q_registry s !! k with
      | None => q_cleansing ks' s
      | Some c => q_cleansing ks' (mkQuick (alter q_die c (q_conns s)) (delete k (q_registry s)))
      end
  end.

(** ** Lemmas *)

Lemma q_die_idem x : q_die (q_die x) = q_die x.
Proof. done. Qed.

(** Only connections that sent a pid are registered; what is written to an open one is
    the hand-over. *)
Definition quick_ok (s : quick) : Prop :=
  (∀ k c, q_registry s !! k = Some c →
     k ≠ "" ∧ ∃ x i line, q_conns s !! c = Some x ∧ i < qc_pos x ∧ qc_lines x !! i = Some line ∧ TrimSpace line = k) ∧
  (∀ c x, q_conns s !! c = Some x → qc_closed x = false → qc_out x = ["PROCEED"]).

(** A connection that keeps its lines and goes on keeps the registry explained. *)
Lemma quick_ok_set c x x' s :
  quick_ok s → q_conns s !! c = Some x → qc_lines x' = qc_lines x → qc_pos x ≤ qc_pos x' →
  (qc_closed x' = false → qc_closed x = false ∧ qc_out x' = qc_out x) → quick_ok (set_qconn c x' s).
Proof.
  intros [Hr Ho] Hx Hl Hp Hc. split.
  - intros k c' Hk. destruct (Hr k c' Hk) as (Hne & y & i & line & Hy & Hi & Hli & Ht). split; [done|].
    cbn. destruct (decide (c' = c)) as [->|Hcc].
    + rewrite Hx in Hy. injection Hy as <-. exists x', i, line. rewrite lookup_insert_eq, Hl. split_and!; (done || lia).
    + exists y, i, line. by rewrite lookup_insert_ne.
  - intros c' y. cbn. rewrite lookup_insert_Some. intros [[<- <-]|[_ Hy]] Hcl; [|by apply (Ho c' y)].
    destruct (Hc Hcl) as [Hcx ->]. by apply (Ho c x).
Qed.

Lemma quick_ok_step s s' : quick_step s s' → quick_ok s → quick_ok s'.
Proof.
  intros Hst Hok. destruct Hst as [s c lines we Hc|s c x line Hx Hrd Hln|s c x Hx Hrd].
  - destruct Hok as [Hr Ho]. assert (∀ x, (qc_closed x = false → qc_out x = ["PROCEED"]) → quick_ok (set_qconn c x s)) as Hnew.
    { intros x Hx. split.
      - intros k c' Hk. destruct (Hr k c' Hk) as (Hne & y & i & line & Hy & Hrest). split; [done|].
        exists y, i, line. split; [|done]. cbn. rewrite lookup_insert_ne; [done|]. intros ->. by rewrite Hc in Hy.
      - intros c' y. cbn. rewrite lookup_insert_Some. intros [[<- <-]|[_ Hy]]; [done|by apply (Ho c' y)]. }
    destruct we; by apply Hnew.
  - set (x' := mkQconn (qc_lines x) (S (qc_pos x)) true (qc_closed x) (qc_out x)).
    assert (quick_ok (set_qconn c x' s)) as Hs by (eapply quick_ok_set; try done; simpl; lia).
    unfold q_read. case_bool_decide as Hpid; [exact Hs|]. destruct Hs as [Hr Ho]. split; [|exact Ho].
    intros k c'. cbn. rewrite lookup_insert_Some. intros [[<- <-]|[_ Hk]]; [|by apply Hr].
    split; [done|]. exists x', (qc_pos x), line. rewrite lookup_insert_eq. split_and!; (done || simpl; lia).
  - unfold q_finish. eapply quick_ok_set; try done; by simpl.
Qed.

Lemma quick_reachable s : rtc quick_step quick_init s → quick_ok s.
Proof.
  assert (quick_ok quick_init) as Hi by (split; [intros k c|intros c x]; cbn; by rewrite lookup_empty).
  intros Hs. induction Hs as [s|s s1 s2 Hst _ IH]; [done|]. by eapply IH, quick_ok_step.
Qed.

(** The loop empties the registry and says DIE on every connection in it. *)
Lemma cleansing_spec ks s :
  (∀ k, k ∉ ks → q_registry s !! k = None) →
  q_registry (q_cleansing ks s) = ∅ ∧
  (∀ c x, q_conns s !! c = Some x → (∃ k, q_registry s !! k = Some c) → q_conns (q_cleansing ks s) !! c = Some (q_die x)) ∧
  (∀ c, (∀ k, q_registry s !! k ≠ Some c) → q_conns (q_cleansing ks s) !! c = q_conns s !! c).
Proof.
  revert s. induction ks as [|k ks IH]; intros s Hks; cbn [q_cleansing].
  { assert (q_registry s = ∅) as He by (apply map_eq; intros k; rewrite lookup_empty; apply Hks; set_solver).
    split_and!; [done| |done]. intros c x _ [k Hk]. by rewrite He, lookup_empty in Hk. }
  destruct (q_registry s !! k) as [c0|] eqn:Ek.
  - set (s1 := mkQuick _ _). destruct (IH s1) as (H1 & H2 & H3).
    { intros k' Hk'. cbn. destruct (decide (k' = k)) as [->|Hne]; [by rewrite lookup_delete_eq|].
      rewrite lookup_delete_ne by done. apply Hks. set_solver. }
    split; [done|]. assert (∀ c k', q_registry s1 !! k' = Some c → q_registry s !! k' = Some c) as Hsub.
    { intros c k'. cbn. rewrite lookup_delete_Some. naive_solver. }
    split.
    + intros c x Hx [k' Hk']. destruct (decide (c = c0)) as [->|Hc].
      * assert (q_conns s1 !! c0 = Some (q_die x)) as Hx1 by (cbn; by rewrite lookup_alter_eq, Hx).
        destruct (decide (c0 ∈ (map_to_list (q_registry s1)).*2)) as [Hin|Hno].
        { apply list_elem_of_fmap in Hin as ([k2 c2] & Heq & Hin). simpl in Heq. subst c2.
          apply elem_of_map_to_list in Hin. rewrite (H2 c0 (q_die x)) by eauto. by rewrite q_die_idem. }
        rewrite H3; [done|]. intros k2 Hk2. apply Hno. apply list_elem_of_fmap. exists (k2, c0). by rewrite elem_of_map_to_list.
      * apply H2; [cbn; by rewrite lookup_alter_ne|]. exists k'. cbn. rewrite lookup_delete_ne; [done|]. intros ->. congruence.
    + intros c Hc. rewrite H3 by (intros k' Hk'; by apply (Hc k'), Hsub).
      cbn. rewrite lookup_alter_ne; [done|]. intros ->. by apply (Hc k).
  - apply IH. intros k' Hk'. destruct (decide (k' = k)) as [->|]; [done|]. apply Hks. set_solver.
Qed.

(** ** Witness data *)

Definition demo_quick : quick :=
  q_read 1 (mkQconn [" 4242"] 0 true false ["PROCEED"]) " 4242" (q_accept 1 [" 4242"] None quick_init).

(** ** Properties *)

(** C39: when the master is interrupted, in every state it reaches and every
    order of its registry, the registry is emptied; every registered worker whose
    connection is open is told DIE once after the hand-over and its connection closed,
    and the worker, which sees a DIE without a newline and then the end of the file,
    cancels its context and takes its leave without an [os.Exit]; a connection of which
    no pid was read is left open and told nothing. *)
Theorem interrupted_master_stops_workers s ks :
  rtc quick_step quick_init s → range_order (q_registry s) ks →
  let s' := q_cleansing ks s in
  q_registry s' = ∅ ∧
  (∀ k c x, q_registry s !! k = Some c → q_conns s !! c = Some x → qc_closed x = false →
     k ≠ "" ∧ ∃ x', q_conns s' !! c = Some x' ∧ qc_closed x' = true ∧ qc_out x' = ["PROCEED"; "DIE"] ∧
     ∀ pid fd fds msgs data listener signal exit_first e,
       listener fd = true →
       worker_main pid None (Recv data (OobMsgs (CRights (fd :: fds) :: msgs))) listener signal exit_first
         (concat (chars <$> drop 1 (qc_out x'))) None e = WkBye e) ∧
  (∀ c, (∀ k, q_registry s !! k ≠ Some c) → q_conns s' !! c = q_conns s !! c).
Proof.
  intros Hs Hks s'. destruct (quick_reachable s Hs) as [Hr Ho].
  destruct (cleansing_spec ks s) as (H1 & H2 & H3).
  { intros k Hk. destruct (q_registry s !! k) as [c|] eqn:E; [|done]. destruct Hk. by eapply range_order_elem. }
  split_and!; [done| |done]. intros k c x Hk Hx Hcl. split; [by apply (Hr k c)|].
  exists (q_die x). split_and!; [by apply H2; eauto|done|..]; unfold q_die; rewrite Hcl, (Ho c x Hx Hcl); [done|].
  intros pid fd fds msgs data listener signal exit_first e Hl. unfold worker_main.
  change (first_fd _) with (Some fd). cbn. rewrite Hl. by rewrite orb_true_r.
Qed.

Lemma interrupted_master_stops_workers_witness :
  q_registry (q_cleansing ["4242"] demo_quick) = ∅ ∧
  ∃ x', q_conns (q_cleansing ["4242"] demo_quick) !! 1 = Some x' ∧ qc_out x' = ["PROCEED"; "DIE"].
Proof.
  assert (rtc quick_step quick_init demo_quick) as Hs.
  { eapply rtc_l; [by apply (QAccept quick_init 1 [" 4242"] None)|]. eapply rtc_once. by apply QRead. }
  destruct (interrupted_master_stops_workers demo_quick ["4242"] Hs ltac:(decide_by_eval)) as (H1 & H2 & _).
  split; [exact H1|].
  destruct (H2 "4242" 1 (mkQconn [" 4242"] 1 true false ["PROCEED"]) eq_refl eq_refl eq_refl) as (_ & x' & Hx & _ & Hout & _).
  exists x'. split; [exact Hx|exact Hout].
Defined.

(** a worker whose master dies without an interrupt (the stream
    ends without an error and without a DIE) is not told: it waits for its own signal,
    whatever lines came before. *)
Theorem orphaned_worker_waits pid fd fds msgs data listener exit_first lines e :
  listener fd = true → Forall scannable lines → "DIE" ∉ TrimSpace <$> lines →
  worker_main pid None (Recv data (OobMsgs (CRights (fd :: fds) :: msgs))) listener false exit_first
    (print_lines lines) None e = WkWaits.
Proof.
  intros Hl Hs Hn. unfold worker_main, listenMaster. cbn [first_fd]. rewrite Hl.
  pose proof (Scanner_lines_app lines [] None Hs) as Hsc. rewrite app_nil_r in Hsc. change (Scanner_lines [] None) with (@nil string, None : goerror) in Hsc.
  cbn [fst snd] in Hsc. rewrite app_nil_r in Hsc. rewrite Hsc.
  assert (listen_loop lines false = (TrimSpace <$> lines, false)) as Hloop.
  { clear -Hn. induction lines as [|l lines IH]; [done|]. cbn [listen_loop fmap list_fmap] in *.
    rewrite bool_decide_false by set_solver. by rewrite IH by set_solver. }
  by rewrite Hloop.
Qed.

Lemma orphaned_worker_waits_witness :
  worker_main 7 None (Recv "PROCEED" (OobMsgs [CRights [3%Z]])) (λ _, true) false true (print_lines ["PING"; ""]) None None = WkWaits.
Proof. apply orphaned_worker_waits; [done|decide_by_eval|decide_by_eval]. Defined.
